(* ===== verification/_CoqProject ===== *)
-Q . S2P
Prelude.v
Can.v
Service.v
Canbus.v
CanbusSpec.v
CanbusRuns.v
CanbusListeners.v
CanbusRegister.v
CanbusDispatch.v
CanbusProbe.v
Cdmp.v
CdmpMessages.v
CdmpEffects.v
CdmpTransactions.v
CdmpNetwork.v
CdmpNetworkSpec.v
CdmpNetworkEvents.v
CdmpNetworkClaims.v
CdmpNetworkTable.v
CdmpState.v
CdmpStateLocal.v
CdmpStateAcks.v
CdmpStateSend.v
CdmpStateCopies.v
CdmpStateSync.v
CdmpHeartbeat.v
CdmpCommand.v
CdmpUnit.v
CdmpUnitRequests.v
CdmpUnitCalls.v
CdmpUnitSpec.v
CdmpUnitTable.v
CdmpUnitRuns.v
SmpCan.v
SmpCanPacer.v
SmpCanTransport.v
SmpCanSend.v
