(* ===== verification/Prelude.v ===== *)
(** * rt_core: a verification development

    rt_core is the firmware of a small networked unit on Zephyr: units share a CAN bus, find each other and
    agree on their IDs (CDMP), exchange state records and commands, carry SMP packets over CAN, sample
    sensors and log them.  This library models the communication of a unit in Gallina - the bus, the CDMP
    services and the SMP transport - and proves what makes it correct.  The paths below are relative to
    [src/src/].

    ** How code becomes definitions

    A class is a [Record] of its fields under their names, a method one [Definition] under its name.  Methods
    that change state live in [M S E A] of this file: a function of the state that gives the new state, the
    effects in order and a result, which is a value, a C++ exception ([Throw]) or undefined behaviour
    ([Oob], a read outside a span).  Integers are [Z] with the wrap written out ([u8], [u16], [u32], [i8]);
    bytes are [list Z].  An [unordered_map] is a [gmap] whose order of iteration is a parameter
    ([UnorderedIter]): every theorem holds for all orders.  A mutex that a method holds is what makes the
    method one step; a run is a list of steps, with the time and the answers of the environment in each, so
    a theorem about all lists covers every interleaving of the methods.  Handlers and callbacks are tokens.
    Zephyr (drivers, clock, queues, random numbers, CRC) and MCUmgr are parameters of the definitions that
    use them, with what the code relies on as named laws, each shown to hold of a concrete instance.

    ** Parts, files and sources

    - [Prelude.v]: integers and bytes, [M] with its equations ([run_M]) and the rules for [preserves],
      [succeeds] and [respects] with their tactics, unordered maps, record update, searches and sorted lists.
    - [Can.v]: [subsys/canbus/can_id.h], [can_filter.h], [can_frame_payload.h].
    - [Service.v]: [subsys/threading/service_base.h], the life cycle of every service.
    - [Canbus.v]: [subsys/canbus/canbus.*], one CAN channel over a driver that is a parameter.  [CanbusSpec.v]
      is the invariant of its filters, [CanbusRuns.v] that every method keeps it, [CanbusListeners.v] runs with
      handlers that call back into the bus and who listens to an identifier, [CanbusRegister.v] the answers of
      a registration, [CanbusDispatch.v] what a received frame calls, [CanbusProbe.v] the detection of the
      bitrate.
    - [Cdmp.v], [CdmpMessages.v], [CdmpEffects.v]: [subsys/cdmp/utilities/], [models/] and what the services
      do to each other.  Each service is a model file and its theorems: [CdmpTransactions.v];
      [CdmpNetwork.v] with [CdmpNetworkSpec.v], [CdmpNetworkEvents.v], [CdmpNetworkClaims.v],
      [CdmpNetworkTable.v]; [CdmpState.v] with [CdmpStateLocal.v], [CdmpStateAcks.v], [CdmpStateSend.v],
      [CdmpStateCopies.v], [CdmpStateSync.v]; [CdmpHeartbeat.v]; [CdmpCommand.v].
    - [CdmpUnit.v]: [subsys/cdmp/services/cdmp_service.*] with the work queue of [subsys/threading/]: the
      services around one device, each effect delivered to the service it concerns.  [CdmpUnitRequests.v] is
      what a command request makes a unit do, [CdmpUnitCalls.v] shows that the calls between the services end,
      [CdmpUnitSpec.v] and [CdmpUnitTable.v] what every call keeps, [CdmpUnitRuns.v] what holds of every run
      of a unit.
    - [SmpCan.v], [SmpCanPacer.v], [SmpCanTransport.v], [SmpCanSend.v]: [subsys/smp/can/], framing and
      reassembly, the token bucket, the transport, and a request from one unit to another.

    The parts interact by calls: a frame reaches the services of a unit through the dispatch of its bus, a
    service tells the others by effects ([NotifyDeviceEvent], [HeartbeatReceived], [CallStatusHandler], queued
    work), and what one service promises another is a class with laws ([LawfulNetworkInfo] is what the state
    service is told of the network, and [CdmpUnitSpec.table_info_lawful] that the network service keeps it;
    [LawfulCanDriver] is what a bus is told of its controller).  A handler an application registers is a
    token: its call leaves the model, and what it does to the bus is a parameter of a bus run.

    ** What the theorems show

    - Values on the wire: messages and packets decode to what was encoded, but for the one field the ID claim
      response does not carry; filters accept what they should and overlap exactly when some identifier passes
      both.
    - Invariants of every run: the device table, its derived values and its events, starts and stops included;
      the records, their versions, digest and acknowledgement sets; the callbacks of the transactions; the
      filters of a bus; a whole unit.
    - Agreement: who answers a claim and when, which answer counts, how far heartbeats may be lost, what a
      replay restores.  The array of copies and the record API refine maps, and the handlers of a type are told
      exactly of changes.
    - Progress: discovery, the ID claim, calls between services and a run of the SMP sender end; so do the
      retransmissions, with every record sent exactly as often as it was due; a command and a packet sent over
      the bus arrive, each where it belongs.
    - Errors: full tables, refused registrations with their reasons, rebound transports, requests that share an
      answer.  Where the code departs from its comments the theorem states what the code does.

    ** Bounds and fuel

    Loops whose recursion is not structural carry fuel, and a theorem says it is enough: the search for a
    transaction ID 255 steps ([ID_FUEL], the IDs there are), the search for a device ID 256, the loop over
    expired transactions one step per transaction and one more, the receive loop of the state service 17 (its
    queue and one more), the frames of a packet its length, the sender of SMP the work it owes and one more,
    the passes of the transmit task the sends that are due and two more, the delivery of effects between
    services depth 4 ([CdmpUnitCalls.delivery_ends]).

    ** Not modelled

    Logging; destructors; getters that only copy a field; real concurrency below the lock (a method is one
    step); the drivers, flash, file system and BLE stack; CBOR and JSON codecs, which are generated or call
    third-party encoders; the Lua and expression engines; the controllers, which wire services together.
    Counters that only feed diagnostics are left out where nothing reads them.  The event bus, SMP over BLE,
    DFU, the assets, the sensor, CAN, COM and logging domains and the configuration are other parts of the
    program and come after these: the manifest lists each of them. *)

From Stdlib Require Export ZArith Lia.
From stdpp Require Export sorting.
From stdpp Require Export base numbers option list_basics list_relations list_monad list gmap strings.

Open Scope Z_scope.

(** ** Machine integers

    A [w]-bit unsigned integer of the source is a [Z]; conversions wrap explicitly. *)

Definition u8 (z : Z) : Z := z mod 256.
Definition u16 (z : Z) : Z := z mod 65536.
Definition u32 (z : Z) : Z := z mod 4294967296.

(** [static_cast<int8_t>] of an 8-bit value (two's complement). *)
Definition i8 (z : Z) : Z := if bool_decide (u8 z < 128) then u8 z else u8 z - 256.

Definition is_u8 (z : Z) : Prop := 0 <= z < 256.
Definition is_u16 (z : Z) : Prop := 0 <= z < 65536.
Definition is_u32 (z : Z) : Prop := 0 <= z < 4294967296.

#[export] Instance is_u8_dec z : Decision (is_u8 z).
Proof. unfold is_u8. apply _. Defined.
#[export] Instance is_u16_dec z : Decision (is_u16 z).
Proof. unfold is_u16. apply _. Defined.
#[export] Instance is_u32_dec z : Decision (is_u32 z).
Proof. unfold is_u32. apply _. Defined.

Lemma u8_range z : is_u8 (u8 z).
Proof. unfold is_u8, u8. pose proof (Z.mod_pos_bound z 256). lia. Qed.
Lemma u16_range z : is_u16 (u16 z).
Proof. unfold is_u16, u16. pose proof (Z.mod_pos_bound z 65536). lia. Qed.
Lemma u32_range z : is_u32 (u32 z).
Proof. unfold is_u32, u32. pose proof (Z.mod_pos_bound z 4294967296). lia. Qed.

Lemma u8_id z : is_u8 z -> u8 z = z.
Proof. apply Z.mod_small. Qed.
Lemma u16_id z : is_u16 z -> u16 z = z.
Proof. apply Z.mod_small. Qed.
Lemma u32_id z : is_u32 z -> u32 z = z.
Proof. apply Z.mod_small. Qed.

Create HintDb words.
#[export] Hint Resolve u8_range u16_range u32_range : words.

(** *** Little-endian composition

    The messages assemble words with [<<] and [|] and split them with [>>] and a
    narrowing cast.  Both become arithmetic. *)

Lemma lor_shiftl_low a b k :
  0 <= k -> 0 <= a < 2 ^ k -> Z.lor (Z.shiftl b k) a = b * 2 ^ k + a.
Proof.
  intros Hk Ha. rewrite <- Z.shiftl_mul_pow2 by lia.
  symmetry. apply Z.add_nocarry_lor.
  apply Z.bits_inj'. intros n Hn. rewrite Z.land_spec, Z.bits_0.
  destruct (decide (n < k)) as [Hlt|Hge].
  - rewrite Z.shiftl_spec_low by lia. reflexivity.
  - rewrite andb_comm. replace (Z.testbit a n) with false; [reflexivity|].
    symmetry. destruct (decide (a = 0)) as [->|]; [apply Z.bits_0|].
    apply Z.bits_above_log2; [lia|].
    assert (Z.log2 a < k) by (apply Z.log2_lt_pow2; lia). lia.
Qed.

(** [(b1 << 8) | b0] on bytes. *)
Definition le16 (b0 b1 : Z) : Z := Z.lor (Z.shiftl b1 8) b0.

(** [(b3 << 24) | (b2 << 16) | (b1 << 8) | b0] on bytes, as the message structs write it. *)
Definition le32 (b0 b1 b2 b3 : Z) : Z :=
  Z.lor (Z.lor (Z.lor (Z.shiftl b3 24) (Z.shiftl b2 16)) (Z.shiftl b1 8)) b0.

(** [static_cast<uint8_t>(w >> k)]. *)
Definition byte_at (w k : Z) : Z := u8 (Z.shiftr w k).

Lemma le16_arith b0 b1 : is_u8 b0 -> le16 b0 b1 = b1 * 256 + b0.
Proof. unfold is_u8, le16. intros H. rewrite lor_shiftl_low; lia. Qed.

Lemma le32_arith b0 b1 b2 b3 :
  is_u8 b0 -> is_u8 b1 -> is_u8 b2 ->
  le32 b0 b1 b2 b3 = b3 * 16777216 + b2 * 65536 + b1 * 256 + b0.
Proof.
  unfold is_u8, le32. intros H0 H1 H2.
  rewrite <- !Z.lor_assoc.
  rewrite (lor_shiftl_low b0 b1 8) by lia.
  rewrite (lor_shiftl_low _ b2 16) by lia.
  rewrite (lor_shiftl_low _ b3 24) by lia. lia.
Qed.

Lemma byte_at_arith w k : 0 <= k -> byte_at w k = (w / 2 ^ k) mod 256.
Proof. intros. unfold byte_at, u8. by rewrite Z.shiftr_div_pow2. Qed.

Lemma byte_at_range w k : is_u8 (byte_at w k).
Proof. apply u8_range. Qed.
#[export] Hint Resolve byte_at_range : words.

(** Splits a word at byte positions and closes the division and modulo goal. *)
Ltac solve_bytes :=
  rewrite ?byte_at_arith by lia; unfold is_u8, is_u16, is_u32 in *;
  change (2 ^ 0) with 1 in *; change (2 ^ 8) with 256 in *;
  change (2 ^ 16) with 65536 in *; change (2 ^ 24) with 16777216 in *;
  Z.div_mod_to_equations; lia.

Lemma le32_split w :
  is_u32 w -> le32 (byte_at w 0) (byte_at w 8) (byte_at w 16) (byte_at w 24) = w.
Proof. intros Hw. rewrite le32_arith by eauto with words. solve_bytes. Qed.

Lemma le16_split w : is_u16 w -> le16 (byte_at w 0) (byte_at w 8) = w.
Proof. intros Hw. rewrite le16_arith by eauto with words. solve_bytes. Qed.

Lemma le32_range b0 b1 b2 b3 :
  is_u8 b0 -> is_u8 b1 -> is_u8 b2 -> is_u8 b3 -> is_u32 (le32 b0 b1 b2 b3).
Proof. intros. rewrite le32_arith by done. unfold is_u8, is_u32 in *. lia. Qed.

Lemma le16_range b0 b1 : is_u8 b0 -> is_u8 b1 -> is_u16 (le16 b0 b1).
Proof. intros. rewrite le16_arith by done. unfold is_u8, is_u16 in *. lia. Qed.

Lemma byte_at_le32 b0 b1 b2 b3 :
  is_u8 b0 -> is_u8 b1 -> is_u8 b2 -> is_u8 b3 ->
  byte_at (le32 b0 b1 b2 b3) 0 = b0 /\ byte_at (le32 b0 b1 b2 b3) 8 = b1 /\
  byte_at (le32 b0 b1 b2 b3) 16 = b2 /\ byte_at (le32 b0 b1 b2 b3) 24 = b3.
Proof. intros. rewrite le32_arith by done. repeat split; solve_bytes. Qed.

Lemma byte_at_le16 b0 b1 :
  is_u8 b0 -> is_u8 b1 -> byte_at (le16 b0 b1) 0 = b0 /\ byte_at (le16 b0 b1) 8 = b1.
Proof. intros. rewrite le16_arith by done. split; solve_bytes. Qed.

#[export] Hint Resolve le32_range le16_range : words.

(** ** Results of code that may throw

    [Throw] is a C++ exception; [Oob] is a read outside a span, which C++ leaves undefined.
    No handler of the source catches [Oob]: a caller that reaches it has no defined behaviour. *)

Inductive exn :=
| InvalidArgument (what : string)
| RuntimeError (what : string).

#[export] Instance exn_eq_dec : EqDecision exn.
Proof. solve_decision. Defined.

Inductive res (A : Type) :=
| Ok (a : A)
| Throw (e : exn)
| Oob.
Arguments Ok {_} _.
Arguments Throw {_} _.
Arguments Oob {_}.

#[export] Instance res_ret : MRet res := fun A a => Ok a.
#[export] Instance res_bind : MBind res := fun A B f m =>
  match m with Ok a => f a | Throw e => Throw e | Oob => Oob end.

(** [span[i]]: undefined outside the span. *)
Definition rd (l : list Z) (i : nat) : res Z :=
  match l !! i with Some b => Ok b | None => Oob end.

Lemma rd_ok l i : (i < length l)%nat -> exists b, rd l i = Ok b /\ l !! i = Some b.
Proof.
  intros H. destruct (lookup_lt_is_Some_2 l i H) as [b Hb].
  exists b. unfold rd. by rewrite Hb.
Qed.

(** ** Stateful code

    A method of a service is a function on the service's state which also records, in order, the
    effects it has on the rest of the program (frames sent, tasks scheduled, handlers called).  A
    C++ exception keeps the state changes made before it. *)

Definition M (S E A : Type) : Type := S -> S * list E * res A.

#[export] Instance M_ret {S E} : MRet (M S E) := fun A a s => (s, [], Ok a).
#[export] Instance M_bind {S E} : MBind (M S E) := fun A B f m s =>
  match m s with
  | (s1, e1, Ok a) => match f a s1 with (s2, e2, r) => (s2, e1 ++ e2, r) end
  | (s1, e1, Throw x) => (s1, e1, Throw x)
  | (s1, e1, Oob) => (s1, e1, Oob)
  end.

Section monad.
Context {S E : Type}.
Implicit Types (s : S) (e : list E).

Definition get : M S E S := fun s => (s, [], Ok s).
Definition gets {A} (f : S -> A) : M S E A := fun s => (s, [], Ok (f s)).
Definition modify (f : S -> S) : M S E unit := fun s => (f s, [], Ok tt).
Definition emit (x : E) : M S E unit := fun s => (s, [x], Ok tt).
Definition emits (l : list E) : M S E unit := fun s => (s, l, Ok tt).
Definition throw {A} (x : exn) : M S E A := fun s => (s, [], Throw x).
Definition lift {A} (r : res A) : M S E A := fun s => (s, [], r).
Definition when (b : bool) (m : M S E unit) : M S E unit := if b then m else mret tt.

(** [try { m } catch(const std::exception& e) { LOG_ERR(...); }] *)
Definition try_log (m : M S E unit) : M S E unit := fun s =>
  match m s with (s1, e1, Throw _) => (s1, e1, Ok tt) | out => out end.

(** [for(x : l) f(x);] *)
Fixpoint for_each {A} (l : list A) (f : A -> M S E unit) : M S E unit :=
  match l with [] => mret tt | x :: l => f x ;; for_each l f end.
End monad.

Definition state_of {S E A} (o : S * list E * res A) : S := o.1.1.
Definition effects_of {S E A} (o : S * list E * res A) : list E := o.1.2.
Definition result_of {S E A} (o : S * list E * res A) : res A := o.2.

(** *** Running monadic code

    The equations below run a method symbolically, one statement at a time; [run_M] applies them. *)

Definition prepend {S E A} (e : list E) (o : S * list E * res A) : S * list E * res A :=
  (o.1.1, e ++ o.1.2, o.2).

Section run.
Context {S E : Type}.
Implicit Types (s : S).

Lemma prepend_nil {A} (o : S * list E * res A) : prepend [] o = o.
Proof. by destruct o as [[]]. Qed.
Lemma prepend_prepend {A} e1 e2 (o : S * list E * res A) :
  prepend e1 (prepend e2 o) = prepend (e1 ++ e2) o.
Proof. unfold prepend. simpl. by rewrite app_assoc. Qed.
Lemma state_of_prepend {A} e (o : S * list E * res A) : state_of (prepend e o) = state_of o.
Proof. done. Qed.
Lemma effects_of_prepend {A} e (o : S * list E * res A) : effects_of (prepend e o) = e ++ effects_of o.
Proof. done. Qed.
Lemma result_of_prepend {A} e (o : S * list E * res A) : result_of (prepend e o) = result_of o.
Proof. done. Qed.

Lemma bind_ok {A B} (m : M S E A) (f : A -> M S E B) s s1 e1 a :
  m s = (s1, e1, Ok a) -> (m ≫= f) s = prepend e1 (f a s1).
Proof. unfold mbind, M_bind. intros ->. by destruct (f a s1) as [[]]. Qed.
Lemma bind_throw {A B} (m : M S E A) (f : A -> M S E B) s s1 e1 x :
  m s = (s1, e1, Throw x) -> (m ≫= f) s = (s1, e1, Throw x).
Proof. unfold mbind, M_bind. by intros ->. Qed.
Lemma bind_oob {A B} (m : M S E A) (f : A -> M S E B) s s1 e1 :
  m s = (s1, e1, Oob) -> (m ≫= f) s = (s1, e1, Oob).
Proof. unfold mbind, M_bind. by intros ->. Qed.

Lemma bind_ret {A B} (a : A) (f : A -> M S E B) s : (mret a ≫= f) s = f a s.
Proof. erewrite bind_ok by done. apply prepend_nil. Qed.
Lemma bind_get {B} (f : S -> M S E B) s : (get ≫= f) s = f s s.
Proof. erewrite bind_ok by done. apply prepend_nil. Qed.
Lemma bind_gets {A B} (g : S -> A) (f : A -> M S E B) s : (gets g ≫= f) s = f (g s) s.
Proof. erewrite bind_ok by done. apply prepend_nil. Qed.
Lemma bind_modify {B} (g : S -> S) (f : unit -> M S E B) s : (modify g ≫= f) s = f tt (g s).
Proof. erewrite bind_ok by done. apply prepend_nil. Qed.
Lemma bind_emit {B} (x : E) (f : unit -> M S E B) s : (emit x ≫= f) s = prepend [x] (f tt s).
Proof. by erewrite bind_ok by done. Qed.
Lemma bind_emits {B} (l : list E) (f : unit -> M S E B) s : (emits l ≫= f) s = prepend l (f tt s).
Proof. by erewrite bind_ok by done. Qed.
Lemma bind_when_modify {B} b (g : S -> S) (f : unit -> M S E B) s :
  (when b (modify g) ≫= f) s = f tt (if b then g s else s).
Proof. destruct b; simpl; [apply bind_modify|apply bind_ret]. Qed.
Lemma state_of_when_emit b (x : E) s : state_of (when b (emit x) s) = s.
Proof. by destruct b. Qed.
Lemma bind_lift_ok {A B} (a : A) (f : A -> M S E B) s : (lift (Ok a) ≫= f) s = f a s.
Proof. erewrite bind_ok by done. apply prepend_nil. Qed.
Lemma bind_lift_throw {A B} x (f : A -> M S E B) s : (lift (Throw x) ≫= f) s = (s, [], Throw x).
Proof. by erewrite bind_throw by done. Qed.
Lemma bind_assoc {A B C} (m : M S E A) (f : A -> M S E B) (g : B -> M S E C) s :
  ((m ≫= f) ≫= g) s = (m ≫= fun a => f a ≫= g) s.
Proof.
  unfold mbind, M_bind. destruct (m s) as [[s1 e1] [a|x|]]; [|done|done].
  destruct (f a s1) as [[s2 e2] [b|x|]]; [|done|done].
  destruct (g b s2) as [[s3 e3] r]. by rewrite app_assoc.
Qed.

Lemma bind_ret_tt (m : M S E unit) s : (m ;; mret tt) s = m s.
Proof.
  unfold mbind, M_bind. destruct (m s) as [[s1 e1] [[]|x|]]; [|done|done]. simpl. by rewrite app_nil_r.
Qed.
(** Two continuations that agree everywhere. *)
Lemma bind_ext {A B} (m : M S E A) (f g : A -> M S E B) s :
  (forall a s', f a s' = g a s') -> (m ≫= f) s = (m ≫= g) s.
Proof. intros Hfg. unfold mbind, M_bind. destruct (m s) as [[s1 e1] [a|x|]]; [|done|done]. by rewrite Hfg. Qed.

Lemma try_prepend (m : M S E unit) s s1 e o :
  m s = prepend e o -> try_log m s = prepend e (try_log (fun _ => o) s1).
Proof. unfold try_log. intros ->. by destruct o as [[? ?] []]. Qed.
Lemma try_ok (m : M S E unit) s s1 e : m s = (s1, e, Ok tt) -> try_log m s = (s1, e, Ok tt).
Proof. unfold try_log. by intros ->. Qed.
Lemma try_throw (m : M S E unit) s s1 e x : m s = (s1, e, Throw x) -> try_log m s = (s1, e, Ok tt).
Proof. unfold try_log. by intros ->. Qed.
End run.

Create Rewrite HintDb run_M.
#[export] Hint Rewrite @prepend_nil @prepend_prepend @state_of_prepend @state_of_when_emit @effects_of_prepend
  @result_of_prepend @bind_ret @bind_get @bind_gets @bind_modify @bind_when_modify @bind_emit @bind_emits
  @bind_lift_ok @bind_lift_throw @bind_assoc : run_M.
Ltac run_M := autorewrite with run_M; simpl.

(** *** Specifications of monadic code

    [m] preserves an assertion that relates the state to the effects emitted so far.  The rules
    below follow the structure of the code, and the [preserves] database applies them. *)

Definition preserves {S E A} (I : S -> Prop) (m : M S E A) : Prop :=
  forall s, I s -> I (state_of (m s)).

Section preserves.
Context {S E : Type} (I : S -> Prop).

Lemma preserves_ret {A} (a : A) : preserves (E:=E) I (mret a).
Proof. by intros s. Qed.
Lemma preserves_bind {A B} (m : M S E A) (f : A -> M S E B) :
  preserves I m -> (forall a, preserves I (f a)) -> preserves I (m ≫= f).
Proof.
  intros Hm Hf s Hs. specialize (Hm s Hs). unfold mbind, M_bind, state_of in *.
  destruct (m s) as [[s1 e1] [a|x|]]; simpl in *; try done.
  specialize (Hf a s1 Hm). by destruct (f a s1) as [[s2 e2] r].
Qed.
(** The rule for a read: the continuation may use what was read. *)
Lemma preserves_gets {A B} (g : S -> A) (f : A -> M S E B) :
  (forall s, I s -> I (state_of (f (g s) s))) -> preserves I (gets g ≫= f).
Proof.
  intros H s Hs. specialize (H s Hs). unfold mbind, M_bind, gets, state_of in *. simpl.
  by destruct (f (g s) s) as [[s2 e2] r].
Qed.
Lemma preserves_get {A} (g : S -> A) : preserves (E:=E) I (gets g).
Proof. by intros s. Qed.
Lemma preserves_modify (f : S -> S) :
  (forall s, I s -> I (f s)) -> preserves (E:=E) I (modify f).
Proof. intros H s Hs. by apply H. Qed.
Lemma preserves_emit (x : E) : preserves I (emit x).
Proof. by intros s. Qed.
Lemma preserves_emits (l : list E) : preserves I (emits l).
Proof. by intros s. Qed.
Lemma preserves_throw {A} x : preserves (A:=A) (E:=E) I (throw x).
Proof. by intros s. Qed.
Lemma preserves_lift {A} (r : res A) : preserves (E:=E) I (lift r).
Proof. by intros s. Qed.
Lemma preserves_when b (m : M S E unit) : (b = true -> preserves I m) -> preserves I (when b m).
Proof. destruct b; simpl; [auto|intros; apply preserves_ret]. Qed.
Lemma preserves_try (m : M S E unit) : preserves I m -> preserves I (try_log m).
Proof.
  intros Hm s Hs. specialize (Hm s Hs). unfold try_log, state_of in *.
  by destruct (m s) as [[s1 e1] [a|x|]].
Qed.
Lemma preserves_for_each {A} (l : list A) (f : A -> M S E unit) :
  (forall x, x ∈ l -> preserves I (f x)) -> preserves I (for_each l f).
Proof.
  induction l as [|x l IH]; simpl; intros H; [apply preserves_ret|].
  apply preserves_bind; [apply H; left|intros _; apply IH; intros; apply H; by right].
Qed.
End preserves.

(** *** Code that neither throws nor reads out of bounds *)

Definition succeeds {S E A} (m : M S E A) : Prop := forall s, exists a, result_of (m s) = Ok a.

Section succeeds.
Context {S E : Type}.

Lemma succeeds_ret {A} (a : A) : succeeds (S:=S) (E:=E) (mret a).
Proof. intros s. by exists a. Qed.
Lemma succeeds_bind {A B} (m : M S E A) (f : A -> M S E B) :
  succeeds m -> (forall a, succeeds (f a)) -> succeeds (m ≫= f).
Proof.
  intros Hm Hf s. destruct (Hm s) as [a Ea]. unfold mbind, M_bind, result_of in *.
  destruct (m s) as [[s1 e1] r]. simpl in Ea. subst r. destruct (Hf a s1) as [b Eb]. exists b.
  unfold result_of in Eb. by destruct (f a s1) as [[s2 e2] r].
Qed.
Lemma succeeds_get : succeeds (S:=S) (E:=E) get.
Proof. intros s. by exists s. Qed.
Lemma succeeds_modify (f : S -> S) : succeeds (E:=E) (modify f).
Proof. intros s. by exists tt. Qed.
Lemma succeeds_emits (l : list E) : succeeds (S:=S) (emits l).
Proof. intros s. by exists tt. Qed.
Lemma succeeds_emit (x : E) : succeeds (S:=S) (emit x).
Proof. intros s. by exists tt. Qed.
Lemma succeeds_when b (m : M S E unit) : succeeds m -> succeeds (when b m).
Proof. destruct b; simpl; [auto|intros; apply succeeds_ret]. Qed.

(** What holds after the first part, when it cannot end early. *)
Lemma bind_after {A B} (P Q : S -> Prop) (m : M S E A) (f : A -> M S E B) s :
  succeeds m -> P (state_of (m s)) -> (forall a s', P s' -> Q (state_of (f a s'))) -> Q (state_of ((m ≫= f) s)).
Proof.
  intros Hm HP Hf. destruct (Hm s) as [a Ea]. unfold mbind, M_bind, state_of, result_of in *.
  destruct (m s) as [[s1 e1] r]. simpl in *. subst r. specialize (Hf a s1 HP).
  by destruct (f a s1) as [[s2 e2] r].
Qed.
(** The same when it can, with one assertion throughout. *)
Lemma bind_from {A B} (P : S -> Prop) (m : M S E A) (f : A -> M S E B) s :
  P (state_of (m s)) -> (forall a, preserves P (f a)) -> P (state_of ((m ≫= f) s)).
Proof.
  intros HP Hf. unfold mbind, M_bind, state_of in *. destruct (m s) as [[s1 e1] [a|x|]]; simpl in *; [|done..].
  specialize (Hf a s1 HP). unfold state_of in Hf. by destruct (f a s1) as [[s2 e2] r].
Qed.
Lemma for_each_after {A} (P : list A -> S -> Prop) (l : list A) (f : A -> M S E unit) done s :
  (forall x, x ∈ l -> succeeds (f x)) ->
  (forall done x s, x ∈ l -> P done s -> P (x :: done) (state_of (f x s))) ->
  P done s -> P (rev_append l done) (state_of (for_each l f s)).
Proof.
  revert done s. induction l as [|x l IH]; intros done s Hs Hf HP; [exact HP|]. cbn [for_each rev_append].
  apply (bind_after (P (x :: done))).
  - apply Hs. by left.
  - apply Hf; [by left|done].
  - intros _ s' HP'. apply IH; [intros y Hy; apply Hs; by right|intros d y s2 Hy; apply Hf; by right|done].
Qed.
Lemma succeeds_for_each {A} (l : list A) (f : A -> M S E unit) : (forall x, x ∈ l -> succeeds (f x)) -> succeeds (for_each l f).
Proof.
  induction l as [|x l IH]; intros Hf; [apply succeeds_ret|]. cbn [for_each].
  apply succeeds_bind; [apply Hf; by left|intros _; apply IH; intros y Hy; apply Hf; by right].
Qed.
End succeeds.

Ltac succeed_step :=
  lazymatch goal with
  | |- succeeds (mret _) => apply succeeds_ret
  | |- succeeds get => apply succeeds_get
  | |- succeeds (emit _) => apply succeeds_emit
  | |- succeeds (emits _) => apply succeeds_emits
  | |- succeeds (modify _) => apply succeeds_modify
  | |- succeeds (when _ _) => apply succeeds_when
  | |- succeeds (for_each _ _) => apply succeeds_for_each; intros
  | |- succeeds (mbind _ _) => apply succeeds_bind; [|intros ?]
  | |- succeeds (match _ with _ => _ end) => case_match
  end.
Ltac succeed := repeat succeed_step; auto.

Create HintDb preserves.


(** Steps through a [preserves] goal by the rules above, splitting the matches of the code.  A rule
    applies to the combinator it is about, never to a definition that unfolds to it. *)
Ltac preserve_step :=
  lazymatch goal with
  | |- preserves _ (mret _) => apply preserves_ret
  | |- preserves _ (gets _) => apply preserves_get
  | |- preserves _ get => apply (preserves_get _ id)
  | |- preserves _ (emit _) => apply preserves_emit
  | |- preserves _ (emits _) => apply preserves_emits
  | |- preserves _ (throw _) => apply preserves_throw
  | |- preserves _ (lift _) => apply preserves_lift
  | |- preserves _ (try_log _) => apply preserves_try
  | |- preserves _ (for_each _ _) => apply preserves_for_each; intros
  | |- preserves _ (when _ _) => apply preserves_when; intros
  | |- preserves _ (mbind _ _) => apply preserves_bind; [|intros ?]
  | |- preserves _ (modify _) => apply preserves_modify; intros ? ?
  | |- preserves _ (match _ with _ => _ end) => case_match
  | |- preserves _ _ => solve [eauto with preserves]
  end.
Ltac preserve := repeat preserve_step; try done.

(** *** Specifications that relate the states and the effects

    [respects R m]: from [s], [m] makes the effects [e] and ends in [s'] with [R s e s'], also when it ends
    in an exception.  [R] composes like the code: an empty run, and one run after another. *)

Class TraceRel {S E : Type} (R : S -> list E -> S -> Prop) := {
  trace_nil : forall s, R s [] s;
  trace_app : forall s1 s2 s3 e1 e2, R s1 e1 s2 -> R s2 e2 s3 -> R s1 (e1 ++ e2) s3;
}.

Definition respects {S E A} (R : S -> list E -> S -> Prop) (m : M S E A) : Prop :=
  forall s, R s (effects_of (m s)) (state_of (m s)).

Section respects.
Context {S E : Type} (R : S -> list E -> S -> Prop) `{!TraceRel R}.

Lemma respects_ret {A} (a : A) : respects R (mret a).
Proof. intros s. apply trace_nil. Qed.
Lemma respects_bind {A B} (m : M S E A) (f : A -> M S E B) :
  respects R m -> (forall a, respects R (f a)) -> respects R (m ≫= f).
Proof.
  intros Hm Hf s. specialize (Hm s). unfold mbind, M_bind, state_of, effects_of in *.
  destruct (m s) as [[s1 e1] [a|x|]]; simpl in *; try done.
  specialize (Hf a s1). destruct (f a s1) as [[s2 e2] r]. by eapply trace_app.
Qed.
Lemma respects_gets {A} (g : S -> A) : respects R (gets g).
Proof. intros s. apply trace_nil. Qed.
Lemma respects_throw {A} x : respects (A:=A) R (throw x).
Proof. intros s. apply trace_nil. Qed.
Lemma respects_lift {A} (r : res A) : respects R (lift r).
Proof. intros s. apply trace_nil. Qed.
Lemma respects_modify (f : S -> S) : (forall s, R s [] (f s)) -> respects R (modify f).
Proof. done. Qed.
Lemma respects_emit (x : E) : (forall s, R s [x] s) -> respects R (emit x).
Proof. done. Qed.
Lemma respects_emits (l : list E) : (forall s, R s l s) -> respects R (emits l).
Proof. done. Qed.
Lemma respects_when b (m : M S E unit) : (b = true -> respects R m) -> respects R (when b m).
Proof. destruct b; simpl; [auto|intros; apply respects_ret]. Qed.
Lemma respects_try (m : M S E unit) : respects R m -> respects R (try_log m).
Proof.
  intros Hm s. specialize (Hm s). unfold try_log, state_of, effects_of in *.
  by destruct (m s) as [[s1 e1] [a|x|]].
Qed.
Lemma respects_for_each {A} (l : list A) (f : A -> M S E unit) :
  (forall x, x ∈ l -> respects R (f x)) -> respects R (for_each l f).
Proof.
  induction l as [|x l IH]; simpl; intros H; [apply respects_ret|].
  apply respects_bind; [apply H; left|intros _; apply IH; intros; apply H; by right].
Qed.
End respects.

(** A part of the state that code leaves as it is. *)
Definition keeps {S E T : Type} (p : S -> T) (s : S) (_ : list E) (s' : S) : Prop := p s' = p s.
#[export] Instance keeps_trace {S E T} (p : S -> T) : TraceRel (E:=E) (keeps p).
Proof. split; [done|]. unfold keeps. congruence. Qed.

(** The effects code has are all of some kind. *)
Definition emits_only {S E : Type} (P : E -> Prop) (s : S) (e : list E) (s' : S) : Prop := Forall P e.
#[export] Instance emits_only_trace {S E} (P : E -> Prop) : TraceRel (S:=S) (emits_only P).
Proof. split; [intros; constructor|]. intros. by apply Forall_app. Qed.

Create HintDb respects.

Ltac respect_step :=
  lazymatch goal with
  | |- respects _ (mret _) => apply respects_ret, _
  | |- respects _ (gets _) => apply respects_gets, _
  | |- respects _ get => apply (respects_gets _ id)
  | |- respects _ (emit _) => apply respects_emit; intros ?
  | |- respects _ (emits _) => apply respects_emits; intros ?
  | |- respects _ (throw _) => apply respects_throw, _
  | |- respects _ (lift _) => apply respects_lift, _
  | |- respects _ (try_log _) => apply respects_try
  | |- respects _ (for_each _ _) => apply respects_for_each; [apply _|intros]
  | |- respects _ (when _ _) => apply respects_when; [apply _|intros]
  | |- respects _ (mbind _ _) => apply respects_bind; [apply _| |intros ?]
  | |- respects _ (modify _) => apply respects_modify; intros ?
  | |- respects _ (match _ with _ => _ end) => case_match
  | |- respects _ _ => solve [eauto with respects]
  end.
Ltac respect := repeat respect_step; try done.

(** The rest of a method, from the state it has reached. *)
Ltac respects_goal :=
  lazymatch goal with
  | |- ?R ?s (effects_of (?m ?s)) (state_of (?m ?s)) =>
      let Hp := fresh in enough (respects R m) as Hp by exact (Hp s)
  end.
Ltac respect_rest := respects_goal; respect.

(** ** Field update

    [s <| f := v |>] is the record [s] with field [f] replaced.  A record declares how it is rebuilt
    from its fields ([Eta]); the update of each field is then derived. *)

Class Eta (R : Type) := eta : R -> R.
Class Setter {R T : Type} (p : R -> T) := upd : (T -> T) -> R -> R.
Arguments upd {R T} p {_} _ _ /.

Ltac derive_setter :=
  lazymatch goal with
  | |- @Setter ?R ?T ?p =>
      unfold Setter;
      let f := fresh "f" in
      let x := fresh "x" in
      intros f x;
      let body := eval hnf in (eta x) in
      lazymatch eval pattern (p x) in body with
      | ?g _ => let r := eval cbv beta in (g (f (p x))) in exact r
      end
  end.
#[export] Hint Extern 0 (Setter _) => derive_setter : typeclass_instances.

Declare Scope record_scope.
#[warnings="-postfix-notation-not-level-1"]
Notation "s <| f := v |>" := (upd f (fun _ => v) s)
  (at level 12, f at next level, left associativity) : record_scope.
#[warnings="-postfix-notation-not-level-1"]
Notation "s <| f ::= g |>" := (upd f g s)
  (at level 12, f at next level, left associativity) : record_scope.
Open Scope record_scope.

(** ** [std::unordered_map]

    A map keyed by integers.  The order of iteration is unspecified: it is a parameter, and every
    theorem holds for all of them. *)

Class UnorderedIter := {
  uiter : forall {V : Type}, gmap Z V -> list (Z * V);
  uiter_perm : forall V (m : gmap Z V), uiter m ≡ₚ map_to_list m;
}.

Section uiter.
Context `{UnorderedIter} {V : Type}.
Implicit Types m : gmap Z V.

Lemma elem_of_uiter m k v : (k, v) ∈ uiter m <-> m !! k = Some v.
Proof. rewrite uiter_perm. apply elem_of_map_to_list. Qed.

Lemma NoDup_uiter_fst m : NoDup ((uiter m).*1).
Proof. rewrite uiter_perm. apply NoDup_fst_map_to_list. Qed.

Lemma length_uiter m : length (uiter m) = size m.
Proof. by rewrite uiter_perm, length_map_to_list. Qed.

Lemma elem_of_uiter_fst m k : k ∈ (uiter m).*1 <-> is_Some (m !! k).
Proof.
  rewrite list_elem_of_fmap. split.
  - intros [[k' v] [-> Hin]]. apply elem_of_uiter in Hin. by exists v.
  - intros [v Hv]. exists (k, v). split; [done|]. by apply elem_of_uiter.
Qed.
End uiter.

(** One such order, for running the model on concrete inputs. *)
Definition some_iter : UnorderedIter :=
  {| uiter := fun V m => map_to_list m; uiter_perm := fun V m => reflexivity _ |}.

(** ** Lists *)

(** [find_if]: the first element that satisfies the predicate. *)
Fixpoint find_first {A} (p : A -> bool) (l : list A) : option A :=
  match l with [] => None | x :: l => if p x then Some x else find_first p l end.

Lemma find_first_Some {A} (p : A -> bool) l x :
  find_first p l = Some x -> x ∈ l /\ p x = true.
Proof.
  induction l as [|y l IH]; simpl; [done|].
  destruct (p y) eqn:Hp; intros [= ->] || intros H; [split; [left|done]|].
  destruct (IH H). split; [by right|done].
Qed.

Lemma find_first_None {A} (p : A -> bool) l :
  find_first p l = None <-> forall x, x ∈ l -> p x = false.
Proof.
  induction l as [|y l IH]; simpl.
  - split; [intros _ x Hx; by apply elem_of_nil in Hx|done].
  - destruct (p y) eqn:Hp; split; intros H; try done.
    + specialize (H y). rewrite Hp in H. by discriminate H; left.
    + intros x [->|Hx]%elem_of_cons; [done|]. by apply IH.
    + apply IH. intros x Hx. apply H. by right.
Qed.

(** The index of the first element that satisfies the predicate. *)
Fixpoint find_index {A} (p : A -> bool) (l : list A) : option nat :=
  match l with [] => None | x :: l => if p x then Some O else S <$> find_index p l end.

Lemma find_index_Some {A} (p : A -> bool) l i :
  find_index p l = Some i ->
  (exists x, l !! i = Some x /\ p x = true) /\ forall j y, (j < i)%nat -> l !! j = Some y -> p y = false.
Proof.
  revert i. induction l as [|y l IH]; simpl; intros i; [done|].
  destruct (p y) eqn:Hp.
  - intros [= <-]. split; [by exists y|]. intros; lia.
  - destruct (find_index p l) as [k|] eqn:Hk; simpl; [|done]. intros [= <-].
    destruct (IH k eq_refl) as [Hx Hlt]. split; [done|].
    intros [|j] z Hj Hz; simpl in *; [by simplify_eq|]. apply (Hlt j); [lia|done].
Qed.

Lemma find_index_None {A} (p : A -> bool) l :
  find_index p l = None <-> forall x, x ∈ l -> p x = false.
Proof.
  induction l as [|y l IH]; simpl.
  - split; [intros _ x Hx; by apply elem_of_nil in Hx|done].
  - destruct (p y) eqn:Hp; split; intros H; try done.
    + specialize (H y). rewrite Hp in H. by discriminate H; left.
    + intros x [->|Hx]%elem_of_cons; [done|].
      destruct (find_index p l); [done|]. by apply IH.
    + destruct (find_index p l) eqn:E; [|done].
      assert (Some n = None) as [=]. apply IH. intros x Hx. apply H. by right.
Qed.

(** ** Sorted ranges *)

(** [std::ranges::lower_bound] on a sorted range: how many elements come before. *)
Fixpoint lower_bound {A} (before : A -> bool) (l : list A) : nat :=
  match l with
  | x :: l => if before x then S (lower_bound before l) else O
  | [] => O
  end.

Definition insert_at {A} (i : nat) (x : A) (l : list A) : list A := take i l ++ x :: drop i l.

Section sorted.
Context {A K : Type} (key : A -> K) (lt : K -> K -> Prop) `{!RelDecision lt}.
Context (lt_trans : forall a b c, lt a b -> lt b c -> lt a c) (lt_irrefl : forall a, ~ lt a a).
Context (lt_total : forall a b, lt a b \/ a = b \/ lt b a).
#[local] Abbreviation sorted := (StronglySorted (fun x y => lt (key x) (key y))).
#[local] Abbreviation position k l := (lower_bound (fun x => bool_decide (lt (key x) k)) l).

(** The elements before the lower bound are smaller; those from it on are not. *)
Lemma lower_bound_split k l :
  sorted l ->
  Forall (fun x => lt (key x) k) (take (position k l) l) /\
  Forall (fun x => ~ lt (key x) k) (drop (position k l) l).
Proof using lt_trans.
  induction 1 as [|x l Hs IH Hx]; simpl; [by split|]. case_bool_decide as Hk; simpl.
  - destruct IH. split; [by constructor|done].
  - split; [done|]. constructor; [done|]. apply (Forall_impl _ _ _ Hx). eauto.
Qed.

Lemma lower_bound_le k l : (position k l <= length l)%nat.
Proof. induction l as [|x l IH]; simpl; [lia|]. case_bool_decide; lia. Qed.

(** Looking a key up at its lower bound finds exactly the element that has it. *)
Lemma lookup_lower_bound k l x :
  sorted l -> l !! position k l = Some x /\ key x = k <-> x ∈ l /\ key x = k.
Proof using lt_trans lt_irrefl lt_total.
  intros Hs. split.
  - intros [Hl Hk]. split; [|done]. by eapply list_elem_of_lookup_2.
  - intros [Hin <-]. split; [|done]. induction Hs as [|y l Hs IH Hy]; [by apply elem_of_nil in Hin|].
    simpl. apply elem_of_cons in Hin as [->|Hin].
    + rewrite bool_decide_eq_false_2 by done. done.
    + rewrite bool_decide_eq_true_2; [by apply IH|]. rewrite Forall_forall in Hy. by apply Hy.
Qed.

Lemma sorted_key_inj l x y : sorted l -> x ∈ l -> y ∈ l -> key x = key y -> x = y.
Proof using lt_irrefl.
  induction 1 as [|z l Hs IH Hz]; intros Hx Hy Hk; [by apply elem_of_nil in Hx|].
  rewrite Forall_forall in Hz.
  apply elem_of_cons in Hx as [->|Hx]; apply elem_of_cons in Hy as [->|Hy]; [done|..|by apply IH].
  - destruct (lt_irrefl (key z)). rewrite Hk at 2. by apply Hz.
  - destruct (lt_irrefl (key z)). rewrite <- Hk at 2. by apply Hz.
Qed.

Lemma sorted_NoDup l : sorted l -> NoDup (key <$> l).
Proof using lt_irrefl.
  induction 1 as [|x l Hs IH Hx]; simpl; constructor; [|done].
  intros (y & Hk & Hy)%list_elem_of_fmap. rewrite Forall_forall in Hx. specialize (Hx y Hy).
  rewrite Hk in Hx. by destruct (lt_irrefl (key y)).
Qed.

Lemma insert_at_sorted x l :
  sorted l -> (forall y, y ∈ l -> key y <> key x) -> sorted (insert_at (position (key x) l) x l).
Proof using lt_trans lt_total.
  induction 1 as [|y l Hs IH Hy]; intros Hn; [repeat constructor|]. unfold insert_at. simpl.
  assert (key y <> key x) as Hyx by (apply Hn; left).
  case_bool_decide as Hk; simpl.
  - constructor; [apply IH; intros z Hz; apply Hn; by right|].
    rewrite Forall_app, Forall_cons. rewrite Forall_forall in Hy.
    split; [|split; [done|]]; apply Forall_forall; intros z Hz; apply Hy.
    + by eapply elem_of_take in Hz as (? & ? & ?); eapply list_elem_of_lookup_2.
    + apply list_elem_of_lookup in Hz as [i Hi]. rewrite lookup_drop in Hi. by eapply list_elem_of_lookup_2.
  - assert (lt (key x) (key y)) by (destruct (lt_total (key x) (key y)) as [?|[?|?]]; congruence).
    constructor; [by constructor|]. constructor; [done|]. apply (Forall_impl _ _ _ Hy). eauto.
Qed.
End sorted.

Lemma insert_at_perm {A} i (x : A) l : insert_at i x l ≡ₚ x :: l.
Proof. unfold insert_at. rewrite <- Permutation_middle. by rewrite take_drop. Qed.
Lemma elem_of_insert_at {A} i (x y : A) l : y ∈ insert_at i x l <-> y = x \/ y ∈ l.
Proof. by rewrite insert_at_perm, elem_of_cons. Qed.
Lemma length_insert_at {A} i (x : A) l : length (insert_at i x l) = S (length l).
Proof. by rewrite insert_at_perm. Qed.

Lemma StronglySorted_fmap_key {A B K} (R : K -> K -> Prop) (ka : A -> K) (kb : B -> K) (f : A -> B) l :
  (forall x, x ∈ l -> kb (f x) = ka x) ->
  StronglySorted (fun x y => R (ka x) (ka y)) l -> StronglySorted (fun x y => R (kb x) (kb y)) (f <$> l).
Proof.
  intros Hf. induction 1 as [|x l Hs IH Hx]; simpl; constructor.
  - apply IH. intros y Hy. apply Hf. by right.
  - rewrite Forall_fmap. rewrite Forall_forall in Hx |- *. intros y Hy. unfold compose.
    rewrite !Hf by (by left || by right). by apply Hx.
Qed.
Lemma StronglySorted_sublist {A} (R : relation A) l1 l2 : l1 `sublist_of` l2 -> StronglySorted R l2 -> StronglySorted R l1.
Proof.
  induction 1 as [|x l1 l2 H IH|x l1 l2 H IH]; [done|..]; intros [Hs Hx]%StronglySorted_inv; [|by apply IH].
  constructor; [by apply IH|]. rewrite Forall_forall in Hx |- *. intros y Hy.
  apply Hx. eapply elem_of_submseteq; [done|by apply sublist_submseteq].
Qed.
