(* ===== verification/Can.v ===== *)
(** * CAN identifiers, filters and payloads

    [src/src/subsys/canbus/can_id.h], [can_filter.h] and [can_frame_payload.h]: the values every CAN
    service of the program exchanges.  Identifiers and masks are 32-bit words. *)

From S2P Require Import Prelude.

(** Zephyr's identifier masks: 11 and 29 bits. *)
Definition CAN_STD_ID_MASK : Z := 2047.
Definition CAN_EXT_ID_MASK : Z := 536870911.

(** [~m] on a 32-bit word. *)
Definition not32 (m : Z) : Z := Z.land (Z.lnot m) 4294967295.

(** ** [CanId] *)

Record CanId := mkCanId {
  can_id : Z;
  can_is_extended : bool;
}.
#[export] Instance CanId_eta : Eta CanId := fun x => mkCanId (can_id x) (can_is_extended x).
#[export] Instance CanId_eq_dec : EqDecision CanId.
Proof. solve_decision. Defined.

Definition Standard (i : Z) : CanId := mkCanId i false.
Definition Extended (i : Z) : CanId := mkCanId i true.

Definition WidthMask (ext : bool) : Z := if ext then CAN_EXT_ID_MASK else CAN_STD_ID_MASK.
Definition CanId_WidthMask (c : CanId) : Z := WidthMask (can_is_extended c).
Definition CanId_IsValid (c : CanId) : bool :=
  bool_decide (Z.land (can_id c) (not32 (CanId_WidthMask c)) = 0).
Definition Key (c : CanId) : Z :=
  Z.lor (can_id c) (if can_is_extended c then 2147483648 else 0).

(** ** [CanFilter] *)

Record CanFilter := mkCanFilter {
  cf_id : Z;
  cf_mask : Z;
  cf_is_extended : bool;
}.
#[export] Instance CanFilter_eq_dec : EqDecision CanFilter.
Proof. solve_decision. Defined.

(** The converting constructor: the filter that accepts exactly one identifier. *)
Definition ExactFilter (c : CanId) : CanFilter :=
  mkCanFilter (can_id c) (CanId_WidthMask c) (can_is_extended c).
Definition Masked (c : CanId) (mask : Z) : CanFilter :=
  mkCanFilter (can_id c) mask (can_is_extended c).

Definition CanFilter_WidthMask (f : CanFilter) : Z := WidthMask (cf_is_extended f).
Definition CanFilter_IsValid (f : CanFilter) : bool :=
  bool_decide (Z.land (cf_id f) (not32 (CanFilter_WidthMask f)) = 0)
  && bool_decide (Z.land (cf_mask f) (not32 (CanFilter_WidthMask f)) = 0).
Definition IsExact (f : CanFilter) : bool := bool_decide (cf_mask f = CanFilter_WidthMask f).
Definition Normalized (f : CanFilter) : CanFilter :=
  mkCanFilter (Z.land (cf_id f) (cf_mask f)) (cf_mask f) (cf_is_extended f).
Definition Matches (f : CanFilter) (c : CanId) : bool :=
  bool_decide (can_is_extended c = cf_is_extended f)
  && bool_decide (Z.land (Z.lxor (can_id c) (cf_id f)) (cf_mask f) = 0).
Definition Overlaps (f other : CanFilter) : bool :=
  bool_decide (cf_is_extended other = cf_is_extended f)
  && bool_decide (Z.land (Z.land (Z.lxor (cf_id other) (cf_id f)) (cf_mask f)) (cf_mask other) = 0).

(** ** [CanFramePayload]

    A buffer of 64 bytes and the number of bytes in use. *)

Definition CAN_FRAME_MAX_DATA_LENGTH : nat := 64.

Record CanFramePayload := mkPayload {
  pl_data : list Z;
  pl_size : nat;
}.

Definition EmptyPayload : CanFramePayload := mkPayload (replicate CAN_FRAME_MAX_DATA_LENGTH 0) 0.

(** [Assign]: oversized input is truncated; the rest of the buffer is cleared. *)
Definition Assign (bytes : list Z) : CanFramePayload :=
  let size := (length bytes `min` CAN_FRAME_MAX_DATA_LENGTH)%nat in
  mkPayload (take size bytes ++ replicate (CAN_FRAME_MAX_DATA_LENGTH - size) 0) size.

(** [Resize]: shrinking clears the bytes it drops. *)
Definition Resize (size : nat) (p : CanFramePayload) : CanFramePayload :=
  let clamped := (size `min` CAN_FRAME_MAX_DATA_LENGTH)%nat in
  if bool_decide (clamped < pl_size p)%nat then
    mkPayload (take clamped (pl_data p) ++ replicate (pl_size p - clamped) 0 ++ drop (pl_size p) (pl_data p)) clamped
  else mkPayload (pl_data p) clamped.

Definition Clear (p : CanFramePayload) : CanFramePayload := Resize 0 p.

(** The conversion to a span: the bytes in use. *)
Definition payload_span (p : CanFramePayload) : list Z := take (pl_size p) (pl_data p).

(** [operator==]: sizes, then the bytes in use. *)
Definition payload_eqb (p q : CanFramePayload) : bool :=
  bool_decide (pl_size p = pl_size q) && bool_decide (payload_span p = payload_span q).

(** [can_frame.h]. *)
Record CanFrame := mkFrame {
  fr_id : Z;
  fr_is_extended : bool;
  fr_is_transmit : bool;
  fr_is_can_fd : bool;
  fr_is_bitrate_switch : bool;
  fr_is_remote_request : bool;
  fr_data : CanFramePayload;
}.

(** ** Lemmas on bit masks *)

Lemma land_zero_bits a b : Z.land a b = 0 <-> forall n, 0 <= n -> Z.testbit a n && Z.testbit b n = false.
Proof.
  split; intros H.
  - intros n Hn. by rewrite <- Z.land_spec, H, Z.bits_0.
  - apply Z.bits_inj'. intros n Hn. by rewrite Z.land_spec, Z.bits_0, H.
Qed.

Lemma testbit_ones_low k n : 0 <= n -> 0 <= k -> Z.testbit (2 ^ k - 1) n = bool_decide (n < k).
Proof.
  intros Hn Hk. replace (2 ^ k - 1) with (Z.ones k) by (rewrite Z.ones_equiv; lia).
  case_bool_decide; [by apply Z.ones_spec_low|apply Z.ones_spec_high; lia].
Qed.

Definition width_bits (ext : bool) : Z := if ext then 29 else 11.

Lemma testbit_WidthMask ext n : 0 <= n -> Z.testbit (WidthMask ext) n = bool_decide (n < width_bits ext).
Proof.
  intros Hn. destruct ext; simpl.
  - change CAN_EXT_ID_MASK with (2 ^ 29 - 1). by apply testbit_ones_low.
  - change CAN_STD_ID_MASK with (2 ^ 11 - 1). by apply testbit_ones_low.
Qed.

(** A 32-bit word is inside a format's width exactly when its high bits are clear. *)
Lemma inside_width w ext :
  is_u32 w ->
  Z.land w (not32 (WidthMask ext)) = 0 <-> forall n, width_bits ext <= n -> Z.testbit w n = false.
Proof.
  intros Hw. unfold not32. change 4294967295 with (2 ^ 32 - 1).
  assert (forall n, 32 <= n -> Z.testbit w n = false) as Hhigh.
  { intros n Hn. unfold is_u32 in Hw. destruct (decide (w = 0)) as [->|]; [apply Z.bits_0|].
    apply Z.bits_above_log2; [lia|].
    assert (Z.log2 w < 32) by (apply Z.log2_lt_pow2; [lia|]; change (2 ^ 32) with 4294967296; lia). lia. }
  assert (0 < width_bits ext < 32) as Hb by (destruct ext; simpl; lia).
  rewrite land_zero_bits. split; intros H n Hn.
  - destruct (decide (32 <= n)); [by apply Hhigh|].
    specialize (H n ltac:(lia)). rewrite Z.land_spec, Z.lnot_spec, testbit_WidthMask in H by lia.
    rewrite testbit_ones_low in H by lia.
    rewrite (bool_decide_eq_false_2 (n < width_bits ext)) in H by lia.
    rewrite (bool_decide_eq_true_2 (n < 32)) in H by lia.
    simpl in H. by rewrite andb_true_r in H.
  - destruct (decide (width_bits ext <= n)) as [Hge|Hlt]; [by rewrite H|].
    rewrite Z.land_spec, Z.lnot_spec, testbit_WidthMask by lia.
    rewrite (bool_decide_eq_true_2 (n < width_bits ext)) by lia. simpl. by rewrite andb_false_r.
Qed.

Definition filter_u32 (f : CanFilter) : Prop := is_u32 (cf_id f) /\ is_u32 (cf_mask f).

(** An identifier both filters accept: the first filter's bits under its mask, the other's elsewhere. *)
Definition common_id (f g : CanFilter) : CanId :=
  mkCanId (Z.lor (Z.land (cf_id f) (cf_mask f)) (Z.land (cf_id g) (Z.land (cf_mask g) (Z.lnot (cf_mask f)))))
    (cf_is_extended f).

Lemma common_id_matches f g :
  Overlaps f g = true -> Matches f (common_id f g) = true /\ Matches g (common_id f g) = true.
Proof.
  unfold Overlaps, Matches, common_id. rewrite !andb_true_iff, !bool_decide_eq_true. simpl.
  intros [Hext Hover]. rewrite land_zero_bits in Hover.
  split; (split; [done|]); apply land_zero_bits; intros n Hn;
    specialize (Hover n Hn);
    rewrite !Z.land_spec, Z.lxor_spec in Hover;
    rewrite Z.lxor_spec, Z.lor_spec, !Z.land_spec, Z.lnot_spec by done;
    destruct (Z.testbit (cf_id f) n), (Z.testbit (cf_id g) n), (Z.testbit (cf_mask f) n),
      (Z.testbit (cf_mask g) n); simpl in *; done.
Qed.

Lemma matches_overlap f g c : Matches f c = true -> Matches g c = true -> Overlaps f g = true.
Proof.
  unfold Overlaps, Matches. rewrite !andb_true_iff, !bool_decide_eq_true.
  intros [Hf Hfm] [Hg Hgm]. split; [congruence|].
  rewrite land_zero_bits in *. intros n Hn. specialize (Hfm n Hn). specialize (Hgm n Hn).
  rewrite Z.lxor_spec in *. rewrite !Z.land_spec, Z.lxor_spec.
  destruct (Z.testbit (can_id c) n), (Z.testbit (cf_id f) n), (Z.testbit (cf_id g) n),
    (Z.testbit (cf_mask f) n), (Z.testbit (cf_mask g) n); simpl in *; done.
Qed.

Lemma Normalized_Matches f c : Matches (Normalized f) c = Matches f c.
Proof.
  unfold Matches, Normalized. simpl. f_equal. apply bool_decide_ext.
  rewrite !land_zero_bits. split; intros H n Hn; specialize (H n Hn);
    rewrite Z.lxor_spec in *; rewrite ?Z.land_spec in *;
    destruct (Z.testbit (can_id c) n), (Z.testbit (cf_id f) n), (Z.testbit (cf_mask f) n); done.
Qed.

(** ** The payload invariant: 64 bytes, and nothing beyond the size. *)

Definition payload_wf (p : CanFramePayload) : Prop :=
  length (pl_data p) = CAN_FRAME_MAX_DATA_LENGTH /\ (pl_size p <= CAN_FRAME_MAX_DATA_LENGTH)%nat /\
  drop (pl_size p) (pl_data p) = replicate (CAN_FRAME_MAX_DATA_LENGTH - pl_size p) 0.

Lemma Assign_wf bytes : payload_wf (Assign bytes).
Proof.
  unfold payload_wf, Assign. simpl. rewrite length_app, length_take, length_replicate.
  split; [unfold CAN_FRAME_MAX_DATA_LENGTH; lia|]. split; [lia|].
  rewrite drop_app_length'; [done|]. rewrite length_take. lia.
Qed.

Lemma Assign_span bytes : payload_span (Assign bytes) = take CAN_FRAME_MAX_DATA_LENGTH bytes.
Proof.
  unfold payload_span, Assign. simpl. rewrite take_app_length' by (rewrite length_take; lia).
  destruct (decide (length bytes <= CAN_FRAME_MAX_DATA_LENGTH)%nat).
  - rewrite Nat.min_l by done. by rewrite !take_ge by lia.
  - by rewrite Nat.min_r by lia.
Qed.

Lemma payload_data p : payload_wf p ->
  pl_data p = payload_span p ++ replicate (CAN_FRAME_MAX_DATA_LENGTH - pl_size p) 0.
Proof. intros (_ & _ & Hd). rewrite <- Hd. symmetry. apply take_drop. Qed.

Lemma Resize_wf n p : payload_wf p -> payload_wf (Resize n p).
Proof.
  intros (Hlen & Hle & Hd). unfold Resize. case_bool_decide as Hlt; unfold payload_wf; simpl.
  - rewrite !length_app, length_take, length_replicate, length_drop. unfold CAN_FRAME_MAX_DATA_LENGTH in *.
    split; [lia|]. split; [lia|].
    rewrite drop_app_length' by (rewrite length_take; lia).
    rewrite Hd, <- replicate_add. f_equal. lia.
  - assert (pl_size p <= n `min` CAN_FRAME_MAX_DATA_LENGTH)%nat as Hge by lia.
    split; [done|]. split; [lia|].
    set (k := (n `min` CAN_FRAME_MAX_DATA_LENGTH)%nat) in *.
    replace (drop k (pl_data p)) with (drop (k - pl_size p) (drop (pl_size p) (pl_data p)))
      by (rewrite drop_drop; f_equal; lia).
    rewrite Hd, drop_replicate. f_equal. lia.
Qed.

Lemma common_id_valid f g :
  filter_u32 f -> filter_u32 g -> CanFilter_IsValid f = true -> CanFilter_IsValid g = true ->
  Overlaps f g = true -> CanId_IsValid (common_id f g) = true.
Proof.
  intros [Hfi Hfm] [Hgi Hgm]. unfold CanFilter_IsValid, CanId_IsValid, CanFilter_WidthMask, CanId_WidthMask.
  rewrite !andb_true_iff, !bool_decide_eq_true. intros [Vfi Vfm] [Vgi Vgm] Ho.
  unfold Overlaps in Ho. rewrite andb_true_iff, !bool_decide_eq_true in Ho. destruct Ho as [Hext _].
  rewrite Hext in Vgi, Vgm. simpl.
  rewrite inside_width in Vfi, Vfm, Vgi, Vgm by done.
  unfold not32. change 4294967295 with (2 ^ 32 - 1).
  apply land_zero_bits. intros n Hn.
  rewrite !Z.land_spec, Z.lor_spec, !Z.land_spec, !Z.lnot_spec, testbit_WidthMask by done.
  case_bool_decide as Hw; simpl; [by rewrite !andb_false_r|].
  rewrite Vfm, Vgi by lia. simpl. by rewrite !andb_false_r.
Qed.

(** C14. Two filters of registered handlers overlap exactly when some valid identifier passes both: the
    test by which the CAN bus refuses a second registration is sound and complete. *)
Theorem Overlaps_iff_common_identifier f g :
  filter_u32 f -> filter_u32 g -> CanFilter_IsValid f = true -> CanFilter_IsValid g = true ->
  Overlaps f g = true <->
  exists c, CanId_IsValid c = true /\ Matches f c = true /\ Matches g c = true.
Proof.
  intros Hf Hg Vf Vg. split.
  - intros Ho. exists (common_id f g). split; [by apply common_id_valid|]. by apply common_id_matches.
  - intros (c & _ & Mf & Mg). by eapply matches_overlap.
Qed.

Lemma Overlaps_iff_common_identifier_witness :
  exists c, CanId_IsValid c = true /\ Matches (mkCanFilter 1792 2040 false) c = true
            /\ Matches (ExactFilter (Standard 1797)) c = true.
Proof.
  apply (Overlaps_iff_common_identifier (mkCanFilter 1792 2040 false) (ExactFilter (Standard 1797)));
    first [reflexivity | vm_compute; intuition discriminate].
Defined.

(** On well-formed payloads [operator==] is equality: the bytes beyond the size never differ. *)
Lemma payload_eqb_eq p q : payload_wf p -> payload_wf q -> payload_eqb p q = true <-> p = q.
Proof.
  intros Hp Hq. unfold payload_eqb. rewrite andb_true_iff, !bool_decide_eq_true. split.
  - intros [Hs Hd]. destruct p as [dp sp], q as [dq sq]. simpl in *. subst sq. f_equal.
    apply payload_data in Hp, Hq. simpl in Hp, Hq. by rewrite Hp, Hq, Hd.
  - by intros ->.
Qed.
