(* ===== verification/Service.v ===== *)
(** * Service life cycle

    [src/src/subsys/threading/service_base.h]: the state transitions every service shares.  A service
    provides the [Do*] work; the base class owns the [ServiceState].  The transition mutex is what makes
    one transition one step here. *)

From S2P Require Import Prelude.

Inductive ServiceState := STOPPED | STARTING | RUNNING | PAUSED | STOPPING.
#[export] Instance ServiceState_eq_dec : EqDecision ServiceState.
Proof. solve_decision. Defined.

(** The work of one service, on its state [S] with effects [E]. *)
Record ServiceWork (S E : Type) := mkServiceWork {
  sw_state : S -> ServiceState;
  sw_set_state : ServiceState -> S -> S;
  sw_is_pausable : bool;
  sw_initialize : M S E bool;
  sw_start : M S E bool;
  sw_stop : M S E bool;
  sw_pause : M S E bool;
  sw_resume : M S E bool;
}.
Arguments sw_state {S E}.
Arguments sw_set_state {S E}.
Arguments sw_is_pausable {S E}.
Arguments sw_initialize {S E}.
Arguments sw_start {S E}.
Arguments sw_stop {S E}.
Arguments sw_pause {S E}.
Arguments sw_resume {S E}.

Section service.
Context {S E : Type} (W : ServiceWork S E).

Definition SetState (st : ServiceState) : M S E unit := modify (sw_set_state W st).

(** [try { ok = work(); } catch(...) { SetState(previous); throw; } if(!ok) { SetState(previous);
    return false; } SetState(next); return true;] *)
Definition Transition (work : M S E bool) (previous next : ServiceState) : M S E bool := fun s =>
  match work s with
  | (s1, e1, Ok true) => (sw_set_state W next s1, e1, Ok true)
  | (s1, e1, Ok false) => (sw_set_state W previous s1, e1, Ok false)
  | (s1, e1, Throw x) => (sw_set_state W previous s1, e1, Throw x)
  | (s1, e1, Oob) => (s1, e1, Oob)
  end.

Definition Initialize : M S E bool :=
  s ← get;
  if negb (bool_decide (sw_state W s = STOPPED)) then mret false else sw_initialize W.

Definition Start : M S E bool :=
  s ← get;
  let previous_state := sw_state W s in
  if bool_decide (previous_state = RUNNING) then mret true
  else if bool_decide (previous_state = STARTING) then mret false
  else SetState STARTING ;; Transition (sw_start W) previous_state RUNNING.

Definition Stop : M S E bool :=
  s ← get;
  let previous_state := sw_state W s in
  if bool_decide (previous_state = STOPPED) then mret true
  else if bool_decide (previous_state = STOPPING) then mret false
  else SetState STOPPING ;; Transition (sw_stop W) previous_state STOPPED.

Definition Pause : M S E bool :=
  s ← get;
  if negb (sw_is_pausable W) || negb (bool_decide (sw_state W s = RUNNING)) then mret false
  else
    sw_pause W ≫= fun ok : bool => if negb ok then mret false else SetState PAUSED ;; mret true.

Definition Resume : M S E bool :=
  s ← get;
  if negb (sw_is_pausable W) || negb (bool_decide (sw_state W s = PAUSED)) then mret false
  else
    sw_resume W ≫= fun ok : bool => if negb ok then mret false else SetState RUNNING ;; mret true.
End service.

(** A service between transitions. *)
Definition settled (st : ServiceState) : Prop := st = STOPPED \/ st = RUNNING \/ st = PAUSED.

(** The laws of the state accessors, and that the work leaves the state to the base class. *)
Class LawfulService {S E} (W : ServiceWork S E) := {
  set_state_get : forall st s, sw_state W (sw_set_state W st s) = st;
  start_keeps : forall s, sw_state W (state_of (sw_start W s)) = sw_state W s;
  stop_keeps : forall s, sw_state W (state_of (sw_stop W s)) = sw_state W s;
  pause_keeps : forall s, sw_state W (state_of (sw_pause W s)) = sw_state W s;
  resume_keeps : forall s, sw_state W (state_of (sw_resume W s)) = sw_state W s;
  work_defined : forall s, result_of (sw_start W s) <> Oob /\ result_of (sw_stop W s) <> Oob;
}.

Section service_lemmas.
Context {S E : Type} (W : ServiceWork S E) `{LawfulService S E W}.

Lemma Transition_settled work previous next s :
  settled previous -> settled next -> result_of (work s) <> Oob ->
  settled (sw_state W (state_of (Transition W work previous next s))).
Proof.
  intros Hp Hn Hd. unfold Transition, state_of, result_of in *.
  destruct (work s) as [[s1 e1] [[]|x|]]; simpl in *; try done; by rewrite set_state_get.
Qed.

(** From a settled state, a transition that runs to its end leaves a settled state, also when the work
    fails or throws; [true] from [Start] means RUNNING and from [Stop] STOPPED. *)
Lemma Start_settled s :
  settled (sw_state W s) ->
  settled (sw_state W (state_of (Start W s))) /\
  (result_of (Start W s) = Ok true -> sw_state W (state_of (Start W s)) = RUNNING) /\
  (result_of (Start W s) = Ok false -> sw_state W (state_of (Start W s)) = sw_state W s).
Proof.
  intros Hs. unfold Start. rewrite bind_get.
  case_bool_decide as Hr; [by rewrite Hr|]. case_bool_decide as Hst; [by rewrite Hst|].
  unfold SetState. rewrite bind_modify. split.
  - apply Transition_settled; [done|by right; left|]. apply work_defined.
  - unfold Transition, state_of, result_of.
    destruct (sw_start W _) as [[s1 e1] [[]|x|]]; simpl; rewrite ?set_state_get; done.
Qed.

Lemma Stop_settled s :
  settled (sw_state W s) ->
  settled (sw_state W (state_of (Stop W s))) /\
  (result_of (Stop W s) = Ok true -> sw_state W (state_of (Stop W s)) = STOPPED) /\
  (result_of (Stop W s) = Ok false -> sw_state W (state_of (Stop W s)) = sw_state W s).
Proof.
  intros Hs. unfold Stop. rewrite bind_get.
  case_bool_decide as Hr; [by rewrite Hr|]. case_bool_decide as Hst; [by rewrite Hst|].
  unfold SetState. rewrite bind_modify. split.
  - apply Transition_settled; [done|by left|]. apply work_defined.
  - unfold Transition, state_of, result_of.
    destruct (sw_stop W _) as [[s1 e1] [[]|x|]]; simpl; rewrite ?set_state_get; done.
Qed.
End service_lemmas.
