(* ===== verification/Canbus.v ===== *)
(** * CAN bus

    [src/src/subsys/canbus/canbus.*]: one CAN channel, with its registered frame handlers, the hardware
    filters it installs for them, the dispatch of received frames and the detection of the bitrate.  The
    controller's driver is a parameter, [CanDriver]: Zephyr's calls, each with the state it leaves and the
    value it returns.  One method runs at a time, under the lock of the source. *)

From S2P Require Import Prelude Can Service.

(** ** [canbus_type.h] and the constants of [canbus.h] *)

Inductive CanbusType := NONE | CLASSICAL_CAN | CANFD.
#[export] Instance CanbusType_eq_dec : EqDecision CanbusType.
Proof. solve_decision. Defined.

Definition ERR_NOT_INITIALIZED : Z := -1.
Definition ERR_FILTER_REJECTED : Z := -2.
Definition ERR_TOO_MANY_HANDLERS : Z := -3.
Definition ERR_INVALID_ARGUMENT : Z := -4.
Definition ERR_FILTER_OVERLAP : Z := -5.
Definition ERR_TOO_MANY_FILTERS : Z := -6.
Definition MAX_HANDLERS_PER_FILTER : nat := 8.
Definition MAX_MASK_FILTERS : nat := 4.
Definition AUTO_DETECT_SAMPLE_MS : Z := 500.
Definition MIN_FRAMES_FOR_DETECTION : Z := 3.
Definition CLASSICAL_CAN_SUPPORTED_BITRATES : list Z :=
  [500000; 1000000; 250000; 125000; 100000; 83333; 50000; 20000; 10000].
Definition CANFD_SUPPORTED_BITRATES : list Z :=
  [500000; 1000000; 250000; 125000; 100000; 83333; 50000; 20000; 10000; 2000000; 4000000; 5000000; 8000000].

(** [<errno.h>]. *)
Definition ENETDOWN : Z := 115.
Definition EINVAL : Z := 22.
Definition EALREADY : Z := 120.

(** ** The driver

    A frame as the driver has it: [struct can_frame] with its flags one by one. *)
Record RawFrame := mkRawFrame {
  rf_id : Z;
  rf_dlc : Z;
  rf_is_ide : bool;
  rf_is_rtr : bool;
  rf_is_fdf : bool;
  rf_is_brs : bool;
  rf_data : list Z;
}.

(** The callback of a hardware filter: [CanFrameReceivedCallback] or [AutoDetectFrameCallback]. *)
Inductive RxCallback := ReceivedCallback | CountCallback.
#[export] Instance RxCallback_eq_dec : EqDecision RxCallback.
Proof. solve_decision. Defined.

(** [sampled_frames]: how many frames a counting filter sees while the caller sleeps. *)
Class CanDriver := {
  driver : Type;
  CAN_MODE_FD : Z;
  CAN_MODE_LISTENONLY : Z;
  CAN_MAX_DLEN : nat;
  device_is_ready : Z -> driver -> bool;
  can_get_capabilities : Z -> driver -> Z * Z;
  can_set_mode : Z -> Z -> driver -> driver * Z;
  can_set_bitrate : Z -> Z -> driver -> driver * Z;
  can_set_bitrate_data : Z -> Z -> driver -> driver * Z;
  can_start : Z -> driver -> driver * Z;
  can_stop : Z -> driver -> driver * Z;
  can_add_rx_filter : Z -> RxCallback -> CanFilter -> driver -> driver * Z;
  can_remove_rx_filter : Z -> Z -> driver -> driver;
  can_send : Z -> RawFrame -> driver -> driver * Z;
  can_add_state_change_callback : Z -> driver -> driver * Z;
  can_remove_state_change_callback : Z -> driver -> driver;
  can_is_error_active : Z -> driver -> bool;
  sampled_frames : Z -> driver -> driver * Z;
  can_dlc_to_bytes : Z -> nat;
  can_bytes_to_dlc : nat -> Z;
}.

(** ** State *)

Record CanbusConfig := mkCanbusConfig {
  cc_dev : Z;
  cc_type : CanbusType;
  cc_bitrate : Z;
  cc_data_bitrate : Z;
  cc_extra_modes : Z;
}.
#[export] Instance CanbusConfig_eta : Eta CanbusConfig := fun c =>
  mkCanbusConfig (cc_dev c) (cc_type c) (cc_bitrate c) (cc_data_bitrate c) (cc_extra_modes c).

(** [fe_filter_id]: -1 while no hardware filter is installed.  A handler is a token. *)
Record FilterEntry := mkFilterEntry {
  fe_filter : CanFilter;
  fe_filter_id : Z;
  fe_handlers : gmap Z Z;
}.
#[export] Instance FilterEntry_eta : Eta FilterEntry := fun e =>
  mkFilterEntry (fe_filter e) (fe_filter_id e) (fe_handlers e).

(** [next_handler_id_] is an [int] in [canbus.h]; that it overflows after 2^31 registrations is not modelled. *)
Record Canbus `{CanDriver} := mkCanbus {
  cb_driver : driver;
  config_ : CanbusConfig;
  exact_entries_ : gmap Z FilterEntry;
  mask_entries_ : list (option FilterEntry);
  next_handler_id_ : Z;
  frame_msgq_ : list RawFrame;
  is_initialized_ : bool;
  bitrate_detected_ : bool;
  auto_detect_running_ : bool;
  rx_dropped_ : Z;
  state_change_callback_dev_ : option Z;
  cb_thread_running : bool;
  cb_service_state_ : ServiceState;
}.
#[export] Instance Canbus_eta `{CanDriver} : Eta Canbus := fun s =>
  mkCanbus _ (cb_driver s) (config_ s) (exact_entries_ s) (mask_entries_ s) (next_handler_id_ s) (frame_msgq_ s)
    (is_initialized_ s) (bitrate_detected_ s) (auto_detect_running_ s) (rx_dropped_ s)
    (state_change_callback_dev_ s) (cb_thread_running s) (cb_service_state_ s).

(** What a method does besides changing the state: handlers and callbacks it calls, frames it hands to the
    driver, and, since their order matters to the bus, the modes, starts and stops of the controller. *)
Inductive CanEffect :=
| CallHandler (handler_id handler : Z) (frame : CanFrame)
| CallBitrateDetected (bitrate : Z)
| ModeSet (mode : Z)
| ControllerStarted
| ControllerStopped
| FrameToDriver (frame : RawFrame)
| SleepMs (ms : Z).

(** The constructor; a null device is refused. *)
Definition NewCanbus `{CanDriver} (d : driver) (config : CanbusConfig) : Canbus :=
  let config := if bool_decide (cc_type config = CANFD) && bool_decide (cc_data_bitrate config = 0)
                then config <| cc_data_bitrate := cc_bitrate config |> else config in
  mkCanbus _ d config ∅ (replicate MAX_MASK_FILTERS None) 1 [] false false false 0 None false STOPPED.

Definition IsBitrateSupported (type : CanbusType) (bitrate : Z) : bool :=
  if bool_decide (bitrate = 0) then true
  else if bool_decide (type = CANFD) then bool_decide (bitrate ∈ CANFD_SUPPORTED_BITRATES)
  else bool_decide (bitrate ∈ CLASSICAL_CAN_SUPPORTED_BITRATES).
Definition GetMaxDataLength (type : CanbusType) : nat :=
  if bool_decide (type = CANFD) then CAN_FRAME_MAX_DATA_LENGTH else 8.

Abbreviation CB := (M Canbus CanEffect).

Section canbus.
Context `{CanDriver} `{UnorderedIter}.

(** A call of the driver for the configured device. *)
Definition on_driver (call : Z -> driver -> driver * Z) : CB Z :=
  s ← get;
  let '(d, ret) := call (cc_dev (config_ s)) (cb_driver s) in
  modify (fun s => s <| cb_driver := d |>) ;; mret ret.

(** ** Filter entries

    A pointer to an entry: its key among the exact ones, or its place among the masked ones. *)

Inductive EntryRef := ExactRef (key : Z) | MaskRef (index : nat).
#[export] Instance EntryRef_eq_dec : EqDecision EntryRef.
Proof. solve_decision. Defined.

Definition entry_at (s : Canbus) (r : EntryRef) : option FilterEntry :=
  match r with
  | ExactRef key => exact_entries_ s !! key
  | MaskRef index => mjoin (mask_entries_ s !! index)
  end.
Definition alter_entry (f : FilterEntry -> FilterEntry) (r : EntryRef) (s : Canbus) : Canbus :=
  match r with
  | ExactRef key => s <| exact_entries_ ::= alter f key |>
  | MaskRef index => s <| mask_entries_ ::= alter (fmap f) index |>
  end.

Definition filter_key (f : CanFilter) : Z := Key (mkCanId (cf_id f) (cf_is_extended f)).

(** Index of the first masked entry with a property. *)
Definition find_mask (p : FilterEntry -> bool) (s : Canbus) : option nat :=
  find_index (fun o => match o with Some e => p e | None => false end) (mask_entries_ s).

Definition FindEntry (f : CanFilter) (s : Canbus) : option EntryRef :=
  if IsExact f then
    match exact_entries_ s !! filter_key f with Some _ => Some (ExactRef (filter_key f)) | None => None end
  else MaskRef <$> find_mask (fun e => bool_decide (fe_filter e = f)) s.

Definition has_handler (handler_id : Z) (e : FilterEntry) : bool := bool_decide (is_Some (fe_handlers e !! handler_id)).

Definition FindEntryByHandler (handler_id : Z) (s : Canbus) : option EntryRef :=
  match find_first (fun p : Z * FilterEntry => has_handler handler_id p.2) (uiter (exact_entries_ s)) with
  | Some (key, _) => Some (ExactRef key)
  | None => MaskRef <$> find_mask (has_handler handler_id) s
  end.

Definition FindMatchingEntry (c : CanId) (s : Canbus) : option EntryRef :=
  match exact_entries_ s !! Key c with
  | Some _ => Some (ExactRef (Key c))
  | None => MaskRef <$> find_mask (fun e => Matches (fe_filter e) c) s
  end.

Definition CreateEntry (f : CanFilter) : CB (option EntryRef) :=
  let entry := mkFilterEntry f (-1) ∅ in
  if IsExact f then
    modify (fun s => s <| exact_entries_ ::= fun m => match m !! filter_key f with Some _ => m | None => <[filter_key f := entry]> m end |>) ;;
    mret (Some (ExactRef (filter_key f)))
  else
    s ← get;
    match find_index (fun o : option FilterEntry => bool_decide (o = None)) (mask_entries_ s) with
    | Some i => modify (fun s => s <| mask_entries_ ::= <[i := Some entry]> |>) ;; mret (Some (MaskRef i))
    | None => mret None
    end.

Definition EraseEntry (f : CanFilter) : CB unit :=
  if IsExact f then modify (fun s => s <| exact_entries_ ::= delete (filter_key f) |>)
  else modify (fun s => s <| mask_entries_ ::= fmap (fun o : option FilterEntry =>
         match o with Some e => if bool_decide (fe_filter e = f) then None else o | None => None end) |>).

Definition HasOverlap (f : CanFilter) (s : Canbus) : bool :=
  existsb (fun p : Z * FilterEntry => Overlaps (fe_filter p.2) f) (uiter (exact_entries_ s))
  || existsb (fun o : option FilterEntry => match o with Some e => Overlaps (fe_filter e) f | None => false end)
       (mask_entries_ s).

Definition InstallFilter (r : EntryRef) : CB bool :=
  s ← get;
  match entry_at s r with
  | None => mret true
  | Some entry =>
      if bool_decide (0 <= fe_filter_id entry) then mret true
      else
        on_driver (fun dev => can_add_rx_filter dev ReceivedCallback (fe_filter entry)) ≫= fun filter_id : Z =>
        if bool_decide (filter_id < 0) then mret false
        else modify (alter_entry (fun e => e <| fe_filter_id := filter_id |>) r) ;; mret true
  end.

Definition UninstallFilter (r : EntryRef) : CB unit :=
  s ← get;
  match entry_at s r with
  | None => mret tt
  | Some entry =>
      if bool_decide (fe_filter_id entry < 0) then mret tt
      else
        modify (fun s => s <| cb_driver ::= can_remove_rx_filter (cc_dev (config_ s)) (fe_filter_id entry) |>) ;;
        modify (alter_entry (fun e => e <| fe_filter_id := -1 |>) r)
  end.

(** Every entry, the exact ones in the order of their hash table. *)
Definition all_refs (s : Canbus) : list EntryRef :=
  (ExactRef <$> (uiter (exact_entries_ s)).*1) ++ (MaskRef <$> seq 0 (length (mask_entries_ s))).

Definition InstallDeferredFilters : CB unit :=
  s ← get; for_each (all_refs s) (fun r => InstallFilter r ;; mret tt).
Definition RemoveAllFilters : CB unit := s ← get; for_each (all_refs s) UninstallFilter.
Definition ClearEntries : CB unit :=
  modify (fun s => s <| exact_entries_ := ∅ |> <| mask_entries_ ::= fmap (fun _ => None) |>).

(** ** Handlers *)

(** The part of a registration that has its entry. *)
Definition AddHandler (f : CanFilter) (handler : Z) (r : EntryRef) : CB Z :=
  s ← get;
  match entry_at s r with
  | None => mret 0
  | Some entry =>
      if bool_decide (MAX_HANDLERS_PER_FILTER <= size (fe_handlers entry))%nat then mret ERR_TOO_MANY_HANDLERS
      else
        let handler_id := next_handler_id_ s in
        modify (fun s => alter_entry (fun e => e <| fe_handlers ::= <[handler_id := handler]> |>) r
                           (s <| next_handler_id_ := handler_id + 1 |>)) ;;
        if auto_detect_running_ s && negb (bitrate_detected_ s) then mret handler_id
        else
          InstallFilter r ≫= fun installed : bool =>
          if installed then mret handler_id
          else
            modify (alter_entry (fun e => e <| fe_handlers ::= delete handler_id |>) r) ;;
            s ← get;
            when (match entry_at s r with Some e => bool_decide (fe_handlers e = ∅) | None => false end) (EraseEntry f) ;;
            mret ERR_FILTER_REJECTED
  end.

Definition RegisterFrameReceivedHandler (requested_filter : CanFilter) (handler : option Z) : CB Z :=
  s ← get;
  if negb (is_initialized_ s) then mret ERR_NOT_INITIALIZED
  else
    match handler with
    | None => mret ERR_INVALID_ARGUMENT
    | Some handler =>
        if negb (CanFilter_IsValid requested_filter) then mret ERR_INVALID_ARGUMENT
        else
          let f := Normalized requested_filter in
          match FindEntry f s with
          | Some r => AddHandler f handler r
          | None =>
              if HasOverlap f s then mret ERR_FILTER_OVERLAP
              else
                CreateEntry f ≫= fun created : option EntryRef =>
                match created with
                | Some r => AddHandler f handler r
                | None => mret ERR_TOO_MANY_FILTERS
                end
          end
    end.

Definition RemoveFrameReceivedHandler (handler_id : Z) : CB bool :=
  s ← get;
  if negb (is_initialized_ s) then mret false
  else
    match FindEntryByHandler handler_id s with
    | None => mret false
    | Some r =>
        modify (alter_entry (fun e => e <| fe_handlers ::= delete handler_id |>) r) ;;
        s ← get;
        match entry_at s r with
        | Some e =>
            if negb (bool_decide (fe_handlers e = ∅)) then mret true
            else UninstallFilter r ;; EraseEntry (fe_filter e) ;; mret true
        | None => mret true
        end
    end.

(** ** Reception

    [CanFrameReceivedCallback], in the interrupt; [queue_size] is the configured length of the queue. *)
Definition CanFrameReceivedCallback (queue_size : nat) (frame : RawFrame) : CB unit :=
  s ← get;
  if bool_decide (length (frame_msgq_ s) < queue_size)%nat
  then modify (fun s => s <| frame_msgq_ ::= fun q => q ++ [frame] |>)
  else modify (fun s => s <| rx_dropped_ ::= fun n => u32 (n + 1) |>).

(** [handler_runs]: what the handler does to this bus while it runs. *)
Definition DispatchFrame (handler_runs : Z -> CanFrame -> CB unit) (frame : CanFrame) : CB unit :=
  let id := mkCanId (fr_id frame) (fr_is_extended frame) in
  s ← get;
  match FindMatchingEntry id s ≫= entry_at s with
  | None => mret tt
  | Some entry =>
      for_each (take MAX_HANDLERS_PER_FILTER (uiter (fe_handlers entry)).*1) (fun handler_id : Z =>
        s ← get;
        match FindMatchingEntry id s ≫= entry_at s with
        | None => mret tt
        | Some current =>
            match fe_handlers current !! handler_id with
            | None => mret tt
            | Some handler => emit (CallHandler handler_id handler frame) ;; handler_runs handler frame
            end
        end)
  end.

Definition FrameOfRaw (raw : RawFrame) : CanFrame :=
  let frame_size :=
    if rf_is_rtr raw then O
    else ((can_dlc_to_bytes (rf_dlc raw) `min` (if rf_is_fdf raw then CAN_MAX_DLEN else 8)) `min` CAN_MAX_DLEN)%nat in
  mkFrame (rf_id raw) (rf_is_ide raw) false (rf_is_fdf raw) (rf_is_brs raw) (rf_is_rtr raw)
    (Assign (take frame_size (rf_data raw))).

Definition ProcessFramesTask (handler_runs : Z -> CanFrame -> CB unit) : CB unit :=
  s ← get;
  match frame_msgq_ s with
  | [] => mret tt
  | raw :: queue => modify (fun s => s <| frame_msgq_ := queue |>) ;; DispatchFrame handler_runs (FrameOfRaw raw)
  end.

(** ** Transmission *)

Definition SendFrame (frame_id : CanId) (frame_data : list Z) : CB Z :=
  s ← get;
  if negb (is_initialized_ s) || negb (bitrate_detected_ s) || negb (bool_decide (cb_service_state_ s = RUNNING))
  then mret (- ENETDOWN)
  else if negb (CanId_IsValid frame_id) then mret (- EINVAL)
  else
    let type := cc_type (config_ s) in
    let max_data_length := (GetMaxDataLength type `min` CAN_MAX_DLEN)%nat in
    if bool_decide (max_data_length < length frame_data)%nat then mret (- EINVAL)
    else
      let is_fd := bool_decide (type = CANFD) in
      let frame := mkRawFrame (can_id frame_id) (can_bytes_to_dlc (length frame_data)) (can_is_extended frame_id)
                     false is_fd is_fd (frame_data ++ replicate (CAN_MAX_DLEN - length frame_data) 0) in
      emit (FrameToDriver frame) ;;
      on_driver (fun dev => can_send dev frame).

(** ** Configuration *)

Definition StartActivityMonitoring : CB bool := modify (fun s => s <| auto_detect_running_ := true |>) ;; mret true.
Definition StopActivityMonitoring : CB unit := modify (fun s => s <| auto_detect_running_ := false |>).

Definition ApplyMode (extra_modes : Z) : CB bool :=
  s ← get;
  let '(ret, capabilities) := can_get_capabilities (cc_dev (config_ s)) (cb_driver s) in
  if negb (bool_decide (ret = 0)) then mret false
  else
    let has_fd := negb (bool_decide (Z.land capabilities CAN_MODE_FD = 0)) in
    let is_fd := bool_decide (cc_type (config_ s) = CANFD) in
    when (is_fd && negb has_fd)
      (modify (fun s => s <| config_ ::= fun c => c <| cc_type := CLASSICAL_CAN |> <| cc_data_bitrate := 0 |> |>)) ;;
    let extra_modes :=
      if negb (bool_decide (Z.land extra_modes (not32 capabilities) = 0)) then Z.land extra_modes capabilities
      else extra_modes in
    let can_mode := Z.lor (if is_fd && has_fd then CAN_MODE_FD else 0) extra_modes in
    on_driver (fun dev => can_set_mode dev can_mode) ≫= fun ret : Z =>
    if negb (bool_decide (ret = 0)) then mret false else emit (ModeSet can_mode) ;; mret true.

Definition SetTiming (bitrate : Z) : CB bool :=
  if bool_decide (bitrate = 0) then mret false
  else on_driver (fun dev => can_set_bitrate dev bitrate) ≫= fun ret : Z => mret (bool_decide (ret = 0)).
Definition SetDataTiming (bitrate : Z) : CB bool :=
  if bool_decide (bitrate = 0) then mret false
  else
    s ← get;
    if negb (bool_decide (cc_type (config_ s) = CANFD)) then mret false
    else on_driver (fun dev => can_set_bitrate_data dev bitrate) ≫= fun ret : Z => mret (bool_decide (ret = 0)).

Definition StartController : CB Z :=
  on_driver can_start ≫= fun ret : Z => when (bool_decide (ret = 0)) (emit ControllerStarted) ;; mret ret.
Definition StopController : CB Z :=
  on_driver can_stop ≫= fun ret : Z => when (bool_decide (ret = 0)) (emit ControllerStopped) ;; mret ret.

Definition UnregisterStateChangeCallback : CB unit :=
  s ← get;
  match state_change_callback_dev_ s with
  | None => mret tt
  | Some dev =>
      modify (fun s => s <| cb_driver ::= can_remove_state_change_callback dev |> <| state_change_callback_dev_ := None |>)
  end.
Definition RegisterStateChangeCallback : CB unit :=
  s ← get;
  if bool_decide (state_change_callback_dev_ s = Some (cc_dev (config_ s))) then mret tt
  else
    UnregisterStateChangeCallback ;;
    on_driver can_add_state_change_callback ≫= fun err : Z =>
    when (bool_decide (err = 0)) (modify (fun s => s <| state_change_callback_dev_ := Some (cc_dev (config_ s)) |>)).

Definition Rollback (previous_config : CanbusConfig) : CB bool :=
  modify (fun s => s <| config_ := previous_config |>) ;; RegisterStateChangeCallback ;; mret false.

Definition Configure (config : CanbusConfig) : CB bool :=
  s ← get;
  if negb (bool_decide (cb_service_state_ s = STOPPED)) then mret false
  else if negb (device_is_ready (cc_dev config) (cb_driver s)) then mret false
  else if negb (IsBitrateSupported (cc_type config) (cc_bitrate config)) then mret false
  else if bool_decide (cc_type config = CANFD) && bool_decide (0 < cc_data_bitrate config)
          && negb (IsBitrateSupported (cc_type config) (cc_data_bitrate config)) then mret false
  else
    RemoveAllFilters ;;
    s ← get;
    let previous_config := config_ s in
    let config := if bool_decide (cc_type config = CANFD) && bool_decide (cc_data_bitrate config = 0)
                  then config <| cc_data_bitrate := cc_bitrate config |> else config in
    modify (fun s => s <| config_ := config |>) ;;
    ApplyMode (cc_extra_modes config) ≫= fun applied : bool =>
    if negb applied then Rollback previous_config
    else
      RegisterStateChangeCallback ;;
      modify (fun s => s <| bitrate_detected_ := false |>) ;;
      s ← get;
      let config := config_ s in
      (if bool_decide (cc_bitrate config = 0) then
         StartActivityMonitoring ≫= fun started : bool => mret started
       else
         SetTiming (cc_bitrate config) ≫= fun timed : bool =>
         if negb timed then mret false
         else
           (if bool_decide (cc_type config = CANFD) then SetDataTiming (cc_data_bitrate config) else mret true)
             ≫= fun data_timed : bool =>
           if negb data_timed then mret false
           else
             StartController ≫= fun ret : Z =>
             if negb (bool_decide (ret = 0)) then mret false
             else modify (fun s => s <| bitrate_detected_ := true |>) ;; mret true) ≫= fun configured : bool =>
      if negb configured then Rollback previous_config
      else modify (fun s => s <| is_initialized_ := true |>) ;; mret true.

(** ** Detection of the bitrate *)

Definition TestBitrate (bitrate : Z) : CB bool :=
  s ← get;
  ApplyMode (Z.lor (cc_extra_modes (config_ s)) CAN_MODE_LISTENONLY) ≫= fun applied : bool =>
  if negb applied then mret false else
  SetTiming bitrate ≫= fun timed : bool =>
  if negb timed then mret false else
  s ← get;
  let data_bitrate c := if bool_decide (cc_data_bitrate c = 0) then bitrate else cc_data_bitrate c in
  (if bool_decide (cc_type (config_ s) = CANFD) then SetDataTiming (data_bitrate (config_ s)) else mret true)
    ≫= fun data_timed : bool =>
  if negb data_timed then mret false else
  StartController ≫= fun ret : Z =>
  if negb (bool_decide (ret = 0)) then mret false else
  on_driver (fun dev => can_add_rx_filter dev CountCallback (mkCanFilter 0 0 false)) ≫= fun filter_id : Z =>
  if bool_decide (filter_id < 0) then StopController ;; mret false else
  emit (SleepMs AUTO_DETECT_SAMPLE_MS) ;;
  on_driver sampled_frames ≫= fun received_frames : Z =>
  modify (fun s => s <| cb_driver ::= can_remove_rx_filter (cc_dev (config_ s)) filter_id |>) ;;
  s ← get;
  let detected := bool_decide (MIN_FRAMES_FOR_DETECTION <= received_frames)
                  && can_is_error_active (cc_dev (config_ s)) (cb_driver s) in
  StopController ;;
  if negb detected then mret false else
  s ← get;
  ApplyMode (cc_extra_modes (config_ s)) ≫= fun reapplied : bool =>
  if negb reapplied then mret false else
  SetTiming bitrate ≫= fun retimed : bool =>
  if negb retimed then mret false else
  s ← get;
  (if bool_decide (cc_type (config_ s) = CANFD) then SetDataTiming (data_bitrate (config_ s)) else mret true)
    ≫= fun data_retimed : bool =>
  if negb data_retimed then mret false else
  StartController ≫= fun ret : Z =>
  mret (bool_decide (ret = 0)).

Fixpoint TryBitrates (bitrates : list Z) : CB bool :=
  match bitrates with
  | [] => mret false
  | bitrate :: bitrates =>
      s ← get;
      if negb (auto_detect_running_ s) || negb (cb_thread_running s) then mret false
      else
        TestBitrate bitrate ≫= fun found : bool =>
        if found then
          modify (fun s => s <| bitrate_detected_ := true |> <| config_ ::= fun c => c <| cc_bitrate := bitrate |> |>) ;;
          modify (fun s => s <| config_ ::= fun c =>
            if bool_decide (cc_type c = CANFD) && bool_decide (cc_data_bitrate c = 0)
            then c <| cc_data_bitrate := bitrate |> else c |>) ;;
          mret true
        else emit (SleepMs 50) ;; TryBitrates bitrates
  end.
Definition AutoDetectBitrate : CB bool :=
  s ← get;
  TryBitrates (if bool_decide (cc_type (config_ s) = CANFD) then CANFD_SUPPORTED_BITRATES
               else CLASSICAL_CAN_SUPPORTED_BITRATES).

(** One round of [BitrateAutodetectTask]; the thread sleeps and tries again until it succeeds.  [callback]:
    one is registered. *)
Definition BitrateAutodetectRound (callback : bool) : CB bool :=
  AutoDetectBitrate ≫= fun found : bool =>
  if found then
    s ← get;
    InstallDeferredFilters ;;
    when callback (emit (CallBitrateDetected (cc_bitrate (config_ s)))) ;;
    StopActivityMonitoring ;; mret true
  else mret false.

(** ** Life cycle

    [stack]: the stack of the thread is there. *)

Definition CanbusDoInitialize (stack : bool) : CB bool :=
  if negb stack then mret false
  else
    modify (fun s => s <| frame_msgq_ := [] |>) ;;
    RemoveAllFilters ;; ClearEntries ;;
    modify (fun s => s <| bitrate_detected_ := false |> <| rx_dropped_ := 0 |>) ;;
    s ← get;
    Configure (config_ s).

Definition CanbusDoStart : CB bool :=
  s ← get;
  if negb (is_initialized_ s) then mret false
  else if cb_thread_running s then mret false
  else modify (fun s => s <| cb_thread_running := true |>) ;; mret true.

Definition CanbusDoStop : CB bool :=
  StopActivityMonitoring ;;
  modify (fun s => s <| cb_thread_running := false |>) ;;
  s ← get;
  (if is_initialized_ s then StopController ≫= fun ret : Z => mret (bool_decide (ret = 0) || bool_decide (ret = - EALREADY))
   else mret true) ≫= fun stopped : bool =>
  if negb stopped then mret false
  else
    RemoveAllFilters ;; ClearEntries ;;
    modify (fun s => s <| frame_msgq_ := [] |> <| is_initialized_ := false |> <| bitrate_detected_ := false |>) ;;
    mret true.

Definition CanbusWorkOf (stack : bool) : ServiceWork Canbus CanEffect :=
  {| sw_state := cb_service_state_; sw_set_state := fun st s => s <| cb_service_state_ := st |>;
     sw_is_pausable := false; sw_initialize := CanbusDoInitialize stack; sw_start := CanbusDoStart;
     sw_stop := CanbusDoStop; sw_pause := mret true; sw_resume := mret true |}.
End canbus.
