(* ===== verification/CanbusSpec.v ===== *)
(** * CAN bus: the registered filters and those of the controller

    What holds between any two calls of a bus: the filters of its entries accept no identifier in common,
    and the controller holds exactly the filters of the entries that are installed. *)

From S2P Require Import Prelude Can Service Canbus.

(** ** What the bus relies on: a controller's filters change by [can_add_rx_filter] and
    [can_remove_rx_filter] only, and a filter that was added has an ID of its own *)

Class LawfulCanDriver `{D : CanDriver} := {
  rx_filters : Z -> driver -> gmap Z (RxCallback * CanFilter);
  add_refused : forall dev cb f d, (can_add_rx_filter dev cb f d).2 < 0 ->
    forall dev', rx_filters dev' (can_add_rx_filter dev cb f d).1 = rx_filters dev' d;
  add_fresh : forall dev cb f d, 0 <= (can_add_rx_filter dev cb f d).2 ->
    rx_filters dev d !! (can_add_rx_filter dev cb f d).2 = None;
  add_added : forall dev cb f d, 0 <= (can_add_rx_filter dev cb f d).2 ->
    forall dev', rx_filters dev' (can_add_rx_filter dev cb f d).1 =
      if bool_decide (dev' = dev) then <[(can_add_rx_filter dev cb f d).2 := (cb, f)]> (rx_filters dev d) else rx_filters dev' d;
  remove_removed : forall dev id d dev', rx_filters dev' (can_remove_rx_filter dev id d) =
      if bool_decide (dev' = dev) then delete id (rx_filters dev d) else rx_filters dev' d;
  mode_keeps : forall dev m d dev', rx_filters dev' (can_set_mode dev m d).1 = rx_filters dev' d;
  bitrate_keeps : forall dev b d dev', rx_filters dev' (can_set_bitrate dev b d).1 = rx_filters dev' d;
  data_bitrate_keeps : forall dev b d dev', rx_filters dev' (can_set_bitrate_data dev b d).1 = rx_filters dev' d;
  start_keeps_filters : forall dev d dev', rx_filters dev' (can_start dev d).1 = rx_filters dev' d;
  stop_keeps_filters : forall dev d dev', rx_filters dev' (can_stop dev d).1 = rx_filters dev' d;
  send_keeps : forall dev f d dev', rx_filters dev' (can_send dev f d).1 = rx_filters dev' d;
  add_callback_keeps : forall dev d dev', rx_filters dev' (can_add_state_change_callback dev d).1 = rx_filters dev' d;
  remove_callback_keeps : forall dev d dev', rx_filters dev' (can_remove_state_change_callback dev d) = rx_filters dev' d;
  sample_keeps : forall dev d dev', rx_filters dev' (sampled_frames dev d).1 = rx_filters dev' d;
}.

(** ** The invariant

    [E]: the entries by reference.  [hole]: an entry that has no handlers yet, or no more.  [probe]: the
    counting filter of the bitrate detection. *)

Record entry_ok (r : EntryRef) (e : FilterEntry) : Prop := {
  eo_valid : CanFilter_IsValid (fe_filter e) = true;
  eo_u32 : filter_u32 (fe_filter e);
  eo_normal : Normalized (fe_filter e) = fe_filter e;
  eo_ref : match r with
           | ExactRef key => IsExact (fe_filter e) = true /\ key = filter_key (fe_filter e)
           | MaskRef _ => IsExact (fe_filter e) = false
           end;
  eo_count : (size (fe_handlers e) <= MAX_HANDLERS_PER_FILTER)%nat;
}.

Record registry (E : EntryRef -> option FilterEntry) (next : Z) (hole : option EntryRef) : Prop := {
  rg_entry : forall r e, E r = Some e -> entry_ok r e;
  rg_handlers : forall r e i, E r = Some e -> is_Some (fe_handlers e !! i) -> 0 < i < next;
  rg_nonempty : forall r e, E r = Some e -> fe_handlers e = ∅ -> hole = Some r;
  rg_disjoint : forall r1 r2 e1 e2, E r1 = Some e1 -> E r2 = Some e2 -> r1 <> r2 -> Overlaps (fe_filter e1) (fe_filter e2) = false;
  rg_owner : forall r1 r2 e1 e2 i, E r1 = Some e1 -> E r2 = Some e2 ->
    is_Some (fe_handlers e1 !! i) -> is_Some (fe_handlers e2 !! i) -> r1 = r2;
}.

Record hardware `{LawfulCanDriver} (E : EntryRef -> option FilterEntry) (dev : Z) (d : driver) (probe : option Z) : Prop := {
  hw_installed : forall r e, E r = Some e -> 0 <= fe_filter_id e ->
    rx_filters dev d !! fe_filter_id e = Some (ReceivedCallback, fe_filter e);
  hw_owned : forall dev' id cb f, rx_filters dev' d !! id = Some (cb, f) ->
    dev' = dev /\ (cb = CountCallback /\ probe = Some id \/
      cb = ReceivedCallback /\ exists r e, E r = Some e /\ fe_filter_id e = id /\ fe_filter e = f);
  hw_ids : forall dev' id x, rx_filters dev' d !! id = Some x -> 0 <= id;
  hw_probe : forall id r e, probe = Some id -> E r = Some e -> fe_filter_id e <> id;
}.

Record bus_inv `{LawfulCanDriver} (hole : option EntryRef) (probe : option Z) (s : Canbus) : Prop := {
  bi_masks : length (mask_entries_ s) = MAX_MASK_FILTERS;
  bi_next : 0 < next_handler_id_ s;
  bi_registry : registry (entry_at s) (next_handler_id_ s) hole;
  bi_hardware : hardware (entry_at s) (cc_dev (config_ s)) (cb_driver s) probe;
}.
Definition bus_wf `{LawfulCanDriver} : Canbus -> Prop := bus_inv None None.

(** ** Entries by reference *)

Section entries.
Context `{CanDriver}.
Implicit Types s : Canbus.

Lemma entry_at_alter f r s r' :
  entry_at (alter_entry f r s) r' = if bool_decide (r' = r) then f <$> entry_at s r else entry_at s r'.
Proof.
  destruct r as [k|i], r' as [k'|i']; simpl.
  - case_bool_decide as E; [injection E as ->; by rewrite lookup_alter_eq|]. rewrite lookup_alter_ne; [done|]. by intros ->.
  - done.
  - done.
  - case_bool_decide as E; [injection E as ->; rewrite list_lookup_alter_eq|].
    + by destruct (mask_entries_ s !! i) as [[e|]|].
    + rewrite list_lookup_alter_ne; [done|]. by intros ->.
Qed.
Lemma alter_entry_rest f r s :
  config_ (alter_entry f r s) = config_ s /\ cb_driver (alter_entry f r s) = cb_driver s /\
  next_handler_id_ (alter_entry f r s) = next_handler_id_ s /\ length (mask_entries_ (alter_entry f r s)) = length (mask_entries_ s).
Proof. destruct r; simpl; by rewrite ?length_alter. Qed.

Lemma find_mask_Some p s i :
  find_mask p s = Some i -> exists e, entry_at s (MaskRef i) = Some e /\ p e = true.
Proof.
  intros ([o [Ho Hp]] & _)%find_index_Some. destruct o as [e|]; [|done]. exists e. simpl. by rewrite Ho.
Qed.
Lemma find_mask_None p s i e : find_mask p s = None -> entry_at s (MaskRef i) = Some e -> p e = false.
Proof.
  intros Hn He. simpl in He. destruct (mask_entries_ s !! i) as [[e'|]|] eqn:Hi; [|done..]. injection He as ->.
  assert (forall o, o ∈ mask_entries_ s -> match o with Some e => p e | None => false end = false) as Hall by by apply find_index_None.
  apply (Hall (Some e)). by eapply list_elem_of_lookup_2.
Qed.
Lemma find_mask_exists p s : (exists i e, entry_at s (MaskRef i) = Some e /\ p e = true) -> exists i, find_mask p s = Some i.
Proof.
  intros (i & e & He & Hp). destruct (find_mask p s) as [j|] eqn:E; [by exists j|]. by rewrite (find_mask_None p s i e) in Hp.
Qed.

Lemma Overlaps_refl f : Overlaps f f = true.
Proof. unfold Overlaps. by rewrite !bool_decide_eq_true_2 by (rewrite ?Z.lxor_nilpotent; done). Qed.
Lemma Overlaps_sym f g : Overlaps f g = Overlaps g f.
Proof.
  unfold Overlaps. f_equal; apply bool_decide_ext; [intuition congruence|].
  by rewrite Z.lxor_comm, <- !Z.land_assoc, (Z.land_comm (cf_mask f)).
Qed.
End entries.

(** ** Changes of one entry *)

Definition set_entry (r : EntryRef) (o : option FilterEntry) (E : EntryRef -> option FilterEntry) (r' : EntryRef) : option FilterEntry :=
  if bool_decide (r' = r) then o else E r'.

Lemma set_entry_eq r o E : set_entry r o E r = o.
Proof. unfold set_entry. by rewrite bool_decide_eq_true_2. Qed.
Lemma set_entry_ne r o E r' : r' <> r -> set_entry r o E r' = E r'.
Proof. intros Hr. unfold set_entry. by rewrite bool_decide_eq_false_2. Qed.
Lemma set_entry_Some r o E r' e : set_entry r o E r' = Some e -> r' = r /\ o = Some e \/ r' <> r /\ E r' = Some e.
Proof. unfold set_entry. case_bool_decide; intros; [by left|by right]. Qed.

Section changes.
Context `{LawfulCanDriver}.
Implicit Types E : EntryRef -> option FilterEntry.

Lemma registry_ext E E' next hole : (forall r, E' r = E r) -> registry E next hole -> registry E' next hole.
Proof. intros HE [He Hh Hn Hd Ho]. split; intros *; rewrite !HE; eauto. Qed.
Lemma hardware_ext E E' dev d probe : (forall r, E' r = E r) -> hardware E dev d probe -> hardware E' dev d probe.
Proof.
  intros HE [Hi Ho Hpos Hp]. split; [intros *; rewrite HE; eauto| |done|intros *; rewrite HE; eauto]. intros dev' id cb f Hid.
  destruct (Ho _ _ _ _ Hid) as [-> [?|[-> (r & e & Hr & ?)]]]; [by auto|split; [done|right]]. split; [done|]. exists r, e. by rewrite HE.
Qed.

(** Handlers of an entry come, with a new ID, or go. *)
Lemma registry_handlers E next hole next' hole' r e handlers :
  registry E next hole -> E r = Some e -> next <= next' -> (hole = None \/ hole = Some r) ->
  (size handlers <= MAX_HANDLERS_PER_FILTER)%nat ->
  (forall i, is_Some (handlers !! i) -> is_Some (fe_handlers e !! i) \/ next <= i < next' /\ 0 < i) ->
  (handlers = ∅ -> hole' = Some r) ->
  registry (set_entry r (Some (e <| fe_handlers := handlers |>)) E) next' hole'.
Proof.
  intros [He Hh Hn Hd Ho] Hr Hnext Hhole Hsize Hids Hempty. split.
  - intros r' e' [[-> [= <-]]|[_ Hr']]%set_entry_Some; [|by apply He]. destruct (He _ _ Hr). by split.
  - intros r' e' i [[-> [= <-]]|[_ Hr']]%set_entry_Some Hi; simpl in *.
    + destruct (Hids i Hi) as [Hi'|?]; [|lia]. specialize (Hh _ _ _ Hr Hi'). lia.
    + specialize (Hh _ _ _ Hr' Hi). lia.
  - intros r' e' [[-> [= <-]]|[Hne Hr']]%set_entry_Some Hemp; simpl in *; [by apply Hempty|].
    specialize (Hn _ _ Hr' Hemp). destruct Hhole; congruence.
  - intros r1 r2 e1 e2 [[-> [= <-]]|[Hne1 Hr1]]%set_entry_Some [[-> [= <-]]|[Hne2 Hr2]]%set_entry_Some Hne; simpl; by eauto.
  - intros r1 r2 e1 e2 i [[-> [= <-]]|[Hne1 Hr1]]%set_entry_Some [[-> [= <-]]|[Hne2 Hr2]]%set_entry_Some I1 I2; simpl in *; [done| | |by eauto].
    + destruct (Hids i I1) as [I1x|?]; [by eapply (Ho r r2)|]. specialize (Hh _ _ _ Hr2 I2). lia.
    + destruct (Hids i I2) as [I2x|?]; [by eapply (Ho r1 r)|]. specialize (Hh _ _ _ Hr1 I1). lia.
Qed.
Lemma registry_filter_id E next hole r e id :
  registry E next hole -> E r = Some e -> registry (set_entry r (Some (e <| fe_filter_id := id |>)) E) next hole.
Proof.
  intros [He Hh Hn Hd Ho] Hr. split.
  - intros r' e' [[-> [= <-]]|[_ Hr']]%set_entry_Some; [|by apply He]. by destruct (He _ _ Hr).
  - intros r' e' i [[-> [= <-]]|[_ Hr']]%set_entry_Some Hi; by eauto.
  - intros r' e' [[-> [= <-]]|[Hne Hr']]%set_entry_Some Hemp; by eauto.
  - intros r1 r2 e1 e2 [[-> [= <-]]|[Hne1 Hr1]]%set_entry_Some [[-> [= <-]]|[Hne2 Hr2]]%set_entry_Some Hne; simpl; by eauto.
  - intros r1 r2 e1 e2 i [[-> [= <-]]|[Hne1 Hr1]]%set_entry_Some [[-> [= <-]]|[Hne2 Hr2]]%set_entry_Some I1 I2; simpl in *; by eauto.
Qed.
Lemma registry_create E next r e :
  registry E next None -> E r = None -> entry_ok r e -> fe_handlers e = ∅ ->
  (forall r' e', E r' = Some e' -> Overlaps (fe_filter e') (fe_filter e) = false) ->
  registry (set_entry r (Some e) E) next (Some r).
Proof.
  intros [He Hh Hn Hd Ho] Hr Hok Hemp Hov. split.
  - intros r' e' [[-> [= <-]]|[_ Hr']]%set_entry_Some; by eauto.
  - intros r' e' i [[-> [= <-]]|[_ Hr']]%set_entry_Some Hi; [|by eauto]. rewrite Hemp, lookup_empty in Hi. by destruct Hi.
  - intros r' e' [[-> [= <-]]|[Hne Hr']]%set_entry_Some He'; [done|]. by specialize (Hn _ _ Hr' He').
  - intros r1 r2 e1 e2 [[-> [= <-]]|[Hne1 Hr1]]%set_entry_Some [[-> [= <-]]|[Hne2 Hr2]]%set_entry_Some Hne; [done|rewrite Overlaps_sym|..]; by eauto.
  - intros r1 r2 e1 e2 i [[-> [= <-]]|[Hne1 Hr1]]%set_entry_Some [[-> [= <-]]|[Hne2 Hr2]]%set_entry_Some I1 I2; [done| | |by eauto].
    + rewrite Hemp, lookup_empty in I1. by destruct I1.
    + rewrite Hemp, lookup_empty in I2. by destruct I2.
Qed.
Lemma registry_delete E next hole r :
  registry E next hole -> (hole = None \/ hole = Some r) -> registry (set_entry r None E) next None.
Proof.
  intros [He Hh Hn Hd Ho] Hhole. split.
  - intros r' e' [[_ ?]|[_ Hr']]%set_entry_Some; by eauto.
  - intros r' e' i [[_ ?]|[_ Hr']]%set_entry_Some Hi; by eauto.
  - intros r' e' [[_ ?]|[Hne Hr']]%set_entry_Some Hemp; [done|]. specialize (Hn _ _ Hr' Hemp). destruct Hhole; congruence.
  - intros r1 r2 e1 e2 [[_ ?]|[_ Hr1]]%set_entry_Some [[_ ?]|[_ Hr2]]%set_entry_Some Hne; by eauto.
  - intros r1 r2 e1 e2 i [[_ ?]|[_ Hr1]]%set_entry_Some [[_ ?]|[_ Hr2]]%set_entry_Some I1 I2; by eauto.
Qed.

(** Two entries never share a hardware filter. *)
Lemma filter_ids_distinct E next hole dev d probe r1 r2 e1 e2 :
  registry E next hole -> hardware E dev d probe -> E r1 = Some e1 -> E r2 = Some e2 ->
  0 <= fe_filter_id e1 -> fe_filter_id e1 = fe_filter_id e2 -> r1 = r2.
Proof.
  intros Hr Hh I1 I2 Hid Heq. destruct (decide (r1 = r2)) as [|Hne]; [done|].
  pose proof (hw_installed _ _ _ _ Hh _ _ I1 Hid) as J. rewrite Heq in Hid, J.
  rewrite (hw_installed _ _ _ _ Hh _ _ I2 Hid) in J. injection J as J.
  pose proof (rg_disjoint _ _ _ Hr _ _ _ _ I1 I2 Hne) as Hd. by rewrite <- J, Overlaps_refl in Hd.
Qed.

Lemma hardware_handlers E dev d r e handlers :
  hardware E dev d None -> E r = Some e -> hardware (set_entry r (Some (e <| fe_handlers := handlers |>)) E) dev d None.
Proof.
  intros [Hi Ho Hpos Hp] Hr. split; [| |done|done].
  - intros r' e' [[-> [= <-]]|[_ Hr']]%set_entry_Some Hid; [by apply (Hi r e)|by apply (Hi r' e')].
  - intros dev' id cb f Hid. destruct (Ho _ _ _ _ Hid) as [-> [?|[-> (r' & e' & Hr' & <- & <-)]]]; [by auto|].
    split; [done|right]. split; [done|]. destruct (decide (r' = r)) as [->|Hne].
    + exists r, (e <| fe_handlers := handlers |>). rewrite set_entry_eq. by simplify_eq.
    + exists r', e'. by rewrite set_entry_ne.
Qed.
Lemma hardware_create E dev d r e :
  hardware E dev d None -> E r = None -> fe_filter_id e < 0 -> hardware (set_entry r (Some e) E) dev d None.
Proof.
  intros [Hi Ho Hpos Hp] Hr Hid. split; [| |done|done].
  - intros r' e' [[-> [= <-]]|[_ Hr']]%set_entry_Some Hid'; [lia|by eauto].
  - intros dev' id cb f Hid'. destruct (Ho _ _ _ _ Hid') as [-> [?|[-> (r' & e' & Hr' & <- & <-)]]]; [by auto|].
    split; [done|right]. split; [done|]. exists r', e'. rewrite set_entry_ne; [done|]. intros ->. by rewrite Hr in Hr'.
Qed.
Lemma hardware_delete E dev d r e :
  hardware E dev d None->
  E r = Some e -> fe_filter_id e < 0 -> hardware (set_entry r None E) dev d None.
Proof.
  intros [Hi Ho Hpos Hp] Hr Hid. split; [| |done|done].
  - intros r' e' [[_ ?]|[_ Hr']]%set_entry_Some Hid'; by eauto.
  - intros dev' id cb f Hid'. destruct (Ho _ _ _ _ Hid') as [-> [?|[-> (r' & e' & Hr' & <- & <-)]]]; [by auto|].
    split; [done|right]. split; [done|]. exists r', e'. rewrite set_entry_ne; [done|]. intros ->.
    simplify_eq. apply Hpos in Hid'. lia.
Qed.
End changes.

(** ** The driver's part *)

Section hardware.
Context `{LawfulCanDriver}.
Implicit Types E : EntryRef -> option FilterEntry.

Lemma hardware_same E dev d d' probe :
  (forall dev', rx_filters dev' d' = rx_filters dev' d) -> hardware E dev d probe -> hardware E dev d' probe.
Proof. intros Hd [Hi Ho Hpos Hp]. split; [..|done]; intros *; rewrite Hd; eauto. Qed.

Lemma hardware_add E dev d r e :
  let o := can_add_rx_filter dev ReceivedCallback (fe_filter e) d in
  hardware E dev d None -> E r = Some e -> fe_filter_id e < 0 -> 0 <= o.2 ->
  hardware (set_entry r (Some (e <| fe_filter_id := o.2 |>)) E) dev o.1 None.
Proof.
  intros o [Hi Ho Hpos Hp] Hr Hid Hok. pose proof (add_added dev ReceivedCallback (fe_filter e) d Hok) as Hadd.
  pose proof (add_fresh dev ReceivedCallback (fe_filter e) d Hok) as Hfresh. fold o in Hadd, Hfresh, Hok. clearbody o.
  split; [..|done].
  - intros r' e' [[-> [= <-]]|[Hne Hr']]%set_entry_Some Hid'; rewrite Hadd, bool_decide_eq_true_2 by done; simpl.
    + by rewrite lookup_insert_eq.
    + specialize (Hi _ _ Hr' Hid'). rewrite lookup_insert_ne; [done|]. intros Heq. by rewrite <- Heq, Hfresh in Hi.
  - intros dev' id cb f. rewrite Hadd. case_bool_decide as Hdev; [subst dev'|].
    + intros [[<- [= <- <-]]|[Hne Hid']]%lookup_insert_Some.
      * split; [done|right]. split; [done|]. eexists r, _. rewrite set_entry_eq. by split.
      * destruct (Ho _ _ _ _ Hid') as [_ [?|[-> (r' & e' & Hr' & <- & <-)]]]; [by auto|]. split; [done|right]. split; [done|].
        destruct (decide (r' = r)) as [->|Hr2].
        -- assert (e' = e) as -> by congruence. apply Hpos in Hid'. lia.
        -- exists r', e'. by rewrite set_entry_ne.
    + intros Hid'. by destruct (Ho _ _ _ _ Hid') as [? _].
  - intros dev' id x. rewrite Hadd. case_bool_decide; [|by apply Hpos]. intros [[<- _]|[_ ?]]%lookup_insert_Some; [done|by eapply Hpos].
Qed.
Lemma hardware_remove E next hole dev d r e :
  registry E next hole -> hardware E dev d None -> E r = Some e -> 0 <= fe_filter_id e ->
  hardware (set_entry r (Some (e <| fe_filter_id := -1 |>)) E) dev (can_remove_rx_filter dev (fe_filter_id e) d) None.
Proof.
  intros Hreg Hw Hr Hid. pose proof Hw as [Hi Ho Hpos Hp]. split; [..|done].
  - intros r' e' [[-> [= <-]]|[Hne Hr']]%set_entry_Some Hid'; [simpl in Hid'; lia|].
    rewrite remove_removed, bool_decide_eq_true_2 by done. rewrite lookup_delete_ne; [by apply (Hi r' e')|].
    intros Heq. apply Hne. symmetry. by eapply filter_ids_distinct.
  - intros dev' id cb f. rewrite remove_removed. case_bool_decide as Hdev; [subst dev'|].
    + intros [Hne Hid']%lookup_delete_Some. destruct (Ho _ _ _ _ Hid') as [_ [?|[-> (r' & e' & Hr' & <- & <-)]]]; [by auto|].
      split; [done|right]. split; [done|]. exists r', e'. rewrite set_entry_ne; [done|]. intros ->. congruence.
    + intros Hid'. by destruct (Ho _ _ _ _ Hid') as [? _].
  - intros dev' id x. rewrite remove_removed. case_bool_decide; [|by apply Hpos]. intros [_ ?]%lookup_delete_Some. by eapply Hpos.
Qed.
Lemma hardware_probe E dev d f :
  let o := can_add_rx_filter dev CountCallback f d in
  hardware E dev d None -> 0 <= o.2 -> hardware E dev o.1 (Some o.2).
Proof.
  intros o [Hi Ho Hpos Hp] Hok. pose proof (add_added dev CountCallback f d Hok) as Hadd.
  pose proof (add_fresh dev CountCallback f d Hok) as Hfresh. fold o in Hadd, Hfresh, Hok. clearbody o. split.
  - intros r e Hr Hid. rewrite Hadd, bool_decide_eq_true_2 by done. specialize (Hi _ _ Hr Hid).
    rewrite lookup_insert_ne; [done|]. intros Heq. by rewrite <- Heq, Hfresh in Hi.
  - intros dev' id cb f'. rewrite Hadd. case_bool_decide as Hdev; [subst dev'|].
    + intros [[<- [= <- <-]]|[Hne Hid']]%lookup_insert_Some; [by auto|].
      destruct (Ho _ _ _ _ Hid') as [_ [[_ ?]|?]]; [done|by auto].
    + intros Hid'. by destruct (Ho _ _ _ _ Hid') as [? _].
  - intros dev' id x. rewrite Hadd. case_bool_decide; [|by apply Hpos]. intros [[<- _]|[_ ?]]%lookup_insert_Some; [done|by eapply Hpos].
  - intros id r e [= <-] Hr Heq. assert (0 <= fe_filter_id e) as Hid by by rewrite Heq.
    specialize (Hi _ _ Hr Hid). by rewrite Heq, Hfresh in Hi.
Qed.
Lemma hardware_unprobe E dev d id :
  hardware E dev d (Some id) -> hardware E dev (can_remove_rx_filter dev id d) None.
Proof.
  intros [Hi Ho Hpos Hp]. split; [..|done].
  - intros r e Hr Hid. rewrite remove_removed, bool_decide_eq_true_2 by done. specialize (Hi _ _ Hr Hid).
    rewrite lookup_delete_ne; [done|]. intros Heq. by eapply (Hp id).
  - intros dev' id' cb f. rewrite remove_removed. case_bool_decide as Hdev; [subst dev'|].
    + intros [Hne Hid']%lookup_delete_Some. destruct (Ho _ _ _ _ Hid') as [_ [[_ [= ->]]|?]]; [done|by auto].
    + intros Hid'. by destruct (Ho _ _ _ _ Hid') as [? _].
  - intros dev' id' x. rewrite remove_removed. case_bool_decide; [|by apply Hpos]. intros [_ ?]%lookup_delete_Some. by eapply Hpos.
Qed.
End hardware.

(** ** The methods keep it *)

Section methods.
Context `{LawfulCanDriver} `{UnorderedIter}.
Implicit Types s : Canbus.

Lemma bind_on_driver {B} call (f : Z -> CB B) s :
  (on_driver call ≫= f) s =
  f (call (cc_dev (config_ s)) (cb_driver s)).2 (s <| cb_driver := (call (cc_dev (config_ s)) (cb_driver s)).1 |>).
Proof.
  unfold on_driver. rewrite bind_assoc, bind_get. destruct (call _ _) as [d ret]. cbn [fst snd].
  by rewrite bind_assoc, bind_modify, bind_ret.
Qed.

Lemma entry_at_altered g r s r' : entry_at (alter_entry g r s) r' = set_entry r (g <$> entry_at s r) (entry_at s) r'.
Proof. apply entry_at_alter. Qed.

Lemma altered_inv hole g r e s :
  length (mask_entries_ s) = MAX_MASK_FILTERS -> 0 < next_handler_id_ s -> entry_at s r = Some e ->
  registry (set_entry r (Some (g e)) (entry_at s)) (next_handler_id_ s) hole ->
  hardware (set_entry r (Some (g e)) (entry_at s)) (cc_dev (config_ s)) (cb_driver s) None ->
  bus_inv hole None (alter_entry g r s).
Proof.
  intros Hm Hn He Hr' Hh'. destruct (alter_entry_rest g r s) as (E1 & E2 & E3 & E4). split; rewrite ?E1, ?E2, ?E3, ?E4; [done|done| |].
  - eapply registry_ext; [|exact Hr']. intros r'. by rewrite entry_at_altered, He.
  - eapply hardware_ext; [|exact Hh']. intros r'. by rewrite entry_at_altered, He.
Qed.

(** The driver's calls that leave the filters alone. *)
Lemma driver_keeps {hole probe} call :
  (forall dev d dev', rx_filters dev' (call dev d).1 = rx_filters dev' d) -> preserves (bus_inv hole probe) (on_driver call).
Proof.
  intros Hc s [Hm Hn Hr Hh]. unfold on_driver. rewrite bind_get. specialize (Hc (cc_dev (config_ s)) (cb_driver s)).
  destruct (call _ _) as [d ret]. split; [done..|]. by eapply hardware_same.
Qed.

Lemma InstallFilter_inv hole r : preserves (bus_inv hole None) (InstallFilter r).
Proof.
  intros s Hs. unfold InstallFilter. rewrite bind_get. destruct (entry_at s r) as [e|] eqn:He; [|done].
  case_bool_decide as Hid; [done|]. rewrite bind_on_driver.
  pose proof (add_refused (cc_dev (config_ s)) ReceivedCallback (fe_filter e) (cb_driver s)) as Href.
  pose proof (hardware_add (entry_at s) (cc_dev (config_ s)) (cb_driver s) r e) as Hadd. cbv zeta in Hadd.
  destruct (can_add_rx_filter _ _ _ _) as [d id]. cbn [fst snd] in *. destruct Hs as [Hm Hn Hr Hh]. case_bool_decide as Hneg.
  - split; [done..|]. eapply hardware_same; [by apply Href|done].
  - rewrite bind_modify. apply (altered_inv hole _ r e); [done|done|done|by apply registry_filter_id|].
    apply Hadd; [done|done|lia|lia].
Qed.

Lemma UninstallFilter_inv hole r : preserves (bus_inv hole None) (UninstallFilter r).
Proof.
  intros s Hs. unfold UninstallFilter. rewrite bind_get. destruct (entry_at s r) as [e|] eqn:He; [|done].
  case_bool_decide as Hid; [done|]. rewrite bind_modify. destruct Hs as [Hm Hn Hr Hh].
  apply (altered_inv hole _ r e); [done|done|done|by apply registry_filter_id|].
  eapply hardware_remove; [done|done|done|lia].
Qed.

(** *** Taking every filter off the controller *)

Definition bare s : Prop := forall r e, entry_at s r = Some e -> fe_filter_id e < 0.

Lemma UninstallFilter_entries r s r' :
  entry_at (state_of (UninstallFilter r s)) r' =
  if bool_decide (r' = r) then (fun e => if bool_decide (fe_filter_id e < 0) then e else e <| fe_filter_id := -1 |>) <$> entry_at s r
  else entry_at s r'.
Proof.
  unfold UninstallFilter. rewrite bind_get. destruct (entry_at s r) as [e|] eqn:He.
  - case_bool_decide as Hid.
    + change (state_of _) with s. case_bool_decide as Hr; [|done]. subst r'. rewrite He. simpl. by rewrite bool_decide_eq_true_2.
    + rewrite bind_modify. unfold state_of, modify. cbn [fst snd]. rewrite entry_at_alter. case_bool_decide as Hr; [|by destruct r'].
      destruct r; simpl in *; rewrite He; simpl; by rewrite bool_decide_eq_false_2.
  - case_bool_decide as Hr; [|done]. by subst r'.
Qed.
Lemma UninstallFilter_succeeds r : succeeds (UninstallFilter r).
Proof. unfold UninstallFilter. succeed. Qed.

Lemma all_refs_complete s r e : entry_at s r = Some e -> r ∈ all_refs s.
Proof.
  intros He. unfold all_refs. apply elem_of_app. destruct r as [k|i]; simpl in He; [left|right].
  - apply list_elem_of_fmap. exists k. split; [done|]. apply elem_of_uiter_fst. by exists e.
  - apply list_elem_of_fmap. exists i. split; [done|]. apply elem_of_seq. destruct (mask_entries_ s !! i) eqn:Hi; [|done].
    apply lookup_lt_Some in Hi. lia.
Qed.

Lemma RemoveAllFilters_bare hole s :
  bus_inv hole None s ->
  bus_inv hole None (state_of (RemoveAllFilters s)) /\ bare (state_of (RemoveAllFilters s)) /\
  (forall r, (fe_handlers <$> entry_at (state_of (RemoveAllFilters s)) r) = (fe_handlers <$> entry_at s r)) /\
  (forall r, (fe_filter <$> entry_at (state_of (RemoveAllFilters s)) r) = (fe_filter <$> entry_at s r)).
Proof.
  intros Hs. unfold RemoveAllFilters. rewrite bind_get.
  pose (P := fun (done : list EntryRef) (v : Canbus) => bus_inv hole None v /\
    (forall r e, r ∈ done -> entry_at v r = Some e -> fe_filter_id e < 0) /\
    (forall r, fe_handlers <$> entry_at v r = fe_handlers <$> entry_at s r) /\
    (forall r, fe_filter <$> entry_at v r = fe_filter <$> entry_at s r)).
  assert (P (rev_append (all_refs s) []) (state_of (for_each (all_refs s) UninstallFilter s))) as (Hi & Hb & Hh & Hf).
  { apply for_each_after; [intros; apply UninstallFilter_succeeds| |].
    - intros done r v _ (Hv & Hb & Hh & Hf). split_and!; [by apply UninstallFilter_inv| | |].
      + intros r' e Hr'. rewrite UninstallFilter_entries. case_bool_decide as Heq.
        * destruct (entry_at v r) as [e0|]; intros [= <-]. case_bool_decide; [done|]. simpl. lia.
        * apply Hb. by apply elem_of_cons in Hr' as [?|?].
      + intros r'. rewrite UninstallFilter_entries. case_bool_decide as Heq; [subst r'|apply Hh]. rewrite <- (Hh r).
        destruct (entry_at v r); simpl; [|done]. by case_bool_decide.
      + intros r'. rewrite UninstallFilter_entries. case_bool_decide as Heq; [subst r'|apply Hf]. rewrite <- (Hf r).
        destruct (entry_at v r); simpl; [|done]. by case_bool_decide.
    - split_and!; [done|by intros r e ?%elem_of_nil|done|done]. }
  split_and!; [done| |done|done]. intros r e He. apply (Hb r e); [|done].
  change (r ∈ reverse (all_refs s)). rewrite elem_of_reverse.
  assert (is_Some (fe_handlers <$> entry_at s r)) as [h Hr] by (rewrite <- Hh, He; by eexists).
  apply fmap_Some in Hr as (e0 & He0 & _). by eapply all_refs_complete.
Qed.

Lemma bare_hardware s dev : bus_inv None None s -> bare s -> hardware (entry_at s) dev (cb_driver s) None.
Proof.
  intros [_ _ _ [Hi Ho Hpos Hp]] Hb. split; [|..|done|done].
  - intros r e He Hid. apply Hb in He. lia.
  - intros dev' id cb f Hid. destruct (Ho _ _ _ _ Hid) as [_ [[_ ?]|(_ & r & e & He & Heq & _)]]; [done|].
    apply Hb in He. apply Hpos in Hid. lia.
Qed.
Lemma bare_empty s : bus_inv None None s -> bare s -> forall dev, rx_filters dev (cb_driver s) = ∅.
Proof.
  intros Hs Hb dev. apply map_empty. intros id. destruct (rx_filters dev (cb_driver s) !! id) as [[cb f]|] eqn:E; [|done].
  destruct (hw_owned _ _ _ _ (bare_hardware s (cc_dev (config_ s)) Hs Hb) _ _ _ _ E) as [_ [[_ ?]|(_ & r & e & He & Heq & _)]]; [done|].
  apply Hb in He. assert (0 <= id) by (eapply (hw_ids _ _ _ _ (bare_hardware s 0 Hs Hb)); exact E). lia.
Qed.
End methods.

(** ** The keys of the exact filters *)

Lemma valid_id_small w ext : is_u32 w -> Z.land w (not32 (WidthMask ext)) = 0 -> 0 <= w < 2 ^ 29.
Proof.
  intros Hw Hz. rewrite inside_width in Hz by done. unfold is_u32 in Hw. split; [lia|].
  assert (w = w mod 2 ^ 29) as ->; [|apply Z.mod_pos_bound; lia].
  apply Z.bits_inj'. intros n Hn. destruct (decide (n < 29)).
  - by rewrite Z.mod_pow2_bits_low.
  - rewrite Z.mod_pow2_bits_high by lia. apply Hz. destruct ext; simpl; lia.
Qed.
Lemma Key_arith c : 0 <= can_id c < 2 ^ 29 -> Key c = can_id c + (if can_is_extended c then 2147483648 else 0).
Proof.
  intros Hc. unfold Key. destruct (can_is_extended c); [|by rewrite Z.lor_0_r, Z.add_0_r].
  change 2147483648 with (Z.shiftl 1 31). rewrite Z.lor_comm, lor_shiftl_low by lia. change (1 * 2 ^ 31) with (Z.shiftl 1 31). lia.
Qed.
Lemma Key_inj c c' : 0 <= can_id c < 2 ^ 29 -> 0 <= can_id c' < 2 ^ 29 -> Key c = Key c' -> c = c'.
Proof.
  intros Hc Hc'. rewrite !Key_arith by done. destruct c as [i []], c' as [i' []]; simpl in *; intros; f_equal; try lia; exfalso; lia.
Qed.

Definition good_filter (f : CanFilter) : Prop := CanFilter_IsValid f = true /\ filter_u32 f /\ Normalized f = f.
Lemma good_id f : good_filter f -> 0 <= cf_id f < 2 ^ 29.
Proof.
  intros (Hv & [Hi _] & _). unfold CanFilter_IsValid in Hv. apply andb_true_iff in Hv as [Hv _].
  apply bool_decide_eq_true in Hv. by eapply valid_id_small.
Qed.
Lemma exact_key_inj f g :
  good_filter f -> good_filter g -> IsExact f = true -> IsExact g = true -> filter_key f = filter_key g -> f = g.
Proof.
  intros Hf Hg Ef Eg Hk. apply Key_inj in Hk; [|by apply good_id..]. injection Hk as Hi Hx.
  unfold IsExact, CanFilter_WidthMask in *. apply bool_decide_eq_true in Ef, Eg.
  destruct f as [i m x], g as [j n y]. simpl in *. subst. done.
Qed.
Lemma entry_good r e : entry_ok r e -> good_filter (fe_filter e).
Proof. intros []. by split_and!. Qed.
Lemma land_le a b : 0 <= a -> Z.land a b <= a.
Proof.
  intros Ha. assert (a - Z.land a b = Z.ldiff a (Z.land a b)) as Hs.
  { apply Z.sub_nocarry_ldiff, Z.bits_inj'. intros n Hn. rewrite Z.ldiff_spec, Z.land_spec, Z.bits_0.
    destruct (Z.testbit a n), (Z.testbit b n); done. }
  pose proof (proj2 (Z.ldiff_nonneg a (Z.land a b)) (or_introl Ha)). lia.
Qed.
Lemma Normalized_good f : filter_u32 f -> CanFilter_IsValid f = true -> good_filter (Normalized f).
Proof.
  intros [Hi Hm] Hv. unfold CanFilter_IsValid in *. apply andb_true_iff in Hv as [Hvi Hvm].
  apply bool_decide_eq_true in Hvi, Hvm. unfold good_filter, CanFilter_IsValid, filter_u32, Normalized, CanFilter_WidthMask in *.
  cbn [cf_id cf_mask cf_is_extended] in *. split_and!.
  - apply andb_true_iff. split; apply bool_decide_eq_true; [|done].
    by rewrite (Z.land_comm (cf_id f)), <- Z.land_assoc, Hvi, Z.land_0_r.
  - unfold is_u32 in *. pose proof (land_le (cf_id f) (cf_mask f)). pose proof (proj2 (Z.land_nonneg (cf_id f) (cf_mask f))). lia.
  - done.
  - f_equal. by rewrite <- Z.land_assoc, Z.land_diag.
Qed.
