(* ===== verification/CanbusRuns.v ===== *)
(** * CAN bus: registration, removal and dispatch

    Every method keeps the invariant of [CanbusSpec.v], so in every run no two registered filters accept a
    common identifier, and a frame reaches exactly the handlers whose filter it passes. *)

From S2P Require Import Prelude Can Service Canbus CanbusSpec.

(** ** Finding entries *)

Section finding.
Context `{LawfulCanDriver} `{UnorderedIter}.
Implicit Types s : Canbus.

Lemma FindEntry_Some hole s f r :
  registry (entry_at s) (next_handler_id_ s) hole -> good_filter f -> FindEntry f s = Some r ->
  exists e, entry_at s r = Some e /\ fe_filter e = f.
Proof.
  intros Hr Hf. unfold FindEntry. destruct (IsExact f) eqn:Hx.
  - destruct (exact_entries_ s !! filter_key f) as [e|] eqn:He; [|done]. intros [= <-]. exists e. split; [done|].
    pose proof (rg_entry _ _ _ Hr (ExactRef (filter_key f)) e He) as Hok. destruct (eo_ref _ _ Hok) as [Ee Hk].
    symmetry. apply exact_key_inj; [done|by eapply entry_good|done..].
  - destruct (find_mask _ s) as [i|] eqn:Hi; [|done]. intros [= <-]. apply find_mask_Some in Hi as (e & He & Hp).
    exists e. split; [done|]. by apply bool_decide_eq_true in Hp.
Qed.
Lemma FindEntry_None hole s f :
  registry (entry_at s) (next_handler_id_ s) hole -> FindEntry f s = None ->
  forall r e, entry_at s r = Some e -> fe_filter e <> f.
Proof.
  intros Hr. unfold FindEntry. destruct (IsExact f) eqn:Hx.
  - destruct (exact_entries_ s !! filter_key f) as [e|] eqn:He; [done|]. intros _ r e Hre <-.
    pose proof (eo_ref _ _ (rg_entry _ _ _ Hr _ _ Hre)) as Hk. destruct r as [k|i].
    + destruct Hk as [_ ->]. simpl in Hre. congruence.
    + congruence.
  - destruct (find_mask _ s) as [i|] eqn:Hi; [done|]. intros _ r e Hre <-.
    pose proof (eo_ref _ _ (rg_entry _ _ _ Hr _ _ Hre)) as Hk. destruct r as [k|i]; [destruct Hk; congruence|].
    pose proof (find_mask_None _ _ _ _ Hi Hre) as Hp. cbv beta in Hp. by rewrite bool_decide_eq_true_2 in Hp.
Qed.

Lemma HasOverlap_false s f : HasOverlap f s = false -> forall r e, entry_at s r = Some e -> Overlaps (fe_filter e) f = false.
Proof.
  unfold HasOverlap. rewrite orb_false_iff. intros [Hx Hm] r e He. apply not_true_is_false. intros Ho.
  destruct r as [k|i]; simpl in He.
  - apply not_true_iff_false in Hx. apply Hx, existsb_exists. exists (k, e). split; [|done].
    apply list_elem_of_In. by apply elem_of_uiter.
  - destruct (mask_entries_ s !! i) as [[e'|]|] eqn:Hi; [|done..]. injection He as ->.
    apply not_true_iff_false in Hm. apply Hm, existsb_exists. exists (Some e). split; [|done].
    apply list_elem_of_In. by eapply list_elem_of_lookup_2.
Qed.
Lemma HasOverlap_true s f : HasOverlap f s = true -> exists r e, entry_at s r = Some e /\ Overlaps (fe_filter e) f = true.
Proof.
  unfold HasOverlap. intros [Hx|Hm]%orb_true_iff.
  - apply existsb_exists in Hx as ([k e] & Hin & Ho). apply list_elem_of_In, elem_of_uiter in Hin. by exists (ExactRef k), e.
  - apply existsb_exists in Hm as ([e|] & Hin & Ho); [|done]. apply list_elem_of_In, list_elem_of_lookup_1 in Hin as [i Hi].
    exists (MaskRef i), e. split; [|done]. simpl. by rewrite Hi.
Qed.

Lemma FindEntryByHandler_Some s id r :
  FindEntryByHandler id s = Some r -> exists e, entry_at s r = Some e /\ is_Some (fe_handlers e !! id).
Proof.
  unfold FindEntryByHandler. destruct (find_first _ _) as [[k e]|] eqn:Hf.
  - intros [= <-]. apply find_first_Some in Hf as [Hin Hp]. apply elem_of_uiter in Hin. exists e.
    split; [done|]. by apply bool_decide_eq_true in Hp.
  - destruct (find_mask _ s) as [i|] eqn:Hi; [|done]. intros [= <-]. apply find_mask_Some in Hi as (e & He & Hp).
    exists e. split; [done|]. by apply bool_decide_eq_true in Hp.
Qed.
Lemma FindEntryByHandler_None s id :
  FindEntryByHandler id s = None -> forall r e, entry_at s r = Some e -> fe_handlers e !! id = None.
Proof.
  unfold FindEntryByHandler. destruct (find_first _ _) as [[k e]|] eqn:Hf; [done|].
  destruct (find_mask _ s) as [i|] eqn:Hi; [done|]. intros _ r e He. apply eq_None_not_Some. intros Hsome. destruct r as [k|i].
  - pose proof (proj1 (find_first_None _ _) Hf (k, e)) as Hn. rewrite elem_of_uiter in Hn. specialize (Hn He).
    unfold has_handler in Hn. by apply bool_decide_eq_false in Hn.
  - pose proof (find_mask_None _ _ _ _ Hi He) as Hp. by apply bool_decide_eq_false in Hp.
Qed.

(** A valid identifier is found in the entry whose filter it passes, if there is one. *)
Lemma exact_Matches f c :
  good_filter f -> IsExact f = true -> is_u32 (can_id c) -> CanId_IsValid c = true ->
  Matches f c = true <-> filter_key f = Key c.
Proof.
  intros Hf Hx Hu Hc. pose proof (good_id f Hf) as Hi.
  assert (0 <= can_id c < 2 ^ 29) as Hci by (apply bool_decide_eq_true in Hc; by eapply valid_id_small).
  unfold Matches. rewrite andb_true_iff, !bool_decide_eq_true. split.
  - intros [Hext Hz]. unfold filter_key. f_equal. destruct c as [i x]. simpl in *. subst x. f_equal.
    unfold IsExact in Hx. apply bool_decide_eq_true in Hx. rewrite Hx in Hz.
    assert (Z.lxor i (cf_id f) = 0) as Heq; [|by apply Z.lxor_eq in Heq].
    apply Z.bits_inj'. intros n Hn. rewrite Z.bits_0. rewrite land_zero_bits in Hz. specialize (Hz n Hn).
    unfold CanFilter_WidthMask in Hz. rewrite testbit_WidthMask in Hz by done. case_bool_decide as Hw.
    + by rewrite andb_true_r in Hz.
    + unfold CanId_IsValid, CanId_WidthMask in Hc. apply bool_decide_eq_true in Hc. simpl in Hc.
      rewrite inside_width in Hc by done. destruct Hf as (Hv & [Hfu _] & _). unfold CanFilter_IsValid in Hv.
      apply andb_true_iff in Hv as [Hv _]. apply bool_decide_eq_true in Hv. unfold CanFilter_WidthMask in Hv.
      rewrite inside_width in Hv by done. rewrite Z.lxor_spec, Hc, Hv by lia. done.
  - intros Hk. symmetry in Hk. apply Key_inj in Hk; [|done|done]. destruct c as [i x]. simpl in *. injection Hk as -> ->.
    split; [done|]. by rewrite Z.lxor_nilpotent.
Qed.
Lemma FindMatchingEntry_spec hole s c r e :
  registry (entry_at s) (next_handler_id_ s) hole -> is_u32 (can_id c) -> CanId_IsValid c = true -> entry_at s r = Some e ->
  FindMatchingEntry c s = Some r <-> Matches (fe_filter e) c = true.
Proof.
  intros Hr Hu Hc He. unfold FindMatchingEntry.
  assert (forall r' e', entry_at s r' = Some e' -> Matches (fe_filter e') c = true -> Matches (fe_filter e) c = true -> r = r') as Huniq.
  { intros r' e' He' Hm' Hm. destruct (decide (r = r')) as [|Hne]; [done|].
    pose proof (rg_disjoint _ _ _ Hr _ _ _ _ He He' Hne) as Hd. by rewrite (matches_overlap _ _ c) in Hd. }
  assert (forall k e', entry_at s (ExactRef k) = Some e' -> k = Key c <-> Matches (fe_filter e') c = true) as Hexact.
  { intros k e' He'. pose proof (rg_entry _ _ _ Hr _ _ He') as Hok. destruct (eo_ref _ _ Hok) as [Hx ->].
    symmetry. apply exact_Matches; [by eapply entry_good|done..]. }
  destruct (exact_entries_ s !! Key c) as [e1|] eqn:Hk.
  - assert (Matches (fe_filter e1) c = true) as Hm1 by by apply (Hexact (Key c)). split.
    + intros [= <-]. assert (e = e1) as -> by (simpl in He; congruence). done.
    + intros Hm. f_equal. symmetry. by apply (Huniq (ExactRef (Key c)) e1).
  - split.
    + destruct (find_mask _ s) as [i|] eqn:Hi; [|done]. intros [= <-]. apply find_mask_Some in Hi as (e' & He' & Hm).
      by rewrite He in He'; injection He' as ->.
    + intros Hm. destruct r as [k|i].
      * apply (Hexact k e He) in Hm as ->. simpl in He. congruence.
      * destruct (find_mask_exists (fun e => Matches (fe_filter e) c) s) as [j Hj]; [by eauto|]. rewrite Hj. simpl. f_equal.
        apply find_mask_Some in Hj as (e' & He' & Hm'). symmetry. by apply (Huniq (MaskRef j) e').
Qed.
End finding.

(** ** Registration and removal *)

Section registration.
Context `{LawfulCanDriver} `{UnorderedIter}.
Implicit Types s : Canbus.

Definition fresh_entry (f : CanFilter) : FilterEntry := mkFilterEntry f (-1) ∅.

Lemma CreateEntry_cases s f :
  FindEntry f s = None ->
  (exists r s', CreateEntry f s = (s', [], Ok (Some r)) /\ entry_at s r = None /\
     (forall r', entry_at s' r' = set_entry r (Some (fresh_entry f)) (entry_at s) r') /\
     config_ s' = config_ s /\ cb_driver s' = cb_driver s /\ next_handler_id_ s' = next_handler_id_ s /\
     length (mask_entries_ s') = length (mask_entries_ s) /\ auto_detect_running_ s' = auto_detect_running_ s /\
     match r with ExactRef k => IsExact f = true /\ k = filter_key f | MaskRef _ => IsExact f = false end) \/
  CreateEntry f s = (s, [], Ok None) /\ IsExact f = false /\
    forall i, (i < length (mask_entries_ s))%nat -> is_Some (entry_at s (MaskRef i)).
Proof.
  unfold FindEntry, CreateEntry. destruct (IsExact f) eqn:Hx.
  - destruct (exact_entries_ s !! filter_key f) as [e|] eqn:He; [done|]. intros _. left. rewrite bind_modify.
    eexists (ExactRef (filter_key f)), _. split; [reflexivity|]. split_and!; try done. intros [k|i]; simpl; rewrite ?He.
    + unfold set_entry. case_bool_decide as Hk; [injection Hk as ->; by rewrite lookup_insert_eq|].
      rewrite lookup_insert_ne; [done|]. congruence.
    + by rewrite set_entry_ne.
  - intros _. rewrite bind_get. destruct (find_index _ (mask_entries_ s)) as [i|] eqn:Hi.
    + left. rewrite bind_modify. apply find_index_Some in Hi as [(o & Ho & Hp) _]. apply bool_decide_eq_true in Hp. subst o.
      eexists (MaskRef i), _. split; [reflexivity|]. split_and!; try done.
      * simpl. by rewrite Ho.
      * intros [k|j]; simpl; [by rewrite set_entry_ne|]. unfold set_entry. case_bool_decide as Hj.
        -- injection Hj as ->. rewrite list_lookup_insert_eq; [done|]. by eapply lookup_lt_Some.
        -- rewrite list_lookup_insert_ne; [done|]. congruence.
      * simpl. by rewrite length_insert.
    + right. split_and!; [done..|]. intros i Hlt. destruct (lookup_lt_is_Some_2 _ _ Hlt) as [o Ho].
      pose proof (proj1 (find_index_None _ _) Hi o) as Hn. specialize (Hn ltac:(by eapply list_elem_of_lookup_2)).
      apply bool_decide_eq_false in Hn. simpl. rewrite Ho. by destruct o.
Qed.

Lemma EraseEntry_entries hole next s r e :
  registry (entry_at s) next hole -> entry_at s r = Some e ->
  forall r', entry_at (state_of (EraseEntry (fe_filter e) s)) r' = set_entry r None (entry_at s) r'.
Proof.
  intros Hr He r'. pose proof (eo_ref _ _ (rg_entry _ _ _ Hr _ _ He)) as Hk. unfold EraseEntry. destruct r as [k|i].
  - destruct Hk as [-> ->]. destruct r' as [k'|i']; simpl; [|by rewrite set_entry_ne]. unfold set_entry.
    case_bool_decide as Heq; [injection Heq as ->; by rewrite lookup_delete_eq|]. rewrite lookup_delete_ne; [done|]. congruence.
  - rewrite Hk. destruct r' as [k'|i']; simpl; [by rewrite set_entry_ne|]. rewrite list_lookup_fmap. unfold set_entry.
    case_bool_decide as Heq.
    + injection Heq as ->. simpl in He. destruct (mask_entries_ s !! i) as [[e'|]|]; [|done..]. injection He as ->. simpl.
      by rewrite bool_decide_eq_true_2.
    + change (entry_at s (MaskRef i')) with (mjoin (mask_entries_ s !! i')).
      destruct (mask_entries_ s !! i') as [[e'|]|] eqn:He'; [|done..]. simpl. case_bool_decide as Hf; [|done].
      assert (entry_at s (MaskRef i') = Some e') as Hi' by (simpl; by rewrite He').
      assert (MaskRef i' <> MaskRef i) as Hne by congruence.
      pose proof (rg_disjoint _ _ _ Hr _ _ _ _ Hi' He Hne) as Hd. by rewrite Hf, Overlaps_refl in Hd.
Qed.
Lemma EraseEntry_rest s f :
  let s' := state_of (EraseEntry f s) in
  config_ s' = config_ s /\ cb_driver s' = cb_driver s /\ next_handler_id_ s' = next_handler_id_ s /\
  length (mask_entries_ s') = length (mask_entries_ s).
Proof. unfold EraseEntry. destruct (IsExact f); simpl; by rewrite ?length_fmap. Qed.

Lemma erased_inv hole s r e :
  bus_inv hole None s -> (hole = None \/ hole = Some r) -> entry_at s r = Some e -> fe_filter_id e < 0 ->
  bus_wf (state_of (EraseEntry (fe_filter e) s)).
Proof.
  intros [Hm Hn Hr Hh] Hhole He Hid. pose proof (EraseEntry_entries hole _ s r e Hr He) as HE.
  destruct (EraseEntry_rest s (fe_filter e)) as (E1 & E2 & E3 & E4). split; rewrite ?E1, ?E2, ?E3, ?E4; [done|done| |].
  - eapply registry_ext; [exact HE|]. by eapply registry_delete.
  - eapply hardware_ext; [exact HE|]. by eapply hardware_delete.
Qed.

Lemma registry_close E next r e :
  registry E next (Some r) -> E r = Some e -> fe_handlers e <> ∅ -> registry E next None.
Proof.
  intros [He Hh Hn Hd Ho] Hr Hne. split; [done|done| |done|done]. intros r' e' Hr' Hemp. specialize (Hn _ _ Hr' Hemp).
  injection Hn as <-. congruence.
Qed.

Lemma InstallFilter_cases s r e :
  entry_at s r = Some e ->
  (exists s', InstallFilter r s = (s', [], Ok true) /\ exists id, entry_at s' r = Some (e <| fe_filter_id := id |>) /\ 0 <= id) \/
  fe_filter_id e < 0 /\ (can_add_rx_filter (cc_dev (config_ s)) ReceivedCallback (fe_filter e) (cb_driver s)).2 < 0 /\
  exists d, InstallFilter r s = (s <| cb_driver := d |>, [], Ok false).
Proof.
  intros He. unfold InstallFilter. rewrite bind_get, He. case_bool_decide as Hid.
  - left. exists s. split; [done|]. exists (fe_filter_id e). split; [|done]. by destruct e.
  - rewrite bind_on_driver. destruct (can_add_rx_filter _ _ _ _) as [d id]. cbn [fst snd]. case_bool_decide as Hneg.
    + right. split_and!; [lia|done|]. by eexists.
    + left. rewrite bind_modify. eexists. split; [done|]. exists id. split; [|lia]. rewrite entry_at_alter, bool_decide_eq_true_2 by done.
      destruct r; simpl in *; by rewrite He.
Qed.

Lemma AddHandler_inv hole f h r e s :
  bus_inv hole None s -> (hole = None \/ hole = Some r) -> entry_at s r = Some e -> fe_filter e = f ->
  bus_wf (state_of (AddHandler f h r s)).
Proof.
  intros Hs Hhole He <-. pose proof Hs as [Hm Hn Hr Hh]. unfold AddHandler. rewrite bind_get, He. case_bool_decide as Hsize.
  { change (bus_wf s). split; [done|done| |done]. destruct Hhole as [->| ->]; [done|]. eapply registry_close; [done|done|].
    intros Hemp. rewrite Hemp, map_size_empty in Hsize. unfold MAX_HANDLERS_PER_FILTER in Hsize. lia. }
  rewrite bind_modify.
  set (add := fun x : FilterEntry => x <| fe_handlers ::= <[next_handler_id_ s := h]> |>).
  set (s1 := alter_entry add r (s <| next_handler_id_ := next_handler_id_ s + 1 |>)).
  assert (fe_handlers e !! next_handler_id_ s = None) as Hfresh.
  { apply eq_None_not_Some. intros Hi. pose proof (rg_handlers _ _ _ Hr _ _ _ He Hi). lia. }
  assert (bus_wf s1) as Hs1.
  { apply (altered_inv None add r e); [done|simpl; lia|by destruct r| |].
    - eapply (registry_handlers _ _ hole _ None r e); [by destruct r|done|simpl; lia|done| | |].
      + rewrite map_size_insert_None by done. lia.
      + intros i. destruct (decide (i = next_handler_id_ s)) as [->|]; [right; simpl; lia|]. rewrite lookup_insert_ne by done. by left.
      + intros Hemp. by apply insert_non_empty in Hemp.
    - apply (hardware_handlers _ _ _ r e (<[next_handler_id_ s := h]> (fe_handlers e))) in Hh; [|done]. by destruct r. }
  assert (entry_at s1 r = Some (add e)) as He1.
  { unfold s1. rewrite entry_at_alter, bool_decide_eq_true_2 by done. destruct r; simpl in *; by rewrite He. }
  destruct (_ && _); [exact Hs1|].
  pose proof (InstallFilter_inv None r s1 Hs1) as Hs2.
  destruct (InstallFilter_cases s1 r (add e) He1) as [(s2 & E & _)|(Hid & _ & d & E)]; erewrite bind_ok by exact E;
    rewrite E in Hs2; unfold state_of in Hs2; cbn [fst] in Hs2; rewrite prepend_nil; [exact Hs2|]; clear E.
  cbv iota. set (s2 := s1 <| cb_driver := d |>) in *. set (del := fun x : FilterEntry => x <| fe_handlers ::= delete (next_handler_id_ s) |>).
  rewrite bind_modify, bind_get.
  assert (entry_at s2 r = Some (add e)) as He2 by by destruct r.
  assert (entry_at (alter_entry del r s2) r = Some (del (add e))) as He3.
  { rewrite entry_at_alter, bool_decide_eq_true_2 by done. by rewrite He2. }
  rewrite He3. assert (fe_handlers (del (add e)) = fe_handlers e) as Hback by (simpl; by rewrite delete_insert_id).
  assert (bus_inv (if bool_decide (fe_handlers (del (add e)) = ∅) then Some r else None) None (alter_entry del r s2)) as Hs3.
  { destruct Hs2 as [Hm2 Hn2 Hr2 Hh2]. apply (altered_inv _ del r (add e)); [done|done|done| |].
    - eapply (registry_handlers _ _ None _ _ r (add e)); [done|done|lia|by left| | |].
      + change (size (fe_handlers (del (add e))) <= MAX_HANDLERS_PER_FILTER)%nat. rewrite Hback. lia.
      + intros i Hi. left. by apply lookup_delete_is_Some in Hi as [_ Hi].
      + change (fe_handlers (del (add e)) = ∅ -> (if bool_decide (fe_handlers (del (add e)) = ∅) then Some r else None) = Some r).
        intros ->. done.
    - by apply hardware_handlers. }
  apply bind_from; [|intros _; apply preserves_ret]. case_bool_decide as Hemp; [|exact Hs3].
  change (fe_filter e) with (fe_filter (del (add e))). apply (erased_inv (Some r) _ r (del (add e))); [done|by right|done|exact Hid].
Qed.

Lemma RegisterFrameReceivedHandler_inv f h : filter_u32 f -> preserves bus_wf (RegisterFrameReceivedHandler f h).
Proof.
  intros Hu s Hs. unfold RegisterFrameReceivedHandler. rewrite bind_get. destruct (is_initialized_ s); [|done].
  destruct h as [h|]; [|done]. destruct (CanFilter_IsValid f) eqn:Hv; [|done]. cbn [negb].
  pose proof (Normalized_good f Hu Hv) as Hg. remember (Normalized f) as g eqn:Eg. pose proof Hs as [Hm Hn Hr Hh].
  destruct (FindEntry g s) as [r|] eqn:Hf.
  - destruct (FindEntry_Some _ _ _ _ Hr Hg Hf) as (e & He & Hfe). eapply AddHandler_inv; [exact Hs|by left|done|done].
  - destruct (HasOverlap g s) eqn:Ho; [done|].
    destruct (CreateEntry_cases s g Hf) as [(r & s' & E & Hnone & HE & E1 & E2 & E3 & E4 & _ & Href)|(E & _)];
      erewrite bind_ok by exact E; rewrite prepend_nil; [|exact Hs].
    assert (entry_ok r (fresh_entry g)) as Hok by (destruct Hg as (? & ? & ?); split; [done..|apply Nat.le_0_l]).
    eapply (AddHandler_inv (Some r) g h r (fresh_entry g)); [|by right|by rewrite HE, set_entry_eq|done].
    split; rewrite ?E1, ?E2, ?E3, ?E4; [done|done| |].
    + eapply registry_ext; [exact HE|]. apply registry_create; [done|done|done|done|]. by apply HasOverlap_false.
    + eapply hardware_ext; [exact HE|]. by apply hardware_create.
Qed.

Lemma UninstallFilter_at s r e :
  entry_at s r = Some e -> exists e', entry_at (state_of (UninstallFilter r s)) r = Some e' /\
    fe_filter e' = fe_filter e /\ fe_handlers e' = fe_handlers e /\ fe_filter_id e' < 0.
Proof.
  intros He. rewrite UninstallFilter_entries, bool_decide_eq_true_2, He by done. eexists. split; [done|]. case_bool_decide; simpl; [done|].
  split_and!; [done|done|lia].
Qed.

Lemma without_handler_inv id r e s :
  bus_wf s -> entry_at s r = Some e ->
  bus_inv (if bool_decide (delete id (fe_handlers e) = ∅) then Some r else None) None
    (alter_entry (fun x => x <| fe_handlers ::= delete id |>) r s).
Proof.
  intros Hs He. set (del := fun x : FilterEntry => x <| fe_handlers ::= delete id |>). pose proof Hs as [Hm Hn Hr Hh].
  apply (altered_inv _ del r e); [done|done|done| |by apply hardware_handlers].
  eapply (registry_handlers _ _ None _ _ r e); [done|done|lia|by left| | |].
  - pose proof (eo_count _ _ (rg_entry _ _ _ Hr _ _ He)). etransitivity; [|done]. apply map_subseteq_size, delete_subseteq.
  - intros i Hi. left. by apply lookup_delete_is_Some in Hi as [_ Hi].
  - change (fe_handlers (del e) = ∅ -> (if bool_decide (fe_handlers (del e) = ∅) then Some r else None) = Some r). by intros ->.
Qed.

Lemma RemoveFrameReceivedHandler_inv id : preserves bus_wf (RemoveFrameReceivedHandler id).
Proof.
  intros s Hs. unfold RemoveFrameReceivedHandler. rewrite bind_get. destruct (is_initialized_ s); [|done]. cbn [negb].
  destruct (FindEntryByHandler id s) as [r|] eqn:Hf; [|done]. apply FindEntryByHandler_Some in Hf as (e & He & Hid).
  pose proof (without_handler_inv id r e s Hs He) as Hs1.
  rewrite bind_modify, bind_get. set (del := fun x : FilterEntry => x <| fe_handlers ::= delete id |>) in *.
  assert (entry_at (alter_entry del r s) r = Some (del e)) as He1.
  { rewrite entry_at_alter, bool_decide_eq_true_2 by done. by rewrite He. }
  rewrite He1. change (delete id (fe_handlers e)) with (fe_handlers (del e)) in Hs1.
  case_bool_decide as Hemp; [|exact Hs1]. cbn [negb].
  apply (bind_after (fun v => bus_inv (Some r) None v /\ exists e', entry_at v r = Some e' /\ fe_filter e' = fe_filter (del e) /\ fe_filter_id e' < 0)).
  - apply UninstallFilter_succeeds.
  - split; [by apply UninstallFilter_inv|]. destruct (UninstallFilter_at _ _ _ He1) as (e' & ? & ? & _ & ?). by exists e'.
  - intros _ v (Hv & e' & He' & <- & Hneg). apply bind_from; [|intros _; apply preserves_ret].
    eapply (erased_inv (Some r)); [done|by right|done|done].
Qed.
End registration.

(** ** The other methods

    [bus_at probe unplugged]: the invariant, and if [unplugged] no entry is installed, as while the bus is
    configured. *)

Definition bus_at `{LawfulCanDriver} (probe : option Z) (unplugged : bool) (s : Canbus) : Prop :=
  bus_inv None probe s /\ (unplugged = true -> bare s).

Section others.
Context `{LawfulCanDriver} `{UnorderedIter}.
Implicit Types s : Canbus.
#[local] Abbreviation keeps probe b m := (@preserves Canbus CanEffect _ (bus_at probe b) m).

(** Fields that no filter depends on. *)
Lemma bus_at_fields probe b s s' :
  entry_at s' = entry_at s -> cb_driver s' = cb_driver s -> cc_dev (config_ s') = cc_dev (config_ s) ->
  next_handler_id_ s' = next_handler_id_ s -> mask_entries_ s' = mask_entries_ s -> bus_at probe b s -> bus_at probe b s'.
Proof.
  intros E1 E2 E3 E4 E5 [[Hm Hn Hr Hh] Hb]. split; [split|]; rewrite ?E1, ?E2, ?E3, ?E4, ?E5; try done.
  intros Hu r e. rewrite E1. by apply Hb.
Qed.
#[local] Ltac fields := intros; eapply bus_at_fields; [..|eassumption]; reflexivity.

Lemma call_keeps {probe b} call :
  (forall dev d dev', rx_filters dev' (call dev d).1 = rx_filters dev' d) -> keeps probe b (on_driver call).
Proof.
  intros Hc s [Hs Hb]. split; [by apply (driver_keeps call)|]. intros Hu r e. unfold on_driver. rewrite bind_get.
  destruct (call _ _) as [d ret]. intros He. apply (Hb Hu r e). by destruct r.
Qed.
#[local] Ltac by_call := apply call_keeps; intros; auto using mode_keeps, bitrate_keeps, data_bitrate_keeps,
  start_keeps_filters, stop_keeps_filters, send_keeps, add_callback_keeps, sample_keeps.
#[local] Hint Extern 2 (preserves _ (on_driver _)) => by_call : preserves.
#[local] Ltac walk := preserve; try (fields); try by_call.

Lemma ApplyMode_keeps probe b m : keeps probe b (ApplyMode m).
Proof. unfold ApplyMode. walk. Qed.
Lemma SetTiming_keeps probe b r : keeps probe b (SetTiming r).
Proof. unfold SetTiming. walk. Qed.
Lemma SetDataTiming_keeps probe b r : keeps probe b (SetDataTiming r).
Proof. unfold SetDataTiming. walk. Qed.
Lemma StartController_keeps probe b : keeps probe b StartController.
Proof. unfold StartController. walk. Qed.
Lemma StopController_keeps probe b : keeps probe b StopController.
Proof. unfold StopController. walk. Qed.
#[local] Hint Resolve ApplyMode_keeps SetTiming_keeps SetDataTiming_keeps StartController_keeps StopController_keeps : preserves.
Lemma remove_callback_at probe b dev s : bus_at probe b s -> bus_at probe b (s <| cb_driver ::= can_remove_state_change_callback dev |>).
Proof.
  intros [[Hm Hn Hr Hh] Hb]. split; [split; [done|done|done|]|].
  - eapply hardware_same; [|exact Hh]. intros dev'. apply remove_callback_keeps.
  - intros Hu r e. apply (Hb Hu).
Qed.
Lemma UnregisterStateChangeCallback_keeps probe b : keeps probe b UnregisterStateChangeCallback.
Proof.
  unfold UnregisterStateChangeCallback. preserve. match goal with Hs : bus_at _ _ ?s |- _ => apply (remove_callback_at _ _ z) in Hs end.
  fields.
Qed.
#[local] Hint Resolve UnregisterStateChangeCallback_keeps : preserves.
Lemma RegisterStateChangeCallback_keeps probe b : keeps probe b RegisterStateChangeCallback.
Proof. unfold RegisterStateChangeCallback. walk. Qed.
#[local] Hint Resolve RegisterStateChangeCallback_keeps : preserves.

(** Another device, while nothing is installed. *)
Lemma config_at (c : CanbusConfig) s : bus_at None true s -> bus_at None true (s <| config_ := c |>).
Proof.
  intros [Hs Hb]. split; [|exact Hb]. pose proof (bare_hardware s (cc_dev c) Hs (Hb eq_refl)) as Hh. by destruct Hs; split.
Qed.
#[local] Hint Resolve config_at : core.
Lemma Rollback_keeps c : keeps None true (Rollback c).
Proof. unfold Rollback. walk; by apply config_at. Qed.
#[local] Hint Resolve Rollback_keeps : preserves.

Lemma Configure_inv c : preserves bus_wf (Configure c).
Proof.
  intros s Hs. unfold Configure. rewrite bind_get. repeat (case_match; [done|]).
  assert (bus_at None true (state_of (RemoveAllFilters s))) as Hr by by destruct (RemoveAllFilters_bare None s Hs) as (? & ? & _).
  refine (proj1 (_ : bus_at None true _)). apply bind_from; [exact Hr|intros _].
  unfold StartActivityMonitoring. walk; by apply config_at.
Qed.

(** The counting filter of the bitrate detection comes and goes. *)
Lemma probe_keeps b f (refused : CB bool) (probed : Z -> CB bool) :
  keeps None b refused -> (forall n, keeps None b (probed n)) ->
  keeps None b (on_driver (fun dev => can_add_rx_filter dev CountCallback f) ≫= fun filter_id : Z =>
    if bool_decide (filter_id < 0) then refused
    else
      emit (SleepMs AUTO_DETECT_SAMPLE_MS) ;;
      on_driver sampled_frames ≫= fun received_frames : Z =>
      modify (fun s => s <| cb_driver ::= can_remove_rx_filter (cc_dev (config_ s)) filter_id |>) ;; probed received_frames).
Proof.
  intros Hk1 Hk2 s [[Hm Hn Hr Hh] Hb]. rewrite bind_on_driver.
  pose proof (add_refused (cc_dev (config_ s)) CountCallback f (cb_driver s)) as Href.
  pose proof (hardware_probe (entry_at s) (cc_dev (config_ s)) (cb_driver s) f) as Hadd. cbv zeta in Hadd.
  destruct (can_add_rx_filter _ _ _ _) as [d id]. cbn [fst snd] in *. case_bool_decide as Hneg.
  - apply Hk1. split; [split; [done|done|done|]|exact Hb]. eapply hardware_same; [by apply Href|done].
  - rewrite bind_emit, state_of_prepend, bind_on_driver, bind_modify. apply Hk2. cbn [cb_driver config_].
    split; [split; [done|done|done|]|exact Hb]. apply hardware_unprobe. simpl.
    apply (hardware_same _ _ d); [intros; apply sample_keeps|]. apply Hadd; [done|lia].
Qed.
Lemma TestBitrate_keeps b r : keeps None b (TestBitrate r).
Proof. unfold TestBitrate. cbv zeta. repeat first [apply probe_keeps; intros|preserve_step]; try fields; try by_call. Qed.
#[local] Hint Resolve TestBitrate_keeps : preserves.
Lemma AutoDetectBitrate_keeps b : keeps None b AutoDetectBitrate.
Proof.
  assert (forall l, keeps None b (TryBitrates l)) by (induction l; cbn [TryBitrates]; walk; eapply bus_at_fields; [..|eassumption]; try reflexivity; simpl; by case_match).
  unfold AutoDetectBitrate. walk.
Qed.

Lemma wf_at s : bus_wf s <-> bus_at None false s.
Proof. split; [by split|by intros []]. Qed.
Lemma wf_of_at {A} (m : CB A) : keeps None false m -> preserves bus_wf m.
Proof. intros Hm s Hs. by apply (Hm s), wf_at. Qed.

Lemma BitrateAutodetectRound_inv callback : preserves bus_wf (BitrateAutodetectRound callback).
Proof.
  unfold BitrateAutodetectRound, InstallDeferredFilters, StopActivityMonitoring. pose proof (InstallFilter_inv None) as Hi.
  apply preserves_bind; [apply wf_of_at, AutoDetectBitrate_keeps|intros found]. destruct found; preserve; apply wf_at; match goal with Hs : bus_wf _ |- _ => apply wf_at in Hs end; fields.
Qed.

Lemma SendFrame_inv id data : preserves bus_wf (SendFrame id data).
Proof. apply wf_of_at. unfold SendFrame. walk. Qed.
Lemma CanFrameReceivedCallback_inv n raw : preserves bus_wf (CanFrameReceivedCallback n raw).
Proof. apply wf_of_at. unfold CanFrameReceivedCallback. walk. Qed.

Lemma cleared_inv s : bus_wf s -> bare s -> bus_wf (state_of (ClearEntries s)).
Proof.
  intros Hs Hb. unfold ClearEntries. assert (forall r, entry_at (state_of (ClearEntries s)) r = None) as He.
  { intros [k|i]; simpl; [apply lookup_empty|]. rewrite list_lookup_fmap. by destruct (mask_entries_ s !! i). }
  pose proof (bare_empty s Hs Hb) as Hd. destruct Hs as [Hm Hn _ _]. split; [simpl; by rewrite length_fmap|done| |].
  - split; intros *; rewrite ?He; done.
  - split; intros *; rewrite ?He; try done; simpl; rewrite Hd; by rewrite lookup_empty.
Qed.
Lemma clear_all_inv {A} (k : CB A) : preserves bus_wf k -> preserves bus_wf (RemoveAllFilters ;; ClearEntries ;; k).
Proof.
  intros Hk s Hs. destruct (RemoveAllFilters_bare None s Hs) as (Hw & Hb & _).
  apply (bind_after (fun v => bus_wf v /\ bare v)); [|done|].
  - unfold RemoveAllFilters. succeed. apply UninstallFilter_succeeds.
  - intros _ v [Hv Hbv]. apply bind_from; [by apply cleared_inv|done].
Qed.
Lemma CanbusDoInitialize_inv b : preserves bus_wf (CanbusDoInitialize b).
Proof.
  unfold CanbusDoInitialize. destruct b; [|apply preserves_ret]. apply preserves_bind; [|intros _].
  - apply wf_of_at. walk.
  - apply clear_all_inv. apply preserves_bind; [apply wf_of_at; walk|intros _]. apply preserves_bind; [apply wf_of_at; walk|intros v].
    apply Configure_inv.
Qed.
Lemma CanbusDoStart_inv : preserves bus_wf CanbusDoStart.
Proof. apply wf_of_at. unfold CanbusDoStart. walk. Qed.
Lemma CanbusDoStop_inv : preserves bus_wf CanbusDoStop.
Proof.
  unfold CanbusDoStop, StopActivityMonitoring. apply preserves_bind; [apply wf_of_at; walk|intros _].
  apply preserves_bind; [apply wf_of_at; walk|intros _]. apply preserves_bind; [apply wf_of_at; walk|intros v].
  apply preserves_bind; [apply wf_of_at; walk|intros stopped]. destruct stopped; [|apply preserves_ret].
  apply clear_all_inv. apply wf_of_at. walk.
Qed.
End others.
