(* ===== verification/CanbusListeners.v ===== *)
(** * CAN bus: every run, and who listens

    The methods of a bus as steps of one state, with handlers that call back into the bus; which handlers are
    registered for an identifier, and what a registration leaves of them; the filters the bus and its controller
    hold in every run. *)

From S2P Require Import Prelude Can Service Canbus CanbusSpec CanbusRuns.

(** ** Handlers

    What a handler may do to the bus that calls it. *)

Inductive ApiCall :=
| ApiRegister (filter : CanFilter) (handler : option Z)
| ApiRemove (handler_id : Z)
| ApiSend (id : CanId) (data : list Z).

Definition api_wf (c : ApiCall) : Prop := match c with ApiRegister f _ => filter_u32 f | _ => True end.

Inductive BusOp :=
| BusApi (call : ApiCall)
| BusReceive (raw : RawFrame)
| BusProcess
| BusConfigure (config : CanbusConfig)
| BusInitialize (stack : bool)
| BusStart
| BusStop
| BusDetect (callback : bool).

Definition bus_op_wf (op : BusOp) : Prop := match op with BusApi c => api_wf c | _ => True end.

Section runs.
Context `{LawfulCanDriver} `{UnorderedIter} (queue_size : nat) (reaction : Z -> CanFrame -> list ApiCall).
Implicit Types s : Canbus.

Definition run_api (c : ApiCall) : CB unit :=
  match c with
  | ApiRegister f h => RegisterFrameReceivedHandler f h ;; mret tt
  | ApiRemove id => RemoveFrameReceivedHandler id ;; mret tt
  | ApiSend id data => SendFrame id data ;; mret tt
  end.
Definition handler_runs (handler : Z) (frame : CanFrame) : CB unit := for_each (reaction handler frame) run_api.

Definition run_bus_op (op : BusOp) : CB unit :=
  match op with
  | BusApi c => run_api c
  | BusReceive raw => CanFrameReceivedCallback queue_size raw
  | BusProcess => ProcessFramesTask handler_runs
  | BusConfigure c => Configure c ;; mret tt
  | BusInitialize stack => Initialize (CanbusWorkOf stack) ;; mret tt
  | BusStart => Start (CanbusWorkOf true) ;; mret tt
  | BusStop => Stop (CanbusWorkOf true) ;; mret tt
  | BusDetect callback => BitrateAutodetectRound callback ;; mret tt
  end.
Fixpoint run_bus (l : list BusOp) s : Canbus :=
  match l with [] => s | op :: l => run_bus l (state_of (run_bus_op op s)) end.

Hypothesis reaction_wf : forall h f, Forall api_wf (reaction h f).

Lemma run_api_inv c : api_wf c -> preserves bus_wf (run_api c).
Proof.
  intros Hc. destruct c; cbn [run_api]; (apply preserves_bind; [|intros; apply preserves_ret]).
  - by apply RegisterFrameReceivedHandler_inv.
  - apply RemoveFrameReceivedHandler_inv.
  - apply SendFrame_inv.
Qed.
Lemma handler_runs_inv h f : preserves bus_wf (handler_runs h f).
Proof.
  apply preserves_for_each. intros c Hc. apply run_api_inv. pose proof (reaction_wf h f) as Hw. rewrite Forall_forall in Hw. by apply Hw.
Qed.
Lemma DispatchFrame_inv f : preserves bus_wf (DispatchFrame handler_runs f).
Proof. pose proof handler_runs_inv. unfold DispatchFrame. preserve. Qed.

Lemma state_inv st s : bus_wf s -> bus_wf (s <| cb_service_state_ := st |>).
Proof. by intros []. Qed.
Lemma transition_inv (work : CB bool) p q b :
  preserves bus_wf work -> preserves bus_wf (Transition (CanbusWorkOf b) work p q).
Proof.
  intros Hw s Hs. specialize (Hw s Hs). unfold Transition, state_of in *.
  destruct (work s) as [[s1 e] [[]|x|]]; simpl in *; by try apply state_inv.
Qed.
Lemma run_bus_op_inv op : bus_op_wf op -> preserves bus_wf (run_bus_op op).
Proof.
  intros Hop. destruct op; cbn [run_bus_op]; [by apply run_api_inv|apply CanFrameReceivedCallback_inv|..];
    try (apply preserves_bind; [|intros; apply preserves_ret]).
  - pose proof DispatchFrame_inv. unfold ProcessFramesTask. preserve. match goal with Hs : bus_wf _ |- _ => by destruct Hs end.
  - apply Configure_inv.
  - unfold Initialize. preserve. apply CanbusDoInitialize_inv.
  - unfold Start, SetState. preserve; [by apply state_inv|]. apply transition_inv, CanbusDoStart_inv.
  - unfold Stop, SetState. preserve; [by apply state_inv|]. apply transition_inv, CanbusDoStop_inv.
  - apply BitrateAutodetectRound_inv.
Qed.
Lemma run_bus_inv l s : Forall bus_op_wf l -> bus_wf s -> bus_wf (run_bus l s).
Proof. intros Hl. revert s. induction Hl as [|op l Hop _ IH]; intros s Hs; [done|]. apply IH. by apply run_bus_op_inv. Qed.
End runs.

Lemma NewCanbus_inv `{LawfulCanDriver} d config : (forall dev, rx_filters dev d = ∅) -> bus_wf (NewCanbus d config).
Proof.
  intros Hd. assert (forall r, entry_at (NewCanbus d config) r = None) as He.
  { intros [k|i]; simpl; [apply lookup_empty|]. by do 4 (destruct i as [|i]; [done|]). }
  split; [done|done| |].
  - split; intros *; rewrite ?He; done.
  - split; intros *; rewrite ?He; try done; simpl; rewrite Hd; by rewrite lookup_empty.
Qed.

(** ** Who listens *)

(** Handler [h] with ID [i] is registered for identifier [c]. *)
Definition listens `{CanDriver} (s : Canbus) (c : CanId) (i h : Z) : Prop :=
  exists r e, entry_at s r = Some e /\ fe_handlers e !! i = Some h /\ Matches (fe_filter e) c = true.

(** ** What a registration leaves *)

Section outcome.
Context `{LawfulCanDriver} `{UnorderedIter}.
Implicit Types s : Canbus.

(** The filter and the handlers of an entry. *)
Definition view s (r : EntryRef) : option (CanFilter * gmap Z Z) := (fun e => (fe_filter e, fe_handlers e)) <$> entry_at s r.

Lemma listens_view s c i h :
  listens s c i h <-> exists r f m, view s r = Some (f, m) /\ m !! i = Some h /\ Matches f c = true.
Proof.
  unfold listens, view. split.
  - intros (r & e & He & Hi & Hm). exists r, (fe_filter e), (fe_handlers e). by rewrite He.
  - intros (r & f & m & Hv & Hi & Hm). apply fmap_Some in Hv as (e & He & [= -> ->]). by exists r, e.
Qed.
Lemma listens_same s s' : (forall r, view s' r = view s r) -> forall c i h, listens s' c i h <-> listens s c i h.
Proof. intros Hv c i h. rewrite !listens_view. by setoid_rewrite Hv. Qed.

Lemma alter_view g r s r' :
  view (alter_entry g r s) r' = if bool_decide (r' = r) then (fun e => (fe_filter (g e), fe_handlers (g e))) <$> entry_at s r else view s r'.
Proof. unfold view. rewrite entry_at_alter. case_bool_decide; [|done]. by destruct (entry_at s r). Qed.

Lemma InstallFilter_view r s r' : view (state_of (InstallFilter r s)) r' = view s r'.
Proof.
  unfold InstallFilter. rewrite bind_get. destruct (entry_at s r) as [e|] eqn:He; [|done]. case_bool_decide; [done|].
  rewrite bind_on_driver. case_bool_decide; [by destruct r'|]. rewrite bind_modify. unfold state_of, mret, M_ret. cbn [fst snd].
  rewrite alter_view. case_bool_decide as Hr; [subst r'|by destruct r'].
  unfold view. assert (entry_at (s <| cb_driver := (can_add_rx_filter (cc_dev (config_ s)) ReceivedCallback (fe_filter e) (cb_driver s)).1 |>) r = entry_at s r) as -> by by destruct r.
  by rewrite He.
Qed.

Lemma AddHandler_outcome hole f h r e s :
  bus_inv hole None s -> (hole = None \/ hole = Some r) -> entry_at s r = Some e -> fe_filter e = f ->
  let s' := state_of (AddHandler f h r s) in
  result_of (AddHandler f h r s) = Ok ERR_TOO_MANY_HANDLERS /\ (MAX_HANDLERS_PER_FILTER <= size (fe_handlers e))%nat /\ s' = s \/
  result_of (AddHandler f h r s) = Ok (next_handler_id_ s) /\ (size (fe_handlers e) < MAX_HANDLERS_PER_FILTER)%nat /\
    (forall r', view s' r' = if bool_decide (r' = r) then Some (f, <[next_handler_id_ s := h]> (fe_handlers e)) else view s r') /\
    (auto_detect_running_ s && negb (bitrate_detected_ s) = false -> exists e', entry_at s' r = Some e' /\ 0 <= fe_filter_id e') \/
  result_of (AddHandler f h r s) = Ok ERR_FILTER_REJECTED /\ (size (fe_handlers e) < MAX_HANDLERS_PER_FILTER)%nat /\
    auto_detect_running_ s && negb (bitrate_detected_ s) = false /\ fe_filter_id e < 0 /\
    (can_add_rx_filter (cc_dev (config_ s)) ReceivedCallback f (cb_driver s)).2 < 0 /\
    (forall r', view s' r' = if bool_decide (r' = r /\ fe_handlers e = ∅) then None else view s r').
Proof.
  intros Hs Hhole He <- s'. subst s'. pose proof Hs as [Hm Hn Hr Hh]. unfold AddHandler. rewrite bind_get, He. case_bool_decide as Hsize; [by left|].
  apply not_le in Hsize. right. rewrite bind_modify.
  set (add := fun x : FilterEntry => x <| fe_handlers ::= <[next_handler_id_ s := h]> |>).
  set (s1 := alter_entry add r (s <| next_handler_id_ := next_handler_id_ s + 1 |>)).
  assert (entry_at s1 r = Some (add e)) as He1.
  { unfold s1. rewrite entry_at_alter, bool_decide_eq_true_2 by done. destruct r; simpl in *; by rewrite He. }
  assert (forall r', view s1 r' = if bool_decide (r' = r) then Some (fe_filter e, <[next_handler_id_ s := h]> (fe_handlers e)) else view s r') as Hv1.
  { intros r'. unfold view. unfold s1 at 1. rewrite entry_at_alter. case_bool_decide; [|by destruct r'].
    destruct r; simpl in *; by rewrite He. }
  destruct (_ && _) eqn:Hauto; [by left|].
  pose proof (InstallFilter_view r s1) as Hv2.
  destruct (InstallFilter_cases s1 r (add e) He1) as [(s2 & E & id & He2 & Hid)|(Hid & Hneg & d & E)]; erewrite bind_ok by exact E;
    rewrite E in Hv2; unfold state_of in Hv2; cbn [fst] in Hv2; rewrite prepend_nil.
  { left. split_and!; [done|lia| |intros _; by eexists]. intros r'.
    change (view s2 r' = if bool_decide (r' = r) then Some (fe_filter e, <[next_handler_id_ s := h]> (fe_handlers e)) else view s r').
    by rewrite Hv2, Hv1. }
  right. clear E. cbv iota. set (s2 := s1 <| cb_driver := d |>) in *.
  set (del := fun x : FilterEntry => x <| fe_handlers ::= delete (next_handler_id_ s) |>). rewrite bind_modify, bind_get.
  assert (entry_at s2 r = Some (add e)) as He2 by by destruct r.
  assert (entry_at (alter_entry del r s2) r = Some (del (add e))) as He3.
  { rewrite entry_at_alter, bool_decide_eq_true_2 by done. by rewrite He2. }
  rewrite He3. assert (fe_handlers (del (add e)) = fe_handlers e) as Hback.
  { simpl. rewrite delete_insert_id; [done|]. apply eq_None_not_Some. intros Hi. pose proof (rg_handlers _ _ _ Hr _ _ _ He Hi). lia. }
  assert (forall r', view (alter_entry del r s2) r' = view s r') as Hv3.
  { intros r'. rewrite alter_view. case_bool_decide as Hrr; [subst r'|]; [|by rewrite Hv2, Hv1, bool_decide_eq_false_2].
    rewrite He2. change (Some (fe_filter e, fe_handlers (del (add e))) = view s r). rewrite Hback. unfold view. by rewrite He. }
  rewrite Hback. destruct (decide (fe_handlers e = ∅)) as [Hemp|Hne].
  - rewrite bool_decide_eq_true_2 by done. unfold when.
    assert (registry (entry_at (alter_entry del r s2)) (next_handler_id_ s) hole) as Hreg3.
    { apply (registry_ext (set_entry r (Some (e <| fe_filter_id := fe_filter_id (del (add e)) |>)) (entry_at s))); [|by apply registry_filter_id].
      intros r'. rewrite entry_at_altered, He2. unfold set_entry. case_bool_decide as Hrr.
      - change (Some (mkFilterEntry (fe_filter e) (fe_filter_id e) (fe_handlers (del (add e)))) =
          Some (mkFilterEntry (fe_filter e) (fe_filter_id e) (fe_handlers e))). by rewrite Hback.
      - change (entry_at s1 r' = entry_at s r'). unfold s1. rewrite entry_at_alter, bool_decide_eq_false_2 by done. by destruct r'. }
    split_and!; [|lia|done|exact Hid|destruct r; exact Hneg|].
    + unfold EraseEntry. by destruct (IsExact (fe_filter e)).
    + intros r'. assert (forall A (m : CB unit) (a : A) v, succeeds m -> state_of ((m ;; mret a) v) = state_of (m v)) as Hst.
      { intros A m a v Hsu. destruct (Hsu v) as [[] Eu]. destruct (m v) as [[v1 e1] rr] eqn:Em. simpl in Eu. subst rr.
        erewrite bind_ok by exact Em. done. }
      rewrite Hst by (unfold EraseEntry; succeed). unfold view at 1. change (fe_filter e) with (fe_filter (del (add e))).
      erewrite EraseEntry_entries; [|exact Hreg3|exact He3]. unfold set_entry. case_bool_decide as Hrr.
      * by rewrite bool_decide_eq_true_2.
      * rewrite bool_decide_eq_false_2 by intuition. apply Hv3.
  - rewrite bool_decide_eq_false_2 by done. split_and!; [done|lia|done|exact Hid|destruct r; exact Hneg|]. intros r'. rewrite bool_decide_eq_false_2 by intuition. apply Hv3.
Qed.
End outcome.

(** ** A driver with fourteen filters, for running the model *)

Definition free_id (m : gmap Z (RxCallback * CanFilter)) : Z := map_fold (fun i _ acc => Z.max acc i) 0 m + 1.
Lemma free_id_fresh m : m !! free_id m = None.
Proof.
  destruct (m !! free_id m) as [x|] eqn:E; [|done]. exfalso.
  assert (forall k v, m !! k = Some v -> k <= map_fold (fun i _ acc => Z.max acc i) 0 m) as Hmax.
  { apply (map_fold_weak_ind (fun b (M : gmap Z (RxCallback * CanFilter)) => forall k v, M !! k = Some v -> k <= b)).
    - intros k v Hk. by rewrite lookup_empty in Hk.
    - intros i y M b HM IH k v. destruct (decide (i = k)) as [->|Hne]; [lia|]. rewrite lookup_insert_ne by done.
      intros Hk. specialize (IH k v Hk). lia. }
  specialize (Hmax _ _ E). unfold free_id in Hmax. lia.
Qed.
Lemma free_id_nonneg m : 0 <= free_id m.
Proof.
  unfold free_id. apply (map_fold_weak_ind (fun b _ => 0 <= b + 1)); [lia|]. intros. lia.
Qed.

Definition rx_of (dev : Z) (d : gmap Z (gmap Z (RxCallback * CanFilter))) : gmap Z (RxCallback * CanFilter) := default ∅ (d !! dev).
#[export] Instance some_driver : CanDriver :=
  {| driver := gmap Z (gmap Z (RxCallback * CanFilter)); CAN_MODE_FD := 4; CAN_MODE_LISTENONLY := 2; CAN_MAX_DLEN := 64;
     device_is_ready := fun _ _ => true; can_get_capabilities := fun _ _ => (0, 7);
     can_set_mode := fun _ _ d => (d, 0); can_set_bitrate := fun _ _ d => (d, 0); can_set_bitrate_data := fun _ _ d => (d, 0);
     can_start := fun _ d => (d, 0); can_stop := fun _ d => (d, 0);
     can_add_rx_filter := fun dev cb f d =>
       let m := rx_of dev d in
       if bool_decide (14 <= size m)%nat then (d, -28) else (<[dev := <[free_id m := (cb, f)]> m]> d, free_id m);
     can_remove_rx_filter := fun dev id d => <[dev := delete id (rx_of dev d)]> d;
     can_send := fun _ _ d => (d, 0); can_add_state_change_callback := fun _ d => (d, 0);
     can_remove_state_change_callback := fun _ d => d; can_is_error_active := fun _ _ => true;
     sampled_frames := fun _ d => (d, 5); can_dlc_to_bytes := fun z => Z.to_nat z; can_bytes_to_dlc := Z.of_nat |}.
Lemma lookup_empty_rx dev : rx_of dev ∅ = ∅.
Proof. unfold rx_of. by rewrite lookup_empty. Qed.
Lemma rx_of_insert dev dev' m (d : gmap Z (gmap Z (RxCallback * CanFilter))) : rx_of dev' (<[dev := m]> d) = if bool_decide (dev' = dev) then m else rx_of dev' d.
Proof. unfold rx_of. case_bool_decide as Hd; [subst; by rewrite lookup_insert_eq|]. by rewrite lookup_insert_ne. Qed.
#[export] Program Instance some_driver_lawful : @LawfulCanDriver some_driver := {| rx_filters := rx_of |}.
Next Obligation.
  intros dev cb f d. simpl. case_bool_decide; [done|]. simpl. pose proof (free_id_nonneg (rx_of dev d)). intros Hneg. lia.
Qed.
Next Obligation. intros dev cb f d. simpl. case_bool_decide; simpl; [intros Hneg; lia|]. intros _. apply free_id_fresh. Qed.
Next Obligation.
  intros dev cb f d. simpl. case_bool_decide; simpl; [lia|]. intros _ dev'. rewrite rx_of_insert. done.
Qed.
Next Obligation. intros dev id d dev'. simpl. apply rx_of_insert. Qed.
Next Obligation. done. Qed.
Next Obligation. done. Qed.
Next Obligation. done. Qed.
Next Obligation. done. Qed.
Next Obligation. done. Qed.
Next Obligation. done. Qed.
Next Obligation. done. Qed.
Next Obligation. done. Qed.
Next Obligation. done. Qed.

(** ** A bus at work *)

Definition plain_config : CanbusConfig := mkCanbusConfig 1 CLASSICAL_CAN 500000 0 0.
Definition block_filter : CanFilter := mkCanFilter 1792 2040 false.
Definition raw_frame (id : Z) : RawFrame := mkRawFrame id 2 false false false false [1; 2].
(** Two handlers for a block, one for an identifier outside it. *)
Definition working_bus : list BusOp :=
  [BusInitialize true; BusStart; BusApi (ApiRegister block_filter (Some 11)); BusApi (ApiRegister block_filter (Some 12));
   BusApi (ApiRegister (ExactFilter (Standard 5)) (Some 13)); BusReceive (raw_frame 1795); BusProcess].
(** Handler 11 answers with a frame of its own. *)
Definition answering (h : Z) (_ : CanFrame) : list ApiCall :=
  if bool_decide (h = 11) then [ApiSend (Standard 6) [1]] else [].
Abbreviation working_bus_state := (@run_bus _ some_iter 8 answering working_bus (NewCanbus (∅ : driver) plain_config)).

(** Reachable buses. *)
Record bus_run `{LawfulCanDriver} `{UnorderedIter} (reaction : Z -> CanFrame -> list ApiCall) (d : driver) (l : list BusOp) : Prop := {
  br_driver : forall dev, rx_filters dev d = ∅;
  br_reaction : forall h f, Forall api_wf (reaction h f);
  br_ops : Forall bus_op_wf l;
}.
Lemma bus_run_inv `{LawfulCanDriver} `{UnorderedIter} n reaction d config l :
  bus_run reaction d l -> bus_wf (run_bus n reaction l (NewCanbus d config)).
Proof. intros [Hd Hr Hl]. apply run_bus_inv; [done|done|by apply NewCanbus_inv]. Qed.

Lemma working_bus_run : @bus_run _ _ some_iter answering (∅ : driver) working_bus.
Proof.
  split; [intros dev; apply lookup_empty_rx| |repeat constructor; vm_compute; (done || (split; congruence))].
  intros h f. unfold answering. case_bool_decide; by repeat constructor.
Qed.

(** C38. The filters of a bus never overlap, in the registry and in the controller: in every run, with handlers
    that register, remove and send while they are called, and whatever the driver answers, each hardware
    filter is that of an entry with one to eight handlers, on the device in use, and no two hardware filters
    accept a common identifier; so the driver delivers a frame through at most one of them. *)
Theorem registered_filters_are_disjoint `{LawfulCanDriver} `{UnorderedIter} n reaction d config l :
  bus_run reaction d l ->
  let s := run_bus n reaction l (NewCanbus d config) in
  (forall dev id cb f, rx_filters dev (cb_driver s) !! id = Some (cb, f) ->
     dev = cc_dev (config_ s) /\ cb = ReceivedCallback /\
     exists r e, entry_at s r = Some e /\ fe_filter e = f /\ (0 < size (fe_handlers e) <= MAX_HANDLERS_PER_FILTER)%nat) /\
  (forall c dev1 dev2 id1 id2 cb1 cb2 f1 f2,
     rx_filters dev1 (cb_driver s) !! id1 = Some (cb1, f1) -> rx_filters dev2 (cb_driver s) !! id2 = Some (cb2, f2) ->
     Matches f1 c = true -> Matches f2 c = true -> id1 = id2).
Proof.
  intros Hrun s. pose proof (bus_run_inv n reaction d config l Hrun) as [_ _ Hr Hh]. fold s in Hr, Hh. split.
  - intros dev id cb f Hid. destruct (hw_owned _ _ _ _ Hh _ _ _ _ Hid) as [-> [[_ ?]|(-> & r & e & He & _ & Hf)]]; [done|].
    split_and!; [done|done|]. exists r, e. split_and!; [done|done| |by apply (eo_count _ _ (rg_entry _ _ _ Hr _ _ He))].
    apply Nat.neq_0_lt_0. intros Hz. apply map_size_empty_inv in Hz. by apply (rg_nonempty _ _ _ Hr _ _ He) in Hz.
  - intros c dev1 dev2 id1 id2 cb1 cb2 f1 f2 H1x H2x M1 M2.
    destruct (hw_owned _ _ _ _ Hh _ _ _ _ H1x) as [-> [[_ ?]|(_ & r1 & e1 & He1 & <- & <-)]]; [done|].
    destruct (hw_owned _ _ _ _ Hh _ _ _ _ H2x) as [-> [[_ ?]|(_ & r2 & e2 & He2 & <- & <-)]]; [done|].
    destruct (decide (r1 = r2)) as [->|Hne]; [by simplify_eq|].
    pose proof (rg_disjoint _ _ _ Hr _ _ _ _ He1 He2 Hne) as Hd. by rewrite (matches_overlap _ _ c) in Hd.
Qed.
Lemma registered_filters_are_disjoint_witness :
  rx_filters 1 (cb_driver working_bus_state) !! 1 = Some (ReceivedCallback, block_filter) /\
  exists r e, entry_at working_bus_state r = Some e /\ fe_filter e = block_filter /\ (0 < size (fe_handlers e) <= MAX_HANDLERS_PER_FILTER)%nat.
Proof.
  assert (rx_filters 1 (cb_driver working_bus_state) !! 1 = Some (ReceivedCallback, block_filter)) as Hf by by vm_compute.
  split; [exact Hf|].
  exact (proj2 (proj2 (proj1 (@registered_filters_are_disjoint _ _ some_iter 8 answering ∅ plain_config working_bus working_bus_run)
    1 1 ReceivedCallback block_filter Hf))).
Defined.
