(* ===== verification/CanbusRegister.v ===== *)
(** * CAN bus: what a registration answers

    Every answer of [RegisterFrameReceivedHandler] with the state it is given in and the listeners it leaves. *)

From S2P Require Import Prelude Can Service Canbus CanbusSpec CanbusRuns CanbusListeners.

Section registration.
Context `{LawfulCanDriver} `{UnorderedIter}.
Implicit Types s : Canbus.

Definition same_listeners s s' : Prop := forall c i h, listens s' c i h <-> listens s c i h.

(** What the method looks at before it touches an entry. *)
Definition acceptable (f : CanFilter) (handler : option Z) s : Prop :=
  is_initialized_ s = true /\ is_Some handler /\ CanFilter_IsValid f = true.

(** There is room for one more handler of [f]: its filter is registered and has less than eight handlers, or it
    is new, overlaps no other, and is exact or one of the four places for masks is free. *)
Definition has_room (f : CanFilter) s : Prop :=
  (exists r e, entry_at s r = Some e /\ fe_filter e = Normalized f /\ (size (fe_handlers e) < MAX_HANDLERS_PER_FILTER)%nat) \/
  (forall r e, entry_at s r = Some e -> Overlaps (fe_filter e) f = false) /\
  (IsExact f = true \/ exists i, (i < MAX_MASK_FILTERS)%nat /\ entry_at s (MaskRef i) = None).

(** The controller is asked for the filter now, not when the bitrate is found, and it does not have it yet. *)
Definition needs_hardware (f : CanFilter) s : Prop :=
  (bitrate_detected_ s = true \/ auto_detect_running_ s = false) /\
  forall r e, entry_at s r = Some e -> fe_filter e = Normalized f -> fe_filter_id e < 0.

(** The answers, in the order in which the method looks for a reason to refuse. *)
Inductive registration_answer (f : CanFilter) (handler : option Z) s s' : Z -> Prop :=
| NotInitialized : is_initialized_ s = false -> s' = s -> registration_answer f handler s s' ERR_NOT_INITIALIZED
| InvalidArgument : is_initialized_ s = true -> handler = None \/ CanFilter_IsValid f = false -> s' = s ->
    registration_answer f handler s s' ERR_INVALID_ARGUMENT
| TooManyHandlers r e : acceptable f handler s -> entry_at s r = Some e -> fe_filter e = Normalized f ->
    size (fe_handlers e) = MAX_HANDLERS_PER_FILTER -> s' = s -> registration_answer f handler s s' ERR_TOO_MANY_HANDLERS
| OverlapsOther r e : acceptable f handler s -> (forall r e, entry_at s r = Some e -> fe_filter e <> Normalized f) ->
    entry_at s r = Some e -> Overlaps (fe_filter e) f = true -> s' = s -> registration_answer f handler s s' ERR_FILTER_OVERLAP
| TooManyFilters : acceptable f handler s -> IsExact f = false ->
    (forall i, (i < MAX_MASK_FILTERS)%nat -> is_Some (entry_at s (MaskRef i))) ->
    (forall r e, entry_at s r = Some e -> Overlaps (fe_filter e) f = false) -> s' = s ->
    registration_answer f handler s s' ERR_TOO_MANY_FILTERS
| Rejected : acceptable f handler s -> has_room f s -> needs_hardware f s ->
    (can_add_rx_filter (cc_dev (config_ s)) ReceivedCallback (Normalized f) (cb_driver s)).2 < 0 ->
    same_listeners s s' -> registration_answer f handler s s' ERR_FILTER_REJECTED
| Registered id h : acceptable f handler s -> has_room f s -> handler = Some h ->
    id = next_handler_id_ s -> 0 < id -> (forall c h', ~ listens s c id h') ->
    (forall c i h', listens s' c i h' <-> listens s c i h' \/ i = id /\ h' = h /\ Matches f c = true) ->
    (bitrate_detected_ s = true \/ auto_detect_running_ s = false ->
     exists hw, rx_filters (cc_dev (config_ s')) (cb_driver s') !! hw = Some (ReceivedCallback, Normalized f)) ->
    registration_answer f handler s s' id.

Lemma Overlaps_Normalized f g : Overlaps f (Normalized g) = Overlaps f g.
Proof.
  unfold Overlaps, Normalized. simpl. f_equal. apply bool_decide_ext. rewrite !land_zero_bits.
  split; intros Hz n Hn; specialize (Hz n Hn); rewrite !Z.land_spec, Z.lxor_spec in *; rewrite ?Z.land_spec in *;
    destruct (Z.testbit (cf_id f) n), (Z.testbit (cf_id g) n), (Z.testbit (cf_mask f) n), (Z.testbit (cf_mask g) n); done.
Qed.

(** From what the entries show to what listens. *)
Lemma added_listens s s' r f m i h :
  (forall r', view s' r' = if bool_decide (r' = r) then Some (f, <[i := h]> m) else view s r') ->
  (view s r = Some (f, m) \/ view s r = None /\ m = ∅) -> m !! i = None ->
  forall c j g, listens s' c j g <-> listens s c j g \/ j = i /\ g = h /\ Matches f c = true.
Proof.
  intros Hv Hr Hfresh c j g. rewrite !listens_view. setoid_rewrite Hv. split.
  - intros (r' & f' & m' & Hv' & Hj & Hm). case_bool_decide as Hrr; [subst r'|left; by exists r', f', m'].
    injection Hv' as <- <-. destruct (decide (j = i)) as [->|Hne].
    + rewrite lookup_insert_eq in Hj. injection Hj as ->. by right.
    + rewrite lookup_insert_ne in Hj by done. destruct Hr as [Hr|[_ ->]]; [|by rewrite lookup_empty in Hj].
      left. by exists r, f, m.
  - intros [(r' & f' & m' & Hv' & Hj & Hm)|(-> & -> & Hm)].
    + destruct (decide (r' = r)) as [->|Hrr].
      * exists r, f, (<[i := h]> m). rewrite bool_decide_eq_true_2 by done. destruct Hr as [Hr|[Hr ->]]; [|congruence].
        rewrite Hr in Hv'. injection Hv' as <- <-. split_and!; [done| |done]. rewrite lookup_insert_ne; [done|congruence].
      * exists r', f', m'. by rewrite bool_decide_eq_false_2.
    + exists r, f, (<[i := h]> m). rewrite bool_decide_eq_true_2 by done. by rewrite lookup_insert_eq.
Qed.
Lemma created_listens s s' r f :
  (forall r', view s' r' = if bool_decide (r' = r) then Some (f, ∅) else view s r') -> view s r = None -> same_listeners s s'.
Proof.
  intros Hv Hr c i h. rewrite !listens_view. setoid_rewrite Hv. split; intros (r' & f' & m & Hv' & Hi & Hm).
  - case_bool_decide as Hrr; [|by exists r', f', m]. injection Hv' as <- <-. by rewrite lookup_empty in Hi.
  - exists r', f', m. rewrite bool_decide_eq_false_2; [done|]. intros ->. congruence.
Qed.

Lemma AddHandler_answers s0 s hole f h r e :
  filter_u32 f -> CanFilter_IsValid f = true -> bus_wf s0 ->
  bus_inv hole None s -> (hole = None \/ hole = Some r) -> entry_at s r = Some e -> fe_filter e = Normalized f ->
  acceptable f (Some h) s0 -> next_handler_id_ s = next_handler_id_ s0 -> bitrate_detected_ s = bitrate_detected_ s0 ->
  auto_detect_running_ s = auto_detect_running_ s0 -> config_ s = config_ s0 -> cb_driver s = cb_driver s0 ->
  (forall r', r' <> r -> view s r' = view s0 r') ->
  (s = s0 \/ entry_at s0 r = None /\ fe_handlers e = ∅ /\ has_room f s0 /\ fe_filter_id e < 0 /\
     forall r e, entry_at s0 r = Some e -> fe_filter e <> Normalized f) ->
  exists code, result_of (AddHandler (Normalized f) h r s) = Ok code /\
    registration_answer f (Some h) s0 (state_of (AddHandler (Normalized f) h r s)) code.
Proof.
  intros Hu Hv [_ Hpos Hr0 _] Hs Hhole He Hfe Hacc Hnext Hdet Hauto Hconf Hdrv Hothers Hbefore.
  pose proof (AddHandler_inv hole (Normalized f) h r e s Hs Hhole He Hfe) as Hs'.
  assert (view s0 r = Some (Normalized f, fe_handlers e) \/ view s0 r = None /\ fe_handlers e = ∅) as Hr.
  { destruct Hbefore as [->|(Hnone & Hemp & _)]; unfold view; [left; rewrite He; simpl; by rewrite Hfe|right; by rewrite Hnone]. }
  assert (forall (b : bool) X, (forall r', view X r' = if bool_decide (r' = r /\ fe_handlers e = ∅) then None else view s r') -> same_listeners s0 X) as Hback.
  { intros _ X HX c i g. destruct (decide (fe_handlers e = ∅)) as [Hemp|Hne].
    - rewrite !listens_view. setoid_rewrite HX. split; intros (r' & f' & m & Hv' & Hi & Hm).
      + case_bool_decide as Hrr; [done|]. exists r', f', m. rewrite Hothers in Hv'; [done|]. intros ->. by apply Hrr.
      + exists r', f', m. destruct (decide (r' = r)) as [->|Hrr].
        * destruct Hr as [Hr|[Hr _]]; rewrite Hr in Hv'; [|done]. injection Hv' as <- <-. by rewrite Hemp, lookup_empty in Hi.
        * rewrite bool_decide_eq_false_2 by intuition. by rewrite Hothers.
    - apply listens_same. intros r'. rewrite HX, bool_decide_eq_false_2 by intuition.
      destruct Hbefore as [->|(_ & ? & _)]; done. }
  assert ((size (fe_handlers e) < MAX_HANDLERS_PER_FILTER)%nat -> has_room f s0) as Hroom.
  { intros Hsize. destruct Hbefore as [->|(_ & _ & ? & _)]; [|done]. left. by exists r, e. }
  assert (bitrate_detected_ s0 = true \/ auto_detect_running_ s0 = false <-> auto_detect_running_ s && negb (bitrate_detected_ s) = false) as Hnow.
  { rewrite Hdet, Hauto. destruct (auto_detect_running_ s0), (bitrate_detected_ s0); simpl; intuition done. }
  destruct (AddHandler_outcome hole (Normalized f) h r e s Hs Hhole He Hfe) as [(E & Hsize & Es)|[(E & Hsize & Hviews & Hinst)|(E & Hsize & Hnodet & Hid & Hneg & Hviews)]].
  - eexists. split; [exact E|]. destruct Hbefore as [->|(_ & Hemp & _)].
    + pose proof (eo_count _ _ (rg_entry _ _ _ Hr0 _ _ He)). eapply TooManyHandlers; [exact Hacc|exact He|exact Hfe|lia|exact Es].
    + exfalso. rewrite Hemp, map_size_empty in Hsize. unfold MAX_HANDLERS_PER_FILTER in Hsize. lia.
  - eexists. split; [exact E|]. rewrite Hnext in *.
    assert (forall c h', ~ listens s0 c (next_handler_id_ s0) h') as Hfresh.
    { intros c h' (r' & e' & He' & Hi & _). pose proof (rg_handlers _ _ _ Hr0 _ _ _ He' (mk_is_Some _ _ Hi)). lia. }
    eapply Registered; [exact Hacc|by apply Hroom|done|done|lia|done| |].
    + intros c i g. rewrite <- (Normalized_Matches f c). eapply (added_listens s0 _ r (Normalized f) (fe_handlers e)); [|done|].
      * intros r'. rewrite Hviews. case_bool_decide; [done|by apply Hothers].
      * apply eq_None_not_Some. intros [h' Hi]. pose proof (rg_handlers _ _ _ (bi_registry _ _ _ Hs) _ _ _ He (mk_is_Some _ _ Hi)). lia.
    + intros Hb. destruct Hinst as (e' & He' & Hid); [by apply Hnow|]. exists (fe_filter_id e').
      rewrite (hw_installed _ _ _ _ (bi_hardware _ _ _ Hs') _ _ He' Hid). do 2 f_equal.
      specialize (Hviews r). unfold view in Hviews. rewrite He', bool_decide_eq_true_2 in Hviews by done. by injection Hviews.
  - eexists. split; [exact E|]. apply Rejected; [exact Hacc|by apply Hroom| |by rewrite <- Hconf, <- Hdrv|by apply (Hback true)].
    split; [by apply Hnow|]. intros r' e' He' Hfe'. destruct Hbefore as [->|(_ & _ & _ & _ & Hnone)]; [|by destruct (Hnone r' e')].
    destruct (decide (r' = r)) as [->|Hne]; [congruence|]. exfalso.
    pose proof (rg_disjoint _ _ _ Hr0 _ _ _ _ He' He Hne) as Hd. by rewrite Hfe', Hfe, Overlaps_refl in Hd.
Qed.

Lemma RegisterFrameReceivedHandler_answers f handler s :
  filter_u32 f -> bus_wf s ->
  exists code, result_of (RegisterFrameReceivedHandler f handler s) = Ok code /\
    registration_answer f handler s (state_of (RegisterFrameReceivedHandler f handler s)) code.
Proof.
  intros Hu Hs. unfold RegisterFrameReceivedHandler. rewrite bind_get.
  destruct (is_initialized_ s) eqn:Hi; [|by eexists; split; [done|by apply NotInitialized]]. cbn [negb].
  destruct handler as [h|]; [|by eexists; split; [done|apply InvalidArgument; [done|by left|done]]].
  destruct (CanFilter_IsValid f) eqn:Hv; [|by eexists; split; [done|apply InvalidArgument; [done|by right|done]]]. cbn [negb].
  assert (acceptable f (Some h) s) as Hacc by by split_and!. pose proof (Normalized_good f Hu Hv) as Hg. pose proof Hs as [Hm Hn Hr Hh].
  destruct (FindEntry (Normalized f) s) as [r|] eqn:Hf.
  { destruct (FindEntry_Some _ _ _ _ Hr Hg Hf) as (e & He & Hfe).
    by eapply (AddHandler_answers s s None f h r e); try (by left). }
  destruct (HasOverlap (Normalized f) s) eqn:Ho.
  { destruct (HasOverlap_true _ _ Ho) as (r & e & He & Hov). rewrite Overlaps_Normalized in Hov. eexists. split; [done|].
    eapply OverlapsOther; [exact Hacc| |exact He|exact Hov|done]. by eapply FindEntry_None. }
  pose proof (HasOverlap_false _ _ Ho) as Hov.
  destruct (CreateEntry_cases s _ Hf) as [(r & s' & E & Hnone & HE & E1 & E2 & E3 & E4 & E5 & Href)|(E & Hx & Hfull)];
    erewrite bind_ok by exact E; rewrite prepend_nil.
  - assert (entry_ok r (fresh_entry (Normalized f))) as Hok by (destruct Hg as (? & ? & ?); split; [done..|apply Nat.le_0_l]).
    eapply (AddHandler_answers s s' (Some r) f h r (fresh_entry (Normalized f))); try done; [|by right|by rewrite HE, set_entry_eq| | |].
    + split; rewrite ?E1, ?E2, ?E3, ?E4; [done|done| |].
      * eapply registry_ext; [exact HE|]. apply registry_create; [done|done|done|done|]. done.
      * eapply hardware_ext; [exact HE|]. by apply hardware_create.
    + assert (bitrate_detected_ (state_of (CreateEntry (Normalized f) s)) = bitrate_detected_ s) as Hd.
      { unfold CreateEntry. destruct (IsExact _); [done|]. rewrite bind_get. by destruct (find_index _ _). }
      by rewrite E in Hd.
    + intros r' Hrr. unfold view. by rewrite HE, set_entry_ne.
    + right. split_and!; [done|done| |done|by eapply FindEntry_None]. right. split.
      * intros r' e' He'. rewrite <- Overlaps_Normalized. by eapply Hov.
      * destruct r as [k|i]; [left; by destruct Href|right]. exists i.
        assert (is_Some (mask_entries_ s' !! i)) as Hlt%lookup_lt_is_Some.
        { specialize (HE (MaskRef i)). rewrite set_entry_eq in HE. simpl in HE. by destruct (mask_entries_ s' !! i). }
        split; [lia|done].
  - eexists. split; [done|]. apply TooManyFilters; [exact Hacc|exact Hx|rewrite <- Hm; exact Hfull| |done].
    intros r e He. rewrite <- Overlaps_Normalized. by eapply Hov.
Qed.
End registration.

(** C37. What a registration answers and leaves, in every reachable state: an ID of its own, and then exactly
    the frames of its filter reach the new handler besides what each handler had, through a hardware filter
    unless the bitrate is still being looked for; or the error of the first reason to refuse, and then no handler
    has gained or lost a frame.  A bus that is not initialized, no handler or an invalid filter, a ninth
    handler of a filter, a filter that another one overlaps unless the two are equal, a fifth mask are refused;
    past these the only reason left is that the controller refuses the hardware filter, and it is asked only
    when it does not have that filter yet. *)
Theorem registration_outcome `{LawfulCanDriver} `{UnorderedIter} n reaction d config l f handler :
  bus_run reaction d l -> filter_u32 f ->
  let s := run_bus n reaction l (NewCanbus d config) in
  exists code, result_of (RegisterFrameReceivedHandler f handler s) = Ok code /\
    registration_answer f handler s (state_of (RegisterFrameReceivedHandler f handler s)) code.
Proof. intros Hrun Hu s. apply RegisterFrameReceivedHandler_answers; [exact Hu|]. by apply bus_run_inv. Qed.
Lemma registration_outcome_witness :
  result_of (@RegisterFrameReceivedHandler _ some_iter (ExactFilter (Standard 1797)) (Some 14) working_bus_state) = Ok ERR_FILTER_OVERLAP /\
  @registration_answer _ _ (ExactFilter (Standard 1797)) (Some 14) working_bus_state
    (state_of (@RegisterFrameReceivedHandler _ some_iter (ExactFilter (Standard 1797)) (Some 14) working_bus_state)) ERR_FILTER_OVERLAP.
Proof.
  destruct (@registration_outcome _ _ some_iter 8 answering ∅ plain_config working_bus (ExactFilter (Standard 1797)) (Some 14)
    working_bus_run) as (code & E & Ha); [by vm_compute|].
  assert (result_of (@RegisterFrameReceivedHandler _ some_iter (ExactFilter (Standard 1797)) (Some 14) working_bus_state) = Ok ERR_FILTER_OVERLAP)
    as E' by by vm_compute.
  split; [exact E'|]. assert (code = ERR_FILTER_OVERLAP) as <- by (congruence). exact Ha.
Defined.
