(* ===== verification/CanbusDispatch.v ===== *)
(** * CAN bus: what a received frame calls

    The dispatch of a frame among handlers that register, remove and send while they are called. *)

From S2P Require Import Prelude Can Service Canbus CanbusSpec CanbusRuns CanbusListeners CanbusRegister.

(** ** What a frame calls *)

(** The handlers called: the ID, the handler and the frame it got. *)
Definition handlers_called (es : list CanEffect) : list (Z * Z * CanFrame) :=
  omap (fun e => match e with CallHandler i h frame => Some (i, h, frame) | _ => None end) es.
Lemma handlers_called_app es1 es2 : handlers_called (es1 ++ es2) = handlers_called es1 ++ handlers_called es2.
Proof. apply omap_app. Qed.

Section dispatch.
Context `{LawfulCanDriver} `{UnorderedIter} (reaction : Z -> CanFrame -> list ApiCall).
Implicit Types s : Canbus.
#[local] Abbreviation runs := (handler_runs reaction).

Definition no_calls (_ : Canbus) (es : list CanEffect) (_ : Canbus) : Prop := handlers_called es = [].
#[export] Instance no_calls_trace : TraceRel no_calls.
Proof. split; [done|]. intros s1 s2 s3 e1 e2 E1 E2. unfold no_calls in *. by rewrite handlers_called_app, E1, E2. Qed.
#[local] Hint Extern 3 (no_calls _ _ _) => reflexivity : respects.
#[local] Ltac quiet := respect; try reflexivity.

Lemma run_api_quiet c : respects no_calls (run_api c).
Proof.
  assert (forall m, respects no_calls (on_driver m)) as Hd by (intros m s; unfold on_driver; rewrite bind_get; by destruct (m _ _)).
  assert (forall r, respects no_calls (InstallFilter r)) by (intros r; unfold InstallFilter; quiet; apply Hd).
  assert (forall f, respects no_calls (EraseEntry f)) by (intros f; unfold EraseEntry; quiet).
  destruct c; cbn [run_api].
  - unfold RegisterFrameReceivedHandler, AddHandler, CreateEntry. quiet.
  - unfold RemoveFrameReceivedHandler, UninstallFilter. quiet.
  - unfold SendFrame. quiet; apply Hd.
Qed.
Lemma handler_runs_quiet h f : respects no_calls (runs h f).
Proof. apply respects_for_each; [apply _|]. intros c _. apply run_api_quiet. Qed.

Lemma run_api_succeeds c : succeeds (run_api c).
Proof.
  assert (forall m, succeeds (on_driver m)) as Hd by (intros m s; unfold on_driver; rewrite bind_get; destruct (m _ _); by eexists).
  assert (forall r, succeeds (InstallFilter r)) as Hi by (intros r; unfold InstallFilter; succeed).
  assert (forall f, succeeds (EraseEntry f)) as He by (intros f; unfold EraseEntry; succeed).
  destruct c; cbn [run_api].
  - unfold RegisterFrameReceivedHandler, AddHandler, CreateEntry. succeed.
  - unfold RemoveFrameReceivedHandler, UninstallFilter. succeed.
  - unfold SendFrame. succeed.
Qed.
Lemma handler_runs_succeeds h f : succeeds (runs h f).
Proof. apply succeeds_for_each. intros c _. apply run_api_succeeds. Qed.

(** The call of one handler of the snapshot. *)
Definition call_one (frame : CanFrame) (handler_id : Z) : CB unit :=
  s ← get;
  match FindMatchingEntry (mkCanId (fr_id frame) (fr_is_extended frame)) s ≫= entry_at s with
  | None => mret tt
  | Some current =>
      match fe_handlers current !! handler_id with
      | None => mret tt
      | Some handler => emit (CallHandler handler_id handler frame) ;; runs handler frame
      end
  end.
Lemma call_one_calls frame i s :
  handlers_called (effects_of (call_one frame i s)) =
  match FindMatchingEntry (mkCanId (fr_id frame) (fr_is_extended frame)) s ≫= entry_at s with
  | None => []
  | Some e => match fe_handlers e !! i with None => [] | Some h => [(i, h, frame)] end
  end.
Proof.
  unfold call_one. rewrite bind_get. destruct (_ ≫= entry_at s) as [e|]; [|done]. destruct (fe_handlers e !! i) as [h|]; [|done].
  rewrite bind_emit, effects_of_prepend, handlers_called_app. by rewrite (handler_runs_quiet h frame s).
Qed.
Lemma call_one_succeeds frame i : succeeds (call_one frame i).
Proof. pose proof handler_runs_succeeds. unfold call_one. succeed. Qed.

(** The state after two parts, when the first succeeds. *)
Lemma state_of_then {A B} (m : CB A) (k : CB B) s : succeeds m -> state_of ((m ;; k) s) = state_of (k (state_of (m s))).
Proof.
  intros Hm. destruct (Hm s) as [x Ex]. destruct (m s) as [[s1 e1] r] eqn:E. simpl in Ex. subst r. erewrite bind_ok by exact E.
  apply state_of_prepend.
Qed.

(** *** What the calls of a handler leave of the listeners *)

(** Handler IDs only grow, so that none comes back. *)
Definition ids_grow (s : Canbus) (_ : list CanEffect) (s' : Canbus) : Prop := next_handler_id_ s <= next_handler_id_ s'.
#[export] Instance ids_grow_trace : TraceRel ids_grow.
Proof. split; [intros s; unfold ids_grow; lia|]. intros s1 s2 s3 e1 e2 E1 E2. unfold ids_grow in *. lia. Qed.
Lemma AddHandler_ids f h r : respects ids_grow (AddHandler f h r).
Proof.
  intros s. unfold AddHandler. rewrite bind_get. destruct (entry_at s r) as [e|]; [|apply Z.le_refl]. case_bool_decide; [apply Z.le_refl|].
  rewrite bind_modify. match goal with |- ids_grow _ (effects_of (?m ?s1)) _ => assert (respects ids_grow m) as Hm; [|specialize (Hm s1)] end.
  - assert (forall f r s, next_handler_id_ (alter_entry f r s) = next_handler_id_ s) as Ha by (intros; apply alter_entry_rest).
    unfold InstallFilter, EraseEntry, on_driver. respect; unfold ids_grow; rewrite ?Ha; done.
  - unfold ids_grow in *. etrans; [|exact Hm]. rewrite (proj1 (proj2 (proj2 (alter_entry_rest _ _ _)))). simpl. lia.
Qed.
Lemma run_api_ids c : respects ids_grow (run_api c).
Proof.
  pose proof AddHandler_ids.
  assert (forall f r s, next_handler_id_ (alter_entry f r s) = next_handler_id_ s) as Ha by (intros; apply alter_entry_rest).
  destruct c; cbn [run_api].
  - unfold RegisterFrameReceivedHandler, CreateEntry. respect; unfold ids_grow; rewrite ?Ha; done.
  - unfold RemoveFrameReceivedHandler, UninstallFilter, EraseEntry. respect; unfold ids_grow; rewrite ?Ha; done.
  - unfold SendFrame, on_driver. respect; unfold ids_grow; done.
Qed.

(** A send leaves the entries as they are. *)
Definition same_entries (s : Canbus) (_ : list CanEffect) (s' : Canbus) : Prop :=
  exact_entries_ s' = exact_entries_ s /\ mask_entries_ s' = mask_entries_ s.
#[export] Instance same_entries_trace : TraceRel same_entries.
Proof. split; [done|]. intros s1 s2 s3 e1 e2 [? ?] [? ?]. split; congruence. Qed.

(** A removal takes the handler with that ID off every identifier, and no other. *)
Lemma UninstallFilter_view r s r' : view (state_of (UninstallFilter r s)) r' = view s r'.
Proof.
  unfold view. rewrite UninstallFilter_entries. case_bool_decide as Hr; [subst r'|done]. destruct (entry_at s r); simpl; [|done].
  by case_bool_decide.
Qed.
Lemma removed_listens s s' r f m j :
  view s r = Some (f, m) -> (forall r', r' <> r -> view s' r' = view s r') ->
  view s' r = (if bool_decide (delete j m = ∅) then None else Some (f, delete j m)) ->
  (forall r' f' m', view s r' = Some (f', m') -> is_Some (m' !! j) -> r' = r) ->
  forall c i h, listens s' c i h <-> listens s c i h /\ i <> j.
Proof.
  intros Hr Hothers Hr' Howner c i h. rewrite !listens_view. split.
  - intros (r' & f' & m' & Hv & Hi & Hm). destruct (decide (r' = r)) as [->|Hne].
    + rewrite Hr' in Hv. case_bool_decide; [done|]. injection Hv as <- <-. apply lookup_delete_Some in Hi as [Hij Hi].
      split; [by exists r, f, m|done].
    + rewrite Hothers in Hv by done. split; [by exists r', f', m'|]. intros ->. by apply Hne, (Howner r' f' m').
  - intros [(r' & f' & m' & Hv & Hi & Hm) Hij]. destruct (decide (r' = r)) as [->|Hne]; [|exists r', f', m'; by rewrite Hothers].
    rewrite Hr in Hv. injection Hv as <- <-. exists r, f, (delete j m). assert (delete j m <> ∅) as Hne.
    { intros Hemp. apply (f_equal (lookup i)) in Hemp. rewrite lookup_delete_ne, Hi, lookup_empty in Hemp by done. done. }
    rewrite Hr', bool_decide_eq_false_2 by done. by rewrite lookup_delete_ne.
Qed.
Lemma RemoveFrameReceivedHandler_listens j s :
  bus_wf s -> let s' := state_of (RemoveFrameReceivedHandler j s) in
  s' = s \/ forall c i h, listens s' c i h <-> listens s c i h /\ i <> j.
Proof.
  intros Hs s'. subst s'. unfold RemoveFrameReceivedHandler. rewrite bind_get. destruct (is_initialized_ s); [|by left]. cbn [negb].
  destruct (FindEntryByHandler j s) as [r|] eqn:Hf; [right|by left]. apply FindEntryByHandler_Some in Hf as (e & He & Hid).
  rewrite bind_modify, bind_get. set (del := fun x : FilterEntry => x <| fe_handlers ::= delete j |>).
  assert (entry_at (alter_entry del r s) r = Some (del e)) as He1 by by rewrite entry_at_alter, bool_decide_eq_true_2, He.
  pose proof Hs as [Hm Hn Hr Hh]. rewrite He1.
  assert (forall r', r' <> r -> view (alter_entry del r s) r' = view s r') as Hothers
    by (intros r' Hne; by rewrite alter_view, bool_decide_eq_false_2).
  match goal with |- forall c i h, listens ?s' c i h <-> _ => set (s2 := s') end.
  assert (forall r', view s2 r' = if bool_decide (r' = r /\ delete j (fe_handlers e) = ∅) then None else view (alter_entry del r s) r') as Hv.
  { unfold s2. change (fe_handlers (del e)) with (delete j (fe_handlers e)). intros r'. case_bool_decide as Hemp; cbn [negb].
    - rewrite !state_of_then by (unfold EraseEntry; try apply UninstallFilter_succeeds; succeed). cbn [state_of mret M_ret fst].
      pose proof (without_handler_inv j r e s Hs He) as Hs1. rewrite bool_decide_eq_true_2 in Hs1 by done.
      pose proof (bi_registry _ _ _ (UninstallFilter_inv (Some r) r _ Hs1)) as Hr2. fold del in Hr2.
      destruct (UninstallFilter_at _ _ _ He1) as (e' & He' & Hfe & _ & _).
      unfold view at 1. rewrite <- Hfe. erewrite EraseEntry_entries; [|exact Hr2|exact He']. unfold set_entry.
      case_bool_decide as Hrr; [by rewrite bool_decide_eq_true_2|]. rewrite bool_decide_eq_false_2 by intuition.
      apply UninstallFilter_view.
    - by rewrite bool_decide_eq_false_2 by intuition. }
  apply (removed_listens s _ r (fe_filter e) (fe_handlers e) j); [unfold view; by rewrite He| | |].
  - intros r' Hne. rewrite Hv, bool_decide_eq_false_2 by intuition. by apply Hothers.
  - rewrite Hv. destruct (decide (delete j (fe_handlers e) = ∅)) as [Hemp|Hemp]; [by rewrite !bool_decide_eq_true_2|].
    rewrite !bool_decide_eq_false_2 by intuition. unfold view. by rewrite He1.
  - intros r' f' m' (e' & He' & [= -> ->])%fmap_Some Hj. by eapply (rg_owner _ _ _ Hr r' r e' e j).
Qed.

(** What a program leaves of the listeners known before: no new handler under an old ID, and none is lost but the
    [removed] ones. *)
Definition leaves (c : CanId) (removed : Z -> Prop) (s s' : Canbus) : Prop :=
  next_handler_id_ s <= next_handler_id_ s' /\
  forall i h, i < next_handler_id_ s ->
    (listens s' c i h -> listens s c i h) /\ (listens s c i h -> removed i \/ listens s' c i h).
Lemma leaves_refl c removed s : leaves c removed s s.
Proof. split; [lia|]. intros i h _. by split; [|right]. Qed.
Lemma leaves_then c (p q : Z -> Prop) s1 s2 s3 : leaves c p s1 s2 -> leaves c q s2 s3 -> leaves c (fun i => p i \/ q i) s1 s3.
Proof.
  intros [Hn1 H1] [Hn2 H2]. split; [lia|]. intros i h Hi. destruct (H1 i h Hi) as [H1a H1b].
  destruct (H2 i h ltac:(lia)) as [H2a H2b]. split; [auto|]. intros [?|[?|?]%H2b]%H1b; auto.
Qed.
Lemma leaves_more c (p q : Z -> Prop) s s' : (forall i, p i -> q i) -> leaves c p s s' -> leaves c q s s'.
Proof. intros Hpq [Hn Hl]. split; [done|]. intros i h Hi. destruct (Hl i h Hi) as [? Hb]. split; [done|]. intros [?|?]%Hb; auto. Qed.

Lemma listener_id c i h s : bus_wf s -> listens s c i h -> i < next_handler_id_ s.
Proof. intros [_ _ Hr _] (r & e & He & Hi & _). by apply (rg_handlers _ _ _ Hr _ _ _ He (mk_is_Some _ _ Hi)). Qed.

Lemma registration_leaves c f handler s s' code :
  registration_answer f handler s s' code -> next_handler_id_ s <= next_handler_id_ s' -> leaves c (fun _ => False) s s'.
Proof.
  intros Ha Hn. split; [done|]. intros i h Hi. destruct Ha as [? ->|? ? ->|? ? ? ? ? ? ->|? ? ? ? ? ? ->|? ? ? ? ->|? ? ? ? Hsame|id h' ? ? ? Hid ? ? Hl ?];
    try (by split; [|right]).
  - split; [apply Hsame|right; by apply Hsame].
  - split; [|right; apply Hl; by left]. intros [?|(-> & _)]%Hl; [done|lia].
Qed.

Lemma run_api_leaves c call s :
  bus_wf s -> api_wf call -> leaves c (fun i => call = ApiRemove i) s (state_of (run_api call s)).
Proof.
  intros Hs Hw. pose proof (run_api_ids call s) as Hn. unfold ids_grow in Hn.
  destruct call as [f handler|j|id data]; cbn [run_api] in *.
  - destruct (RegisterFrameReceivedHandler_answers f handler s Hw Hs) as (code & E & Ha).
    destruct (RegisterFrameReceivedHandler f handler s) as [[s1 e1] x] eqn:Em. cbn [state_of result_of fst snd] in *. subst x.
    erewrite bind_ok in Hn |- * by exact Em. rewrite state_of_prepend in *.
    eapply leaves_more; [|by eapply registration_leaves]. done.
  - assert (state_of ((RemoveFrameReceivedHandler j ;; mret tt) s) = state_of (RemoveFrameReceivedHandler j s)) as E
    by (etrans; [apply state_of_then; unfold RemoveFrameReceivedHandler, UninstallFilter, EraseEntry; succeed|done]).
    rewrite E in *. destruct (RemoveFrameReceivedHandler_listens j s Hs) as [->|Hl]; [apply leaves_refl|]. split; [done|].
    intros i h _. split; [intros ?; by apply Hl|]. intros Hi. destruct (decide (i = j)) as [->|Hij]; [by left|right]. by apply Hl.
  - assert (respects same_entries (SendFrame id data ;; mret tt)) as Hsame.
    { unfold SendFrame. respect; try done. intros s1. unfold on_driver. rewrite bind_get. by destruct (can_send _ _ _). }
    destruct (Hsame s) as [E1 E2]. split; [done|]. intros i h _.
    assert (forall r, view (state_of ((SendFrame id data ;; mret tt) s)) r = view s r) as Hv.
    { intros r. unfold view. destruct r; simpl; by rewrite ?E1, ?E2. }
    split; [|right]; by apply (listens_same _ _ Hv).
Qed.

Hypothesis reaction_wf : forall h f, Forall api_wf (reaction h f).

Lemma for_each_leaves c l s :
  Forall api_wf l -> bus_wf s -> leaves c (fun i => ApiRemove i ∈ l) s (state_of (for_each l run_api s)).
Proof.
  intros Hl. revert s. induction Hl as [|x l Hx Hl IH]; intros s Hs; [apply leaves_refl|]. cbn [for_each].
  rewrite state_of_then by apply run_api_succeeds.
  eapply leaves_more; [|eapply leaves_then; [by apply run_api_leaves|apply IH; by apply run_api_inv]].
  intros i [->|Hi]; [left|by right].
Qed.

(** *** The calls of a dispatch *)

Variable frame : CanFrame.
#[local] Abbreviation c := (mkCanId (fr_id frame) (fr_is_extended frame)).
Hypothesis c_u32 : is_u32 (can_id c).
Hypothesis c_valid : CanId_IsValid c = true.

(** The entry the lookup finds has every listener. *)
Lemma found_listens s i h :
  bus_wf s -> (FindMatchingEntry c s ≫= entry_at s) ≫= (fun e => fe_handlers e !! i) = Some h <-> listens s c i h.
Proof.
  intros [_ _ Hr _]. split.
  - intros (e & (r & Hf & He)%bind_Some & Hi)%bind_Some. exists r, e. split_and!; [done|done|]. by eapply FindMatchingEntry_spec.
  - intros (r & e & He & Hi & Hm). assert (FindMatchingEntry c s = Some r) as -> by by eapply FindMatchingEntry_spec.
    simpl. by rewrite He.
Qed.
Lemma call_one_listener i x s : bus_wf s -> x ∈ handlers_called (effects_of (call_one frame i s)) <-> exists h, x = (i, h, frame) /\ listens s c i h.
Proof.
  intros Hs. rewrite call_one_calls. setoid_rewrite <- (found_listens s i); [|done].
  destruct (FindMatchingEntry c s ≫= entry_at s) as [e|]; cbn [mbind option_bind].
  - destruct (fe_handlers e !! i) as [h|]; [rewrite list_elem_of_singleton|rewrite elem_of_nil]; split; try done.
    + intros ->. by exists h.
    + by intros (h' & -> & [= ->]).
    + by intros (h' & _ & ?).
  - rewrite elem_of_nil. split; [done|]. by intros (h' & _ & ?).
Qed.
Lemma call_one_inv i : preserves bus_wf (call_one frame i).
Proof. pose proof (handler_runs_inv reaction reaction_wf). unfold call_one. preserve. Qed.

Definition removed_by (called : list (Z * Z * CanFrame)) (i : Z) : Prop :=
  exists j g, (j, g, frame) ∈ called /\ ApiRemove i ∈ reaction g frame.

Lemma call_one_leaves i s : bus_wf s -> leaves c (removed_by (handlers_called (effects_of (call_one frame i s)))) s (state_of (call_one frame i s)).
Proof.
  intros Hs. assert (forall h, listens s c i h -> (i, h, frame) ∈ handlers_called (effects_of (call_one frame i s))) as Hcalled
    by (intros h Hl; apply call_one_listener; [done|]; by exists h).
  assert (forall h, (FindMatchingEntry c s ≫= entry_at s) ≫= (fun e => fe_handlers e !! i) = Some h -> listens s c i h) as Hf
    by (intros h; by apply found_listens).
  revert Hcalled. generalize (handlers_called (effects_of (call_one frame i s))) as called. intros called. unfold call_one. rewrite bind_get. destruct (FindMatchingEntry c s ≫= entry_at s) as [e|]; [|intros _; apply leaves_refl].
  destruct (fe_handlers e !! i) as [h|] eqn:Hh; [|intros _; apply leaves_refl]. intros Hcalled.
  rewrite bind_emit, state_of_prepend. eapply leaves_more; [|by apply for_each_leaves].
  intros j Hj. exists i, h. split; [|done]. by apply Hcalled, Hf.
Qed.

Lemma for_each_listeners l s :
  bus_wf s -> let called := handlers_called (effects_of (for_each l (call_one frame) s)) in
  Forall (fun x => x.2 = frame) called /\ called.*1.*1 `sublist_of` l /\
  forall i h, i < next_handler_id_ s ->
    ((i, h, frame) ∈ called -> listens s c i h) /\
    (i ∈ l -> listens s c i h -> (i, h, frame) ∈ called \/ removed_by called i).
Proof.
  revert s. induction l as [|j l IH]; intros s Hs; cbn zeta.
  { split_and!; [constructor|constructor|]. intros i h _. by split; intros ?%elem_of_nil. }
  cbn [for_each]. pose proof (fun x => call_one_listener j x s Hs) as Hone. pose proof (call_one_leaves j s Hs) as [Hn Hl].
  pose proof (call_one_inv j s Hs) as Hs1. pose proof (call_one_calls frame j s) as Hc.
  destruct (call_one_succeeds frame j s) as [a Ea]. destruct (call_one frame j s) as [[s1 e1] r] eqn:E.
  cbn [state_of effects_of result_of fst snd] in *. subst r. erewrite bind_ok by exact E. rewrite effects_of_prepend, handlers_called_app.
  destruct (IH s1 Hs1) as (Hf & Hsub & Hlist). clear IH. split_and!.
  - apply Forall_app. split; [|done]. apply Forall_forall. intros x (h & -> & _)%Hone. done.
  - rewrite !fmap_app. rewrite Hc. destruct (_ ≫= entry_at s) as [e|]; [destruct (fe_handlers e !! j)|]; simpl;
      [by apply sublist_skip|by apply sublist_cons..].
  - intros i h Hi. destruct (Hl i h Hi) as [Hback Hkept]. destruct (Hlist i h ltac:(lia)) as [Hcall Hall]. split.
    + intros [(h' & [= -> ->] & ?)%Hone|?%Hcall]%elem_of_app; auto.
    + intros Hin Hlis. setoid_rewrite elem_of_app. destruct (decide (i = j)) as [->|Hne].
      { left. left. apply Hone. by exists h. }
      destruct (Hkept Hlis) as [(k & g & ? & ?)|Hlis1]; [right; exists k, g; by split; [apply elem_of_app; left|]|].
      apply elem_of_cons in Hin as [->|Hin]; [done|]. destruct (Hall Hin Hlis1) as [?|(k & g & ? & ?)]; [by auto|].
      right. exists k, g. by split; [apply elem_of_app; right|].
Qed.
End dispatch.

(** ** The properties *)

(** C36. A received frame calls the handlers that are registered for its identifier, whatever the handlers do: in
    every reachable state, with handlers that register, remove and send while they are called, a frame with a
    valid identifier is passed as it is to handlers that were registered for its identifier when the dispatch
    began, to each at most once, and to every one of them except those that a handler called in this dispatch
    has removed.  So the lookup by exact identifier, then by mask, finds what a search of all registrations
    would. *)
Theorem dispatch_reaches_the_listeners `{LawfulCanDriver} `{UnorderedIter} n reaction d config l frame :
  bus_run reaction d l -> let c := mkCanId (fr_id frame) (fr_is_extended frame) in
  is_u32 (can_id c) -> CanId_IsValid c = true ->
  let s := run_bus n reaction l (NewCanbus d config) in
  let called := handlers_called (effects_of (DispatchFrame (handler_runs reaction) frame s)) in
  Forall (fun x => x.2 = frame) called /\ NoDup called.*1.*1 /\
  (forall i h, (i, h, frame) ∈ called -> listens s c i h) /\
  (forall i h, listens s c i h ->
     (i, h, frame) ∈ called \/ exists j g, (j, g, frame) ∈ called /\ ApiRemove i ∈ reaction g frame).
Proof.
  intros Hrun c Hu Hv s called. pose proof (bus_run_inv n reaction d config l Hrun) as Hs. fold s in Hs.
  pose proof (fun i h => found_listens frame Hu Hv s i h Hs) as Hfound. fold c in Hfound.
  unfold called, DispatchFrame. fold c. rewrite bind_get. destruct (FindMatchingEntry c s ≫= entry_at s) as [e|] eqn:He.
  - set (ids := take MAX_HANDLERS_PER_FILTER (uiter (fe_handlers e)).*1).
    assert (ids = (uiter (fe_handlers e)).*1) as Hids.
    { apply bind_Some in He as (r & _ & He). apply take_ge. rewrite length_fmap, length_uiter.
      apply (eo_count _ _ (rg_entry _ _ _ (bi_registry _ _ _ Hs) _ _ He)). }
    change (for_each ids _) with (for_each ids (call_one reaction frame)).
    destruct (for_each_listeners reaction (br_reaction _ _ _ Hrun) frame Hu Hv ids s Hs) as (Hf & Hsub & Hl). fold c in Hl. split_and!.
    + exact Hf.
    + eapply sublist_NoDup; [|exact Hsub]. rewrite Hids. apply NoDup_uiter_fst.
    + intros i h Hi. assert (i ∈ ids) as Hin.
      { eapply elem_of_submseteq; [|by apply sublist_submseteq]. do 2 apply (list_elem_of_fmap_2 fst) in Hi. exact Hi. }
      rewrite Hids in Hin. apply elem_of_uiter_fst in Hin as [h' Hh']. apply Hl; [|done].
      eapply (listener_id c i h'); [done|]. by apply Hfound.
    + intros i h Hlis. apply Hl; [by eapply listener_id| |done]. rewrite Hids. apply elem_of_uiter_fst. exists h. by apply Hfound.
  - split_and!; [constructor|constructor|by intros i h ?%elem_of_nil|]. intros i h Hlis%Hfound. done.
Qed.
Lemma dispatch_reaches_the_listeners_witness :
  let called := handlers_called (effects_of (@DispatchFrame _ some_iter (@handler_runs _ some_iter answering) (FrameOfRaw (raw_frame 1795)) working_bus_state)) in
  called = [(2, 12, FrameOfRaw (raw_frame 1795)); (1, 11, FrameOfRaw (raw_frame 1795))] /\
  listens working_bus_state (Standard 1795) 1 11.
Proof.
  intros called.
  assert (called = [(2, 12, FrameOfRaw (raw_frame 1795)); (1, 11, FrameOfRaw (raw_frame 1795))]) as E by by vm_compute.
  split; [exact E|].
  assert (is_u32 1795 /\ CanId_IsValid (Standard 1795) = true) as [Hu Hv] by (split; [split|]; by vm_compute).
  destruct (@dispatch_reaches_the_listeners _ _ some_iter 8 answering ∅ plain_config working_bus (FrameOfRaw (raw_frame 1795))
    working_bus_run Hu Hv) as (_ & _ & Hback & _).
  apply (Hback 1 11). fold called. rewrite E. right. left.
Defined.
