(* ===== verification/CanbusProbe.v ===== *)
(** * CAN bus: the detection of the bitrate and the wire

    The modes in which the controller is started while bitrates are tried. *)

From S2P Require Import Prelude Can Service Canbus CanbusSpec CanbusRuns CanbusListeners.

(** The mode in force at each start of the controller. *)
Fixpoint started_in (mode : option Z) (es : list CanEffect) : list (option Z) :=
  match es with
  | [] => []
  | ModeSet m :: es => started_in (Some m) es
  | ControllerStarted :: es => mode :: started_in mode es
  | _ :: es => started_in mode es
  end.
Fixpoint mode_after (mode : option Z) (es : list CanEffect) : option Z :=
  match es with
  | [] => mode
  | ModeSet m :: es => mode_after (Some m) es
  | _ :: es => mode_after mode es
  end.
Lemma started_in_app mode es1 es2 : started_in mode (es1 ++ es2) = started_in mode es1 ++ started_in (mode_after mode es1) es2.
Proof. revert mode. induction es1 as [|e es1 IH]; intros mo; [done|]. destruct e; simpl; rewrite ?IH; done. Qed.

(** The controller has the capabilities [caps] in every state, and bit [k] is the one of listening only. *)
Record listen_bit `{CanDriver} (k caps : Z) : Prop := {
  lb_mode : CAN_MODE_LISTENONLY = 2 ^ k;
  lb_width : 0 <= k < 32;
  lb_fd : Z.testbit CAN_MODE_FD k = false;
  lb_caps : forall dev d, can_get_capabilities dev d = (0, caps);
}.

Lemma not32_bit z k : 0 <= k < 32 -> Z.testbit (not32 z) k = negb (Z.testbit z k).
Proof.
  intros Hk. unfold not32. rewrite Z.land_spec, Z.lnot_spec by lia. change 4294967295 with (Z.ones 32).
  by rewrite Z.ones_spec_low, andb_true_r by lia.
Qed.

Section probe.
Context `{LawfulCanDriver} `{UnorderedIter} {k caps : Z} (bit : listen_bit k caps) (em : Z).
Implicit Types s : Canbus.

(** The extra modes of the bus are [em]; a mode that listens only if the controller can; one of the bus's own. *)
Definition asks s : Prop := cc_extra_modes (config_ s) = em.
Definition listening (m : option Z) : Prop := exists z, m = Some z /\ Z.testbit z k = Z.testbit caps k.
Definition own_mode (m : option Z) : Prop := exists z, m = Some z /\ Z.testbit z k = Z.testbit em k && Z.testbit caps k.

(** From a state that asks for [em], [m] ends, asks for [em], and its effects and result are as [Q] says. *)
Definition does {A} (m : CB A) (Q : A -> list CanEffect -> Prop) : Prop :=
  forall s, asks s -> exists s' e a, m s = (s', e, Ok a) /\ asks s' /\ Q a e.
Lemma does_bind {A B} (m : CB A) (f : A -> CB B) Q R :
  does m Q -> (forall a e1, Q a e1 -> does (f a) (fun b e2 => R b (e1 ++ e2))) -> does (m ≫= f) R.
Proof.
  intros Hm Hf s Hs. destruct (Hm s Hs) as (s1 & e1 & a & E & Hs1 & HQ). erewrite bind_ok by exact E.
  destruct (Hf a e1 HQ s1 Hs1) as (s2 & e2 & b & E2 & Hs2 & HR). exists s2, (e1 ++ e2), b. rewrite E2. done.
Qed.
Lemma does_ret {A} (a : A) (Q : A -> list CanEffect -> Prop) : Q a [] -> does (mret a) Q.
Proof. intros HQ s Hs. by exists s, [], a. Qed.
Lemma does_get {B} (f : Canbus -> CB B) R : (forall s, asks s -> does (f s) R) -> does (get ≫= f) R.
Proof. intros Hf s Hs. rewrite bind_get. by apply Hf. Qed.
Lemma does_modify (f : Canbus -> Canbus) : (forall s, asks s -> asks (f s)) -> does (modify f) (fun _ e => e = []).
Proof. intros Hf s Hs. exists (f s), [], tt. by split_and!; [|apply Hf|]. Qed.
Lemma does_emit e : does (emit e) (fun _ e' => e' = [e]).
Proof. intros s Hs. by exists s, [e], tt. Qed.
Lemma does_driver call : does (on_driver call) (fun _ e => e = []).
Proof. intros s Hs. unfold on_driver. rewrite bind_get. destruct (call _ _) as [d r]. by exists (s <| cb_driver := d |>), [], r. Qed.
Lemma does_weaken {A} (m : CB A) Q R : does m Q -> (forall a e, Q a e -> R a e) -> does m R.
Proof. intros Hm HQ s Hs. destruct (Hm s Hs) as (s' & e & a & E & Hs' & Hq). exists s', e, a. auto. Qed.

Lemma ApplyMode_does extra :
  does (ApplyMode extra) (fun a e => if a then exists z, e = [ModeSet z] /\ Z.testbit z k = Z.testbit extra k && Z.testbit caps k else e = []).
Proof.
  unfold ApplyMode. apply does_get. intros s Hs. rewrite (lb_caps _ _ bit), bool_decide_eq_true_2 by done. cbn [negb].
  eapply does_bind; [unfold when; instantiate (1 := fun _ e => e = []); case_match; [by apply does_modify|by apply does_ret]|].
  intros _ ? ->. eapply does_bind; [apply does_driver|]. intros r ? ->. case_bool_decide; [|by apply does_ret].
  eapply does_bind; [apply does_emit|]. intros _ ? ->. apply does_ret. eexists. split; [done|].
  pose proof (lb_width _ _ bit) as Hw. rewrite Z.lor_spec.
  assert (Z.testbit (if bool_decide (cc_type (config_ s) = CANFD) && negb (bool_decide (Z.land caps CAN_MODE_FD = 0)) then CAN_MODE_FD else 0) k = false) as ->
    by (case_match; [apply (lb_fd _ _ bit)|apply Z.bits_0]).
  case_bool_decide as Hx; simpl; [|apply Z.land_spec].
  apply (f_equal (fun z => Z.testbit z k)) in Hx. rewrite Z.land_spec, not32_bit, Z.bits_0 in Hx by done.
  by destruct (Z.testbit extra k), (Z.testbit caps k).
Qed.
Lemma SetTiming_does r : does (SetTiming r) (fun _ e => e = []).
Proof.
  unfold SetTiming. case_match; [by apply does_ret|]. eapply does_bind; [apply does_driver|]. intros x ? ->. by apply does_ret.
Qed.
Lemma SetDataTiming_does r : does (SetDataTiming r) (fun _ e => e = []).
Proof.
  unfold SetDataTiming. case_match; [by apply does_ret|]. apply does_get. intros s Hs. case_match; [by apply does_ret|].
  eapply does_bind; [apply does_driver|]. intros x ? ->. by apply does_ret.
Qed.
Lemma StartController_does : does StartController (fun a e => e = if bool_decide (a = 0) then [ControllerStarted] else []).
Proof.
  unfold StartController. eapply does_bind; [apply does_driver|]. intros x ? ->. unfold when.
  case_bool_decide as Hx; (eapply does_bind; [|intros u ? Hq; apply does_ret; rewrite app_nil_r; exact Hq]); cbv beta.
  - eapply does_weaken; [apply does_emit|]. intros _ e ->. by rewrite bool_decide_eq_true_2.
  - apply does_ret. by rewrite bool_decide_eq_false_2.
Qed.
Lemma StopController_does : does StopController (fun _ e => e = [] \/ e = [ControllerStopped]).
Proof.
  unfold StopController. eapply does_bind; [apply does_driver|]. intros x ? ->. unfold when.
  case_bool_decide; (eapply does_bind; [|intros u ? Hq; apply does_ret; rewrite app_nil_r; exact Hq]); cbv beta.
  - eapply does_weaken; [apply does_emit|]. intros _ e ->. by right.
  - apply does_ret. by left.
Qed.

(** Every start but the last of a success listens only; that one is in the modes of the bus. *)
Definition probed (found : bool) (es : list CanEffect) : Prop :=
  forall mode, exists l m, started_in mode es = l ++ (if found then [m] else []) /\ Forall listening l /\ (found = true -> own_mode m).

Lemma probed_silent b l es : (forall mode, started_in mode es = l) -> Forall listening l -> b = false -> probed b es.
Proof. intros Hes Hl -> mode. exists l, None. by rewrite Hes, app_nil_r. Qed.

Lemma TestBitrate_does bitrate : does (TestBitrate bitrate) probed.
Proof.
  unfold TestBitrate. apply does_get. intros s Hs.
  eapply does_bind; [apply ApplyMode_does|]. intros [] e He; simpl in He; [|subst e; apply does_ret, (probed_silent _ []); by repeat constructor].
  destruct He as (z & -> & Hz).
  assert (listening (Some z)) as Hl.
  { exists z. split; [done|]. rewrite Hz, Z.lor_spec, (lb_mode _ _ bit), Z.pow2_bits_true by (by apply (lb_width _ _ bit)). by rewrite orb_true_r. }
  clear Hz. eapply does_bind; [apply SetTiming_does|]. intros [] ? ->; [|apply does_ret, (probed_silent _ []); by repeat constructor].
  apply does_get. intros s1 Hs1. eapply does_bind; [instantiate (1 := fun _ e => e = []); case_match; [apply SetDataTiming_does|by apply does_ret]|].
  intros [] ? ->; [|apply does_ret, (probed_silent _ []); by repeat constructor].
  eapply does_bind; [apply StartController_does|]. intros r ? ->. case_bool_decide; [|apply does_ret, (probed_silent _ []); by repeat constructor].
  cbn [negb]. eapply does_bind; [apply does_driver|]. intros id ? ->. case_bool_decide.
  { eapply does_bind; [apply StopController_does|]. intros ? e He. apply does_ret, (probed_silent _ [Some z]); [|by repeat constructor|done].
    by destruct He as [->| ->]. }
  eapply does_bind; [apply does_emit|]. intros _ ? ->. eapply does_bind; [apply does_driver|]. intros n ? ->.
  eapply does_bind; [by apply does_modify|]. intros _ ? ->. apply does_get. intros s2 Hs2. cbv zeta.
  eapply does_bind; [apply StopController_does|]. intros ? e He.
  assert (forall b rest, match b with true => exists m, started_in (Some z) rest = [m] /\ own_mode m | false => started_in (Some z) rest = [] end ->
    probed b ([ModeSet z; ControllerStarted; SleepMs AUTO_DETECT_SAMPLE_MS] ++ e ++ rest)) as Hend.
  { intros b rest Hrest mode. assert (started_in mode ([ModeSet z; ControllerStarted; SleepMs AUTO_DETECT_SAMPLE_MS] ++ e ++ rest) =
      Some z :: started_in (Some z) rest) as -> by by destruct He as [->| ->].
    destruct b; [destruct Hrest as (m & -> & Hm)|rewrite Hrest]; [exists [Some z], m|exists [Some z], None]; by repeat constructor. }
  case_bool_decide; [|apply does_ret; by apply (Hend false [])].
  destruct (can_is_error_active _ _); [|apply does_ret; by apply (Hend false [])]. cbn [negb andb].
  apply does_get. intros s3 Hs3. eapply does_bind; [apply ApplyMode_does|]. intros [] e2 He2; simpl in He2; [|subst e2; apply does_ret; by apply (Hend false [])].
  destruct He2 as (y & -> & Hy). rewrite Hs3 in Hy.
  eapply does_bind; [apply SetTiming_does|]. intros [] ? ->; [|apply does_ret; by apply (Hend false [ModeSet y])].
  apply does_get. intros s4 Hs4. eapply does_bind; [instantiate (1 := fun _ e => e = []); case_match; [apply SetDataTiming_does|by apply does_ret]|].
  intros [] ? ->; [|apply does_ret; by apply (Hend false [ModeSet y])].
  eapply does_bind; [apply StartController_does|]. intros r2 ? ->. apply does_ret. case_bool_decide.
  - apply (Hend true [ModeSet y; ControllerStarted]). exists (Some y). split; [done|]. by exists y.
  - by apply (Hend false [ModeSet y]).
Qed.

Lemma probed_app b es1 es2 : probed false es1 -> probed b es2 -> probed b (es1 ++ es2).
Proof.
  intros H1x H2x mode. destruct (H1x mode) as (l1 & m1 & E1 & Hl1 & _). rewrite app_nil_r in E1.
  destruct (H2x (mode_after mode es1)) as (l2 & m2 & E2 & Hl2 & Hm). exists (l1 ++ l2), m2.
  rewrite started_in_app, E1, E2, app_assoc. split_and!; [done|by apply Forall_app|done].
Qed.
Lemma probed_quiet b es1 es2 : (forall mode, started_in mode es2 = []) -> probed b es1 -> probed b (es1 ++ es2).
Proof.
  intros H2x H1x mode. destruct (H1x mode) as (l & m & E & Hlm). exists l, m. by rewrite started_in_app, H2x, app_nil_r.
Qed.
Lemma TryBitrates_does bitrates : does (TryBitrates bitrates) probed.
Proof.
  assert (probed false []) as Hnil by by apply (probed_silent _ []).
  induction bitrates as [|bitrate bitrates IH]; simpl; [by apply does_ret|]. apply does_get. intros s Hs.
  case_match; [by apply does_ret|]. eapply does_bind; [apply TestBitrate_does|]. intros [] e He; cbv beta in He.
  - eapply does_bind; [by apply does_modify|]. intros _ ? ->. eapply does_bind; [apply does_modify; intros s' Hs'; unfold asks; simpl; by case_match|].
    intros _ ? ->. apply does_ret. rewrite !app_nil_r. exact He.
  - eapply does_bind; [apply does_emit|]. intros _ ? ->. eapply does_weaken; [exact IH|]. intros b e2 H2x. cbv beta.
    apply probed_app; [exact He|]. by apply (probed_app b [SleepMs 50]); [apply (probed_silent _ [])|].
Qed.
Lemma InstallFilter_does r : does (InstallFilter r) (fun _ e => e = []).
Proof.
  unfold InstallFilter. apply does_get. intros s Hs. case_match; [|by apply does_ret]. case_match; [by apply does_ret|].
  eapply does_bind; [apply does_driver|]. intros x ? ->. case_match; [by apply does_ret|].
  eapply does_bind; [apply does_modify; intros s' Hs'; by destruct r|]. intros _ ? ->. by apply does_ret.
Qed.
Lemma InstallDeferredFilters_does : does InstallDeferredFilters (fun _ e => e = []).
Proof.
  unfold InstallDeferredFilters. apply does_get. intros s _. generalize (all_refs s). clear s. intros l.
  induction l as [|r l IH]; simpl; [by apply does_ret|]. apply (does_bind _ _ (fun _ e => e = [])); [|intros _ ? ->; exact IH].
  eapply does_bind; [apply InstallFilter_does|]. intros _ ? ->. by apply does_ret.
Qed.
Lemma BitrateAutodetectRound_does callback : does (BitrateAutodetectRound callback) probed.
Proof.
  unfold BitrateAutodetectRound, AutoDetectBitrate. eapply does_bind; [apply does_get; intros s _; apply TryBitrates_does|].
  intros [] e He; cbv beta in He; [|apply does_ret; by rewrite app_nil_r]. apply does_get. intros s Hs.
  eapply does_bind; [apply InstallDeferredFilters_does|]. intros _ ? ->. unfold when, StopActivityMonitoring. destruct callback.
  - eapply does_bind; [apply does_emit|]. intros _ ? ->. eapply does_bind; [by apply does_modify|]. intros _ ? ->.
    apply does_ret. apply probed_quiet; done.
  - eapply does_bind; [by apply (does_ret tt (fun _ e => e = []))|]. intros _ ? ->. eapply does_bind; [by apply does_modify|]. intros _ ? ->.
    apply does_ret. apply probed_quiet; done.
Qed.
End probe.

(** C39. Probing stays off the wire, where the controller can listen only: in a round of the detection, from any
    state and whatever the driver answers, the controller is started for a probe in a mode that listens only
    if and only if it has that capability, and in the modes of the bus only once, last, when a bitrate was
    found.  [ApplyMode] drops a mode the controller does not have, so one that cannot listen only takes part
    in the traffic at every wrong bitrate that is tried. *)
Theorem probing_listens_where_it_can `{LawfulCanDriver} `{UnorderedIter} k caps callback mode s :
  listen_bit k caps ->
  let '(_, es, r) := BitrateAutodetectRound callback s in
  exists found l m, r = Ok found /\ started_in mode es = l ++ (if found then [m] else []) /\
    Forall (fun started => exists z, started = Some z /\ Z.testbit z k = Z.testbit caps k) l /\
    (found = true -> exists z, m = Some z /\ Z.testbit z k = Z.testbit (cc_extra_modes (config_ s)) k && Z.testbit caps k).
Proof.
  intros bit. destruct (BitrateAutodetectRound_does bit _ callback s eq_refl) as (s' & es & found & -> & _ & Hp).
  destruct (Hp mode) as (l & m & El & Hl & Hm). exists found, l, m. done.
Qed.

Lemma some_driver_listens : @listen_bit some_driver 1 7.
Proof. by split. Qed.
Lemma probing_listens_where_it_can_witness :
  let s := NewCanbus (∅ : driver) (mkCanbusConfig 1 CANFD 0 0 8) in
  let s := s <| auto_detect_running_ := true |> <| cb_thread_running := true |> in
  started_in None (effects_of (@BitrateAutodetectRound _ some_iter true s)) = [Some 6; Some 4] /\
  exists l m, [Some 6; Some 4] = l ++ [m] /\ Forall (fun started => exists z, started = Some z /\ Z.testbit z 1 = true) l.
Proof.
  intros s0 s. assert (started_in None (effects_of (@BitrateAutodetectRound _ some_iter true s)) = [Some 6; Some 4]) as E by by vm_compute.
  assert (result_of (@BitrateAutodetectRound _ some_iter true s) = Ok true) as Er by by vm_compute.
  split; [exact E|]. pose proof (@probing_listens_where_it_can _ _ some_iter 1 7 true None s some_driver_listens) as Hp.
  destruct (@BitrateAutodetectRound _ some_iter true s) as [[s' es] r]. cbn [effects_of result_of fst snd] in E, Er. subst r.
  destruct Hp as (found & l & m & [= <-] & El & Hl & _). exists l, m. split; [congruence|exact Hl].
Defined.
