(* ===== verification/Cdmp.v ===== *)
(** * CDMP: enumerations, constants, status machine, device, identifiers

    [src/src/subsys/cdmp/utilities/] and [models/cdmp_device.*]: the values the CDMP services share.
    Bytes and words are [Z]; times are milliseconds of [k_uptime_get]. *)

From S2P Require Import Prelude Can.

(** ** [utilities/enums.h] *)

Inductive CdmpDeviceStatus := OFFLINE | INIT | CLAIMING | ONLINE | VERSION_MISMATCH | ERROR.
#[export] Instance CdmpDeviceStatus_eq_dec : EqDecision CdmpDeviceStatus.
Proof. solve_decision. Defined.

Definition status_byte (s : CdmpDeviceStatus) : Z :=
  match s with
  | OFFLINE => 0 | INIT => 1 | CLAIMING => 2 | ONLINE => 3 | VERSION_MISMATCH => 4 | ERROR => 5
  end.

(** The remaining enumerations arrive from the wire by [static_cast], so a value need not be one of
    the named ones: they are bytes with named constants. *)
Definition HEALTH_OK : Z := 0.
Definition HEALTH_WARNING : Z := 1.
Definition HEALTH_ERROR : Z := 2.

Definition RESULT_SUCCESS : Z := 0.
Definition RESULT_FAILURE : Z := 1.
Definition RESULT_INVALID_PARAMETER : Z := 2.
Definition RESULT_UNSUPPORTED_COMMAND : Z := 3.
Definition RESULT_CANCELLED : Z := 4.
Definition RESULT_TIMEOUT : Z := 5.

Definition MSG_ID_CLAIM : Z := 1.
Definition MSG_ID_CLAIM_RESPONSE : Z := 2.
Definition MSG_DISCOVERY_REQUEST : Z := 3.
Definition MSG_DISCOVERY_RESPONSE : Z := 4.
Definition MSG_HEARTBEAT : Z := 5.

Definition CLAIM_ACCEPT : Z := 0.
Definition CLAIM_REJECT : Z := 1.
Definition CLAIM_VERSION_INCOMPATIBLE : Z := 2.

Definition STATUS_REQUEST : Z := 16.
Definition RESET_DEVICE : Z := 17.
Definition STATE_SYNC_REQUEST : Z := 18.

(** ** [utilities/constants.h] *)

Definition DISCOVERY_MAX_BACKOFF_RESETS : Z := 10.
Definition ID_CLAIM_RESPONSE_TIMEOUT_MS : Z := 50.
Definition ID_CLAIM_MAX_ATTEMPTS : Z := 10.
Definition PENDING_ID_CLAIMS_MAX : nat := 8.
Definition HEARTBEAT_INTERVAL_MS : Z := 3000.
Definition HEARTBEAT_TIMEOUT_MS : Z := HEARTBEAT_INTERVAL_MS * 3.
Definition NETWORK_VALIDATION_INTERVAL_MS : Z := 5000.
Definition STAGGERED_MESSAGE_TIME_OFFSET_MS : Z := 5.
Definition USER_COMMAND_CODE_MIN : Z := 32.
Definition USER_COMMAND_CODE_MAX : Z := 255.
Definition STATE_ACK_PEERS_MAX : nat := 8.
Definition STATE_VERSION_REFRESH_LAG : Z := 64.
Definition STATE_SYNC_REQUEST_MIN_INTERVAL_MS : Z := HEARTBEAT_INTERVAL_MS / 2.
Definition RETRY_BACKOFFS_MS : list Z := [100; 200; 500].
Definition STATE_RETRANSMIT_BACKOFFS_MS : list Z := [50; 100; 200].

Definition DEVICE_ID_UNASSIGNED : Z := 0.
Definition DEVICE_ID_BROADCAST : Z := 255.

(** ** [utilities/cdmp_status_machine.*] *)

(** The closures the program registers on the unit's own status machine
    ([CdmpCanbusServiceBase], one per service) and those an application registers. *)
Inductive StatusHandler :=
| NetworkStatusHandler
| HeartbeatStatusHandler
| CommandStatusHandler
| StateStatusHandler
| UserStatusHandler (n : Z).
#[export] Instance StatusHandler_eq_dec : EqDecision StatusHandler.
Proof. solve_decision. Defined.

Record CdmpStatusMachine := mkStatusMachine {
  status_ : CdmpDeviceStatus;
  status_change_callbacks_ : gmap Z StatusHandler;
}.
#[export] Instance CdmpStatusMachine_eta : Eta CdmpStatusMachine :=
  fun x => mkStatusMachine (status_ x) (status_change_callbacks_ x).

Definition NewStatusMachine (initial : CdmpDeviceStatus) : CdmpStatusMachine :=
  mkStatusMachine initial ∅.

Definition IsValidTransition (from to : CdmpDeviceStatus) : bool :=
  match from with
  | OFFLINE => bool_decide (to = INIT) || bool_decide (to = ERROR)
  | INIT => bool_decide (to = CLAIMING) || bool_decide (to = OFFLINE) || bool_decide (to = ERROR)
  | CLAIMING =>
      bool_decide (to = INIT) || bool_decide (to = ONLINE)
      || bool_decide (to = VERSION_MISMATCH) || bool_decide (to = ERROR)
  | ONLINE => bool_decide (to = VERSION_MISMATCH) || bool_decide (to = OFFLINE) || bool_decide (to = ERROR)
  | VERSION_MISMATCH => bool_decide (to = OFFLINE)
  | ERROR => bool_decide (to = INIT) || bool_decide (to = OFFLINE)
  end.

Definition CanTransitionTo (m : CdmpStatusMachine) (new : CdmpDeviceStatus) : bool :=
  IsValidTransition (status_ m) new.
Definition IsOperational (m : CdmpStatusMachine) : bool :=
  bool_decide (status_ m = ONLINE) || bool_decide (status_ m = CLAIMING).

(** One call of a status handler. *)
Record StatusCall := mkStatusCall {
  sc_handler : StatusHandler;
  sc_old : CdmpDeviceStatus;
  sc_new : CdmpDeviceStatus;
}.

Section status_machine.
Context `{UnorderedIter}.

Definition NotifyStatusChange (m : CdmpStatusMachine) (old new : CdmpDeviceStatus) : list StatusCall :=
  (fun '(_, h) => mkStatusCall h old new) <$> uiter (status_change_callbacks_ m).

(** [SetStatus]: the machine after the call and the handlers it called, in order. *)
Definition SetStatus (new : CdmpDeviceStatus) (force : bool) (m : CdmpStatusMachine) :
    CdmpStatusMachine * list StatusCall :=
  if bool_decide (new = status_ m) then (m, [])
  else if negb force && negb (CanTransitionTo m new) then (m, [])
  else
    let m' := m <| status_ := new |> in
    (m', NotifyStatusChange m' (status_ m) new).
End status_machine.

(** [RegisterStatusChangeHandler]: one above the highest registered ID (0 when there is none). *)
Definition RegisterStatusChangeHandler (h : StatusHandler) (m : CdmpStatusMachine) : CdmpStatusMachine * Z :=
  let max_id := map_fold (fun i _ acc => Z.max acc i) 0 (status_change_callbacks_ m) in
  let new_id := max_id + 1 in
  (m <| status_change_callbacks_ ::= <[new_id := h]> |>, new_id).
Definition UnregisterStatusChangeHandler (i : Z) (m : CdmpStatusMachine) : CdmpStatusMachine :=
  m <| status_change_callbacks_ ::= delete i |>.

(** ** [models/cdmp_device.*] *)

Record CdmpDevice := mkDevice {
  device_id_ : Z;
  uid_ : Z;
  protocol_version_ : Z;
  health_status_ : Z;
  features_ : Z;
  last_heartbeat_ : Z;
  uptime_counter_ : Z;
  is_lowest_id_on_network_ : bool;
  staggered_message_delay_ : Z;
  state_digest_ : Z;
  status_machine_ : CdmpStatusMachine;
}.
#[export] Instance CdmpDevice_eta : Eta CdmpDevice := fun x =>
  mkDevice (device_id_ x) (uid_ x) (protocol_version_ x) (health_status_ x) (features_ x)
    (last_heartbeat_ x) (uptime_counter_ x) (is_lowest_id_on_network_ x) (staggered_message_delay_ x)
    (state_digest_ x) (status_machine_ x).

(** Version 1.0. *)
Definition GetCurrentProtocolVersion : Z := 16.

Definition UpdateHeartbeat (now : Z) (d : CdmpDevice) : CdmpDevice := d <| last_heartbeat_ := now |>.

(** The constructor throws for UID 0. *)
Definition NewDevice (now uid features : Z) (status : CdmpDeviceStatus) : res CdmpDevice :=
  let d := mkDevice DEVICE_ID_UNASSIGNED uid GetCurrentProtocolVersion HEALTH_OK features 0 0 false 0 0
             (NewStatusMachine status) in
  if bool_decide (uid = 0) then Throw (InvalidArgument "Unique identifier must be non-zero")
  else Ok (UpdateHeartbeat now d).

Definition GetStatus (d : CdmpDevice) : CdmpDeviceStatus := status_ (status_machine_ d).
Definition IsOnline (d : CdmpDevice) : bool := bool_decide (GetStatus d = ONLINE).
(** [k_uptime_get() - last_heartbeat_] on [uint64_t]. *)
Definition GetLastHeartbeatDeltaMs (now : Z) (d : CdmpDevice) : Z :=
  (now - last_heartbeat_ d) mod 18446744073709551616.
Definition SetFeature (mask : Z) (is_set : bool) (d : CdmpDevice) : CdmpDevice :=
  if is_set then d <| features_ ::= fun f => Z.lor f mask |>
  else d <| features_ ::= fun f => Z.land f (Z.land (Z.lnot mask) 65535) |>.
Definition IncrementUptime (d : CdmpDevice) : CdmpDevice := d <| uptime_counter_ ::= fun c => u8 (c + 1) |>.

(** Major versions, bits 4 to 7, must match. *)
Definition IsProtocolCompatible (d : CdmpDevice) (other : Z) : bool :=
  bool_decide (Z.land (Z.shiftr (protocol_version_ d) 4) 15 = Z.land (Z.shiftr other 4) 15).

Section device.
Context `{UnorderedIter}.

Definition DeviceSetStatus (new : CdmpDeviceStatus) (force : bool) (d : CdmpDevice) :
    CdmpDevice * list StatusCall :=
  let '(m, calls) := SetStatus new force (status_machine_ d) in (d <| status_machine_ := m |>, calls).

Definition StartDiscovery := DeviceSetStatus INIT false.
Definition ClaimId := DeviceSetStatus CLAIMING false.
Definition GoOnline (force : bool) := DeviceSetStatus ONLINE force.
Definition EnterVersionMismatch := DeviceSetStatus VERSION_MISMATCH false.
Definition EnterError := DeviceSetStatus ERROR false.
Definition Reset (d : CdmpDevice) : CdmpDevice * list StatusCall :=
  let '(d', calls) := DeviceSetStatus OFFLINE false d in (d' <| health_status_ := HEALTH_OK |>, calls).
End device.

(** ** [models/cdmp_device_info.h] and [ToDeviceInfo] of the network service *)

Record CdmpDeviceInfo := mkDeviceInfo {
  info_device_id : Z;
  info_uid : Z;
  info_features : Z;
  info_status : CdmpDeviceStatus;
}.
#[export] Instance CdmpDeviceInfo_eq_dec : EqDecision CdmpDeviceInfo.
Proof. solve_decision. Defined.

Definition ToDeviceInfo (d : CdmpDevice) : CdmpDeviceInfo :=
  mkDeviceInfo (device_id_ d) (uid_ d) (features_ d) (GetStatus d).

(** ** [utilities/cdmp_helpers.h] *)

(** [std::set] of the IDs and [device_id] itself: the position of [device_id] in ascending order is
    the number of distinct smaller IDs. *)
Definition CalculateStaggeredMessageTimeOffset (device_ids : list Z) (device_id : Z) : Z :=
  let sorted_device_ids : gset Z := list_to_set device_ids ∪ {[device_id]} in
  u32 (Z.of_nat (size (filter (fun i => i < device_id) sorted_device_ids)) * STAGGERED_MESSAGE_TIME_OFFSET_MS).

(** ** [utilities/cdmp_can_id_manager.h]

    The manager's state is its base identifier. *)

Definition DEFAULT_BASE_CAN_ID : Z := 1792.
Definition MANAGEMENT_OFFSET : Z := 0.
Definition HEARTBEAT_OFFSET : Z := 1.
Definition COMMAND_OFFSET : Z := 2.
Definition COMMAND_RESPONSE_OFFSET : Z := 3.
Definition STATE_CHANGE_OFFSET : Z := 4.
Definition STATE_CHANGE_RESPONSE_OFFSET : Z := 5.
Definition CAPABILITY_OFFSET_START : Z := 20.
Definition CAPABILITY_OFFSET_END : Z := 51.
Definition APPLICATION_OFFSET_END : Z := 99.
Definition RECEIVE_BLOCK_SIZE : Z := 8.

Definition IsValidBaseCanId (base : Z) : bool :=
  bool_decide (base <= u32 (CAN_STD_ID_MASK - APPLICATION_OFFSET_END)).

(** [SetBaseCanId]: the new base, or the exception (the old base is kept). *)
Definition SetBaseCanId (base : Z) : res Z :=
  if negb (IsValidBaseCanId base)
  then Throw (InvalidArgument "CDMP base CAN ID leaves no room for the CDMP ID range")
  else Ok base.

Definition GetManagementCanId (base : Z) : CanId := Standard (u32 (base + MANAGEMENT_OFFSET)).
Definition GetHeartbeatCanId (base : Z) : CanId := Standard (u32 (base + HEARTBEAT_OFFSET)).
Definition GetCommandRequestCanId (base : Z) : CanId := Standard (u32 (base + COMMAND_OFFSET)).
Definition GetCommandResponseCanId (base : Z) : CanId := Standard (u32 (base + COMMAND_RESPONSE_OFFSET)).
Definition GetStateChangeRequestCanId (base : Z) : CanId := Standard (u32 (base + STATE_CHANGE_OFFSET)).
Definition GetStateChangeResponseCanId (base : Z) : CanId :=
  Standard (u32 (base + STATE_CHANGE_RESPONSE_OFFSET)).
Definition GetCapabilityCanId (base capability_bit : Z) : res CanId :=
  if bool_decide (CAPABILITY_OFFSET_END - CAPABILITY_OFFSET_START < capability_bit)
  then Throw (InvalidArgument "capability_bit out of range")
  else Ok (Standard (u32 (base + CAPABILITY_OFFSET_START + capability_bit))).

Definition GetReceiveFilter (base : Z) (c : CanId) : CanFilter :=
  if negb (bool_decide (base mod RECEIVE_BLOCK_SIZE = 0)) then ExactFilter c
  else Masked (Standard base) (Z.land CAN_STD_ID_MASK (not32 (RECEIVE_BLOCK_SIZE - 1))).

(** The six identifiers the services receive on. *)
Definition receive_can_ids (base : Z) : list CanId :=
  [GetManagementCanId base; GetHeartbeatCanId base; GetCommandRequestCanId base;
   GetCommandResponseCanId base; GetStateChangeRequestCanId base; GetStateChangeResponseCanId base].

(** ** [utilities/cdmp_uid.*]

    Zephyr supplies the CRC and the hardware ID, and the random generator draws [uint32_t]s. *)

Section uid.
Variable crc32_ieee : list Z -> Z.

Definition FromHardwareId (hardware_id : list Z) : option Z :=
  if bool_decide (hardware_id = []) then None
  else if forallb (fun b => bool_decide (b = 0)) hardware_id
          || forallb (fun b => bool_decide (b = 255)) hardware_id then None
  else let uid := crc32_ieee hardware_id in Some (if bool_decide (uid <> 0) then uid else 1).

(** [while(uid == 0) uid = Rng::Get();] on the draws the generator makes: [None] when all of them
    are 0, in which case the loop goes on. *)
Definition DrawUid (draws : list Z) : option Z := find_first (fun u => negb (bool_decide (u = 0))) draws.

(** [hwinfo] is [hwinfo_get_device_id]'s return value and the bytes it wrote. *)
Definition Generate (hwinfo_length : Z) (hardware_id : list Z) (draws : list Z) : option Z :=
  match
    if bool_decide (0 < hwinfo_length) then FromHardwareId (take (Z.to_nat hwinfo_length) hardware_id) else None
  with
  | Some uid => Some uid
  | None => DrawUid draws
  end.

Lemma Generate_nonzero len hw draws uid : Generate len hw draws = Some uid -> uid <> 0.
Proof.
  unfold Generate, FromHardwareId, DrawUid. intros H.
  destruct (if bool_decide (0 < len) then _ else _) as [u|] eqn:E.
  - simplify_eq. repeat case_match; simplify_eq; [by case_bool_decide|done].
  - apply find_first_Some in H as [_ H]. by case_bool_decide.
Qed.
End uid.

(** ** Lemmas: the status machine *)

Section status_lemmas.
Context `{UnorderedIter}.

Lemma SetStatus_status new force m :
  status_ (SetStatus new force m).1 =
    if force || CanTransitionTo m new then new else status_ m.
Proof.
  unfold SetStatus. case_bool_decide as E; simpl.
  - subst. by destruct (force || _).
  - by destruct force, (CanTransitionTo m new).
Qed.

Lemma SetStatus_callbacks new force m :
  status_change_callbacks_ (SetStatus new force m).1 = status_change_callbacks_ m.
Proof. unfold SetStatus. repeat case_match; simplify_eq/=; done. Qed.

(** Every registered handler is called once, exactly when the status changes. *)
Lemma SetStatus_calls new force m :
  status_ (SetStatus new force m).1 = status_ m /\ (SetStatus new force m).2 = [] \/
  status_ (SetStatus new force m).1 = new /\ new <> status_ m /\
  (SetStatus new force m).2 ≡ₚ
    (fun '(_, h) => mkStatusCall h (status_ m) new) <$> map_to_list (status_change_callbacks_ m).
Proof.
  unfold SetStatus. case_bool_decide; [by left|].
  destruct (negb force && negb (CanTransitionTo m new)); [by left|].
  right. simpl. split; [done|]. split; [done|]. unfold NotifyStatusChange. simpl.
  by rewrite uiter_perm.
Qed.

Lemma RegisterStatusChangeHandler_fresh h m :
  status_change_callbacks_ m !! (RegisterStatusChangeHandler h m).2 = None.
Proof.
  unfold RegisterStatusChangeHandler. simpl.
  destruct (status_change_callbacks_ m !! _) as [x|] eqn:E; [|done].
  exfalso. revert E.
  assert (forall (M : gmap Z StatusHandler) k v,
    M !! k = Some v -> k <= map_fold (fun i _ acc => Z.max acc i) 0 M) as Hmax.
  { intros M. apply (map_fold_weak_ind (fun b M => forall k v, M !! k = Some v -> k <= b)).
    - intros k v Hkv. by rewrite lookup_empty in Hkv.
    - intros i y M1 b HM IH k v. destruct (decide (i = k)) as [->|Hne]; [lia|].
      rewrite lookup_insert_ne by done. intros Hk. specialize (IH k v Hk). lia. }
  intros E. specialize (Hmax _ _ _ E). lia.
Qed.

(** A run of status requests, forced or not. *)
Fixpoint SetStatuses (l : list (CdmpDeviceStatus * bool)) (m : CdmpStatusMachine) : CdmpStatusMachine :=
  match l with [] => m | (s, f) :: l => SetStatuses l (SetStatus s f m).1 end.
End status_lemmas.

(** Without the [force] flag, which the program only uses for its copies of other devices, a unit in
    VERSION_MISMATCH stays there until something resets it to OFFLINE, and one in ERROR until it is
    restarted (INIT) or reset: no run of requests leads from either to ONLINE or CLAIMING otherwise. *)
Theorem version_mismatch_is_sticky `{UnorderedIter} l m :
  Forall (fun p => p.2 = false) l ->
  (status_ m = VERSION_MISMATCH -> OFFLINE ∉ l.*1 -> status_ (SetStatuses l m) = VERSION_MISMATCH) /\
  (status_ m = ERROR -> OFFLINE ∉ l.*1 -> INIT ∉ l.*1 -> status_ (SetStatuses l m) = ERROR).
Proof.
  intros Hf. revert m. induction Hf as [|[s f] l Hs Hf IH]; intros m; [done|].
  simpl in Hs. subst f. cbn [fmap list_fmap fst SetStatuses].
  split; rewrite ?not_elem_of_cons; intros Hm; intros; destruct_and?; apply IH; try done;
    rewrite SetStatus_status; unfold CanTransitionTo; rewrite Hm; simpl;
    by rewrite ?bool_decide_eq_false_2 by congruence.
Qed.

Lemma version_mismatch_is_sticky_witness :
  status_ (@SetStatuses some_iter [(INIT, false); (ONLINE, false); (CLAIMING, false)]
             (NewStatusMachine VERSION_MISMATCH)) = VERSION_MISMATCH.
Proof.
  apply (@version_mismatch_is_sticky some_iter); [by repeat constructor|done|].
  apply (bool_decide_eq_true_1 _). vm_compute. reflexivity.
Defined.

(** ** Lemmas: the identifiers *)

Lemma receive_can_ids_valid base c :
  0 <= base -> IsValidBaseCanId base = true -> c ∈ receive_can_ids base ->
  can_id c = base + (can_id c - base) /\ base <= can_id c <= base + 5 /\ can_is_extended c = false.
Proof.
  unfold IsValidBaseCanId. rewrite bool_decide_eq_true.
  change (u32 (CAN_STD_ID_MASK - APPLICATION_OFFSET_END)) with 1948.
  intros Hb Hv Hin. unfold receive_can_ids in Hin.
  repeat (apply elem_of_cons in Hin as [->|Hin]);
    [..|by apply elem_of_nil in Hin]; simpl; rewrite u32_id by (unfold is_u32, MANAGEMENT_OFFSET,
    HEARTBEAT_OFFSET, COMMAND_OFFSET, COMMAND_RESPONSE_OFFSET, STATE_CHANGE_OFFSET,
    STATE_CHANGE_RESPONSE_OFFSET; lia);
    unfold MANAGEMENT_OFFSET, HEARTBEAT_OFFSET, COMMAND_OFFSET, COMMAND_RESPONSE_OFFSET,
      STATE_CHANGE_OFFSET, STATE_CHANGE_RESPONSE_OFFSET; lia.
Qed.

(** Bits: with an aligned base, the block filter compares everything but the three low bits. *)
Lemma block_filter_matches base i :
  0 <= base <= 1948 -> 0 <= i <= 2047 -> base mod 8 = 0 ->
  Z.land (Z.lxor i base) (Z.land CAN_STD_ID_MASK (not32 (RECEIVE_BLOCK_SIZE - 1))) = 0 <->
  base <= i < base + 8.
Proof.
  intros Hb Hi Ha.
  change (Z.land CAN_STD_ID_MASK (not32 (RECEIVE_BLOCK_SIZE - 1))) with (Z.shiftl 255 3).
  assert (i / 8 = base / 8 <-> base <= i < base + 8) as <- by (Z.div_mod_to_equations; lia).
  change 8 with (2 ^ 3). rewrite <- !Z.shiftr_div_pow2 by lia.
  rewrite land_zero_bits. split; intros H.
  - apply Z.bits_inj'. intros n Hn. rewrite !Z.shiftr_spec by done.
    specialize (H (n + 3) ltac:(lia)). rewrite Z.lxor_spec, Z.shiftl_spec in H by lia.
    replace (n + 3 - 3) with n in H by lia.
    destruct (decide (n < 8)) as [Hlt|Hge].
    + change 255 with (Z.ones 8) in H. rewrite Z.ones_spec_low in H by lia.
      rewrite andb_true_r in H. by destruct (Z.testbit i (n + 3)), (Z.testbit base (n + 3)).
    + assert (forall x, 0 <= x <= 2047 -> Z.testbit x (n + 3) = false) as Hz.
      { intros x Hx. destruct (decide (x = 0)) as [->|]; [apply Z.bits_0|].
        apply Z.bits_above_log2; [lia|]. assert (Z.log2 x < 11) by (apply Z.log2_lt_pow2; simpl; lia). lia. }
      by rewrite !Hz by lia.
  - intros n Hn. rewrite Z.lxor_spec, Z.shiftl_spec by lia.
    destruct (decide (n < 3)); [by rewrite (Z.testbit_neg_r _ (n - 3)), andb_false_r by lia|].
    assert (Z.testbit i n = Z.testbit base n) as ->; [|by rewrite xorb_nilpotent].
    assert (Z.testbit (Z.shiftr i 3) (n - 3) = Z.testbit (Z.shiftr base 3) (n - 3)) as E by (by rewrite H).
    rewrite !Z.shiftr_spec in E by lia. by replace (n - 3 + 3) with n in E by lia.
Qed.

(** C13. Whatever the base, the filter a service registers for one of its identifiers accepts that
    identifier, and accepts no 11-bit identifier outside Base+0..Base+7: CDMP never captures the
    frames of the application or of DBC-defined nodes below the base. *)
Theorem receive_filter_confined base c i :
  0 <= base -> IsValidBaseCanId base = true -> c ∈ receive_can_ids base ->
  Matches (GetReceiveFilter base c) c = true /\
  (CanId_IsValid i = true -> is_u32 (can_id i) -> Matches (GetReceiveFilter base c) i = true ->
   can_is_extended i = false /\ base <= can_id i < base + RECEIVE_BLOCK_SIZE).
Proof.
  intros Hb Hv Hc. destruct (receive_can_ids_valid base c Hb Hv Hc) as (_ & Hr & Hext).
  assert (base <= 1948) as Hmax.
  { unfold IsValidBaseCanId in Hv. by apply bool_decide_eq_true in Hv. }
  unfold GetReceiveFilter, Matches.
  destruct (bool_decide_reflect (base mod RECEIVE_BLOCK_SIZE = 0)) as [Ha|Ha]; simpl.
  - split.
    + rewrite andb_true_iff, !bool_decide_eq_true. split; [done|].
      apply block_filter_matches; [lia..|done|lia].
    + intros Hi Hu. rewrite andb_true_iff, !bool_decide_eq_true. intros [He Hm]. split; [done|].
      unfold CanId_IsValid, CanId_WidthMask in Hi. rewrite He in Hi. apply bool_decide_eq_true in Hi.
      rewrite inside_width in Hi by done.
      assert (0 <= can_id i <= 2047).
      { unfold is_u32 in Hu. destruct (decide (2047 < can_id i)); [|lia].
        exfalso. assert (11 <= Z.log2 (can_id i)) as Hl by (apply Z.log2_le_pow2; simpl; lia).
        specialize (Hi _ Hl). rewrite Z.bit_log2 in Hi by lia. done. }
      by apply block_filter_matches.
  - split.
    + rewrite Z.lxor_nilpotent, Z.land_0_l. by rewrite !bool_decide_eq_true_2.
    + intros Hi Hu. rewrite andb_true_iff, !bool_decide_eq_true. intros [He Hm].
      rewrite Hext in He. split; [done|].
      unfold CanId_IsValid in Hi. apply bool_decide_eq_true in Hi.
      unfold CanId_WidthMask in *. rewrite He in Hi. rewrite Hext in Hm. rewrite inside_width in Hi by done.
      assert (can_id i = can_id c) as ->; [|unfold RECEIVE_BLOCK_SIZE; lia].
      rewrite land_zero_bits in Hm. apply Z.bits_inj'. intros n Hn.
      specialize (Hm n Hn). rewrite Z.lxor_spec, testbit_WidthMask in Hm by done.
      destruct (decide (n < 11)).
      * rewrite bool_decide_eq_true_2 in Hm by (simpl; lia).
        by destruct (Z.testbit (can_id i) n), (Z.testbit (can_id c) n).
      * rewrite Hi by (simpl; lia). symmetry. apply Z.bits_above_log2; [lia|].
        destruct (decide (can_id c = 0)) as [->|]; [simpl; lia|].
        assert (Z.log2 (can_id c) < 11) by (apply Z.log2_lt_pow2; simpl; lia). lia.
Qed.

Lemma receive_filter_confined_witness :
  Matches (GetReceiveFilter 1792 (GetHeartbeatCanId 1792)) (GetHeartbeatCanId 1792) = true /\
  Matches (GetReceiveFilter 1793 (GetHeartbeatCanId 1793)) (GetHeartbeatCanId 1793) = true.
Proof.
  split.
  - apply (receive_filter_confined 1792 _ (Standard 0)); [lia|reflexivity|right; left].
  - apply (receive_filter_confined 1793 _ (Standard 0)); [lia|reflexivity|right; left].
Defined.
