(* ===== verification/CdmpMessages.v ===== *)
(** * CDMP messages

    [src/src/subsys/cdmp/models/messages/] and [models/cdmp_state_data.h]: the nine message structs,
    each with its [FromCanFrame] (which may throw, or read outside a frame that is too short) and its
    [ToCanFrame].  A frame is the list of its bytes. *)

From S2P Require Import Prelude Can Cdmp.

(** ** Base + 0: discovery *)

Record CdmpDiscoveryRequestMessage := mkDiscoveryRequest { dreq_uid : Z }.

Definition DiscoveryRequest_FromCanFrame (f : list Z) : res CdmpDiscoveryRequestMessage :=
  t ← rd f 0;
  if negb (bool_decide (t = MSG_DISCOVERY_REQUEST)) then Throw (InvalidArgument "Incorrect message type")
  else
    b4 ← rd f 4; b3 ← rd f 3; b2 ← rd f 2; b1 ← rd f 1;
    Ok (mkDiscoveryRequest (le32 b1 b2 b3 b4)).

Definition DiscoveryRequest_ToCanFrame (m : CdmpDiscoveryRequestMessage) : list Z :=
  [MSG_DISCOVERY_REQUEST; byte_at (dreq_uid m) 0; byte_at (dreq_uid m) 8; byte_at (dreq_uid m) 16;
   byte_at (dreq_uid m) 24].

Record CdmpDiscoveryResponseMessage := mkDiscoveryResponse {
  dresp_device_id : Z;
  dresp_uid : Z;
  dresp_features : Z;
}.

Definition DiscoveryResponse_FromCanFrame (f : list Z) : res CdmpDiscoveryResponseMessage :=
  if bool_decide (length f < 8)%nat
  then Throw (InvalidArgument "Discovery response frame is shorter than 8 bytes")
  else
    t ← rd f 0;
    if negb (bool_decide (t = MSG_DISCOVERY_RESPONSE)) then Throw (InvalidArgument "Incorrect message type")
    else
      b1 ← rd f 1; b5 ← rd f 5; b4 ← rd f 4; b3 ← rd f 3; b2 ← rd f 2; b7 ← rd f 7; b6 ← rd f 6;
      Ok (mkDiscoveryResponse b1 (le32 b2 b3 b4 b5) (le16 b6 b7)).

Definition DiscoveryResponse_ToCanFrame (m : CdmpDiscoveryResponseMessage) : list Z :=
  [MSG_DISCOVERY_RESPONSE; dresp_device_id m; byte_at (dresp_uid m) 0; byte_at (dresp_uid m) 8;
   byte_at (dresp_uid m) 16; byte_at (dresp_uid m) 24; byte_at (dresp_features m) 0;
   byte_at (dresp_features m) 8].

(** ** Base + 0: ID claim *)

Record CdmpIdClaimRequestMessage := mkIdClaimRequest {
  claim_device_id : Z;
  claim_uid : Z;
  claim_protocol_version : Z;
}.

Definition IdClaimRequest_FromCanFrame (f : list Z) : res CdmpIdClaimRequestMessage :=
  t ← rd f 0;
  if negb (bool_decide (t = MSG_ID_CLAIM)) then Throw (InvalidArgument "Incorrect message type")
  else
    b1 ← rd f 1; b5 ← rd f 5; b4 ← rd f 4; b3 ← rd f 3; b2 ← rd f 2; b7 ← rd f 7;
    Ok (mkIdClaimRequest b1 (le32 b2 b3 b4 b5) b7).

Definition IdClaimRequest_ToCanFrame (m : CdmpIdClaimRequestMessage) : list Z :=
  [MSG_ID_CLAIM; claim_device_id m; byte_at (claim_uid m) 0; byte_at (claim_uid m) 8;
   byte_at (claim_uid m) 16; byte_at (claim_uid m) 24; 0; claim_protocol_version m].

Record CdmpIdClaimResponseMessage := mkIdClaimResponse {
  cresp_responding_device_id : Z;
  cresp_claiming_device_id : Z;
  cresp_claiming_device_uid : Z;
  cresp_result : Z;
}.
#[export] Instance CdmpIdClaimResponseMessage_eta : Eta CdmpIdClaimResponseMessage := fun m =>
  mkIdClaimResponse (cresp_responding_device_id m) (cresp_claiming_device_id m)
    (cresp_claiming_device_uid m) (cresp_result m).

(** The value-initialised message keeps UID 0. *)
Definition IdClaimResponse_FromCanFrame (f : list Z) : res CdmpIdClaimResponseMessage :=
  t ← rd f 0;
  if negb (bool_decide (t = MSG_ID_CLAIM_RESPONSE)) then Throw (InvalidArgument "Incorrect message type")
  else
    b1 ← rd f 1; b2 ← rd f 2; b3 ← rd f 3;
    Ok (mkIdClaimResponse b1 b2 0 b3).

Definition IdClaimResponse_ToCanFrame (m : CdmpIdClaimResponseMessage) : list Z :=
  [MSG_ID_CLAIM_RESPONSE; cresp_responding_device_id m; cresp_claiming_device_id m; cresp_result m].

(** ** Base + 1: heartbeat *)

Record CdmpHeartbeatMessage := mkHeartbeat {
  hb_device_id : Z;
  hb_health_status : Z;
  hb_sequence_number : Z;
  hb_features : Z;
  hb_state_digest : Z;
}.

Definition Heartbeat_FromCanFrame (f : list Z) : res CdmpHeartbeatMessage :=
  if bool_decide (length f < 8)%nat then Throw (InvalidArgument "Heartbeat frame is shorter than 8 bytes")
  else
    b0 ← rd f 0; b1 ← rd f 1; b2 ← rd f 2; b4 ← rd f 4; b3 ← rd f 3; b7 ← rd f 7;
    Ok (mkHeartbeat b0 b1 b2 (le16 b3 b4) b7).

Definition Heartbeat_ToCanFrame (m : CdmpHeartbeatMessage) : list Z :=
  [hb_device_id m; hb_health_status m; hb_sequence_number m; byte_at (hb_features m) 0;
   byte_at (hb_features m) 8; 0; 0; hb_state_digest m].

(** ** Base + 2 and Base + 3: commands *)

Record CdmpCommandRequestMessage := mkCommandRequest {
  creq_target_device_id : Z;
  creq_command_code : Z;
  creq_transaction_id : Z;
  creq_data : list Z;
}.

(** [std::vector(begin + n, end)] is undefined when the frame is shorter than [n] bytes. *)
Definition tail_from (n : nat) (f : list Z) : res (list Z) :=
  if bool_decide (n <= length f)%nat then Ok (drop n f) else Oob.

Definition CommandRequest_FromCanFrame (f : list Z) : res CdmpCommandRequestMessage :=
  b0 ← rd f 0; b1 ← rd f 1; b2 ← rd f 2; data ← tail_from 3 f;
  Ok (mkCommandRequest b0 b1 b2 data).

Definition CommandRequest_ToCanFrame (m : CdmpCommandRequestMessage) : list Z :=
  [creq_target_device_id m; creq_command_code m; creq_transaction_id m] ++ creq_data m.

Record CdmpCommandResponseMessage := mkCommandResponse {
  crsp_source_device_id : Z;
  crsp_command_code : Z;
  crsp_transaction_id : Z;
  crsp_result_code : Z;
  crsp_data : list Z;
}.

Definition CommandResponse_FromCanFrame (f : list Z) : res CdmpCommandResponseMessage :=
  b0 ← rd f 0; b1 ← rd f 1; b2 ← rd f 2; b3 ← rd f 3; data ← tail_from 4 f;
  Ok (mkCommandResponse b0 b1 b2 b3 data).

Definition CommandResponse_ToCanFrame (m : CdmpCommandResponseMessage) : list Z :=
  [crsp_source_device_id m; crsp_command_code m; crsp_transaction_id m; crsp_result_code m] ++ crsp_data m.

(** [CdmpCommandResponseStatusMessage]. *)
Definition StatusResponse (source transaction result : Z) (status : CdmpDeviceStatus) (version health : Z) :
    CdmpCommandResponseMessage :=
  mkCommandResponse source STATUS_REQUEST transaction result [status_byte status; version; health].

(** ** Base + 4 and Base + 5: shared state *)

(** [CdmpStateData]: at most 5 bytes. *)
Definition STATE_DATA_MAX_SIZE : nat := 5.
Definition StateData (data : list Z) : res (list Z) :=
  if bool_decide (STATE_DATA_MAX_SIZE < length data)%nat
  then Throw (InvalidArgument "State data is longer than 5 bytes") else Ok data.

Record CdmpStateChangeMessage := mkStateChange {
  sc_source_device_id : Z;
  sc_version : Z;
  sc_state_type : Z;
  sc_data : list Z;
}.

Definition STATE_HEADER_SIZE : nat := 3.
Definition STATE_MAX_FRAME_SIZE : nat := STATE_HEADER_SIZE + STATE_DATA_MAX_SIZE.

Definition StateChange_TryFromCanFrame (f : list Z) : res (option CdmpStateChangeMessage) :=
  if bool_decide (length f < STATE_HEADER_SIZE)%nat || bool_decide (STATE_MAX_FRAME_SIZE < length f)%nat
  then Ok None
  else
    b0 ← rd f 0; b1 ← rd f 1; b2 ← rd f 2; data ← StateData (drop STATE_HEADER_SIZE f);
    Ok (Some (mkStateChange b0 b1 b2 data)).

Definition StateChange_FromCanFrame (f : list Z) : res CdmpStateChangeMessage :=
  m ← StateChange_TryFromCanFrame f;
  match m with
  | None => Throw (InvalidArgument "State change frame is not 3 to 8 bytes long")
  | Some m => Ok m
  end.

(** The bytes written; the length returned is their number. *)
Definition StateChange_ToCanFrame (m : CdmpStateChangeMessage) : list Z :=
  [sc_source_device_id m; sc_version m; sc_state_type m] ++ sc_data m.

Record CdmpStateChangeResponseMessage := mkStateChangeResponse {
  scr_responding_device_id : Z;
  scr_source_device_id : Z;
  scr_version : Z;
  scr_result_code : Z;
}.

Definition StateChangeResponse_TryFromCanFrame (f : list Z) : res (option CdmpStateChangeResponseMessage) :=
  if bool_decide (length f < 4)%nat then Ok None
  else
    b0 ← rd f 0; b1 ← rd f 1; b2 ← rd f 2; b3 ← rd f 3;
    Ok (Some (mkStateChangeResponse b0 b1 b2 b3)).

Definition StateChangeResponse_FromCanFrame (f : list Z) : res CdmpStateChangeResponseMessage :=
  m ← StateChangeResponse_TryFromCanFrame f;
  match m with
  | None => Throw (InvalidArgument "State change response is shorter than 4 bytes")
  | Some m => Ok m
  end.

Definition StateChangeResponse_ToCanFrame (m : CdmpStateChangeResponseMessage) : list Z :=
  [scr_responding_device_id m; scr_source_device_id m; scr_version m; scr_result_code m].

(** ** The codec interface

    What a service relies on: a well-formed message fits a classic frame of bytes, and decoding what
    was encoded gives it back. *)

Class Codec {T : Type} (enc : T -> list Z) (dec : list Z -> res T) (wf : T -> Prop) := {
  codec_roundtrip : forall m, wf m -> dec (enc m) = Ok m;
  codec_bytes : forall m, wf m -> Forall is_u8 (enc m);
  codec_fits : forall m, wf m -> (length (enc m) <= 8)%nat;
}.

(** Codecs that also invert: a frame of bytes that decodes is what the message encodes to, up to the
    [canonical] form (reserved bytes cleared, trailing bytes dropped). *)
Class InvertibleCodec {T : Type} (enc : T -> list Z) (dec : list Z -> res T) (canonical : list Z -> list Z) :=
  codec_invert : forall f m, Forall is_u8 f -> dec f = Ok m -> enc m = canonical f.

Definition discovery_request_wf (m : CdmpDiscoveryRequestMessage) : Prop := is_u32 (dreq_uid m).
Definition discovery_response_wf (m : CdmpDiscoveryResponseMessage) : Prop :=
  is_u8 (dresp_device_id m) /\ is_u32 (dresp_uid m) /\ is_u16 (dresp_features m).
Definition id_claim_request_wf (m : CdmpIdClaimRequestMessage) : Prop :=
  is_u8 (claim_device_id m) /\ is_u32 (claim_uid m) /\ is_u8 (claim_protocol_version m).
Definition id_claim_response_wf (m : CdmpIdClaimResponseMessage) : Prop :=
  is_u8 (cresp_responding_device_id m) /\ is_u8 (cresp_claiming_device_id m) /\
  is_u32 (cresp_claiming_device_uid m) /\ is_u8 (cresp_result m).
(** What of an ID claim response is on the wire: the claimant's UID is not. *)
Definition carried (m : CdmpIdClaimResponseMessage) : CdmpIdClaimResponseMessage := m <| cresp_claiming_device_uid := 0 |>.
Definition heartbeat_wf (m : CdmpHeartbeatMessage) : Prop :=
  is_u8 (hb_device_id m) /\ is_u8 (hb_health_status m) /\ is_u8 (hb_sequence_number m) /\
  is_u16 (hb_features m) /\ is_u8 (hb_state_digest m).
Definition command_request_wf (m : CdmpCommandRequestMessage) : Prop :=
  is_u8 (creq_target_device_id m) /\ is_u8 (creq_command_code m) /\ is_u8 (creq_transaction_id m) /\
  Forall is_u8 (creq_data m) /\ (length (creq_data m) <= 5)%nat.
Definition command_response_wf (m : CdmpCommandResponseMessage) : Prop :=
  is_u8 (crsp_source_device_id m) /\ is_u8 (crsp_command_code m) /\ is_u8 (crsp_transaction_id m) /\
  is_u8 (crsp_result_code m) /\ Forall is_u8 (crsp_data m) /\ (length (crsp_data m) <= 4)%nat.
Definition state_change_wf (m : CdmpStateChangeMessage) : Prop :=
  is_u8 (sc_source_device_id m) /\ is_u8 (sc_version m) /\ is_u8 (sc_state_type m) /\
  Forall is_u8 (sc_data m) /\ (length (sc_data m) <= STATE_DATA_MAX_SIZE)%nat.
Definition state_change_response_wf (m : CdmpStateChangeResponseMessage) : Prop :=
  is_u8 (scr_responding_device_id m) /\ is_u8 (scr_source_device_id m) /\ is_u8 (scr_version m) /\
  is_u8 (scr_result_code m).

(** ** Round trips *)

Lemma is_u8_const z : 0 <= z < 256 -> is_u8 z.
Proof. done. Qed.

Ltac bytes_side :=
  repeat match goal with
  | |- Forall _ (_ ++ _) => apply Forall_app; split
  | |- Forall _ (_ :: _) => constructor
  | |- Forall _ [] => constructor
  end; eauto with words; try (apply is_u8_const; vm_compute; split; congruence).

Ltac codec unfolds :=
  split; intros m Hwf; destruct m; unfolds; simpl in *; destruct_and?;
  [ rewrite ?le32_split, ?le16_split by done; try done | bytes_side | rewrite ?length_app; simpl; try lia ].

#[export] Instance discovery_request_codec :
  Codec DiscoveryRequest_ToCanFrame DiscoveryRequest_FromCanFrame discovery_request_wf.
Proof. codec ltac:(unfold discovery_request_wf, DiscoveryRequest_ToCanFrame, DiscoveryRequest_FromCanFrame in *). Qed.

#[export] Instance discovery_response_codec :
  Codec DiscoveryResponse_ToCanFrame DiscoveryResponse_FromCanFrame discovery_response_wf.
Proof. codec ltac:(unfold discovery_response_wf, DiscoveryResponse_ToCanFrame, DiscoveryResponse_FromCanFrame in *). Qed.

#[export] Instance id_claim_request_codec :
  Codec IdClaimRequest_ToCanFrame IdClaimRequest_FromCanFrame id_claim_request_wf.
Proof. codec ltac:(unfold id_claim_request_wf, IdClaimRequest_ToCanFrame, IdClaimRequest_FromCanFrame in *). Qed.

(** The ID claim response is a codec of what it carries. *)
#[export] Instance id_claim_response_codec :
  Codec IdClaimResponse_ToCanFrame IdClaimResponse_FromCanFrame (fun m => id_claim_response_wf m /\ carried m = m).
Proof.
  codec ltac:(unfold id_claim_response_wf, carried, IdClaimResponse_ToCanFrame, IdClaimResponse_FromCanFrame in *).
  by simplify_eq/=.
Qed.
Lemma IdClaimResponse_carries m : IdClaimResponse_ToCanFrame (carried m) = IdClaimResponse_ToCanFrame m.
Proof. done. Qed.

#[export] Instance heartbeat_codec :
  Codec Heartbeat_ToCanFrame Heartbeat_FromCanFrame heartbeat_wf.
Proof. codec ltac:(unfold heartbeat_wf, Heartbeat_ToCanFrame, Heartbeat_FromCanFrame in *). Qed.

#[export] Instance command_request_codec :
  Codec CommandRequest_ToCanFrame CommandRequest_FromCanFrame command_request_wf.
Proof. codec ltac:(unfold command_request_wf, CommandRequest_ToCanFrame, CommandRequest_FromCanFrame in *). Qed.

#[export] Instance command_response_codec :
  Codec CommandResponse_ToCanFrame CommandResponse_FromCanFrame command_response_wf.
Proof. codec ltac:(unfold command_response_wf, CommandResponse_ToCanFrame, CommandResponse_FromCanFrame in *). Qed.

#[export] Instance state_change_codec :
  Codec StateChange_ToCanFrame StateChange_FromCanFrame state_change_wf.
Proof.
  codec ltac:(unfold state_change_wf, StateChange_ToCanFrame, StateChange_FromCanFrame, StateChange_TryFromCanFrame, StateData in *).
  - rewrite drop_0, !bool_decide_eq_false_2 by (unfold STATE_MAX_FRAME_SIZE, STATE_HEADER_SIZE; lia).
    done.
  - unfold STATE_DATA_MAX_SIZE in *. lia.
Qed.

#[export] Instance state_change_response_codec :
  Codec StateChangeResponse_ToCanFrame StateChangeResponse_FromCanFrame state_change_response_wf.
Proof. codec ltac:(unfold state_change_response_wf, StateChangeResponse_ToCanFrame, StateChangeResponse_FromCanFrame, StateChangeResponse_TryFromCanFrame in *). Qed.

(** ** Decoding arbitrary frames *)

Ltac rd_cases :=
  repeat match goal with
  | |- context [rd ?f ?i] => unfold rd at 1; destruct (f !! i) as [?b|] eqn:?; simpl
  end.

Lemma lookup_u8 f i b : Forall is_u8 f -> f !! i = Some b -> is_u8 b.
Proof. intros Hf Hi. by eapply Forall_lookup_1. Qed.
#[export] Hint Resolve lookup_u8 : words.

(** A frame seen through its first eight lookups. *)
Lemma frame_take8 (f : list Z) b0 b1 b2 b3 b4 b5 b6 b7 :
  f !! 0%nat = Some b0 -> f !! 1%nat = Some b1 -> f !! 2%nat = Some b2 -> f !! 3%nat = Some b3 ->
  f !! 4%nat = Some b4 -> f !! 5%nat = Some b5 -> f !! 6%nat = Some b6 -> f !! 7%nat = Some b7 ->
  take 8 f = [b0; b1; b2; b3; b4; b5; b6; b7].
Proof. intros. do 8 (destruct f as [|? f]; [done|]; simplify_eq/=). by rewrite take_0. Qed.

Lemma frame_at_least (f : list Z) n : (n < length f)%nat -> exists b, f !! n = Some b.
Proof. apply lookup_lt_is_Some_2. Qed.

(** What a discovery response decodes to determines the first eight bytes of the frame: no two
    different 8-byte frames are the same announcement. *)
#[export] Instance discovery_response_invert :
  InvertibleCodec DiscoveryResponse_ToCanFrame DiscoveryResponse_FromCanFrame (take 8).
Proof.
  intros f m Hf. unfold DiscoveryResponse_FromCanFrame. case_bool_decide as Hlen; [done|].
  unfold rd. destruct (f !! 0%nat) as [t|] eqn:H0; simpl; [|done].
  case_bool_decide as Ht; simpl; [|done].
  destruct (f !! 1%nat) as [b1|] eqn:H1; simpl; [|done].
  destruct (f !! 5%nat) as [b5|] eqn:H5; simpl; [|done].
  destruct (f !! 4%nat) as [b4|] eqn:H4; simpl; [|done].
  destruct (f !! 3%nat) as [b3|] eqn:H3; simpl; [|done].
  destruct (f !! 2%nat) as [b2|] eqn:H2; simpl; [|done].
  destruct (f !! 7%nat) as [b7|] eqn:H7; simpl; [|done].
  destruct (f !! 6%nat) as [b6|] eqn:H6; simpl; [|done].
  intros [= <-]. unfold DiscoveryResponse_ToCanFrame. simpl.
  destruct (byte_at_le32 b2 b3 b4 b5) as (-> & -> & -> & ->); [eauto with words..|].
  destruct (byte_at_le16 b6 b7) as [-> ->]; [eauto with words..|].
  subst t. by erewrite (frame_take8 f) by done.
Qed.

(** An announcement's decoder never reads outside the frame, whatever its length. *)
Lemma DiscoveryResponse_defined f : DiscoveryResponse_FromCanFrame f <> Oob.
Proof.
  unfold DiscoveryResponse_FromCanFrame. case_bool_decide as Hlen; [done|].
  assert (forall i, (i < 8)%nat -> exists b, rd f i = Ok b) as Hrd.
  { intros i Hi. destruct (rd_ok f i) as (b & Hb & _); [lia|by exists b]. }
  destruct (Hrd 0%nat ltac:(lia)) as [t ->]. simpl. case_match; [done|].
  destruct (Hrd 1%nat ltac:(lia)) as [? ->], (Hrd 2%nat ltac:(lia)) as [? ->],
    (Hrd 3%nat ltac:(lia)) as [? ->], (Hrd 4%nat ltac:(lia)) as [? ->], (Hrd 5%nat ltac:(lia)) as [? ->],
    (Hrd 6%nat ltac:(lia)) as [? ->], (Hrd 7%nat ltac:(lia)) as [? ->]. done.
Qed.

Lemma Heartbeat_defined f : Heartbeat_FromCanFrame f <> Oob.
Proof.
  unfold Heartbeat_FromCanFrame. case_bool_decide as Hlen; [done|].
  assert (forall i, (i < 8)%nat -> exists b, rd f i = Ok b) as Hrd.
  { intros i Hi. destruct (rd_ok f i) as (b & Hb & _); [lia|by exists b]. }
  destruct (Hrd 0%nat ltac:(lia)) as [? ->], (Hrd 1%nat ltac:(lia)) as [? ->],
    (Hrd 2%nat ltac:(lia)) as [? ->], (Hrd 3%nat ltac:(lia)) as [? ->], (Hrd 4%nat ltac:(lia)) as [? ->],
    (Hrd 7%nat ltac:(lia)) as [? ->]. done.
Qed.

(** The shared state decoders never throw and never read outside the frame. *)
Lemma StateChange_total f : exists o, StateChange_TryFromCanFrame f = Ok o.
Proof.
  unfold StateChange_TryFromCanFrame.
  destruct (bool_decide _ || bool_decide _) eqn:E; [by eexists|].
  apply orb_false_iff in E as [H1 H2]. apply bool_decide_eq_false in H1, H2.
  unfold STATE_HEADER_SIZE, STATE_MAX_FRAME_SIZE in *. simpl in H2.
  destruct f as [|b0 [|b1 [|b2 f]]]; simpl in *; try lia.
  unfold StateData. rewrite drop_0, bool_decide_eq_false_2 by (unfold STATE_DATA_MAX_SIZE in *; lia).
  simpl. by eexists.
Qed.

Lemma StateChangeResponse_total f : exists o, StateChangeResponse_TryFromCanFrame f = Ok o.
Proof.
  unfold StateChangeResponse_TryFromCanFrame. case_bool_decide; [by eexists|].
  destruct f as [|b0 [|b1 [|b2 [|b3 f]]]]; simpl in *; try lia. by eexists.
Qed.

(** The ID claim, the discovery request and the commands have no length check. *)
Lemma IdClaimRequest_short f :
  (length f < 8)%nat -> f !! 0%nat = Some MSG_ID_CLAIM -> IdClaimRequest_FromCanFrame f = Oob.
Proof.
  intros Hlen H0. unfold IdClaimRequest_FromCanFrame, rd. rewrite H0. simpl.
  rewrite (lookup_ge_None_2 f 7) by lia.
  by destruct (f !! 1%nat), (f !! 5%nat), (f !! 4%nat), (f !! 3%nat), (f !! 2%nat).
Qed.

(** Encoding [enc] loses nothing but what [rest] leaves out, and gives at most eight bytes. *)
Definition survives_the_wire {T} (enc : T -> list Z) (dec : list Z -> res T) (wf : T -> Prop) (rest : T -> T) : Prop :=
  forall m, wf m -> dec (enc m) = Ok (rest m) /\ Forall is_u8 (enc m) /\ (length (enc m) <= 8)%nat.

Lemma codec_survives {T} enc dec (wf : T -> Prop) `{Codec T enc dec wf} : survives_the_wire enc dec wf (fun m => m).
Proof. intros m Hm. split; [by apply codec_roundtrip|]. split; [by apply codec_bytes|by apply codec_fits]. Qed.

(** C40. Messages of the protocol survive the wire.  For eight of the nine types every well-formed message is
    at most eight bytes, and decoding them gives the message back.  Of the ninth, the ID claim response, everything
    survives but the claimant's UID: it is decoded with the UID 0, and responses to two claimants of one ID that
    differ in nothing else are the same frame. *)
Theorem cdmp_messages_round_trip :
  survives_the_wire DiscoveryRequest_ToCanFrame DiscoveryRequest_FromCanFrame discovery_request_wf (fun m => m) /\
  survives_the_wire DiscoveryResponse_ToCanFrame DiscoveryResponse_FromCanFrame discovery_response_wf (fun m => m) /\
  survives_the_wire IdClaimRequest_ToCanFrame IdClaimRequest_FromCanFrame id_claim_request_wf (fun m => m) /\
  survives_the_wire Heartbeat_ToCanFrame Heartbeat_FromCanFrame heartbeat_wf (fun m => m) /\
  survives_the_wire CommandRequest_ToCanFrame CommandRequest_FromCanFrame command_request_wf (fun m => m) /\
  survives_the_wire CommandResponse_ToCanFrame CommandResponse_FromCanFrame command_response_wf (fun m => m) /\
  survives_the_wire StateChange_ToCanFrame StateChange_FromCanFrame state_change_wf (fun m => m) /\
  survives_the_wire StateChangeResponse_ToCanFrame StateChangeResponse_FromCanFrame state_change_response_wf (fun m => m) /\
  survives_the_wire IdClaimResponse_ToCanFrame IdClaimResponse_FromCanFrame id_claim_response_wf
    (fun m => m <| cresp_claiming_device_uid := 0 |>) /\
  (forall m uid, IdClaimResponse_ToCanFrame (m <| cresp_claiming_device_uid := uid |>) = IdClaimResponse_ToCanFrame m).
Proof.
  repeat (split; [solve [apply codec_survives; apply _]|]). split; [|done].
  intros m (H1 & H2 & H3 & H4). rewrite <- IdClaimResponse_carries.
  apply (codec_survives _ _ _ (carried m)). split; [|done]. by split_and!.
Qed.

Lemma cdmp_messages_round_trip_witness :
  Heartbeat_FromCanFrame (Heartbeat_ToCanFrame (mkHeartbeat 7 0 200 513 42)) = Ok (mkHeartbeat 7 0 200 513 42) /\
  StateChange_FromCanFrame (StateChange_ToCanFrame (mkStateChange 7 3 16 [1; 2])) = Ok (mkStateChange 7 3 16 [1; 2]) /\
  IdClaimResponse_FromCanFrame (IdClaimResponse_ToCanFrame (mkIdClaimResponse 1 4 70001 CLAIM_REJECT))
    = Ok (mkIdClaimResponse 1 4 0 CLAIM_REJECT).
Proof.
  destruct cdmp_messages_round_trip as (_ & _ & _ & Hheartbeat & _ & _ & Hstate & _ & Hresponse & _). split_and!.
  - apply Hheartbeat. unfold heartbeat_wf, is_u8, is_u16. simpl. lia.
  - apply Hstate. unfold state_change_wf, is_u8, STATE_DATA_MAX_SIZE. simpl. repeat constructor; lia.
  - apply (Hresponse (mkIdClaimResponse 1 4 70001 CLAIM_REJECT)). unfold id_claim_response_wf, is_u8, is_u32, CLAIM_REJECT. simpl. lia.
Defined.
