(* ===== verification/CdmpEffects.v ===== *)
(** * CDMP: configuration, environment and effects

    The services of [src/src/subsys/cdmp/services/] share one device and call each other.  A method
    is modelled on the state of its own service; what it does to the rest of the program is the list
    of [Effect]s it performs, in order, and [CdmpUnit.v] delivers each to the service it concerns. *)

From S2P Require Import Prelude Can Canbus Cdmp CdmpMessages.

(** ** Kconfig ([Kconfig.cdmp]), with the ranges it allows and the [static_assert] of the state service *)

Class CdmpConfig := {
  CMD_TRANSACTION_TIMEOUT_MS : Z;
  MAX_LOCAL_RECORDS : nat;
  MAX_REMOTE_RECORDS : nat;
  cfg_timeout : 0 < CMD_TRANSACTION_TIMEOUT_MS < 2147483648;
  cfg_local : (1 <= MAX_LOCAL_RECORDS <= 32)%nat;
  cfg_remote : (1 <= MAX_REMOTE_RECORDS <= 1024)%nat;
  cfg_refresh : STATE_VERSION_REFRESH_LAG + 2 * Z.of_nat MAX_LOCAL_RECORDS - 3 <= 127;
}.

(** The Kconfig defaults. *)
Lemma default_timeout : 0 < 500 < 2147483648.
Proof. lia. Qed.
Lemma default_local : (1 <= 8 <= 32)%nat.
Proof. lia. Qed.
Lemma default_remote : (1 <= 32 <= 1024)%nat.
Proof. lia. Qed.
Lemma default_refresh : STATE_VERSION_REFRESH_LAG + 2 * Z.of_nat 8 - 3 <= 127.
Proof. unfold STATE_VERSION_REFRESH_LAG. lia. Qed.
Definition default_config : CdmpConfig :=
  {| CMD_TRANSACTION_TIMEOUT_MS := 500; MAX_LOCAL_RECORDS := 8; MAX_REMOTE_RECORDS := 32;
     cfg_timeout := default_timeout; cfg_local := default_local; cfg_remote := default_remote;
     cfg_refresh := default_refresh |}.

(** What a method reads of the outside: [k_uptime_get()] and whether the bus is there
    ([canbus_ && canbus_->IsValid()]).  Both are constant while one method runs. *)
Record Env := mkEnv {
  env_now : Z;
  env_bus_valid : bool;
}.

(** ** Work queue tasks ([WorkQueueTask]) and queued closures ([WorkQueueThread::Run]) *)

Inductive Task :=
| ValidationTask | DiscoveryTask | IdClaimTask
| HeartbeatTask
| TimeoutTask
| ReceiveTask | TransmitTask | ReplayTask | NotifyTask.
#[export] Instance Task_eq_dec : EqDecision Task.
Proof. solve_decision. Defined.

(** The closures the network service queues with [RunInSession]. *)
Inductive NetworkWork :=
| WorkProcessFrame (frame : list Z)
| WorkStartInitialization
| WorkStartIdClaim
| WorkSendDiscoveryResponse
| WorkEnterVersionMismatch
| WorkEnterError.

(** [WorkQueueTaskResult]: the delay after which the task runs again, if it does. *)
Definition TaskResult : Type := option Z.

Inductive CdmpDeviceEvent := JOINED | RESTARTED | LEFT.
#[export] Instance CdmpDeviceEvent_eq_dec : EqDecision CdmpDeviceEvent.
Proof. solve_decision. Defined.

Inductive Effect :=
| RegisterFrameHandler (filter : CanFilter) (can_id : CanId)
| RemoveFrameHandler (handler_id : Z)
| SendFrame (id : CanId) (data : list Z)
| Sleep (ms : Z)
| CallStatusHandler (call : StatusCall)
| NotifyDeviceEvent (event : CdmpDeviceEvent) (device : CdmpDeviceInfo)
| NotifyHeartbeat (heartbeat : CdmpHeartbeatMessage)
| RunInSession (session : Z) (work : NetworkWork)
| Schedule (task : Task) (delay : Z)
| Reschedule (task : Task) (delay : Z)
| CancelTask (task : Task)
| TransactionCallback (callback : Z) (transaction_id result_code : Z) (data : list Z)
| SendSyncRequest (target : Z)
| SetStateDigest (digest : Z)
| CallStateHandler (handler : Z) (state_type : Z)
| HeartbeatReceived (heartbeat : CdmpHeartbeatMessage)
| CallCommandHandler (handler : Z) (transaction_id : Z) (data : list Z)
| CallServiceCommandHandler (handler : Z) (request : CdmpCommandRequestMessage).

(** What a command handler answers ([cdmp_command_service.h]). *)
Record CdmpCommandResult := mkCommandResult {
  cr_result_code : Z;
  cr_data : list Z;
}.

(** The frames among the effects, in order. *)
Definition frames_sent (l : list Effect) : list (CanId * list Z) :=
  omap (fun e => match e with SendFrame i d => Some (i, d) | _ => None end) l.

Definition device_events (l : list Effect) : list (CdmpDeviceEvent * CdmpDeviceInfo) :=
  omap (fun e => match e with NotifyDeviceEvent ev d => Some (ev, d) | _ => None end) l.

Definition callbacks_called (l : list Effect) : list (Z * Z) :=
  omap (fun e => match e with TransactionCallback cb _ rc _ => Some (cb, rc) | _ => None end) l.

Lemma frames_sent_app l1 l2 : frames_sent (l1 ++ l2) = frames_sent l1 ++ frames_sent l2.
Proof. apply omap_app. Qed.
Lemma device_events_app l1 l2 : device_events (l1 ++ l2) = device_events l1 ++ device_events l2.
Proof. apply omap_app. Qed.
Lemma callbacks_called_app l1 l2 : callbacks_called (l1 ++ l2) = callbacks_called l1 ++ callbacks_called l2.
Proof. apply omap_app. Qed.

(** ** [services/cdmp_canbus_service_base.*]

    [register] is what [RegisterFrameReceivedHandler] of the bus answers for a filter. *)

Definition RegisterReceiveHandler {S} (register : CanFilter -> Z) (base : Z) (can_id : CanId) : M S Effect Z :=
  let filter := GetReceiveFilter base can_id in
  emit (RegisterFrameHandler filter can_id) ;;
  if bool_decide (register filter = ERR_FILTER_OVERLAP) && negb (IsExact filter) then
    emit (RegisterFrameHandler (ExactFilter can_id) can_id) ;; mret (register (ExactFilter can_id))
  else mret (register filter).

(** ** What the network service tells the others

    The queries [IsDeviceOnline] and [GetNetworkDevices] of the device table at one moment, with what
    their callers rely on. *)

Definition info_le (a b : CdmpDeviceInfo) : Prop := info_device_id a <= info_device_id b.
#[export] Instance info_le_dec a b : Decision (info_le a b).
Proof. unfold info_le. apply _. Defined.

Class NetworkInfo := mkNetworkInfo {
  is_device_online : Z -> bool;
  network_devices : nat -> list CdmpDeviceInfo;
}.

Class LawfulNetworkInfo (N : NetworkInfo) := {
  devices_fit : forall capacity, (length (network_devices capacity) <= capacity)%nat;
  devices_sorted : forall capacity, StronglySorted info_le (network_devices capacity);
  devices_distinct : forall capacity, NoDup (info_device_id <$> network_devices capacity);
  devices_online : forall capacity i, i ∈ network_devices capacity -> info_status i = ONLINE ->
    is_device_online (info_device_id i) = true;
}.
