(* ===== verification/CdmpTransactions.v ===== *)
(** * CDMP transaction service

    [src/src/subsys/cdmp/services/command_service/cdmp_transaction_service.*]: the table of requests
    that wait for a response, keyed by an 8-bit transaction ID. *)

From S2P Require Import Prelude Can Cdmp CdmpMessages CdmpEffects.

(** A callback is named by the caller's token; [None] is [nullptr]. *)
Record PendingTransaction := mkPending {
  pt_transaction_id : Z;
  pt_start_time : Z;
  pt_timeout : Z;
  pt_callback : option Z;
  pt_expected_command : Z;
  pt_target_device_id : Z;
}.

Record TransactionService := mkTransactions {
  timeout_task_ : bool;
  is_timeout_task_running_ : bool;
  next_transaction_id_ : Z;
  pending_transactions_ : gmap Z PendingTransaction;
}.
#[export] Instance TransactionService_eta : Eta TransactionService := fun s =>
  mkTransactions (timeout_task_ s) (is_timeout_task_running_ s) (next_transaction_id_ s)
    (pending_transactions_ s).

Definition NewTransactionService : TransactionService := mkTransactions false false 1 ∅.

Abbreviation TxM := (M TransactionService Effect).

(** [next_transaction_id_++; if(next_transaction_id_ == 0) next_transaction_id_ = 1;] *)
Definition next_id (i : Z) : Z := if bool_decide (u8 (i + 1) = 0) then 1 else u8 (i + 1).

(** The [do]/[while] loop of [GetNextTransactionId], which started at [transaction_id]. *)
Fixpoint advance_id (fuel : nat) (pending : gmap Z PendingTransaction) (transaction_id i : Z) : Z :=
  match fuel with
  | O => i
  | S fuel =>
      let i' := next_id i in
      if bool_decide (is_Some (pending !! i')) && negb (bool_decide (i' = transaction_id))
      then advance_id fuel pending transaction_id i'
      else i'
  end.

(** One pass over the IDs ends the loop. *)
Definition ID_FUEL : nat := 255.

Definition GetNextTransactionId : TxM Z :=
  s ← get;
  let transaction_id := next_transaction_id_ s in
  modify (fun s => s <| next_transaction_id_ :=
    advance_id ID_FUEL (pending_transactions_ s) transaction_id transaction_id |>) ;;
  mret transaction_id.

Definition InitializeTransactions : TxM unit := modify (fun s => s <| timeout_task_ := true |>).

Definition StartTransactionService : TxM unit :=
  s ← get;
  when (negb (is_timeout_task_running_ s) && timeout_task_ s)
    (emit (Schedule TimeoutTask 0) ;;
     modify (fun s => s <| is_timeout_task_running_ := true |>)).

Definition InvokeCallback (t : PendingTransaction) (result_code : Z) (data : list Z) : TxM unit :=
  match pt_callback t with
  | Some cb => emit (TransactionCallback cb (pt_transaction_id t) result_code data)
  | None => mret tt
  end.

Definition StartTransaction (now target_device_id expected_command timeout : Z) (callback : option Z) : TxM Z :=
  transaction_id ← GetNextTransactionId;
  let transaction := mkPending transaction_id now timeout callback expected_command target_device_id in
  modify (fun s => s <| pending_transactions_ ::= <[transaction_id := transaction]> |>) ;;
  mret transaction_id.

Definition IsResponseTo (t : PendingTransaction) (r : CdmpCommandResponseMessage) : bool :=
  bool_decide (crsp_command_code r = pt_expected_command t)
  && (bool_decide (pt_target_device_id t = DEVICE_ID_BROADCAST)
      || bool_decide (crsp_source_device_id r = pt_target_device_id t)).

Definition CompleteTransaction (r : CdmpCommandResponseMessage) : TxM unit :=
  s ← get;
  match pending_transactions_ s !! crsp_transaction_id r with
  | Some t =>
      if IsResponseTo t r then
        modify (fun s => s <| pending_transactions_ ::= delete (crsp_transaction_id r) |>) ;;
        InvokeCallback t (crsp_result_code r) (crsp_data r)
      else mret tt
  | None => mret tt
  end.

(** [current_time - start_time >= timeout] on [uint64_t]. *)
Definition IsExpired (current_time : Z) (t : PendingTransaction) : bool :=
  bool_decide (pt_timeout t <= (current_time - pt_start_time t) mod 18446744073709551616).

Section transactions.
Context `{UnorderedIter} `{CdmpConfig}.

Definition FindExpired (current_time : Z) (s : TransactionService) : option (Z * PendingTransaction) :=
  find_first (fun '(_, t) => IsExpired current_time t) (uiter (pending_transactions_ s)).

(** One round of the loop of [CleanupExpiredTransactions]: whether it found one. *)
Definition CleanupRound (current_time : Z) : TxM bool :=
  s ← get;
  match FindExpired current_time s with
  | None => mret false
  | Some (i, t) =>
      modify (fun s => s <| pending_transactions_ ::= delete i |>) ;;
      InvokeCallback t RESULT_TIMEOUT [] ;;
      mret true
  end.

Fixpoint CleanupLoop (fuel : nat) (current_time : Z) : TxM unit :=
  match fuel with
  | O => mret tt
  | S fuel => CleanupRound current_time ≫= fun found : bool => if found then CleanupLoop fuel current_time else mret tt
  end.

(** Every round removes a transaction, so one more than their number is enough. *)
Definition CleanupExpiredTransactions (current_time : Z) : TxM unit := fun s =>
  CleanupLoop (S (size (pending_transactions_ s))) current_time s.

Definition StopTransactionService : TxM unit :=
  modify (fun s => s <| is_timeout_task_running_ := false |>) ;;
  s ← get;
  when (timeout_task_ s) (emit (CancelTask TimeoutTask)) ;;
  modify (fun s => s <| pending_transactions_ := ∅ |>) ;;
  for_each (uiter (pending_transactions_ s)) (fun p : Z * PendingTransaction => InvokeCallback p.2 RESULT_CANCELLED []).

Definition ProcessTransactionTimeouts (now : Z) : TxM unit :=
  s ← get;
  if negb (is_timeout_task_running_ s) || negb (timeout_task_ s) then mret tt
  else
    emit (Reschedule TimeoutTask (CMD_TRANSACTION_TIMEOUT_MS / 2)) ;;
    CleanupExpiredTransactions now.
End transactions.

Definition IsTransactionPending (s : TransactionService) (i : Z) : bool :=
  bool_decide (is_Some (pending_transactions_ s !! i)).
Definition GetPendingTransactionCount (s : TransactionService) : nat := size (pending_transactions_ s).

(** ** Transaction IDs *)

Lemma next_id_range i : 1 <= i <= 255 -> 1 <= next_id i <= 255.
Proof.
  intros Hi. unfold next_id, u8. case_bool_decide as E; [lia|].
  pose proof (Z.mod_pos_bound (i + 1) 256). lia.
Qed.

Lemma next_id_distance i k :
  1 <= i <= 255 -> 1 <= k <= 255 -> i <> k -> (k - next_id i) mod 255 = (k - i) mod 255 - 1.
Proof.
  intros Hi Hk Hne. unfold next_id, u8. case_bool_decide as E.
  - assert (i = 255) as -> by (Z.div_mod_to_equations; lia). Z.div_mod_to_equations; lia.
  - assert (i < 255) by (Z.div_mod_to_equations; lia).
    rewrite (Z.mod_small (i + 1)) by lia. Z.div_mod_to_equations; lia.
Qed.

(** While some ID other than the first is free, the loop finds a free one. *)
Lemma advance_id_free fuel P i0 i k :
  1 <= i <= 255 -> 1 <= i0 <= 255 -> 1 <= k <= 255 -> P !! k = None ->
  1 <= (k - i) mod 255 <= (k - i0) mod 255 -> (k - i) mod 255 <= Z.of_nat fuel ->
  let j := advance_id fuel P i0 i in 1 <= j <= 255 /\ P !! j = None /\ j <> i0.
Proof.
  intros Hi Hi0 Hk Hfree. revert i Hi. induction fuel as [|fuel IH]; intros i Hi Hd Hf; [lia|].
  assert (i <> k) as Hik by (intros ->; rewrite Z.sub_diag in Hd; change (0 mod 255) with 0 in Hd; lia).
  pose proof (next_id_range i Hi) as Hr. pose proof (next_id_distance i k Hi Hk Hik) as Hstep.
  assert (next_id i <> i0) as Hni0 by (intros E; rewrite E in Hstep; lia).
  simpl. rewrite (bool_decide_eq_false_2 (next_id i = i0)) by done. rewrite andb_true_r.
  case_bool_decide as Hp.
  - assert (next_id i <> k) as Hnk by (intros E; rewrite E, Hfree in Hp; by destruct Hp).
    apply IH; [done|..|lia]. split; [|lia].
    assert ((k - next_id i) mod 255 <> 0) by (intros E; Z.div_mod_to_equations; lia).
    pose proof (Z.mod_pos_bound (k - next_id i) 255). lia.
  - split; [done|]. split; [|done]. by apply eq_None_not_Some.
Qed.

Lemma free_id_exists (P : gmap Z PendingTransaction) i0 :
  (size P < 254)%nat -> exists k, 1 <= k <= 255 /\ k <> i0 /\ P !! k = None.
Proof.
  intros Hsize.
  destruct (decide (Exists (fun k => k <> i0 /\ P !! k = None) (seqZ 1 255))) as [Hex|Hno].
  - apply Exists_exists in Hex as (k & Hk & Hne & Hfree). apply elem_of_seqZ in Hk.
    exists k. split; [lia|done].
  - exfalso. apply not_Exists_Forall in Hno; [|intros; apply _].
    assert (list_to_set (C := gset Z) (seqZ 1 255) ⊆ {[i0]} ∪ dom P) as Hsub.
    { intros k. rewrite elem_of_list_to_set, elem_of_union, elem_of_singleton, elem_of_dom. intros Hk.
      rewrite Forall_forall in Hno. specialize (Hno k Hk). destruct (decide (k = i0)); [by left|].
      right. destruct (P !! k) eqn:E; [done|]. exfalso. by apply Hno. }
    apply subseteq_size in Hsub.
    rewrite size_list_to_set, length_seqZ in Hsub by apply NoDup_seqZ.
    pose proof (size_union_alt ({[i0]} : gset Z) (dom P)) as Hu.
    rewrite Hu, size_singleton in Hsub.
    assert (dom P ∖ {[i0]} ⊆ dom P) as Hdiff%subseteq_size by set_solver.
    rewrite size_dom in *. lia.
Qed.

(** With every other ID pending it comes back to the ID it started from. *)
Lemma advance_id_around P i0 fuel i :
  1 <= i0 <= 255 -> 1 <= i <= 255 -> (forall k, 1 <= k <= 255 -> k <> i0 -> is_Some (P !! k)) -> i <> i0 ->
  (i0 - i) mod 255 <= Z.of_nat fuel -> advance_id fuel P i0 i = i0.
Proof.
  intros Hi0 Hi Hfull. revert i Hi. induction fuel as [|fuel IH]; intros i Hi Hne Hf.
  - exfalso. assert ((i0 - i) mod 255 <> 0) by (intros E; Z.div_mod_to_equations; lia).
    pose proof (Z.mod_pos_bound (i0 - i) 255). lia.
  - pose proof (next_id_range i Hi) as Hr. pose proof (next_id_distance i i0 Hi Hi0 Hne) as Hstep.
    simpl. destruct (decide (next_id i = i0)) as [E|Hn].
    + rewrite (bool_decide_eq_true_2 _ E), andb_false_r. done.
    + rewrite (bool_decide_eq_false_2 _ Hn), bool_decide_eq_true_2 by (by apply Hfull). apply IH; [done..|lia].
Qed.
Lemma advance_id_full P i0 :
  1 <= i0 <= 255 -> (forall k, 1 <= k <= 255 -> k <> i0 -> is_Some (P !! k)) -> advance_id ID_FUEL P i0 i0 = i0.
Proof.
  intros Hi0 Hfull. pose proof (next_id_range i0 Hi0) as Hr.
  assert (next_id i0 <> i0) as Hne.
  { unfold next_id, u8. case_bool_decide as E; [intros <-; by vm_compute in E|]. Z.div_mod_to_equations; lia. }
  assert (forall fuel, 254 <= Z.of_nat fuel -> advance_id (S fuel) P i0 i0 = i0) as Hround.
  { intros fuel Hf. simpl. rewrite (bool_decide_eq_false_2 _ Hne), bool_decide_eq_true_2 by (by apply Hfull).
    apply advance_id_around; [done..|]. pose proof (Z.mod_pos_bound (i0 - next_id i0) 255). lia. }
  apply (Hround 254%nat). lia.
Qed.

(** ** The table invariant *)

Definition tx_wf (s : TransactionService) : Prop :=
  map_Forall (fun i t => 1 <= i <= 255 /\ pt_transaction_id t = i) (pending_transactions_ s) /\
  1 <= next_transaction_id_ s <= 255 /\
  pending_transactions_ s !! next_transaction_id_ s = None.

Lemma tx_wf_init : tx_wf NewTransactionService.
Proof. split; [apply map_Forall_empty|]. simpl. split; [lia|apply lookup_empty]. Qed.

Lemma next_id_fresh s :
  tx_wf s -> (size (pending_transactions_ s) < 254)%nat ->
  let j := advance_id ID_FUEL (pending_transactions_ s) (next_transaction_id_ s) (next_transaction_id_ s) in
  1 <= j <= 255 /\ pending_transactions_ s !! j = None /\ j <> next_transaction_id_ s.
Proof.
  intros (_ & Hr & _) Hsize. destruct (free_id_exists _ (next_transaction_id_ s) Hsize) as (k & Hk & Hne & Hfree).
  apply advance_id_free with k; [done..| |].
  - split; [|lia]. assert ((k - next_transaction_id_ s) mod 255 <> 0) by (intros E; Z.div_mod_to_equations; lia).
    pose proof (Z.mod_pos_bound (k - next_transaction_id_ s) 255). lia.
  - unfold ID_FUEL. pose proof (Z.mod_pos_bound (k - next_transaction_id_ s) 255). lia.
Qed.

Lemma StartTransaction_eq now target cmd timeout cb s :
  StartTransaction now target cmd timeout cb s =
    (s <| next_transaction_id_ := advance_id ID_FUEL (pending_transactions_ s) (next_transaction_id_ s)
                                    (next_transaction_id_ s) |>
       <| pending_transactions_ := <[next_transaction_id_ s :=
            mkPending (next_transaction_id_ s) now timeout cb cmd target]> (pending_transactions_ s) |>,
     [], Ok (next_transaction_id_ s)).
Proof. done. Qed.

Lemma StartTransaction_wf now target cmd timeout cb s :
  tx_wf s -> (size (pending_transactions_ s) < 254)%nat ->
  tx_wf (state_of (StartTransaction now target cmd timeout cb s)).
Proof.
  intros Hwf Hsize. destruct (next_id_fresh s Hwf Hsize) as (Hj & Hfree & Hne).
  destruct Hwf as (Hall & Hr & Hnone). rewrite StartTransaction_eq. unfold tx_wf, state_of.
  remember (advance_id _ _ _ _) as j eqn:Ej. clear Ej. simpl.
  split; [|split; [exact Hj|]].
  - apply map_Forall_insert_2; [|done]. by simpl.
  - rewrite lookup_insert_ne by congruence. exact Hfree.
Qed.

Lemma delete_wf s i :
  tx_wf s -> tx_wf (s <| pending_transactions_ ::= delete i |>).
Proof.
  intros (Hall & Hr & Hnone). unfold tx_wf. simpl. split; [|split; [done|]].
  - intros k t Hk. apply lookup_delete_Some in Hk as [_ Hk]. by apply Hall.
  - rewrite lookup_delete. case_decide; done.
Qed.

(** ** The callbacks still owed *)

Definition callback_of (t : PendingTransaction) : list Z := option_list (pt_callback t).
Definition waiting (s : TransactionService) : list Z :=
  (map_to_list (pending_transactions_ s)).*2 ≫= callback_of.

Arguments advance_id : simpl never.

#[export] Instance flat_bind_perm :
  Proper (Permutation ==> Permutation) (fun l : list (Z * PendingTransaction) => l.*2 ≫= callback_of).
Proof. intros l1 l2 Hl. apply bind_Permutation. by rewrite Hl. Qed.

Lemma waiting_insert (P : gmap Z PendingTransaction) i t :
  P !! i = None ->
  (map_to_list (<[i := t]> P)).*2 ≫= callback_of ≡ₚ callback_of t ++ ((map_to_list P).*2 ≫= callback_of).
Proof. intros Hi. rewrite (flat_bind_perm _ _ (map_to_list_insert P i t Hi)). done. Qed.

Lemma waiting_delete (P : gmap Z PendingTransaction) i t :
  P !! i = Some t ->
  (map_to_list P).*2 ≫= callback_of ≡ₚ callback_of t ++ ((map_to_list (delete i P)).*2 ≫= callback_of).
Proof. intros Hi. symmetry. rewrite <- (flat_bind_perm _ _ (map_to_list_delete P i t Hi)). done. Qed.

Lemma waiting_filter (P : gmap Z PendingTransaction) (q : PendingTransaction -> bool) cb :
  cb ∈ (map_to_list (filter (fun p => q p.2 = false) P)).*2 ≫= callback_of ->
  cb ∈ (map_to_list P).*2 ≫= callback_of.
Proof.
  rewrite !list_elem_of_bind. intros (t & Hcb & Ht). exists t. split; [done|].
  apply list_elem_of_fmap in Ht as ([i t'] & -> & Hi). apply elem_of_map_to_list in Hi.
  apply map_lookup_filter_Some in Hi as [Hi _].
  apply list_elem_of_fmap. exists (i, t'). split; [done|]. by apply elem_of_map_to_list.
Qed.

Lemma fmap_fst_pair (l : list Z) (rc : Z) : ((fun cb => (cb, rc)) <$> l).*1 = l.
Proof. induction l as [|x l IH]; [done|]. rewrite !fmap_cons. by rewrite IH. Qed.

Lemma InvokeCallback_eq t rc data s :
  exists e, InvokeCallback t rc data s = (s, e, Ok tt) /\ callbacks_called e = (fun cb => (cb, rc)) <$> callback_of t.
Proof. unfold InvokeCallback, callback_of. destruct (pt_callback t); by eexists. Qed.

(** What an operation of the table keeps: every callback it owed, and the one it starts, is called, still owed
    or among those that are [lost]; and the invariant, under the condition [P]. *)
Definition settles (P : TransactionService -> Prop) (started : list Z) (lost : TransactionService -> list Z)
    (m : TxM unit) : Prop :=
  forall s, (tx_wf s -> P s -> tx_wf (state_of (m s))) /\ result_of (m s) = Ok tt /\
    started ++ waiting s ≡ₚ (callbacks_called (effects_of (m s))).*1 ++ waiting (state_of (m s)) ++ lost s.

Definition always (s : TransactionService) : Prop := True.
Definition nothing (s : TransactionService) : list Z := [].

Lemma remove_settles s i t rc data :
  pending_transactions_ s !! i = Some t ->
  let s' := s <| pending_transactions_ ::= delete i |> in
  exists e, InvokeCallback t rc data s' = (s', e, Ok tt)
    /\ (tx_wf s -> tx_wf s') /\ waiting s ≡ₚ (callbacks_called e).*1 ++ waiting s'
    /\ callbacks_called e = (fun cb => (cb, rc)) <$> callback_of t.
Proof.
  intros Hi s'. destruct (InvokeCallback_eq t rc data s') as (e & Hinv & He).
  exists e. split; [done|]. split; [intros Hwf; by apply (delete_wf s i)|]. split; [|done].
  unfold waiting. simpl. by rewrite (waiting_delete _ _ _ Hi), He, fmap_fst_pair.
Qed.

Lemma quiet_settles P s : (tx_wf s -> P s -> tx_wf s) /\ Ok tt = Ok tt /\ [] ++ waiting s ≡ₚ [] ++ waiting s ++ nothing s.
Proof. split; [done|]. split; [done|]. unfold nothing. by rewrite app_nil_r. Qed.

Lemma CompleteTransaction_settles r : settles always [] nothing (CompleteTransaction r).
Proof.
  intros s. unfold CompleteTransaction. rewrite bind_get.
  destruct (pending_transactions_ s !! crsp_transaction_id r) as [t|] eqn:Hi; [|apply quiet_settles].
  destruct (IsResponseTo t r); [|apply quiet_settles]. rewrite bind_modify.
  destruct (remove_settles s _ t (crsp_result_code r) (crsp_data r) Hi) as (e & He & Hwf' & Hp & _).
  simpl in *. rewrite He. unfold nothing. rewrite app_nil_r. by split; [intros ? _; apply Hwf'|].
Qed.

(** The callback of the transaction that holds the next ID, which a start replaces. *)
Definition at_next_id (s : TransactionService) : list Z :=
  match pending_transactions_ s !! next_transaction_id_ s with Some t => callback_of t | None => [] end.

Lemma waiting_replace (P : gmap Z PendingTransaction) i t :
  callback_of t ++ ((map_to_list P).*2 ≫= callback_of)
  ≡ₚ ((map_to_list (<[i := t]> P)).*2 ≫= callback_of) ++ match P !! i with Some t' => callback_of t' | None => [] end.
Proof.
  destruct (P !! i) as [t'|] eqn:Hi.
  - rewrite (waiting_delete P i t' Hi), <- (insert_delete_eq P i t), (waiting_insert _ i t) by apply lookup_delete_eq.
    rewrite <- (assoc_L (++)). by rewrite (comm (++) (callback_of t')).
  - by rewrite app_nil_r, waiting_insert.
Qed.

Lemma StartTransaction_settles now target cmd timeout cb :
  settles (fun s => (size (pending_transactions_ s) < 254)%nat) (option_list cb) at_next_id
    (StartTransaction now target cmd timeout cb ;; mret tt).
Proof.
  intros s. pose proof (StartTransaction_wf now target cmd timeout cb s) as Hwf'.
  erewrite bind_ok by apply StartTransaction_eq. rewrite prepend_nil.
  rewrite StartTransaction_eq in Hwf'. split; [done|]. split; [done|].
  apply (waiting_replace _ _ (mkPending (next_transaction_id_ s) now timeout cb cmd target)).
Qed.

Section transaction_lemmas.
Context `{UnorderedIter} `{CdmpConfig}.

Lemma FindExpired_Some now s i t :
  FindExpired now s = Some (i, t) -> pending_transactions_ s !! i = Some t /\ IsExpired now t = true.
Proof.
  unfold FindExpired. intros [Hin He]%find_first_Some. split; [|done]. by apply elem_of_uiter.
Qed.

Lemma FindExpired_None now s i t :
  FindExpired now s = None -> pending_transactions_ s !! i = Some t -> IsExpired now t = false.
Proof.
  unfold FindExpired. rewrite find_first_None. intros Hf Hi.
  apply (Hf (i, t)). by apply elem_of_uiter.
Qed.

(** The loop ends with the transactions that have not expired, and calls the others' callbacks with
    TIMEOUT. *)
Lemma CleanupLoop_spec now fuel s :
  (size (pending_transactions_ s) < fuel)%nat ->
  let o := CleanupLoop fuel now s in
  (tx_wf s -> tx_wf (state_of o)) /\ result_of o = Ok tt /\
  waiting s ≡ₚ (callbacks_called (effects_of o)).*1 ++ waiting (state_of o) /\
  Forall (fun c => c.2 = RESULT_TIMEOUT) (callbacks_called (effects_of o)) /\
  pending_transactions_ (state_of o) = filter (fun p => IsExpired now p.2 = false) (pending_transactions_ s).
Proof.
  revert s. induction fuel as [|fuel IH]; intros s Hfuel; [lia|].
  simpl. unfold CleanupRound. rewrite bind_assoc, bind_get.
  destruct (FindExpired now s) as [[i t]|] eqn:Hf.
  - apply FindExpired_Some in Hf as [Hi He].
    destruct (remove_settles s i t RESULT_TIMEOUT [] Hi) as (e1 & Hinv & Hwf1 & Hp1 & He1).
    rewrite !bind_assoc, bind_modify, bind_assoc. erewrite bind_ok by exact Hinv. rewrite bind_ret.
    assert (size (delete i (pending_transactions_ s)) < fuel)%nat as Hsz.
    { rewrite <- (insert_delete_id _ _ _ Hi), map_size_insert_None in Hfuel by apply lookup_delete_eq. lia. }
    specialize (IH (s <| pending_transactions_ ::= delete i |>) Hsz). cbv zeta in IH. destruct IH as (Hwf2 & Hr2 & Hp2 & Ht2 & Hfil).
    rewrite state_of_prepend, effects_of_prepend, result_of_prepend.
    rewrite callbacks_called_app, fmap_app, Forall_app, Hp1, Hp2, He1, Hfil.
    split; [intros Hw; by apply Hwf2, Hwf1|]. split; [done|]. split; [by rewrite (assoc_L (++))|]. split.
    + split; [|done]. by apply Forall_fmap, Forall_true.
    + apply map_eq. intros k. apply option_eq. intros x.
      rewrite !map_lookup_filter_Some. simpl. rewrite lookup_delete_Some.
      split; [intuition|]. intros [Hk Hx]. split; [|done]. split; [|done]. intros ->. congruence.
  - rewrite bind_ret. split; [done|]. split; [done|]. split; [done|]. split; [constructor|].
    apply map_eq. intros k. apply option_eq. intros x.
    rewrite map_lookup_filter_Some. split; [|by intros [? _]]. intros Hk. split; [done|].
    by eapply FindExpired_None.
Qed.

Lemma Cleanup_spec now s :
  let o := CleanupExpiredTransactions now s in
  (tx_wf s -> tx_wf (state_of o)) /\ result_of o = Ok tt /\
  waiting s ≡ₚ (callbacks_called (effects_of o)).*1 ++ waiting (state_of o) /\
  Forall (fun c => c.2 = RESULT_TIMEOUT) (callbacks_called (effects_of o)) /\
  pending_transactions_ (state_of o) = filter (fun p => IsExpired now p.2 = false) (pending_transactions_ s).
Proof. apply CleanupLoop_spec. lia. Qed.

Lemma Cleanup_settles now : settles always [] nothing (CleanupExpiredTransactions now).
Proof.
  intros s. destruct (Cleanup_spec now s) as (? & ? & ? & _). unfold nothing. rewrite app_nil_r. by split; [auto|].
Qed.

Lemma cancel_all_eq (l : list (Z * PendingTransaction)) s :
  exists e, for_each l (fun p => InvokeCallback p.2 RESULT_CANCELLED []) s = (s, e, Ok tt)
    /\ callbacks_called e = (fun cb => (cb, RESULT_CANCELLED)) <$> (l.*2 ≫= callback_of).
Proof.
  induction l as [|[i t] l (e & IH & He)]; simpl; [by exists []|].
  destruct (InvokeCallback_eq t RESULT_CANCELLED [] s) as (e1 & Hinv & He1).
  erewrite bind_ok by exact Hinv. rewrite IH.
  eexists. split; [done|]. simpl. by rewrite callbacks_called_app, fmap_app, He, He1.
Qed.

Lemma StopTransactionService_eq s :
  exists e, StopTransactionService s =
      (s <| is_timeout_task_running_ := false |> <| pending_transactions_ := ∅ |>, e, Ok tt)
    /\ callbacks_called e =
         (fun cb => (cb, RESULT_CANCELLED)) <$> ((uiter (pending_transactions_ s)).*2 ≫= callback_of).
Proof.
  unfold StopTransactionService. rewrite bind_modify, bind_get.
  destruct (cancel_all_eq (uiter (pending_transactions_ s))
    (s <| is_timeout_task_running_ := false |> <| pending_transactions_ := ∅ |>)) as (e & He & Hc).
  simpl in *. destruct (timeout_task_ s); simpl.
  - rewrite bind_emit, bind_modify. simpl. rewrite He. eexists. split; [done|]. by simpl.
  - rewrite bind_ret, bind_modify. simpl. rewrite He. eexists. by split.
Qed.

Lemma Stop_settles : settles always [] nothing StopTransactionService.
Proof.
  intros s. destruct (StopTransactionService_eq s) as (e & -> & He). split; [|split; [done|]].
  - intros (_ & Hr & _) _. split; [apply map_Forall_empty|]. split; [done|apply lookup_empty].
  - unfold effects_of, state_of. simpl. rewrite He, fmap_fst_pair. unfold waiting at 2. simpl.
    rewrite map_to_list_empty. simpl. rewrite app_nil_r.
    symmetry. apply flat_bind_perm, uiter_perm.
Qed.

(** *** Runs of the service *)

Inductive TxOp :=
| TxStart (now target cmd timeout : Z) (cb : option Z)
| TxComplete (r : CdmpCommandResponseMessage)
| TxTimeouts (now : Z)
| TxServiceStart
| TxServiceStop.

Definition tx_op (o : TxOp) : TxM unit :=
  match o with
  | TxStart now target cmd timeout cb => StartTransaction now target cmd timeout cb ;; mret tt
  | TxComplete r => CompleteTransaction r
  | TxTimeouts now => ProcessTransactionTimeouts now
  | TxServiceStart => StartTransactionService
  | TxServiceStop => StopTransactionService
  end.

Definition started_by (o : TxOp) : list Z :=
  match o with TxStart _ _ _ _ cb => option_list cb | _ => [] end.

(** The callbacks that a step drops: that of the transaction whose ID a start takes. *)
Definition replaced_by (o : TxOp) (s : TransactionService) : list Z :=
  match o with TxStart _ _ _ _ _ => at_next_id s | _ => [] end.

(** A run from [s]: the state it ends in, the callbacks called with their results, the callbacks dropped. *)
Fixpoint tx_run (ops : list TxOp) (s : TransactionService) : TransactionService * list (Z * Z) * list Z :=
  match ops with
  | [] => (s, [], [])
  | o :: ops =>
      let '(s', calls, replaced) := tx_run ops (state_of (tx_op o s)) in
      (s', callbacks_called (effects_of (tx_op o s)) ++ calls, replaced_by o s ++ replaced)
  end.

(** No transaction starts with 254 or more pending. *)
Definition tx_guard (o : TxOp) (s : TransactionService) : Prop :=
  match o with TxStart _ _ _ _ _ => (size (pending_transactions_ s) < 254)%nat | _ => True end.
Fixpoint tx_guards (ops : list TxOp) (s : TransactionService) : Prop :=
  match ops with [] => True | o :: ops => tx_guard o s /\ tx_guards ops (state_of (tx_op o s)) end.

#[export] Instance tx_guards_dec ops s : Decision (tx_guards ops s).
Proof.
  revert s. induction ops as [|o ops IH]; intros s; cbn [tx_guards]; [apply _|].
  pose proof (IH (state_of (tx_op o s))). destruct o; cbn [tx_guard]; apply _.
Defined.

Lemma tx_op_settles o : settles (tx_guard o) (started_by o) (replaced_by o) (tx_op o).
Proof.
  intros s. destruct o as [now target cmd timeout cb|r|now| |]; cbn [tx_op started_by replaced_by tx_guard].
  - apply StartTransaction_settles.
  - apply CompleteTransaction_settles.
  - unfold ProcessTransactionTimeouts. rewrite bind_get. destruct (negb _ || negb _); [apply (quiet_settles always s)|].
    rewrite bind_emit. apply (Cleanup_settles now s).
  - unfold StartTransactionService. rewrite bind_get. unfold when.
    destruct (negb _ && _); [|apply (quiet_settles always s)]. rewrite bind_emit. apply (quiet_settles always s).
  - apply Stop_settles.
Qed.

Lemma tx_run_settles ops s :
  let '(s', calls, replaced) := tx_run ops s in (ops ≫= started_by) ++ waiting s ≡ₚ calls.*1 ++ waiting s' ++ replaced.
Proof.
  revert s. induction ops as [|o ops IH]; intros s; [simpl; by rewrite app_nil_r|]. rewrite bind_cons. cbn [tx_run].
  destruct (tx_op_settles o s) as (_ & _ & Hp). specialize (IH (state_of (tx_op o s))).
  destruct (tx_run ops _) as [[s' calls] replaced].
  rewrite fmap_app, (comm (++) (started_by o)), <- (assoc_L (++)), Hp, !(assoc_L (++)), (comm (++) (ops ≫= started_by)).
  rewrite <- !(assoc_L (++)), (assoc_L (++) (ops ≫= started_by)), IH, <- !(assoc_L (++)).
  by rewrite (comm (++) replaced).
Qed.

(** Nothing is replaced while the next ID is free, which the guard keeps. *)
Lemma guarded_run ops s : tx_wf s -> tx_guards ops s -> tx_wf (tx_run ops s).1.1 /\ (tx_run ops s).2 = [].
Proof.
  revert s. induction ops as [|o ops IH]; intros s Hwf; [done|]. intros [Hg Hgs]. cbn [tx_run].
  destruct (tx_op_settles o s) as (Hw & _). destruct (IH _ (Hw Hwf Hg) Hgs) as [IHw IHr].
  destruct (tx_run ops _) as [[s' calls] replaced]. cbn [fst snd] in *. split; [done|]. subst replaced. rewrite app_nil_r.
  destruct o; try done. simpl. unfold at_next_id. by destruct Hwf as (_ & _ & ->).
Qed.

(** With 254 pending a start takes the last free ID, which is the next one again. *)
Lemma StartTransaction_last now target cmd timeout cb s :
  tx_wf s -> size (pending_transactions_ s) = 254%nat ->
  next_transaction_id_ (state_of (StartTransaction now target cmd timeout cb s)) = next_transaction_id_ s.
Proof.
  intros (Hall & Hr & Hnone) Hsize. rewrite StartTransaction_eq. apply (advance_id_full _ _ Hr). intros k Hk Hne.
  destruct (pending_transactions_ s !! k) as [t|] eqn:E; [done|]. exfalso.
  assert (dom (pending_transactions_ s) ⊆ list_to_set (C := gset Z) (seqZ 1 255) ∖ {[next_transaction_id_ s; k]}) as Hsub.
  { intros i [t Hi]%elem_of_dom. rewrite elem_of_difference, elem_of_list_to_set, elem_of_seqZ. split.
    - destruct (Hall _ _ Hi) as [? _]. lia.
    - rewrite elem_of_union, !elem_of_singleton. intros [->| ->]; congruence. }
  apply subseteq_size in Hsub. rewrite size_dom, Hsize, size_difference in Hsub.
  - rewrite size_list_to_set, length_seqZ, size_union, !size_singleton in Hsub; [lia| |apply NoDup_seqZ].
    intros x Hx%elem_of_singleton Hy%elem_of_singleton. congruence.
  - intros i. rewrite elem_of_union, !elem_of_singleton, elem_of_list_to_set, elem_of_seqZ. intros [->| ->]; lia.
Qed.

(** Responses to other transactions leave one pending. *)
Lemma completed_others i t rs s :
  pending_transactions_ s !! i = Some t -> Forall (fun r => crsp_transaction_id r <> i) rs ->
  let '(s', _, replaced) := tx_run (TxComplete <$> rs) s in
  pending_transactions_ s' !! i = Some t /\ next_transaction_id_ s' = next_transaction_id_ s /\ replaced = [].
Proof.
  intros Hi Hrs. revert s Hi. induction Hrs as [|r rs Hr _ IH]; intros s Hi; [done|]. rewrite fmap_cons. cbn [tx_run].
  assert (pending_transactions_ (state_of (tx_op (TxComplete r) s)) !! i = Some t /\
    next_transaction_id_ (state_of (tx_op (TxComplete r) s)) = next_transaction_id_ s) as [Hi' Hn].
  { simpl. unfold CompleteTransaction. rewrite bind_get.
    destruct (pending_transactions_ s !! crsp_transaction_id r) as [t'|]; [|done]. destruct (IsResponseTo t' r); [|done].
    rewrite bind_modify. unfold InvokeCallback. destruct (pt_callback t'); simpl; by rewrite lookup_delete_ne. }
  specialize (IH _ Hi'). destruct (tx_run (TxComplete <$> rs) _) as [[s' calls] replaced]. destruct IH as (-> & -> & ->).
  by rewrite Hn.
Qed.
End transaction_lemmas.

(** ** Properties *)

(** C6. In any run of the service from its construction, the callbacks of the requests it started are accounted for,
    each exactly as often as it was given: called once by the completion, the timeout or the stop, or still owed by
    the table, or replaced by a later start that took the ID of a pending transaction.  No callback is replaced as
    long as no request starts while 254 or more are pending: then completing, timing out and stopping neither lose
    nor repeat one. *)
Theorem transaction_callbacks_conserved `{UnorderedIter} `{CdmpConfig} ops :
  let '(s, calls, replaced) := tx_run ops NewTransactionService in
  (ops ≫= started_by) ≡ₚ calls.*1 ++ waiting s ++ replaced /\
  (tx_guards ops NewTransactionService -> replaced = []).
Proof.
  pose proof (tx_run_settles ops NewTransactionService) as Hp. pose proof (guarded_run ops _ tx_wf_init) as Hg.
  destruct (tx_run ops _) as [[s calls] replaced]. split; [|intros Hgs; apply (Hg Hgs)].
  rewrite <- Hp. unfold waiting. simpl. rewrite map_to_list_empty. simpl. by rewrite app_nil_r.
Qed.

Definition run_example : list TxOp :=
  [TxStart 0 3 32 500 (Some 7); TxStart 1 255 33 500 (Some 8); TxStart 2 4 34 500 None;
   TxComplete (mkCommandResponse 3 32 1 0 []); TxServiceStop].

Lemma transaction_callbacks_conserved_witness :
  let '(s, calls, replaced) := @tx_run some_iter default_config run_example NewTransactionService in
  calls = [(7, RESULT_SUCCESS); (8, RESULT_CANCELLED)] /\ replaced = [] /\
  (run_example ≫= started_by) ≡ₚ calls.*1 ++ waiting s.
Proof.
  pose proof (@transaction_callbacks_conserved some_iter default_config run_example) as Ht.
  assert ((@tx_run some_iter default_config run_example NewTransactionService).1.2
    = [(7, RESULT_SUCCESS); (8, RESULT_CANCELLED)]) as Hc by reflexivity.
  destruct (tx_run run_example NewTransactionService) as [[s calls] replaced]. destruct Ht as [Hp Hr].
  assert (replaced = []) as -> by (apply Hr; vm_compute; repeat split; lia).
  split; [exact Hc|]. split; [done|]. by rewrite app_nil_r in Hp.
Defined.

(** A timeout pass ends, with exactly the transactions that have not expired left; each one it
    removed had its callback called with TIMEOUT, and no other callback was called. *)
Theorem cleanup_removes_exactly_the_expired `{UnorderedIter} now s :
  let o := CleanupExpiredTransactions now s in
  result_of o = Ok tt /\
  pending_transactions_ (state_of o) = filter (fun p => IsExpired now p.2 = false) (pending_transactions_ s) /\
  waiting s ≡ₚ (callbacks_called (effects_of o)).*1 ++ waiting (state_of o) /\
  Forall (fun c => c.2 = RESULT_TIMEOUT) (callbacks_called (effects_of o)).
Proof.
  by destruct (Cleanup_spec now s) as (_ & ? & ? & ? & ?).
Qed.

Lemma cleanup_removes_exactly_the_expired_witness :
  let s := state_of (StartTransaction 0 3 32 500 (Some 7) NewTransactionService) in
  pending_transactions_ (state_of (@CleanupExpiredTransactions some_iter 500 s)) = ∅.
Proof.
  intros s.
  destruct (@cleanup_removes_exactly_the_expired some_iter 500 s) as (_ & Hf & _).
  rewrite Hf. reflexivity.
Defined.

(** With the clock not behind a transaction's start, [IsExpired] is the plain comparison. *)
Lemma IsExpired_spec now t :
  pt_start_time t <= now -> now - pt_start_time t < 18446744073709551616 ->
  IsExpired now t = bool_decide (pt_timeout t <= now - pt_start_time t).
Proof. intros. unfold IsExpired. by rewrite Z.mod_small by lia. Qed.

(** C15. The pass reads the clock once, before its loop.  A transaction that another thread or a callback
    starts while the pass runs, at a later millisecond, has [current_time - start_time] wrap around:
    the pass times it out at once, whatever its timeout. *)
Theorem transaction_started_during_cleanup_expires_at_once `{UnorderedIter}
    current_time later target cmd timeout cb s :
  0 <= current_time < later -> later < 9223372036854775808 -> 0 < timeout < 2147483648 ->
  tx_wf s -> (size (pending_transactions_ s) < 254)%nat -> cb ∉ waiting s ->
  let s1 := state_of (StartTransaction later target cmd timeout (Some cb) s) in
  pending_transactions_ s1 !! next_transaction_id_ s
    = Some (mkPending (next_transaction_id_ s) later timeout (Some cb) cmd target) /\
  (cb, RESULT_TIMEOUT) ∈ callbacks_called (effects_of (CleanupExpiredTransactions current_time s1)) /\
  pending_transactions_ (state_of (CleanupExpiredTransactions current_time s1)) !! next_transaction_id_ s = None.
Proof.
  intros Hc Hl Ht Hwf Hsize Hfresh s1.
  assert (pending_transactions_ s1 !! next_transaction_id_ s
    = Some (mkPending (next_transaction_id_ s) later timeout (Some cb) cmd target)) as Hin.
  { unfold s1. rewrite StartTransaction_eq. unfold state_of. simpl. apply lookup_insert_eq. }
  destruct (Cleanup_spec current_time s1) as (_ & _ & Hp & Htmo & Hfil).
  set (o := CleanupExpiredTransactions current_time s1) in *.
  assert (pending_transactions_ (state_of o) = filter (fun p => IsExpired current_time p.2 = false)
            (pending_transactions_ s)) as Hrest.
  { rewrite Hfil. unfold s1. rewrite StartTransaction_eq. unfold state_of. simpl.
    apply map_filter_insert_not'; [simpl|].
    - unfold IsExpired. simpl. rewrite <- (Z.mod_add _ 1), Z.mod_small by lia.
      rewrite bool_decide_eq_true_2 by lia. done.
    - intros y Hy. destruct Hwf as (_ & _ & Hnone). congruence. }
  split; [done|]. split.
  - assert (waiting s1 ≡ₚ cb :: waiting s) as Hs1.
    { unfold waiting, s1. rewrite StartTransaction_eq. unfold state_of. simpl.
      apply waiting_insert. by destruct Hwf as (_ & _ & Hnone). }
    assert (cb ∈ waiting s1) as Hw by (rewrite Hs1; left).
    rewrite Hp, elem_of_app in Hw. destruct Hw as [Hw|Hw].
    + apply list_elem_of_fmap in Hw as ([cb' rc] & -> & Hw).
      rewrite Forall_forall in Htmo. specialize (Htmo _ Hw). simpl in *. by subst rc.
    + exfalso. apply Hfresh. unfold waiting in Hw. rewrite Hrest in Hw. by eapply waiting_filter.
  - rewrite Hrest. apply map_lookup_filter_None. left. by destruct Hwf as (_ & _ & Hnone).
Qed.

Lemma transaction_started_during_cleanup_witness :
  (7, RESULT_TIMEOUT) ∈ callbacks_called (effects_of (@CleanupExpiredTransactions some_iter 1000
     (state_of (StartTransaction 1001 3 32 500 (Some 7) NewTransactionService)))).
Proof.
  apply (@transaction_started_during_cleanup_expires_at_once some_iter 1000 1001 3 32 500 7
           NewTransactionService); [lia|lia|lia|apply tx_wf_init|vm_compute; lia|].
  apply (bool_decide_eq_false_1 _). vm_compute. reflexivity.
Defined.

(** C16. The bound on pending requests matters.  In every state with 254 pending, a request takes the last free
    ID, and the search for the next one comes back to it.  Whatever other requests are answered meanwhile, so that
    IDs are free again, the next request takes the pending ID and replaces the transaction that holds it: its
    callback is not called, and the table does not owe it any more. *)
Theorem full_table_loses_a_callback `{UnorderedIter} `{CdmpConfig}
    s now target cmd timeout cb rs now' target' cmd' timeout' cb' :
  tx_wf s -> size (pending_transactions_ s) = 254%nat -> cb ∉ waiting s -> cb' <> Some cb ->
  Forall (fun r => crsp_transaction_id r <> next_transaction_id_ s) rs ->
  let '(s', calls, replaced) :=
    tx_run (TxStart now target cmd timeout (Some cb) :: (TxComplete <$> rs) ++ [TxStart now' target' cmd' timeout' cb']) s in
  replaced = [cb] /\ cb ∉ calls.*1 ++ waiting s'.
Proof.
  intros Hwf Hsize Hfresh Hcb' Hrs. set (ops := _ :: _).
  pose proof (tx_run_settles ops s) as Hp. assert ((tx_run ops s).2 = [cb]) as Hr.
  { unfold ops. cbn [tx_run]. set (s1 := state_of (tx_op _ s)).
    assert (next_transaction_id_ s1 = next_transaction_id_ s) as Hn by (by apply StartTransaction_last).
    assert (pending_transactions_ s1 !! next_transaction_id_ s
      = Some (mkPending (next_transaction_id_ s) now timeout (Some cb) cmd target)) as Hi by apply lookup_insert_eq.
    pose proof (completed_others _ _ _ _ Hi Hrs) as Hc. unfold replaced_by at 1, at_next_id at 1.
    assert (pending_transactions_ s !! next_transaction_id_ s = None) as -> by apply Hwf. clearbody s1.
    assert (forall l1 l2 v, (tx_run (l1 ++ l2) v).2 = (tx_run l1 v).2 ++ (tx_run l2 (tx_run l1 v).1.1).2) as Happ.
    { clear. induction l1 as [|o l1 IH]; intros l2 v; [done|]. simpl. specialize (IH l2 (state_of (tx_op o v))).
      destruct (tx_run (l1 ++ l2) _) as [[? ?] ?], (tx_run l1 _) as [[? ?] ?]. simpl in *. rewrite IH. by rewrite (assoc_L (++)). }
    specialize (Happ (TxComplete <$> rs) [TxStart now' target' cmd' timeout' cb'] s1).
    destruct (tx_run (TxComplete <$> rs) s1) as [[s2 c2] r2]. destruct Hc as (Hi2 & Hn2 & ->).
    destruct (tx_run (_ ++ _) s1) as [[s3 c3] r3]. simpl in Happ |- *. rewrite Happ. unfold at_next_id.
    by rewrite Hn2, Hn, Hi2. }
  destruct (tx_run ops s) as [[s' calls] replaced]. simpl in Hr. subst replaced. split; [done|].
  assert ((ops ≫= started_by) = cb :: option_list cb') as Hs.
  { unfold ops. rewrite bind_cons, bind_app. simpl. f_equal.
    assert (forall l : list CdmpCommandResponseMessage, (TxComplete <$> l) ≫= started_by = []) as -> by (by induction l).
    by rewrite app_nil_r. }
  rewrite Hs in Hp. rewrite (assoc_L (++)), (comm (++) _ [cb]) in Hp. apply (inj (cons cb)) in Hp. rewrite <- Hp.
  rewrite elem_of_app. intros [Hin|]; [|done]. destruct cb' as [x|]; simpl in Hin; set_solver.
Qed.

(** 254 requests without an answer. *)
Definition nearly_full : TransactionService :=
  (@tx_run some_iter default_config ((fun i => TxStart 0 3 32 500 (Some (1000 + i))) <$> seqZ 1 254) NewTransactionService).1.1.

Lemma full_table_loses_a_callback_witness :
  let '(s', calls, replaced) := @tx_run some_iter default_config
    [TxStart 0 3 32 500 (Some 7); TxComplete (mkCommandResponse 3 32 5 RESULT_SUCCESS []); TxStart 0 3 32 500 (Some 8)] nearly_full in
  replaced = [7] /\ 7 ∉ calls.*1 ++ waiting s'.
Proof.
  apply (@full_table_loses_a_callback some_iter default_config nearly_full 0 3 32 500 7
    [mkCommandResponse 3 32 5 RESULT_SUCCESS []] 0 3 32 500 (Some 8)).
  - apply (@guarded_run some_iter default_config _ _ tx_wf_init). apply (bool_decide_eq_true_1 _). vm_compute. reflexivity.
  - vm_compute. reflexivity.
  - apply (bool_decide_eq_false_1 _). vm_compute. reflexivity.
  - discriminate.
  - repeat constructor. vm_compute. discriminate.
Defined.
