(* ===== verification/CdmpNetwork.v ===== *)
(** * CDMP network service: discovery, ID claim and the device table

    [src/src/subsys/cdmp/services/cdmp_network_service.*].  Every method runs on the CDMP work queue
    (or under [devices_lock_]), one after another, so a method is one step on the service's state. *)

From S2P Require Import Prelude Can Cdmp CdmpMessages CdmpEffects Service.

(** ** State *)

Record PendingIdClaim := mkClaim {
  pc_device_id : Z;
  pc_uid : Z;
  pc_claimed_at_ms : Z;
}.
#[export] Instance PendingIdClaim_eq_dec : EqDecision PendingIdClaim.
Proof. solve_decision. Defined.

(** The default value marks a free slot. *)
Definition FreeClaim : PendingIdClaim := mkClaim DEVICE_ID_UNASSIGNED 0 0.

(** [device_] is the unit's own device, which the other services share. *)
Record NetworkService := mkNetwork {
  device_ : CdmpDevice;
  base_can_id_ : Z;
  net_service_state_ : ServiceState;
  net_tasks_created_ : bool;
  is_validation_task_running_ : bool;
  canbus_handler_id_ : Z;
  session_ : Z;
  network_devices_ : gmap Z CdmpDevice;
  pending_id_claims_ : list PendingIdClaim;
  auto_discovery_enabled_ : bool;
  discovery_attempt_ : nat;
  discovery_backoff_resets_ : Z;
  discovery_response_received_ : bool;
  lower_uid_discovering_ : bool;
  claiming_device_id_ : Z;
  id_claim_attempt_ : Z;
  id_claim_result_ : option Z;
  rediscovery_requested_at_ms_ : option Z;
}.
#[export] Instance NetworkService_eta : Eta NetworkService := fun s =>
  mkNetwork (device_ s) (base_can_id_ s) (net_service_state_ s) (net_tasks_created_ s)
    (is_validation_task_running_ s) (canbus_handler_id_ s) (session_ s) (network_devices_ s)
    (pending_id_claims_ s) (auto_discovery_enabled_ s) (discovery_attempt_ s)
    (discovery_backoff_resets_ s) (discovery_response_received_ s) (lower_uid_discovering_ s)
    (claiming_device_id_ s) (id_claim_attempt_ s) (id_claim_result_ s) (rediscovery_requested_at_ms_ s).

Definition NewNetworkService (device : CdmpDevice) (base : Z) : NetworkService :=
  mkNetwork device base STOPPED false false (-1) 0 ∅ (replicate PENDING_ID_CLAIMS_MAX FreeClaim) true
    0 0 false false DEVICE_ID_UNASSIGNED 0 None None.

Abbreviation NM := (M NetworkService Effect).

Section network.
Context `{UnorderedIter} (env : Env).
#[local] Abbreviation now := (env_now env).
#[local] Abbreviation bus_valid := (env_bus_valid env).

(** A status call on the unit's own device, which runs the registered handlers. *)
Definition OwnDevice (op : CdmpDevice -> CdmpDevice * list StatusCall) : NM unit :=
  s ← get;
  let '(d, calls) := op (device_ s) in
  modify (fun s => s <| device_ := d |>) ;;
  emits (CallStatusHandler <$> calls).

Definition RunWork (w : NetworkWork) : NM unit :=
  session ← gets session_;
  emit (RunInSession session w).

(** ** Pending claims *)

Definition ExpireClaim (c : PendingIdClaim) : PendingIdClaim :=
  if negb (bool_decide (pc_device_id c = DEVICE_ID_UNASSIGNED))
     && bool_decide (HEARTBEAT_TIMEOUT_MS < now - pc_claimed_at_ms c)
  then FreeClaim else c.

Definition ExpirePendingIdClaims : NM unit :=
  modify (fun s => s <| pending_id_claims_ ::= fmap ExpireClaim |>).

(** The slot found is its index. *)
Definition FindPendingIdClaim (device_id : Z) : NM (option nat) :=
  ExpirePendingIdClaims ;;
  gets (fun s => find_index (fun c => bool_decide (pc_device_id c = device_id)) (pending_id_claims_ s)).

(** [std::ranges::min_element] by [claimed_at_ms]: the first of the smallest. *)
Fixpoint OldestClaim (l : list PendingIdClaim) : nat :=
  match l with
  | [] => O
  | [c] => O
  | c :: l' =>
      let i := OldestClaim l' in
      match l' !! i with
      | Some c' => if bool_decide (pc_claimed_at_ms c' < pc_claimed_at_ms c) then S i else O
      | None => O
      end
  end.

Definition StorePendingIdClaim (claim : CdmpIdClaimRequestMessage) : NM unit :=
  modify (fun s => s <| pending_id_claims_ ::= fmap (fun p =>
    if bool_decide (pc_uid p = claim_uid claim)
       && negb (bool_decide (pc_device_id p = claim_device_id claim))
    then FreeClaim else p) |>) ;;
  slot ← FindPendingIdClaim (claim_device_id claim);
  slot ← (match slot with Some i => mret (Some i) | None => FindPendingIdClaim DEVICE_ID_UNASSIGNED end);
  i ← (match slot with Some i => mret i | None => gets (fun s => OldestClaim (pending_id_claims_ s)) end);
  modify (fun s => s <| pending_id_claims_ ::=
    <[i := mkClaim (claim_device_id claim) (claim_uid claim) now]> |>).

(** ** The device table *)

Definition FindDeviceIdByUid (uid : Z) : NM (option Z) :=
  gets (fun s => fst <$> find_first (fun p => bool_decide (uid_ p.2 = uid)) (uiter (network_devices_ s))).

Definition IsPeerDeviceId (s : NetworkService) (device_id : Z) : bool :=
  negb (bool_decide (device_id = DEVICE_ID_UNASSIGNED))
  && negb (bool_decide (device_id = DEVICE_ID_BROADCAST))
  && negb (IsOnline (device_ s) && bool_decide (device_id = device_id_ (device_ s))).

Definition GetAllDeviceIds (s : NetworkService) : list Z := (uiter (network_devices_ s)).*1.

Definition LowestIdOnNetwork (s : NetworkService) : Z :=
  foldl (fun lowest id => if bool_decide (id < lowest) then Z.min lowest id else lowest)
    (device_id_ (device_ s)) (GetAllDeviceIds s).

Definition UpdateLowestIdOnNetwork : NM unit :=
  lowest ← gets LowestIdOnNetwork;
  modify (fun s => s <| device_ := (device_ s) <| is_lowest_id_on_network_ :=
                                      bool_decide (device_id_ (device_ s) = lowest) |> |>) ;;
  modify (fun s => s <| network_devices_ ::= map_imap (fun id d =>
    Some (d <| is_lowest_id_on_network_ := bool_decide (id = lowest) |>)) |>).

Definition UpdateStaggeredMessageDelay : NM unit :=
  ids ← gets GetAllDeviceIds;
  modify (fun s => s <| device_ := (device_ s) <| staggered_message_delay_ :=
                                      CalculateStaggeredMessageTimeOffset ids (device_id_ (device_ s)) |> |>) ;;
  modify (fun s => s <| network_devices_ ::= map_imap (fun id d =>
    Some (d <| staggered_message_delay_ := CalculateStaggeredMessageTimeOffset ids id |>)) |>).

Definition UpdateNetworkDevices : NM unit := UpdateLowestIdOnNetwork ;; UpdateStaggeredMessageDelay.

Definition AddOrUpdateDevice (device_id uid features : Z) : NM bool :=
  s ← get;
  match network_devices_ s !! device_id with
  | Some device =>
      let device := UpdateHeartbeat now device in
      let device := (GoOnline true device).1 in
      let device := device <| features_ := features |> in
      modify (fun s => s <| network_devices_ ::= <[device_id := device]> |>) ;;
      mret false
  | None =>
      device ← lift (NewDevice now uid features ONLINE);
      let device := device <| device_id_ := device_id |> in
      modify (fun s => s <| network_devices_ ::= <[device_id := device]> |>) ;;
      UpdateNetworkDevices ;;
      mret true
  end.

Definition RemoveDevice (device_id : Z) : NM unit :=
  s ← get;
  match network_devices_ s !! device_id with
  | None => mret tt
  | Some device =>
      modify (fun s => s <| network_devices_ ::= delete device_id |>) ;;
      UpdateNetworkDevices ;;
      emit (NotifyDeviceEvent LEFT (ToDeviceInfo device))
  end.

Definition ClearAllDevices : NM unit :=
  modify (fun s => s <| network_devices_ := ∅ |> <| pending_id_claims_ ::= fmap (fun _ => FreeClaim) |>).

(** [ToDeviceInfo] of [network_devices_.at(device_id)]: [at] throws for an absent key. *)
Definition DeviceInfoAt (device_id : Z) : NM CdmpDeviceInfo :=
  s ← get;
  match network_devices_ s !! device_id with
  | Some d => mret (ToDeviceInfo d)
  | None => throw (RuntimeError "unordered_map::at")
  end.

Definition ClearClaim (i : nat) : NM unit :=
  modify (fun s => s <| pending_id_claims_ ::= <[i := FreeClaim]> |>).

(** ** Frames out *)

Definition SendDiscoveryRequest : NM unit :=
  s ← get;
  when bus_valid (emit (SendFrame (GetManagementCanId (base_can_id_ s))
    (DiscoveryRequest_ToCanFrame (mkDiscoveryRequest (uid_ (device_ s)))))).

Definition SendDiscoveryResponse : NM unit :=
  s ← get;
  when (IsOnline (device_ s) && bus_valid)
    (emit (Sleep (staggered_message_delay_ (device_ s))) ;;
     emit (SendFrame (GetManagementCanId (base_can_id_ s))
       (DiscoveryResponse_ToCanFrame
          (mkDiscoveryResponse (device_id_ (device_ s)) (uid_ (device_ s)) (features_ (device_ s)))))).

Definition SendIdClaim : NM unit :=
  s ← get;
  emit (SendFrame (GetManagementCanId (base_can_id_ s))
    (IdClaimRequest_ToCanFrame
       (mkIdClaimRequest (claiming_device_id_ s) (uid_ (device_ s)) (protocol_version_ (device_ s))))).

Definition RequestRediscovery : NM unit :=
  s ← get;
  if negb (IsOnline (device_ s)) || negb (bool_decide (net_service_state_ s = RUNNING)) then mret tt
  else if match rediscovery_requested_at_ms_ s with
          | Some t => bool_decide (now - t < HEARTBEAT_INTERVAL_MS)
          | None => false
          end
  then mret tt
  else
    modify (fun s => s <| rediscovery_requested_at_ms_ := Some now |>) ;;
    SendDiscoveryRequest.

(** ** Discovery *)

Definition StartInitialization : NM unit :=
  modify (fun s => s <| discovery_attempt_ := O |> <| discovery_backoff_resets_ := 0 |>
                     <| discovery_response_received_ := false |> <| lower_uid_discovering_ := false |>) ;;
  s ← get;
  when (net_tasks_created_ s) (emit (Reschedule DiscoveryTask 0)).

(** After the wait of the previous request: whether the discovery is over. *)
Definition RunDiscoveryAttempt : NM TaskResult :=
  s ← get;
  if negb (bool_decide (GetStatus (device_ s) = INIT)) then mret None
  else if negb (bool_decide (discovery_attempt_ s = O)) && discovery_response_received_ s then
    OwnDevice ClaimId ;; mret None
  else
    when (negb (bool_decide (discovery_attempt_ s = O)) && lower_uid_discovering_ s
          && bool_decide (discovery_backoff_resets_ s < DISCOVERY_MAX_BACKOFF_RESETS))
      (modify (fun s => s <| discovery_backoff_resets_ ::= fun n => n + 1 |> <| discovery_attempt_ := O |>)) ;;
    s ← get;
    if bool_decide (discovery_attempt_ s = length RETRY_BACKOFFS_MS) then
      OwnDevice ClaimId ;; mret None
    else
      match RETRY_BACKOFFS_MS !! discovery_attempt_ s with
      | None => lift Oob
      | Some backoff =>
          modify (fun s => s <| discovery_attempt_ ::= S |> <| lower_uid_discovering_ := false |>) ;;
          SendDiscoveryRequest ;;
          mret (Some backoff)
      end.

Definition ProcessDiscoveryRequestFrame (frame : list Z) : NM unit :=
  try_log (
    message ← lift (DiscoveryRequest_FromCanFrame frame);
    s ← get;
    when (bool_decide (GetStatus (device_ s) = INIT) && bool_decide (dreq_uid message < uid_ (device_ s)))
      (modify (fun s => s <| lower_uid_discovering_ := true |>)) ;;
    RunWork WorkSendDiscoveryResponse).

Definition UpdateDeviceFromDiscovery (discovery : CdmpDiscoveryResponseMessage) : NM unit :=
  s ← get;
  if negb (IsPeerDeviceId s (dresp_device_id discovery)) then mret tt
  else
    previous_device_id ← FindDeviceIdByUid (dresp_uid discovery);
    (match previous_device_id with
     | Some previous =>
         when (negb (bool_decide (previous = dresp_device_id discovery))) (RemoveDevice previous)
     | None => mret tt
     end) ;;
    added ← AddOrUpdateDevice (dresp_device_id discovery) (dresp_uid discovery) (dresp_features discovery);
    joined ← (if added : bool
              then info ← DeviceInfoAt (dresp_device_id discovery); mret (Some info)
              else mret None);
    claim ← FindPendingIdClaim (dresp_device_id discovery);
    (match claim with Some i => ClearClaim i | None => mret tt end) ;;
    match joined with
    | Some info => emit (NotifyDeviceEvent JOINED info)
    | None => mret tt
    end.

Definition ProcessDiscoveryResponseFrame (frame : list Z) : NM unit :=
  try_log (
    message ← lift (DiscoveryResponse_FromCanFrame frame);
    modify (fun s => s <| discovery_response_received_ := true |>) ;;
    s ← get;
    if bool_decide (dresp_uid message = uid_ (device_ s)) then OwnDevice EnterError
    else UpdateDeviceFromDiscovery message).

(** ** ID claim *)

Definition StartIdClaim : NM unit :=
  modify (fun s => s <| claiming_device_id_ := DEVICE_ID_UNASSIGNED |> <| id_claim_attempt_ := 0 |>
                     <| id_claim_result_ := None |>) ;;
  s ← get;
  when (net_tasks_created_ s) (emit (Reschedule IdClaimTask 0)).

(** The loop of [GetLowestAvailableId] from [i]; 255 rounds reach the broadcast ID. *)
Fixpoint LowestAvailableFrom (fuel : nat) (i : Z) : NM Z :=
  match fuel with
  | O => throw (RuntimeError "No available device ID found")
  | S fuel =>
      if negb (bool_decide (i < DEVICE_ID_BROADCAST)) then throw (RuntimeError "No available device ID found")
      else
        s ← get;
        if bool_decide (is_Some (network_devices_ s !! i)) then LowestAvailableFrom fuel (u8 (i + 1))
        else
          claim ← FindPendingIdClaim i;
          if bool_decide (claim = None) then mret i else LowestAvailableFrom fuel (u8 (i + 1))
  end.
Definition GetLowestAvailableId (after : Z) : NM Z := LowestAvailableFrom 256 (u8 (after + 1)).

Definition CompleteIdClaim : NM unit :=
  modify (fun s => s <| device_ := (device_ s) <| device_id_ := claiming_device_id_ s |> |>
                     <| claiming_device_id_ := DEVICE_ID_UNASSIGNED |>) ;;
  UpdateNetworkDevices ;;
  OwnDevice (GoOnline false).

Definition DropClaim : NM unit := modify (fun s => s <| claiming_device_id_ := DEVICE_ID_UNASSIGNED |>).

Definition SendNextClaim : NM TaskResult :=
  SendIdClaim ;;
  modify (fun s => s <| id_claim_attempt_ ::= fun n => n + 1 |>) ;;
  mret (Some ID_CLAIM_RESPONSE_TIMEOUT_MS).

(** [try { claiming = GetLowestAvailableId(claiming); } catch { EnterError as separate work; }] *)
Definition SelectNextId : NM bool := fun s =>
  match GetLowestAvailableId (claiming_device_id_ s) s with
  | (s1, e1, Ok i) =>
      (s1 <| claiming_device_id_ := i |> <| id_claim_attempt_ := 0 |> <| id_claim_result_ := None |>, e1, Ok true)
  | (s1, e1, Throw _) =>
      (s1 <| claiming_device_id_ := DEVICE_ID_UNASSIGNED |>, e1 ++ [RunInSession (session_ s1) WorkEnterError],
       Ok false)
  | (s1, e1, Oob) => (s1, e1, Oob)
  end.

Definition RunIdClaimAttempt : NM TaskResult :=
  s ← get;
  if negb (bool_decide (GetStatus (device_ s) = CLAIMING)) then DropClaim ;; mret None
  else if negb bus_valid then DropClaim ;; mret None
  else if bool_decide (id_claim_result_ s = Some CLAIM_VERSION_INCOMPATIBLE) then
    DropClaim ;; RunWork WorkEnterVersionMismatch ;; mret None
  else if bool_decide (id_claim_result_ s = Some CLAIM_ACCEPT) then CompleteIdClaim ;; mret None
  else if bool_decide (claiming_device_id_ s = DEVICE_ID_UNASSIGNED)
          || bool_decide (id_claim_result_ s = Some CLAIM_REJECT) then
    SelectNextId ≫= fun selected : bool => if selected then SendNextClaim else mret None
  else if bool_decide (id_claim_attempt_ s = ID_CLAIM_MAX_ATTEMPTS) then CompleteIdClaim ;; mret None
  else SendNextClaim.

Definition RecordIdClaim (claim : CdmpIdClaimRequestMessage) : NM unit :=
  let device_id := claim_device_id claim in
  s ← get;
  if negb (IsPeerDeviceId s device_id) || bool_decide (claim_uid claim = uid_ (device_ s))
     || negb (IsProtocolCompatible (device_ s) (claim_protocol_version claim))
  then mret tt
  else
    match network_devices_ s !! device_id with
    | Some device =>
        if negb (bool_decide (uid_ device = claim_uid claim)) then mret tt
        else
          pending ← FindPendingIdClaim device_id;
          s ← get;
          let known := match pending ≫= (fun i => pending_id_claims_ s !! i) with
                       | Some p => bool_decide (pc_uid p = claim_uid claim)
                       | None => false
                       end in
          modify (fun s => s <| network_devices_ ::= <[device_id := UpdateHeartbeat now device]> |>) ;;
          StorePendingIdClaim claim ;;
          when (negb known) (emit (NotifyDeviceEvent RESTARTED (ToDeviceInfo device)))
    | None =>
        previous_device_id ← FindDeviceIdByUid (claim_uid claim);
        StorePendingIdClaim claim ;;
        match previous_device_id with
        | Some previous => RemoveDevice previous
        | None => mret tt
        end
    end.

(** The answer to a claim, if this unit is the one to give it. *)
Definition ClaimAnswer (d : CdmpDevice) (claim : CdmpIdClaimRequestMessage) : option Z :=
  if is_lowest_id_on_network_ d && negb (IsProtocolCompatible d (claim_protocol_version claim))
  then Some CLAIM_VERSION_INCOMPATIBLE
  else if bool_decide (device_id_ d = claim_device_id claim) then Some CLAIM_REJECT
  else if is_lowest_id_on_network_ d then Some CLAIM_ACCEPT
  else None.

Definition ProcessIdClaimRequestFrame (frame : list Z) : NM unit :=
  try_log (
    claim ← lift (IdClaimRequest_FromCanFrame frame);
    RecordIdClaim claim ;;
    s ← get;
    if negb bus_valid || negb (IsOnline (device_ s)) then mret tt
    else
      match ClaimAnswer (device_ s) claim with
      | Some result =>
          emit (SendFrame (GetManagementCanId (base_can_id_ s))
            (IdClaimResponse_ToCanFrame
               (mkIdClaimResponse (device_id_ (device_ s)) (claim_device_id claim) (claim_uid claim) result)))
      | None => mret tt
      end).

Definition ProcessIdClaimResponseFrame (frame : list Z) : NM unit :=
  try_log (
    response ← lift (IdClaimResponse_FromCanFrame frame);
    s ← get;
    if negb (bool_decide (GetStatus (device_ s) = CLAIMING)) then mret tt
    else if negb (bool_decide (cresp_claiming_device_id response = claiming_device_id_ s)) then mret tt
    else
      when (negb (bool_decide (cresp_result response = CLAIM_ACCEPT))
            || bool_decide (id_claim_result_ s = None))
        (modify (fun s => s <| id_claim_result_ := Some (cresp_result response) |>))).

Definition ProcessFrame (frame : list Z) : NM unit :=
  message_type ← lift (rd frame 0);
  if bool_decide (message_type = MSG_DISCOVERY_REQUEST) then ProcessDiscoveryRequestFrame frame
  else if bool_decide (message_type = MSG_DISCOVERY_RESPONSE) then ProcessDiscoveryResponseFrame frame
  else if bool_decide (message_type = MSG_ID_CLAIM) then ProcessIdClaimRequestFrame frame
  else if bool_decide (message_type = MSG_ID_CLAIM_RESPONSE) then ProcessIdClaimResponseFrame frame
  else mret tt.

(** ** Heartbeats and the validation task *)

Definition UpdateDeviceFromHeartbeat (heartbeat : CdmpHeartbeatMessage) : NM unit :=
  let device_id := hb_device_id heartbeat in
  s ← get;
  if negb (IsPeerDeviceId s device_id) then mret tt
  else
    claim ← FindPendingIdClaim device_id;
    s ← get;
    match claim ≫= (fun i => (i,.) <$> pending_id_claims_ s !! i) with
    | Some (i, c) =>
        added ← AddOrUpdateDevice device_id (pc_uid c) (hb_features heartbeat);
        joined ← (if added : bool then info ← DeviceInfoAt device_id; mret (Some info) else mret None);
        ClearClaim i ;;
        (match joined with Some info => emit (NotifyDeviceEvent JOINED info) | None => mret tt end) ;;
        emit (NotifyHeartbeat heartbeat)
    | None =>
        match network_devices_ s !! device_id with
        | Some device =>
            AddOrUpdateDevice device_id (uid_ device) (hb_features heartbeat) ;;
            emit (NotifyHeartbeat heartbeat)
        | None => RequestRediscovery
        end
    end.

Definition OfflineDevices (s : NetworkService) : list Z :=
  (filter (fun p : Z * CdmpDevice => HEARTBEAT_TIMEOUT_MS < GetLastHeartbeatDeltaMs now p.2)
     (uiter (network_devices_ s))).*1.

Definition RemoveOfflineDevices : NM unit :=
  offline_devices ← gets OfflineDevices;
  for_each offline_devices RemoveDevice.

Definition ProcessPeriodicTasks : NM unit := RemoveOfflineDevices ;; UpdateNetworkDevices.

Definition ProcessPeriodicValidation : NM TaskResult :=
  s ← get;
  if negb (is_validation_task_running_ s) then mret None
  else
    ProcessPeriodicTasks ;;
    s ← get;
    mret (if is_validation_task_running_ s then Some NETWORK_VALIDATION_INTERVAL_MS else None).

Definition StartValidationTask : NM unit :=
  s ← get;
  when (negb (is_validation_task_running_ s) && net_tasks_created_ s
        && bool_decide (GetStatus (device_ s) = ONLINE))
    (emit (Schedule ValidationTask 0) ;; modify (fun s => s <| is_validation_task_running_ := true |>)).

(** ** Life cycle *)

Definition NetworkRegisterCanHandlers (register : CanFilter -> Z) : NM unit :=
  if negb bus_valid then mret tt
  else
    s ← get;
    RegisterReceiveHandler register (base_can_id_ s) (GetManagementCanId (base_can_id_ s)) ≫= fun i : Z =>
    modify (fun s => s <| canbus_handler_id_ := i |>) ;;
    when (bool_decide (i < 0)) (throw (RuntimeError "Failed to register CAN frame handler for frame ID")).

Definition NetworkUnregisterCanHandlers : NM unit :=
  when bus_valid
    (s ← get;
     when (bool_decide (0 <= canbus_handler_id_ s)) (emit (RemoveFrameHandler (canbus_handler_id_ s))) ;;
     modify (fun s => s <| canbus_handler_id_ := -1 |>)).

Definition NetworkDoInitialize : NM bool :=
  modify (fun s => s <| net_tasks_created_ := true |>) ;; mret true.

Definition NetworkDoStart (register : CanFilter -> Z) : NM bool :=
  ClearAllDevices ;; NetworkRegisterCanHandlers register ;; StartValidationTask ;; mret true.

Definition NetworkDoStop : NM bool :=
  NetworkUnregisterCanHandlers ;;
  modify (fun s => s <| session_ ::= fun n => n + 1 |>) ;;
  s ← get;
  when (net_tasks_created_ s) (emits [CancelTask DiscoveryTask; CancelTask IdClaimTask]) ;;
  modify (fun s => s <| is_validation_task_running_ := false |>) ;;
  when (net_tasks_created_ s) (emit (CancelTask ValidationTask)) ;;
  ClearAllDevices ;;
  mret true.

Definition NetworkWorkOf (register : CanFilter -> Z) : ServiceWork NetworkService Effect :=
  {| sw_state := net_service_state_; sw_set_state := fun st s => s <| net_service_state_ := st |>;
     sw_is_pausable := false; sw_initialize := NetworkDoInitialize; sw_start := NetworkDoStart register;
     sw_stop := NetworkDoStop; sw_pause := mret true; sw_resume := mret true |}.

Definition NetworkStart (register : CanFilter -> Z) : NM bool := Start (NetworkWorkOf register).
(** Stopping registers nothing. *)
Definition NetworkStop : NM bool := Stop (NetworkWorkOf (fun _ => 0)).

Definition NetworkOnDeviceStatusChanged (new_status : CdmpDeviceStatus) : NM unit :=
  match new_status with
  | INIT => RunWork WorkStartInitialization
  | CLAIMING => RunWork WorkStartIdClaim
  | ONLINE => StartValidationTask
  | VERSION_MISMATCH | ERROR => NetworkStop ;; mret tt
  | OFFLINE => mret tt
  end.

(** A closure that [RunInSession] queued, when the work queue gets to it. *)
Definition RunQueuedWork (session : Z) (w : NetworkWork) : NM unit :=
  s ← get;
  if negb (bool_decide (session_ s = session)) then mret tt
  else match w with
       | WorkProcessFrame frame => ProcessFrame frame
       | WorkStartInitialization => StartInitialization
       | WorkStartIdClaim => StartIdClaim
       | WorkSendDiscoveryResponse => SendDiscoveryResponse
       | WorkEnterVersionMismatch => OwnDevice EnterVersionMismatch
       | WorkEnterError => OwnDevice EnterError
       end.

(** ** Queries *)

Definition GetOnlineDeviceIds (s : NetworkService) : list Z :=
  (filter (fun p : Z * CdmpDevice => GetStatus p.2 = ONLINE) (uiter (network_devices_ s))).*1.

Definition GetDeviceCount (s : NetworkService) : nat := size (network_devices_ s).

Definition IsDeviceOnline (s : NetworkService) (device_id : Z) : bool :=
  match network_devices_ s !! device_id with
  | Some d => bool_decide (GetStatus d = ONLINE)
  | None => false
  end.

(** Copies in the table's order until the span of [capacity] is full, then sorts what was copied. *)
Definition GetNetworkDevices (s : NetworkService) (capacity : nat) : list CdmpDeviceInfo :=
  merge_sort info_le (take capacity (ToDeviceInfo <$> (uiter (network_devices_ s)).*2)).

Definition SetAutoDiscovery (enabled : bool) : NM unit :=
  modify (fun s => s <| auto_discovery_enabled_ := enabled |>).
End network.
