(* ===== verification/CdmpNetworkSpec.v ===== *)
(** * CDMP network service: invariants and theorems

    The operations of [CdmpNetwork.v] as steps of one state, and what holds of every sequence of them. *)

From S2P Require Import Prelude Can Cdmp CdmpMessages CdmpEffects Service CdmpNetwork.

(** ** Running the parts

    The helpers of the service as state functions, so that a handler runs in a few rewrites. *)

Section runs.
Context `{UnorderedIter} (env : Env).
Implicit Types (s : NetworkService).

Definition expired (s : NetworkService) : NetworkService :=
  s <| pending_id_claims_ ::= fmap (ExpireClaim env) |>.

Definition claim_slot (device_id : Z) (s : NetworkService) : option nat :=
  find_index (fun c => bool_decide (pc_device_id c = device_id)) (pending_id_claims_ s).

Lemma FindPendingIdClaim_run device_id s :
  FindPendingIdClaim env device_id s = (expired s, [], Ok (claim_slot device_id (expired s))).
Proof. done. Qed.

Lemma ExpireClaim_idemp c : ExpireClaim env (ExpireClaim env c) = ExpireClaim env c.
Proof. unfold ExpireClaim at 2 3. case_match; [done|]. unfold ExpireClaim. by rewrite H0. Qed.
Lemma expired_idemp s : expired (expired s) = expired s.
Proof.
  unfold expired. simpl. f_equal. rewrite <- list_fmap_compose. apply list_fmap_ext.
  intros i c _. apply ExpireClaim_idemp.
Qed.

Definition refreshed (s : NetworkService) : NetworkService := state_of (UpdateNetworkDevices s).
Lemma UpdateNetworkDevices_run s : UpdateNetworkDevices s = (refreshed s, [], Ok tt).
Proof. done. Qed.

(** The devices of the table after [UpdateNetworkDevices]: only the flag and the delay differ. *)
Lemma refreshed_lookup s i d' :
  network_devices_ (refreshed s) !! i = Some d' <->
  exists d, network_devices_ s !! i = Some d /\
    d' = d <| is_lowest_id_on_network_ := bool_decide (i = LowestIdOnNetwork s) |>
           <| staggered_message_delay_ :=
                CalculateStaggeredMessageTimeOffset (GetAllDeviceIds (state_of (UpdateLowestIdOnNetwork s))) i |>.
Proof.
  unfold refreshed, UpdateNetworkDevices. simpl. rewrite !map_lookup_imap.
  destruct (network_devices_ s !! i) as [d|]; simpl; split.
  - intros [= <-]. by exists d.
  - by intros (? & [= <-] & ->).
  - done.
  - by intros (? & ? & ?).
Qed.
Lemma refreshed_dom s : dom (network_devices_ (refreshed s)) = dom (network_devices_ s).
Proof.
  apply set_eq. intros i. rewrite !elem_of_dom. split; intros [d Hd].
  - apply refreshed_lookup in Hd as (? & ? & _). by eexists.
  - eexists. apply refreshed_lookup. eauto.
Qed.

Definition stored (claim : CdmpIdClaimRequestMessage) (s : NetworkService) : NetworkService :=
  state_of (StorePendingIdClaim env claim s).
Lemma StorePendingIdClaim_run claim s : StorePendingIdClaim env claim s = (stored claim s, [], Ok tt).
Proof.
  unfold stored, StorePendingIdClaim. rewrite bind_modify. cbv beta.
  erewrite bind_ok by apply FindPendingIdClaim_run. rewrite prepend_nil.
  destruct (claim_slot _ _) as [i|].
  - rewrite !bind_ret. done.
  - erewrite bind_ok by apply FindPendingIdClaim_run. rewrite prepend_nil.
    destruct (claim_slot _ _) as [i|]; [by rewrite bind_ret|by rewrite bind_gets].
Qed.
End runs.

(** ** The invariant of the service *)

(** What the table says of another unit. *)
Definition peer_ok (id : Z) (d : CdmpDevice) : Prop :=
  1 <= id <= 254 /\ device_id_ d = id /\ uid_ d <> 0 /\ GetStatus d = ONLINE.

(** At most one pending claim per device ID. *)
Definition claims_unique (l : list PendingIdClaim) : Prop :=
  forall i j c c', l !! i = Some c -> l !! j = Some c' ->
    pc_device_id c = pc_device_id c' -> pc_device_id c <> DEVICE_ID_UNASSIGNED -> i = j.

Record net_wf (s : NetworkService) : Prop := mkNetWf {
  nw_table : map_Forall peer_ok (network_devices_ s);
  nw_slots : length (pending_id_claims_ s) = PENDING_ID_CLAIMS_MAX;
  nw_unique : claims_unique (pending_id_claims_ s);
  nw_discovery : (discovery_attempt_ s <= length RETRY_BACKOFFS_MS)%nat;
  nw_resets : 0 <= discovery_backoff_resets_ s <= DISCOVERY_MAX_BACKOFF_RESETS;
  nw_claiming : 0 <= claiming_device_id_ s < DEVICE_ID_BROADCAST;
  nw_attempt : 0 <= id_claim_attempt_ s <= ID_CLAIM_MAX_ATTEMPTS;
}.

Lemma claims_unique_fmap f l :
  (forall c, f c = c \/ f c = FreeClaim) -> claims_unique l -> claims_unique (f <$> l).
Proof.
  intros Hf Hu i j c c' Hi Hj. rewrite list_lookup_fmap in Hi, Hj.
  apply fmap_Some in Hi as (c1 & Hi & ->). apply fmap_Some in Hj as (c2 & Hj & ->).
  destruct (Hf c1) as [-> | ->]; [|done]. destruct (Hf c2) as [-> | ->]; [by eapply Hu|done].
Qed.

Lemma claims_unique_insert i c l :
  (forall j c', l !! j = Some c' -> pc_device_id c' = pc_device_id c ->
     pc_device_id c = DEVICE_ID_UNASSIGNED \/ j = i) ->
  claims_unique l -> claims_unique (<[i := c]> l).
Proof.
  intros Hc Hu j k c1 c2 Hj Hk He Hn.
  apply list_lookup_insert_Some in Hj as [(-> & <- & _)|[Hij Hj]];
  apply list_lookup_insert_Some in Hk as [(-> & <- & _)|[Hik Hk]]; [done| | |by eapply Hu].
  - by destruct (Hc _ _ Hk) as [|].
  - destruct (Hc _ _ Hj He) as [|]; [congruence|done].
Qed.

Lemma ExpireClaim_cases env c : ExpireClaim env c = c \/ ExpireClaim env c = FreeClaim.
Proof. unfold ExpireClaim. case_match; auto. Qed.

Lemma claim_slot_None id s :
  claim_slot id s = None <-> forall c, c ∈ pending_id_claims_ s -> pc_device_id c <> id.
Proof. unfold claim_slot. rewrite find_index_None. by setoid_rewrite bool_decide_eq_false. Qed.

Lemma claim_slot_Some id s i :
  claim_slot id s = Some i -> exists c, pending_id_claims_ s !! i = Some c /\ pc_device_id c = id.
Proof.
  intros (c & Hc & Hid)%find_index_Some%proj1. exists c. by rewrite bool_decide_eq_true in Hid.
Qed.

(** The state functions a modification of one field keeps. *)
Section wf_updates.
Context `{UnorderedIter} (env : Env).
Implicit Types (s : NetworkService).

Lemma wf_table m s : map_Forall peer_ok m -> net_wf s -> net_wf (s <| network_devices_ := m |>).
Proof. intros Hm []. by split. Qed.
Lemma wf_claims l s :
  length l = PENDING_ID_CLAIMS_MAX -> claims_unique l -> net_wf s -> net_wf (s <| pending_id_claims_ := l |>).
Proof. intros Hl Hu []. by split. Qed.
Lemma wf_device d s : net_wf s -> net_wf (s <| device_ := d |>).
Proof. intros []. by split. Qed.

Lemma wf_expired s : net_wf s -> net_wf (expired env s).
Proof.
  intros Hs. apply (wf_claims (ExpireClaim env <$> pending_id_claims_ s)); [| |done].
  - rewrite length_fmap. apply Hs.
  - apply claims_unique_fmap; [apply ExpireClaim_cases|apply Hs].
Qed.

Lemma wf_refreshed s : net_wf s -> net_wf (refreshed s).
Proof.
  intros Hs. split; try apply Hs.
  intros i d Hd. apply refreshed_lookup in Hd as (d0 & Hd0 & ->). by apply (nw_table _ Hs) in Hd0.
Qed.

Lemma wf_ClearClaim i s : net_wf s -> net_wf (s <| pending_id_claims_ ::= <[i := FreeClaim]> |>).
Proof.
  intros Hs. apply (wf_claims (<[i := FreeClaim]> (pending_id_claims_ s))); [| |done].
  - rewrite length_insert. apply Hs.
  - apply claims_unique_insert; [by left|apply Hs].
Qed.

Lemma wf_put_claim i c s :
  (forall j c', pending_id_claims_ s !! j = Some c' -> pc_device_id c' = pc_device_id c ->
     pc_device_id c = DEVICE_ID_UNASSIGNED \/ j = i) ->
  net_wf s -> net_wf (s <| pending_id_claims_ ::= <[i := c]> |>).
Proof.
  intros Hc Hs. apply (wf_claims (<[i := c]> (pending_id_claims_ s))); [| |done].
  - rewrite length_insert. apply Hs.
  - apply claims_unique_insert; [done|apply Hs].
Qed.

Lemma wf_stored claim s : net_wf s -> net_wf (stored env claim s).
Proof.
  intros Hs. unfold stored, StorePendingIdClaim. rewrite bind_modify. cbv beta.
  set (s1 := upd pending_id_claims_ _ s).
  assert (net_wf s1) as H1.
  { apply (wf_claims _ s); [by rewrite length_fmap; apply Hs| |done].
    apply claims_unique_fmap; [|apply Hs]. intros c. case_match; auto. }
  clearbody s1. clear s Hs. pose proof (wf_expired _ H1) as H2.
  erewrite bind_ok by apply FindPendingIdClaim_run. rewrite prepend_nil.
  destruct (claim_slot _ _) as [i|] eqn:Ei.
  - rewrite !bind_ret. apply wf_put_claim; [|done]. simpl. intros j c' Hj Hid.
    apply claim_slot_Some in Ei as (c & Hi & Hc).
    destruct (decide (claim_device_id claim = DEVICE_ID_UNASSIGNED)) as [E|E]; [by left|right].
    eapply (nw_unique _ H2); [done|done|congruence|congruence].
  - rewrite claim_slot_None in Ei.
    assert (forall i, net_wf (expired env s1 <| pending_id_claims_ ::=
      <[i := mkClaim (claim_device_id claim) (claim_uid claim) (env_now env)]> |>)) as Hput.
    { intros i. apply wf_put_claim; [|done]. intros j c' Hj Hid.
      exfalso. eapply Ei; [by eapply list_elem_of_lookup_2|done]. }
    erewrite bind_ok by apply FindPendingIdClaim_run. rewrite prepend_nil, expired_idemp.
    destruct (claim_slot _ _) as [i|]; [rewrite bind_ret|rewrite bind_gets]; apply Hput.
Qed.
End wf_updates.

(** ** The table *)

Section table.
Context `{UnorderedIter} (env : Env).
Implicit Types (s : NetworkService) (d : CdmpDevice).

(** A known device on a heartbeat or a discovery response. *)
Definition touched (features : Z) (d : CdmpDevice) : CdmpDevice :=
  (GoOnline true (UpdateHeartbeat (env_now env) d)).1 <| features_ := features |>.
(** A new one. *)
Definition joined_device (id uid features : Z) : CdmpDevice :=
  mkDevice id uid GetCurrentProtocolVersion HEALTH_OK features (env_now env) 0 false 0 0
    (NewStatusMachine ONLINE).

Lemma touched_fields f d :
  device_id_ (touched f d) = device_id_ d /\ uid_ (touched f d) = uid_ d /\
  GetStatus (touched f d) = ONLINE /\ features_ (touched f d) = f /\ last_heartbeat_ (touched f d) = env_now env.
Proof.
  unfold touched, GoOnline, DeviceSetStatus, GetStatus, UpdateHeartbeat, SetStatus. simpl.
  case_bool_decide as E; simpl; done.
Qed.

Lemma AddOrUpdateDevice_known id uid f s d :
  network_devices_ s !! id = Some d ->
  AddOrUpdateDevice env id uid f s = (s <| network_devices_ ::= <[id := touched f d]> |>, [], Ok false).
Proof. intros E. unfold AddOrUpdateDevice. rewrite bind_get, E. done. Qed.

Lemma AddOrUpdateDevice_new id uid f s :
  network_devices_ s !! id = None -> uid <> 0 ->
  AddOrUpdateDevice env id uid f s =
    (refreshed (s <| network_devices_ ::= <[id := joined_device id uid f]> |>), [], Ok true).
Proof.
  intros E Hu. unfold AddOrUpdateDevice. rewrite bind_get, E.
  unfold NewDevice. rewrite bool_decide_eq_false_2 by done. rewrite bind_lift_ok. done.
Qed.

Lemma AddOrUpdateDevice_zero id f s :
  network_devices_ s !! id = None ->
  AddOrUpdateDevice env id 0 f s =
    (s, [], Throw (InvalidArgument "Unique identifier must be non-zero")).
Proof. intros E. unfold AddOrUpdateDevice. rewrite bind_get, E. done. Qed.

Lemma RemoveDevice_absent id s : network_devices_ s !! id = None -> RemoveDevice id s = (s, [], Ok tt).
Proof. intros E. unfold RemoveDevice. by rewrite bind_get, E. Qed.
Lemma RemoveDevice_present id s d :
  network_devices_ s !! id = Some d ->
  RemoveDevice id s =
    (refreshed (s <| network_devices_ ::= delete id |>), [NotifyDeviceEvent LEFT (ToDeviceInfo d)], Ok tt).
Proof. intros E. unfold RemoveDevice. by rewrite bind_get, E. Qed.

Lemma AddOrUpdateDevice_wf id uid f : 1 <= id <= 254 -> preserves net_wf (AddOrUpdateDevice env id uid f).
Proof.
  intros Hid s Hs. destruct (network_devices_ s !! id) as [d|] eqn:E.
  - erewrite AddOrUpdateDevice_known by done.
    apply (wf_table (<[id := touched f d]> (network_devices_ s))); [|done].
    apply map_Forall_insert_2; [|apply Hs]. apply (nw_table _ Hs) in E.
    unfold peer_ok in *. destruct (touched_fields f d) as (-> & -> & -> & _). by destruct E as (_ & ? & ? & _).
  - destruct (decide (uid = 0)) as [->|Hu]; [by rewrite AddOrUpdateDevice_zero|].
    rewrite AddOrUpdateDevice_new by done. apply wf_refreshed.
    apply (wf_table (<[id := joined_device id uid f]> (network_devices_ s))); [|done].
    apply map_Forall_insert_2; [done|apply Hs].
Qed.

Lemma RemoveDevice_wf id : preserves net_wf (RemoveDevice id).
Proof.
  intros s Hs. destruct (network_devices_ s !! id) as [d|] eqn:E.
  - erewrite RemoveDevice_present by done. apply wf_refreshed.
    apply (wf_table (delete id (network_devices_ s))); [|done]. apply map_Forall_delete, Hs.
  - by rewrite RemoveDevice_absent.
Qed.

Lemma ClearAllDevices_wf : preserves net_wf ClearAllDevices.
Proof.
  intros s []. split; try done; simpl.
  - by rewrite length_fmap.
  - apply claims_unique_fmap; auto.
Qed.

Lemma UpdateNetworkDevices_wf : preserves net_wf UpdateNetworkDevices.
Proof. intros s Hs. by apply wf_refreshed. Qed.
Lemma FindPendingIdClaim_wf id : preserves net_wf (FindPendingIdClaim env id).
Proof. intros s Hs. by apply wf_expired. Qed.
Lemma StorePendingIdClaim_wf claim : preserves net_wf (StorePendingIdClaim env claim).
Proof. intros s Hs. by apply wf_stored. Qed.
Lemma ClearClaim_wf i : preserves net_wf (ClearClaim i).
Proof. intros s Hs. by apply wf_ClearClaim. Qed.
Lemma OwnDevice_wf op : preserves net_wf (OwnDevice op).
Proof.
  intros s Hs. unfold OwnDevice. rewrite bind_get. destruct (op (device_ s)) as [d calls].
  by apply wf_device.
Qed.
End table.

#[export] Hint Resolve AddOrUpdateDevice_wf RemoveDevice_wf ClearAllDevices_wf UpdateNetworkDevices_wf
  FindPendingIdClaim_wf StorePendingIdClaim_wf ClearClaim_wf OwnDevice_wf : preserves.

(** ** The handlers *)

Ltac next_bytes f :=
  repeat match goal with
  | |- context [f !! ?i] => destruct (f !! i) as [?b|] eqn:?; simpl; [|done]
  end.

Lemma DiscoveryResponse_id_u8 f m :
  Forall is_u8 f -> DiscoveryResponse_FromCanFrame f = Ok m -> is_u8 (dresp_device_id m).
Proof.
  unfold DiscoveryResponse_FromCanFrame. intros Hf. case_bool_decide; [done|].
  unfold rd. destruct (f !! 0%nat); simpl; [|done]. case_match; [done|]. next_bytes f.
  intros [= <-]. simpl. by eapply lookup_u8.
Qed.

Lemma IdClaimRequest_id_u8 f m :
  Forall is_u8 f -> IdClaimRequest_FromCanFrame f = Ok m -> is_u8 (claim_device_id m).
Proof.
  unfold IdClaimRequest_FromCanFrame. intros Hf.
  unfold rd. destruct (f !! 0%nat); simpl; [|done]. case_match; [done|]. next_bytes f.
  intros [= <-]. simpl. by eapply lookup_u8.
Qed.

(** Takes the rest of a handler as one [preserves] goal. *)
Ltac preserve_rest :=
  lazymatch goal with
  | Hs : ?I ?s |- ?I (state_of (?m ?s)) =>
      let Hp := fresh in enough (preserves I m) as Hp by exact (Hp s Hs); preserve
  end.

Section handlers.
Context `{UnorderedIter} (env : Env).
Implicit Types (s : NetworkService).

Lemma IsPeerDeviceId_range s id : is_u8 id -> IsPeerDeviceId s id = true -> 1 <= id <= 254.
Proof.
  unfold IsPeerDeviceId, is_u8, DEVICE_ID_UNASSIGNED, DEVICE_ID_BROADCAST.
  rewrite !andb_true_iff, !negb_true_iff, !bool_decide_eq_false. lia.
Qed.

Lemma DeviceInfoAt_wf id : preserves net_wf (DeviceInfoAt id).
Proof.
  intros s Hs. unfold DeviceInfoAt. rewrite bind_get. by case_match.
Qed.
#[local] Hint Resolve DeviceInfoAt_wf : preserves.

Lemma FindDeviceIdByUid_wf uid : preserves net_wf (FindDeviceIdByUid uid).
Proof. by intros s. Qed.
#[local] Hint Resolve FindDeviceIdByUid_wf : preserves.

Lemma RunWork_wf w : preserves net_wf (RunWork w).
Proof. by intros s. Qed.
#[local] Hint Resolve RunWork_wf : preserves.

Lemma UpdateDeviceFromDiscovery_wf m :
  is_u8 (dresp_device_id m) -> preserves net_wf (UpdateDeviceFromDiscovery env m).
Proof.
  intros Hid s Hs. unfold UpdateDeviceFromDiscovery. rewrite bind_get.
  destruct (IsPeerDeviceId s _) eqn:Hp; simpl; [|done].
  apply IsPeerDeviceId_range in Hp; [|done]. preserve_rest.
Qed.

Lemma SendDiscoveryRequest_wf : preserves net_wf (SendDiscoveryRequest env).
Proof. intros s Hs. unfold SendDiscoveryRequest. rewrite bind_get. preserve_rest. Qed.
#[local] Hint Resolve SendDiscoveryRequest_wf : preserves.

Lemma RequestRediscovery_wf : preserves net_wf (RequestRediscovery env).
Proof.
  intros s Hs. unfold RequestRediscovery. rewrite bind_get.
  case_match; [done|]. destruct (match rediscovery_requested_at_ms_ s with Some _ => _ | None => _ end); [done|].
  preserve_rest. by destruct H1.
Qed.
#[local] Hint Resolve RequestRediscovery_wf : preserves.

Lemma UpdateDeviceFromHeartbeat_wf hb :
  is_u8 (hb_device_id hb) -> preserves net_wf (UpdateDeviceFromHeartbeat env hb).
Proof.
  intros Hid s Hs. unfold UpdateDeviceFromHeartbeat. rewrite bind_get.
  destruct (IsPeerDeviceId s _) eqn:Hp; simpl; [|done].
  apply IsPeerDeviceId_range in Hp; [|done].
  erewrite bind_ok by apply FindPendingIdClaim_run. rewrite prepend_nil, bind_get.
  apply (wf_expired env) in Hs. case_match; [case_match|]; [preserve_rest|].
  case_match; preserve_rest.
Qed.

Lemma RecordIdClaim_wf c : is_u8 (claim_device_id c) -> preserves net_wf (RecordIdClaim env c).
Proof.
  intros Hid s Hs. unfold RecordIdClaim. rewrite bind_get.
  destruct (_ || _) eqn:Hg; [done|]. destruct (network_devices_ s !! _) as [d|] eqn:Hd; [|preserve_rest].
  case_match; [done|].
  erewrite bind_ok by apply FindPendingIdClaim_run. rewrite prepend_nil, bind_get, bind_modify.
  assert (net_wf (expired env s <| network_devices_ ::=
            <[claim_device_id c := UpdateHeartbeat (env_now env) d]> |>)) as Hs'.
  { apply (wf_table (<[claim_device_id c := UpdateHeartbeat (env_now env) d]> (network_devices_ s)) (expired env s));
      [|by apply wf_expired].
    apply map_Forall_insert_2; [|apply Hs]. by apply (nw_table _ Hs) in Hd. }
  clear Hs. preserve_rest.
Qed.

Lemma ProcessDiscoveryRequestFrame_wf f : preserves net_wf (ProcessDiscoveryRequestFrame f).
Proof.
  unfold ProcessDiscoveryRequestFrame. apply preserves_try. intros s Hs.
  destruct (DiscoveryRequest_FromCanFrame f); [|done|done]. rewrite bind_lift_ok, bind_get.
  preserve_rest. by destruct H1.
Qed.

Lemma ProcessDiscoveryResponseFrame_wf f :
  Forall is_u8 f -> preserves net_wf (ProcessDiscoveryResponseFrame env f).
Proof.
  intros Hf. unfold ProcessDiscoveryResponseFrame. apply preserves_try. intros s Hs.
  destruct (DiscoveryResponse_FromCanFrame f) as [m| |] eqn:Em; [|done|done].
  apply DiscoveryResponse_id_u8 in Em; [|done]. rewrite bind_lift_ok, bind_modify, bind_get.
  assert (net_wf (s <| discovery_response_received_ := true |>)) as Hs' by by destruct Hs.
  case_match; [by apply OwnDevice_wf|by apply UpdateDeviceFromDiscovery_wf].
Qed.

Lemma ProcessIdClaimRequestFrame_wf f :
  Forall is_u8 f -> preserves net_wf (ProcessIdClaimRequestFrame env f).
Proof.
  intros Hf. unfold ProcessIdClaimRequestFrame. apply preserves_try. intros s Hs.
  destruct (IdClaimRequest_FromCanFrame f) as [c| |] eqn:Ec; [|done|done].
  apply IdClaimRequest_id_u8 in Ec; [|done]. rewrite bind_lift_ok. revert s Hs.
  apply preserves_bind; [by apply RecordIdClaim_wf|]. intros _ s Hs. rewrite bind_get.
  case_match; [done|]. by case_match.
Qed.

Lemma ProcessIdClaimResponseFrame_wf f : preserves net_wf (ProcessIdClaimResponseFrame f).
Proof.
  unfold ProcessIdClaimResponseFrame. apply preserves_try. intros s Hs.
  destruct (IdClaimResponse_FromCanFrame f); [|done|done]. rewrite bind_lift_ok, bind_get.
  case_match; [done|]. case_match; [done|]. preserve_rest. by destruct H3.
Qed.

Lemma ProcessFrame_wf f : Forall is_u8 f -> preserves net_wf (ProcessFrame env f).
Proof.
  intros Hf. unfold ProcessFrame.
  apply preserves_bind; [apply preserves_lift|]. intros t.
  case_match; [apply ProcessDiscoveryRequestFrame_wf|].
  case_match; [by apply ProcessDiscoveryResponseFrame_wf|].
  case_match; [by apply ProcessIdClaimRequestFrame_wf|].
  case_match; [apply ProcessIdClaimResponseFrame_wf|apply preserves_ret].
Qed.
End handlers.

(** ** Sequences of operations *)

(** Every way into the service: a frame, a queued closure, a heartbeat that the heartbeat service
    decoded, a task step, a life-cycle or status call, the public methods, and a change that another
    service makes to the shared device. *)
Inductive NetOp :=
| OpFrame (frame : list Z)
| OpQueued (session : Z) (work : NetworkWork)
| OpHeartbeat (heartbeat : CdmpHeartbeatMessage)
| OpDiscoveryTask
| OpClaimTask
| OpValidationTask
| OpInitialize
| OpStart (register : CanFilter -> Z)
| OpStop
| OpStatus (status : CdmpDeviceStatus)
| OpRemove (device_id : Z)
| OpClear
| OpAutoDiscovery (enabled : bool)
| OpDevice (change : CdmpDevice -> CdmpDevice).

(** What arrives from the wire is bytes. *)
Definition op_wf (op : NetOp) : Prop :=
  match op with
  | OpFrame frame | OpQueued _ (WorkProcessFrame frame) => Forall is_u8 frame
  | OpHeartbeat hb => is_u8 (hb_device_id hb)
  | _ => True
  end.
#[export] Instance op_wf_dec op : Decision (op_wf op).
Proof. destruct op as [| ? []| | | | | | | | | | | |]; simpl; apply _. Defined.

Section ops.
Context `{UnorderedIter}.

Definition run_op (env : Env) (op : NetOp) : NM unit :=
  match op with
  | OpFrame frame => ProcessFrame env frame
  | OpQueued session work => RunQueuedWork env session work
  | OpHeartbeat hb => UpdateDeviceFromHeartbeat env hb
  | OpDiscoveryTask => RunDiscoveryAttempt env ;; mret tt
  | OpClaimTask => RunIdClaimAttempt env ;; mret tt
  | OpValidationTask => ProcessPeriodicValidation env ;; mret tt
  | OpInitialize => Initialize (NetworkWorkOf env (fun _ => 0)) ;; mret tt
  | OpStart register => NetworkStart env register ;; mret tt
  | OpStop => NetworkStop env ;; mret tt
  | OpStatus status => NetworkOnDeviceStatusChanged env status
  | OpRemove device_id => RemoveDevice device_id
  | OpClear => ClearAllDevices
  | OpAutoDiscovery enabled => SetAutoDiscovery enabled
  | OpDevice change => modify (fun s => s <| device_ ::= change |>)
  end.

(** A run: each operation in the environment of its moment; an exception or an undefined read ends
    that operation only.  The effects are those of the whole run. *)
Fixpoint run_ops (l : list (Env * NetOp)) (s : NetworkService) : NetworkService * list Effect :=
  match l with
  | [] => (s, [])
  | (env, op) :: l =>
      let o := run_op env op s in
      let (s', e) := run_ops l (state_of o) in (s', effects_of o ++ e)
  end.

Lemma run_ops_ind (P : NetworkService -> Prop) (Q : NetOp -> Prop) l s :
  (forall env op s, Q op -> P s -> P (state_of (run_op env op s))) ->
  Forall (fun p => Q p.2) l -> P s -> P (run_ops l s).1.
Proof.
  intros Hstep. revert s. induction l as [|[env op] l IH]; intros s Hl Hs; [done|].
  apply Forall_cons in Hl as [Hop Hl]. simpl.
  specialize (IH (state_of (run_op env op s)) Hl (Hstep env op s Hop Hs)).
  by destruct (run_ops l _).
Qed.
End ops.

(** *** The tasks and the life cycle keep the invariant *)

Section tasks.
Context `{UnorderedIter} (env : Env).
Implicit Types (s : NetworkService).

Lemma StartInitialization_wf : preserves net_wf StartInitialization.
Proof.
  intros s Hs. unfold StartInitialization. rewrite bind_modify, bind_get, state_of_when_emit.
  apply mkNetWf; try apply Hs; simpl; unfold DISCOVERY_MAX_BACKOFF_RESETS; lia.
Qed.
Lemma StartIdClaim_wf : preserves net_wf StartIdClaim.
Proof.
  intros s Hs. unfold StartIdClaim. rewrite bind_modify, bind_get, state_of_when_emit.
  apply mkNetWf; try apply Hs; simpl;
    unfold DEVICE_ID_BROADCAST, ID_CLAIM_MAX_ATTEMPTS, DEVICE_ID_UNASSIGNED; lia.
Qed.
Lemma SendDiscoveryResponse_wf : preserves net_wf (SendDiscoveryResponse env).
Proof. intros s Hs. unfold SendDiscoveryResponse. rewrite bind_get. preserve_rest. Qed.
Lemma StartValidationTask_wf : preserves net_wf StartValidationTask.
Proof. intros s Hs. unfold StartValidationTask. rewrite bind_get. preserve_rest. by destruct H1. Qed.
#[local] Hint Resolve StartValidationTask_wf : preserves.

(** A discovery step in one equation: the backoff starts again while a lower UID discovers too. *)
Definition backed_off (s : NetworkService) : NetworkService :=
  if negb (bool_decide (discovery_attempt_ s = O)) && lower_uid_discovering_ s
     && bool_decide (discovery_backoff_resets_ s < DISCOVERY_MAX_BACKOFF_RESETS)
  then s <| discovery_backoff_resets_ ::= fun n => n + 1 |> <| discovery_attempt_ := O |>
  else s.
Definition requested (s : NetworkService) : NetworkService :=
  s <| discovery_attempt_ ::= S |> <| lower_uid_discovering_ := false |>.

Lemma backed_off_wf s : net_wf s -> net_wf (backed_off s).
Proof.
  intros Hs. unfold backed_off. destruct (_ && _) eqn:E; [|done].
  rewrite !andb_true_iff, !bool_decide_eq_true in E. pose proof (nw_resets _ Hs).
  apply mkNetWf; try apply Hs; simpl; lia.
Qed.

Lemma RETRY_BACKOFFS_MS_lookup n :
  (n < length RETRY_BACKOFFS_MS)%nat -> exists b, RETRY_BACKOFFS_MS !! n = Some b.
Proof. apply lookup_lt_is_Some_2. Qed.

Lemma RunDiscoveryAttempt_done s :
  GetStatus (device_ s) = INIT -> discovery_attempt_ s <> O -> discovery_response_received_ s = true ->
  RunDiscoveryAttempt env s = (OwnDevice ClaimId ;; mret None) s.
Proof.
  intros Hst Ha Hr. unfold RunDiscoveryAttempt. rewrite bind_get, Hst, Hr.
  by rewrite (bool_decide_eq_false_2 (_ = O)) by done.
Qed.

Lemma RunDiscoveryAttempt_asks s :
  net_wf s -> GetStatus (device_ s) = INIT ->
  (discovery_attempt_ s = O \/ discovery_response_received_ s = false) ->
  (discovery_attempt_ (backed_off s) = length RETRY_BACKOFFS_MS /\
     RunDiscoveryAttempt env s = (OwnDevice ClaimId ;; mret None) (backed_off s)) \/
  (exists b, RETRY_BACKOFFS_MS !! discovery_attempt_ (backed_off s) = Some b /\
     RunDiscoveryAttempt env s =
       (requested (backed_off s), effects_of (SendDiscoveryRequest env (requested (backed_off s))), Ok (Some b))).
Proof.
  intros Hs Hst Hr. unfold RunDiscoveryAttempt. rewrite bind_get, Hst.
  rewrite bool_decide_eq_true_2 by done. cbn [negb].
  replace (negb _ && _) with false
    by (destruct Hr as [-> | ->]; rewrite ?andb_false_r; done).
  rewrite bind_when_modify, bind_get. fold (backed_off s). apply backed_off_wf in Hs.
  case_bool_decide as Ha; [by left|right].
  destruct (RETRY_BACKOFFS_MS_lookup (discovery_attempt_ (backed_off s))) as [b Hb].
  { pose proof (nw_discovery _ Hs). lia. }
  exists b. split; [done|]. rewrite Hb, bind_modify. fold (requested (backed_off s)).
  unfold SendDiscoveryRequest. rewrite bind_assoc, !bind_get. by destruct (env_bus_valid env).
Qed.

Lemma RunDiscoveryAttempt_wf : preserves net_wf (RunDiscoveryAttempt env).
Proof.
  intros s Hs. destruct (decide (GetStatus (device_ s) = INIT)) as [Hst|Hst].
  2: { unfold RunDiscoveryAttempt. rewrite bind_get. by rewrite bool_decide_eq_false_2. }
  destruct (decide (discovery_attempt_ s = O \/ discovery_response_received_ s = false)) as [Hr|Hr].
  - destruct (RunDiscoveryAttempt_asks s Hs Hst Hr) as [[_ ->]|(b & Hb & ->)];
      apply backed_off_wf in Hs; [preserve_rest|].
    apply lookup_lt_Some in Hb. apply mkNetWf; try apply Hs; unfold requested; simpl in *; lia.
  - apply Decidable.not_or in Hr as [Ha Hr]. rewrite RunDiscoveryAttempt_done; [preserve_rest|done..|].
    by destruct (discovery_response_received_ s).
Qed.

(** *** The ID to claim *)

(** Neither in the table nor held by a claim that has not expired. *)
Definition id_free (s : NetworkService) (id : Z) : Prop :=
  network_devices_ s !! id = None /\ claim_slot id (expired env s) = None.

Lemma id_free_expired s id : id_free (expired env s) id <-> id_free s id.
Proof. unfold id_free. by rewrite expired_idemp. Qed.

(** The outcome of a scan from [i]: the lowest free ID, or the exception when there is none.  The
    scan changes nothing but the claims that it finds expired. *)
Definition scan_result (s : NetworkService) (i : Z) (o : NetworkService * list Effect * res Z) : Prop :=
  exists s', (s' = s \/ s' = expired env s) /\
    ((exists j, o = (s', [], Ok j) /\ i <= j < DEVICE_ID_BROADCAST /\ id_free s j /\
        forall k, i <= k < j -> ~ id_free s k) \/
     (o = (s', [], Throw (RuntimeError "No available device ID found")) /\
        forall k, i <= k < DEVICE_ID_BROADCAST -> ~ id_free s k)).

Lemma scan_expired s i o : scan_result (expired env s) i o -> scan_result s i o.
Proof.
  intros (s' & Hs' & Ho). exists s'. split.
  { rewrite expired_idemp in Hs'. destruct Hs'; by right. }
  setoid_rewrite id_free_expired in Ho. done.
Qed.

Lemma scan_next s i o : ~ id_free s i -> scan_result s (i + 1) o -> scan_result s i o.
Proof.
  intros Hi (s' & Hs' & Ho). exists s'. split; [done|].
  assert (forall n, (forall k, i + 1 <= k < n -> ~ id_free s k) -> forall k, i <= k < n -> ~ id_free s k) as Hk.
  { intros n Hn k Hk. destruct (decide (k = i)) as [->|]; [done|]. apply Hn. lia. }
  destruct Ho as [(j & -> & Hj & Hf & Hmin)|[-> Hmin]]; [left; exists j|right]; split_and!; try done; try (by apply Hk); lia.
Qed.

Lemma LowestAvailableFrom_spec fuel i s :
  0 <= i <= 255 -> 255 - i < Z.of_nat fuel -> scan_result s i (LowestAvailableFrom env fuel i s).
Proof.
  revert i s. induction fuel as [|fuel IH]; intros i s Hi Hf; [lia|]. cbn [LowestAvailableFrom].
  case_bool_decide as Hb; cbn [negb]; unfold DEVICE_ID_BROADCAST in Hb.
  2: { exists s. split; [by left|right]. split; [done|]. unfold DEVICE_ID_BROADCAST. lia. }
  rewrite bind_get. rewrite u8_id by (unfold is_u8; lia).
  case_bool_decide as Hd.
  { apply scan_next; [|apply IH; lia]. intros [Hn _]. rewrite Hn in Hd. by destruct Hd. }
  apply eq_None_not_Some in Hd.
  erewrite bind_ok by apply FindPendingIdClaim_run. rewrite prepend_nil.
  case_bool_decide as Hc.
  - exists (expired env s). split; [by right|left]. exists i. split_and!; try done; lia.
  - apply scan_next; [by intros [_ ?]|]. apply scan_expired, IH; lia.
Qed.

(** *** A step of the ID claim *)

Definition claim_sent (s : NetworkService) : NetworkService :=
  s <| id_claim_attempt_ ::= fun n => n + 1 |>.
Definition claim_frame (s : NetworkService) : Effect :=
  SendFrame (GetManagementCanId (base_can_id_ s))
    (IdClaimRequest_ToCanFrame
       (mkIdClaimRequest (claiming_device_id_ s) (uid_ (device_ s)) (protocol_version_ (device_ s)))).
Lemma SendNextClaim_run s :
  SendNextClaim s = (claim_sent s, [claim_frame s], Ok (Some ID_CLAIM_RESPONSE_TIMEOUT_MS)).
Proof. done. Qed.

Definition claiming_next (i : Z) (s : NetworkService) : NetworkService :=
  s <| claiming_device_id_ := i |> <| id_claim_attempt_ := 0 |> <| id_claim_result_ := None |>.

(** The selected ID is the lowest free one above the last claimed; with none left the unit is to
    enter ERROR. *)
Lemma SelectNextId_spec s :
  net_wf s ->
  exists s', (s' = s \/ s' = expired env s) /\
    ((exists j, SelectNextId env s = (claiming_next j s', [], Ok true) /\
        claiming_device_id_ s < j < DEVICE_ID_BROADCAST /\ id_free s j /\
        forall k, claiming_device_id_ s < k < j -> ~ id_free s k) \/
     (SelectNextId env s =
        (s' <| claiming_device_id_ := DEVICE_ID_UNASSIGNED |>, [RunInSession (session_ s) WorkEnterError], Ok false) /\
        forall k, claiming_device_id_ s < k < DEVICE_ID_BROADCAST -> ~ id_free s k)).
Proof.
  intros Hs. pose proof (nw_claiming _ Hs) as Hc. unfold DEVICE_ID_BROADCAST in Hc.
  assert (scan_result s (claiming_device_id_ s + 1) (GetLowestAvailableId env (claiming_device_id_ s) s))
    as (s' & Hs' & Ho).
  { unfold GetLowestAvailableId. rewrite u8_id by (unfold is_u8; lia). apply LowestAvailableFrom_spec; lia. }
  exists s'. split; [done|]. unfold SelectNextId.
  destruct Ho as [(j & -> & Hj & Hf & Hmin)|[-> Hmin]]; [left; exists j|right]; split_and!; try done; try lia.
  - intros k Hk. apply Hmin. lia.
  - by destruct Hs' as [-> | ->].
  - intros k Hk. apply Hmin. lia.
Qed.

Lemma wf_claiming_next j s : 0 <= j < DEVICE_ID_BROADCAST -> net_wf s -> net_wf (claiming_next j s).
Proof.
  intros Hj Hs. apply mkNetWf; try apply Hs; try done.
Qed.
Lemma wf_dropped s : net_wf s -> net_wf (s <| claiming_device_id_ := DEVICE_ID_UNASSIGNED |>).
Proof. intros Hs. apply mkNetWf; try apply Hs; done. Qed.
Lemma DropClaim_wf : preserves net_wf DropClaim.
Proof. intros s Hs. by apply wf_dropped. Qed.
#[local] Hint Resolve DropClaim_wf RunWork_wf : preserves.

Lemma CompleteIdClaim_wf : preserves net_wf CompleteIdClaim.
Proof.
  intros s Hs. unfold CompleteIdClaim. rewrite bind_modify.
  assert (net_wf (s <| device_ := (device_ s) <| device_id_ := claiming_device_id_ s |> |>
                    <| claiming_device_id_ := DEVICE_ID_UNASSIGNED |>)) as Hs' by by apply wf_dropped, wf_device.
  clear Hs. preserve_rest.
Qed.
#[local] Hint Resolve CompleteIdClaim_wf : preserves.

Lemma wf_claim_sent s : id_claim_attempt_ s < ID_CLAIM_MAX_ATTEMPTS -> net_wf s -> net_wf (claim_sent s).
Proof. intros Ha Hs. pose proof (nw_attempt _ Hs). apply mkNetWf; try apply Hs; simpl; lia. Qed.

Lemma wf_or_expired s s' : s' = s \/ s' = expired env s -> net_wf s -> net_wf s'.
Proof. intros [-> | ->]; [done|apply wf_expired]. Qed.

Lemma RunIdClaimAttempt_wf : preserves net_wf (RunIdClaimAttempt env).
Proof.
  intros s Hs. unfold RunIdClaimAttempt. rewrite bind_get.
  case_match; [preserve_rest|]. case_match; [preserve_rest|].
  case_match; [preserve_rest|]. case_match; [preserve_rest|].
  case_match.
  - destruct (SelectNextId_spec s Hs) as (s' & Hs' & [(j & Hj & Hr & _)|[Hj _]]);
      apply (wf_or_expired _ _ Hs') in Hs; erewrite bind_ok by exact Hj; simpl.
    + unfold DEVICE_ID_BROADCAST in Hr.
      apply wf_claim_sent; [done|]. apply wf_claiming_next; [|done].
      unfold DEVICE_ID_BROADCAST. destruct Hs' as [-> | ->]; pose proof (nw_claiming _ Hs); simpl in *; lia.
    + by apply wf_dropped.
  - destruct (bool_decide_reflect (id_claim_attempt_ s = ID_CLAIM_MAX_ATTEMPTS)) as [Ha|Ha];
      [preserve_rest|]. rewrite SendNextClaim_run.
    pose proof (nw_attempt _ Hs). apply wf_claim_sent; [lia|done].
Qed.

Lemma RemoveOfflineDevices_wf : preserves net_wf (RemoveOfflineDevices env).
Proof. unfold RemoveOfflineDevices. preserve. Qed.
#[local] Hint Resolve RemoveOfflineDevices_wf : preserves.
Lemma ProcessPeriodicValidation_wf : preserves net_wf (ProcessPeriodicValidation env).
Proof.
  intros s Hs. unfold ProcessPeriodicValidation, ProcessPeriodicTasks. rewrite bind_get.
  case_match; [done|]. preserve_rest.
Qed.

Lemma wf_service_state st s : net_wf s -> net_wf (s <| net_service_state_ := st |>).
Proof. intros []. by split. Qed.

Lemma NetworkDoStart_wf register : preserves net_wf (NetworkDoStart env register).
Proof.
  unfold NetworkDoStart, NetworkRegisterCanHandlers, RegisterReceiveHandler. preserve. by destruct H1.
Qed.
Lemma NetworkDoStop_wf : preserves net_wf (NetworkDoStop env).
Proof.
  unfold NetworkDoStop, NetworkUnregisterCanHandlers. preserve;
    match goal with Hs : net_wf _ |- _ => by destruct Hs end.
Qed.
Lemma Transition_wf register (work : NM bool) p n :
  preserves net_wf work -> preserves net_wf (Transition (NetworkWorkOf env register) work p n).
Proof.
  intros Hw s Hs. specialize (Hw s Hs). unfold Transition, state_of in *.
  destruct (work s) as [[s1 e1] [[]|x|]]; simpl in *; try apply wf_service_state; done.
Qed.
Lemma NetworkStart_wf register : preserves net_wf (NetworkStart env register).
Proof.
  intros s Hs. unfold NetworkStart, Start. rewrite bind_get. repeat (case_match; [done|]).
  unfold SetState. rewrite bind_modify. apply Transition_wf; [apply NetworkDoStart_wf|].
  by apply wf_service_state.
Qed.
Lemma NetworkStop_wf : preserves net_wf (NetworkStop env).
Proof.
  intros s Hs. unfold NetworkStop, Stop. rewrite bind_get. repeat (case_match; [done|]).
  unfold SetState. rewrite bind_modify. apply Transition_wf; [apply NetworkDoStop_wf|].
  by apply wf_service_state.
Qed.
End tasks.

#[export] Hint Resolve StartInitialization_wf StartIdClaim_wf SendDiscoveryResponse_wf StartValidationTask_wf
  RunDiscoveryAttempt_wf RunIdClaimAttempt_wf ProcessPeriodicValidation_wf NetworkStart_wf NetworkStop_wf
  RunWork_wf UpdateDeviceFromHeartbeat_wf ProcessFrame_wf : preserves.

Lemma run_op_wf `{UnorderedIter} env op : op_wf op -> preserves net_wf (run_op env op).
Proof.
  intros Hop. destruct op; simpl in *; try solve [preserve | auto with preserves].
  - unfold RunQueuedWork. intros s Hs. rewrite bind_get. destruct (negb _); [done|].
    destruct work; preserve_rest.
  - intros s Hs. unfold Initialize. rewrite bind_assoc, bind_get. cbn [sw_state NetworkWorkOf].
    destruct Hs. by case_bool_decide.
  - unfold NetworkOnDeviceStatusChanged. preserve.
  - intros s []. by split.
  - intros s Hs. by apply (wf_device (change (device_ s)) s).
Qed.

Lemma NewNetworkService_wf device base : net_wf (NewNetworkService device base).
Proof.
  apply mkNetWf; cbn [NewNetworkService network_devices_ pending_id_claims_ discovery_attempt_
    discovery_backoff_resets_ claiming_device_id_ id_claim_attempt_]; try solve [vm_compute; intuition (congruence || lia)].
  intros i j c c' Hi _ _ Hn. exfalso. apply Hn. by apply lookup_replicate in Hi as [-> _].
Qed.

(** C7. Whatever frames of bytes, closures, heartbeats, task steps, stops and starts reach a new service, and
    in whatever order and at whatever times: every entry of the device table has an ID from 1 to 254, its
    own, a UID other than 0 and the status ONLINE; there are always eight claim slots, no two of them for
    one ID; the discovery and claim counters stay in the ranges their arrays and loops assume. *)
Theorem network_table_invariant `{UnorderedIter} device base l :
  Forall (fun p => op_wf p.2) l -> net_wf (run_ops l (NewNetworkService device base)).1.
Proof.
  intros Hl. apply (run_ops_ind net_wf op_wf); [|done|apply NewNetworkService_wf].
  intros env op s Hop Hs. by apply run_op_wf.
Qed.

(** A unit of UID 7 hears a claim, the claimant's heartbeat and a discovery response. *)
Definition sample_device : CdmpDevice :=
  mkDevice 0 7 GetCurrentProtocolVersion HEALTH_OK 0 0 0 false 0 0 (NewStatusMachine INIT).
Definition sample_run : list (Env * NetOp) :=
  [(mkEnv 10 true, OpFrame (IdClaimRequest_ToCanFrame (mkIdClaimRequest 2 300 16)));
   (mkEnv 60 true, OpHeartbeat (mkHeartbeat 2 0 0 5 0));
   (mkEnv 90 true, OpFrame (DiscoveryResponse_ToCanFrame (mkDiscoveryResponse 9 77 1)))].

Lemma network_table_invariant_witness :
  net_wf (@run_ops some_iter sample_run (NewNetworkService sample_device 1792)).1.
Proof.
  apply (@network_table_invariant some_iter).
  repeat apply Forall_cons_2; [..|apply Forall_nil_2]; apply (bool_decide_eq_true_1 _); vm_compute; reflexivity.
Defined.
