(* ===== verification/CdmpNetworkEvents.v ===== *)
(** * CDMP network service: the device events tell the table

    A client that only hears JOINED, RESTARTED and LEFT knows the devices of the table. *)

From S2P Require Import Prelude Can Cdmp CdmpMessages CdmpEffects Service CdmpNetwork CdmpNetworkSpec.

(** What a client makes of the events: [None] when one does not fit what it knows. *)
Fixpoint replay (l : list (CdmpDeviceEvent * CdmpDeviceInfo)) (known : gset Z) : option (gset Z) :=
  match l with
  | [] => Some known
  | (JOINED, i) :: l =>
      if decide (info_device_id i ∈ known) then None else replay l ({[info_device_id i]} ∪ known)
  | (LEFT, i) :: l =>
      if decide (info_device_id i ∈ known) then replay l (known ∖ {[info_device_id i]}) else None
  | (RESTARTED, i) :: l => if decide (info_device_id i ∈ known) then replay l known else None
  end.

Lemma replay_app l1 l2 known : replay (l1 ++ l2) known = replay l1 known ≫= replay l2.
Proof.
  revert known. induction l1 as [|[[] i] l1 IH]; intros known; simpl; [done|..];
    case_decide; simpl; auto.
Qed.

Abbreviation known_ids s := (dom (network_devices_ s) : gset Z).

(** The events of a run lead from the IDs known before it to those known after it. *)
Definition told (s : NetworkService) (e : list Effect) (s' : NetworkService) : Prop :=
  net_wf s -> net_wf s' /\ replay (device_events e) (known_ids s) = Some (known_ids s').

#[export] Instance told_trace : TraceRel told.
Proof.
  split.
  - by intros s Hs.
  - intros s1 s2 s3 e1 e2 H12 H23 Hs. destruct (H12 Hs) as [H2 E1]. destruct (H23 H2) as [H3 E2].
    split; [done|]. by rewrite device_events_app, replay_app, E1.
Qed.

(** The parts that leave the table alone and report nothing. *)
Definition quiet (s : NetworkService) (e : list Effect) (s' : NetworkService) : Prop :=
  device_events e = [] /\ known_ids s' = known_ids s.

#[export] Instance quiet_trace : TraceRel quiet.
Proof.
  split; [done|]. intros s1 s2 s3 e1 e2 [He1 Hd1] [He2 Hd2]. split.
  - by rewrite device_events_app, He1, He2.
  - congruence.
Qed.

Lemma quiet_told {A} (m : NM A) : preserves net_wf m -> respects quiet m -> respects told m.
Proof. intros Hw Hq s Hs. destruct (Hq s) as [-> ->]. auto. Qed.

Section told.
Context `{UnorderedIter} (env : Env).
Implicit Types (s : NetworkService).

Lemma FindPendingIdClaim_quiet id : respects quiet (FindPendingIdClaim env id).
Proof. done. Qed.
Lemma UpdateNetworkDevices_quiet : respects quiet UpdateNetworkDevices.
Proof. intros s. split; [done|]. apply refreshed_dom. Qed.
Lemma OwnDevice_quiet op : respects quiet (OwnDevice op).
Proof.
  intros s. unfold OwnDevice. rewrite bind_get. destruct (op (device_ s)) as [d calls].
  rewrite bind_modify. split; [|done]. by induction calls.
Qed.
#[local] Hint Resolve FindPendingIdClaim_quiet UpdateNetworkDevices_quiet OwnDevice_quiet : respects.

Lemma FindPendingIdClaim_told id : respects told (FindPendingIdClaim env id).
Proof. apply quiet_told; auto with preserves respects. Qed.
Lemma UpdateNetworkDevices_told : respects told UpdateNetworkDevices.
Proof. apply quiet_told; auto with preserves respects. Qed.
Lemma RunWork_told w : respects told (RunWork w).
Proof. by apply quiet_told; [auto with preserves|]. Qed.
Lemma ClearClaim_told i : respects told (ClearClaim i).
Proof. by apply quiet_told; [auto with preserves|]. Qed.
Lemma StorePendingIdClaim_told c : respects told (StorePendingIdClaim env c).
Proof. apply quiet_told; [auto with preserves|]. unfold StorePendingIdClaim. respect. Qed.
Lemma OwnDevice_told op : respects told (OwnDevice op).
Proof. apply quiet_told; auto with preserves respects. Qed.

Lemma RemoveDevice_told id : respects told (RemoveDevice id).
Proof.
  intros s Hs. split; [by apply RemoveDevice_wf|].
  destruct (network_devices_ s !! id) as [d|] eqn:E; [|by rewrite RemoveDevice_absent].
  erewrite RemoveDevice_present by done.
  change (replay [(LEFT, ToDeviceInfo d)] (known_ids s)
          = Some (known_ids (refreshed (s <| network_devices_ ::= delete id |>)))).
  rewrite refreshed_dom. simpl. destruct (nw_table _ Hs _ _ E) as (_ & -> & _).
  rewrite decide_True by (by apply elem_of_dom). by rewrite dom_delete_L.
Qed.

(** A new entry is announced by the event that [UpdateDeviceFrom*] emits once it has cleared the claim. *)
Definition announced (id : Z) (tail : option CdmpDeviceInfo -> NM unit) : Prop :=
  respects told (tail None) /\
  forall info s, info_device_id info = id -> net_wf s -> id ∈ known_ids s ->
    net_wf (state_of (tail (Some info) s)) /\
    replay (device_events (effects_of (tail (Some info) s))) (known_ids s ∖ {[id]})
      = Some (known_ids (state_of (tail (Some info) s))).

Lemma AddOrUpdateDevice_told id uid f (tail : option CdmpDeviceInfo -> NM unit) :
  1 <= id <= 254 -> announced id tail ->
  respects told (
    added ← AddOrUpdateDevice env id uid f;
    joined ← (if added : bool then info ← DeviceInfoAt id; mret (Some info) else mret None);
    tail joined).
Proof.
  intros Hid [Hnone Hsome] s Hs.
  pose proof (AddOrUpdateDevice_wf env id uid f Hid s Hs) as Hs1.
  destruct (network_devices_ s !! id) as [d|] eqn:E.
  - erewrite AddOrUpdateDevice_known in Hs1 by done.
    erewrite bind_ok by (by apply AddOrUpdateDevice_known). rewrite prepend_nil, bind_ret.
    destruct (Hnone _ Hs1) as [Hw Hr]. split; [done|]. refine (eq_trans _ Hr). f_equal. simpl.
    by rewrite dom_insert_lookup_L by (by eexists).
  - destruct (decide (uid = 0)) as [->|Hu].
    { erewrite bind_throw by (by apply AddOrUpdateDevice_zero). done. }
    rewrite AddOrUpdateDevice_new in Hs1 by done.
    erewrite bind_ok by (by apply AddOrUpdateDevice_new). rewrite prepend_nil, bind_assoc.
    set (s1 := refreshed _) in *.
    assert (known_ids s1 = {[id]} ∪ known_ids s) as Hk.
    { unfold s1. rewrite refreshed_dom. simpl. by rewrite dom_insert_L. }
    assert (id ∈ known_ids s1) as Hin by (rewrite Hk; by apply elem_of_union_l, elem_of_singleton).
    destruct (proj1 (elem_of_dom _ _) Hin) as [d1 Hd1].
    unfold DeviceInfoAt. rewrite bind_assoc, bind_get, Hd1, !bind_ret.
    destruct (Hsome (ToDeviceInfo d1) s1) as [Hw Hr]; [|done..|].
    { by destruct (nw_table _ Hs1 _ _ Hd1) as (_ & ? & _). }
    split; [done|]. refine (eq_trans _ Hr). rewrite Hk. f_equal.
    apply not_elem_of_dom in E. clear -E. set_solver.
Qed.

Lemma announced_ext id (tail tail' : option CdmpDeviceInfo -> NM unit) :
  (forall joined s, tail joined s = tail' joined s) -> announced id tail' -> announced id tail.
Proof.
  intros He [Hnone Hsome]. split.
  - intros s. rewrite He. apply Hnone.
  - intros info s. rewrite He. apply Hsome.
Qed.

Lemma announced_joined id middle k :
  respects told middle -> (forall s, result_of (middle s) = Ok tt /\ device_events (effects_of (middle s)) = []
                                      /\ known_ids (state_of (middle s)) = known_ids s) ->
  respects told k ->
  announced id (fun joined =>
    middle ;; (match joined with Some info => emit (NotifyDeviceEvent JOINED info) | None => mret tt end) ;; k).
Proof.
  intros Hm Hquiet Hk. split; [cbv beta iota; respect|]. 
 intros info s <- Hs Hin.
  destruct (Hquiet s) as (Hok & He & Hd). destruct (Hm s Hs) as [Hs1 _].
  destruct (middle s) as [[s1 e1] r] eqn:Em. cbn [state_of effects_of result_of fst snd] in *. subst r.
  erewrite bind_ok by exact Em. rewrite state_of_prepend, effects_of_prepend, bind_emit.
  rewrite state_of_prepend, effects_of_prepend, !device_events_app, He. simpl.
  destruct (Hk s1 Hs1) as [Hw Hr]. split; [done|].
  rewrite decide_False by set_solver. refine (eq_trans _ Hr). rewrite Hd. f_equal.
  clear -Hin. apply set_eq. intros i. destruct (decide (i = info_device_id info)); set_solver.
Qed.

#[local] Hint Resolve FindPendingIdClaim_told UpdateNetworkDevices_told RunWork_told ClearClaim_told
  StorePendingIdClaim_told OwnDevice_told RemoveDevice_told : respects.

Lemma UpdateDeviceFromDiscovery_told m :
  is_u8 (dresp_device_id m) -> respects told (UpdateDeviceFromDiscovery env m).
Proof.
  intros Hid s. unfold UpdateDeviceFromDiscovery. rewrite bind_get.
  destruct (IsPeerDeviceId s _) eqn:Hp; simpl; [|by apply trace_nil].
  apply IsPeerDeviceId_range in Hp; [|done]. revert s.
  change (respects told (
    previous_device_id ← FindDeviceIdByUid (dresp_uid m);
    (match previous_device_id with
     | Some previous => when (negb (bool_decide (previous = dresp_device_id m))) (RemoveDevice previous)
     | None => mret tt
     end) ;;
    added ← AddOrUpdateDevice env (dresp_device_id m) (dresp_uid m) (dresp_features m);
    joined ← (if added : bool
              then info ← DeviceInfoAt (dresp_device_id m); mret (Some info) else mret None);
    claim ← FindPendingIdClaim env (dresp_device_id m);
    (match claim with Some i => ClearClaim i | None => mret tt end) ;;
    match joined with Some info => emit (NotifyDeviceEvent JOINED info) | None => mret tt end)).
  apply respects_bind; [apply _|apply respects_gets, _|intros previous].
  apply respects_bind; [apply _|respect|intros _].
  apply AddOrUpdateDevice_told; [done|].
  eapply announced_ext; [|apply (announced_joined _ (claim ← FindPendingIdClaim env (dresp_device_id m);
    match claim with Some i => ClearClaim i | None => mret tt end) (mret tt))].
  - intros joined s. cbv beta. rewrite bind_assoc. apply bind_ext. intros claim s'. apply bind_ext. intros _ s''.
    by rewrite bind_ret_tt.
  - respect.
  - intros s. erewrite bind_ok by apply FindPendingIdClaim_run. by case_match.
  - respect.
Qed.

Lemma SendDiscoveryRequest_quiet : respects quiet (SendDiscoveryRequest env).
Proof. unfold SendDiscoveryRequest. respect. Qed.
#[local] Hint Resolve SendDiscoveryRequest_quiet : respects.
Lemma RequestRediscovery_told : respects told (RequestRediscovery env).
Proof. apply quiet_told; [apply RequestRediscovery_wf|]. unfold RequestRediscovery. respect. Qed.

Lemma UpdateDeviceFromHeartbeat_told hb :
  is_u8 (hb_device_id hb) -> respects told (UpdateDeviceFromHeartbeat env hb).
Proof.
  intros Hid s. unfold UpdateDeviceFromHeartbeat. rewrite bind_get.
  destruct (IsPeerDeviceId s _) eqn:Hp; simpl; [|by apply trace_nil].
  apply IsPeerDeviceId_range in Hp; [|done]. revert s. apply respects_bind; [apply _|respect|intros claim s].
  rewrite bind_get. destruct (claim ≫= _) as [[i c]|];
    [|destruct (network_devices_ s !! _) as [c|] eqn:E].
  - respects_goal. apply AddOrUpdateDevice_told; [done|]. apply announced_joined; [respect|done|respect].
  - intros Hs. pose proof (AddOrUpdateDevice_wf env _ (uid_ c) (hb_features hb) Hp s Hs) as Hs1.
    erewrite AddOrUpdateDevice_known in Hs1 by done.
    erewrite bind_ok by (by apply AddOrUpdateDevice_known).
    split; [exact Hs1|]. simpl. by rewrite dom_insert_lookup_L by (by eexists).
  - respects_goal. apply RequestRediscovery_told.
Qed.

Lemma RecordIdClaim_told c : is_u8 (claim_device_id c) -> respects told (RecordIdClaim env c).
Proof.
  intros Hid s. unfold RecordIdClaim. rewrite bind_get.
  destruct (_ || _); [by apply trace_nil|]. destruct (network_devices_ s !! _) as [d|] eqn:Hd; [|respect_rest].
  case_match; [by apply trace_nil|]. intros Hs.
  erewrite bind_ok by apply FindPendingIdClaim_run. rewrite prepend_nil, bind_get, bind_modify.
  set (s1 := upd network_devices_ _ (expired env s)).
  assert (known_ids s1 = known_ids s) as Hk by (simpl; by rewrite dom_insert_lookup_L by (by eexists)).
  assert (net_wf s1) as Hs1.
  { apply (wf_table (<[claim_device_id c := UpdateHeartbeat (env_now env) d]> (network_devices_ s)) (expired env s));
      [|by apply wf_expired].
    apply map_Forall_insert_2; [|apply Hs]. by apply (nw_table _ Hs) in Hd. }
  rewrite <- Hk. clearbody s1.
  destruct (StorePendingIdClaim_told c s1 Hs1) as [Hs2 Hr].
  rewrite StorePendingIdClaim_run in Hs2, Hr.
  erewrite bind_ok by apply StorePendingIdClaim_run. rewrite prepend_nil.
  match goal with |- context [when ?b _] => destruct b end; [|done]. split; [done|]. simpl.
  destruct (nw_table _ Hs _ _ Hd) as (_ & -> & _).
  rewrite decide_True; [exact Hr|]. rewrite Hk. by apply elem_of_dom_2 in Hd.
Qed.
#[local] Hint Resolve UpdateDeviceFromDiscovery_told UpdateDeviceFromHeartbeat_told RecordIdClaim_told
  RequestRediscovery_told : respects.

Lemma ProcessFrame_told f : Forall is_u8 f -> respects told (ProcessFrame env f).
Proof.
  intros Hf. unfold ProcessFrame. apply respects_bind; [apply _|respect|intros t].
  case_match; [|case_match; [|case_match; [|case_match; [|respect]]]].
  - apply quiet_told; [apply ProcessDiscoveryRequestFrame_wf|].
    unfold ProcessDiscoveryRequestFrame, RunWork. respect.
  - apply respects_try. intros s. destruct (DiscoveryResponse_FromCanFrame f) as [m| |] eqn:Em; [|by apply trace_nil..].
    apply DiscoveryResponse_id_u8 in Em; [|done]. rewrite bind_lift_ok. respect_rest. by intros [].
  - apply respects_try. intros s. destruct (IdClaimRequest_FromCanFrame f) as [m| |] eqn:Em; [|by apply trace_nil..].
    apply IdClaimRequest_id_u8 in Em; [|done]. rewrite bind_lift_ok. respect_rest.
  - apply quiet_told; [apply ProcessIdClaimResponseFrame_wf|]. unfold ProcessIdClaimResponseFrame. respect.
Qed.
Lemma GetLowestAvailableId_quiet i : respects quiet (GetLowestAvailableId env i).
Proof.
  unfold GetLowestAvailableId. generalize 256%nat, (u8 (i + 1)). intros n.
  induction n as [|n IH]; intros z; cbn [LowestAvailableFrom]; respect.
Qed.

Lemma RunIdClaimAttempt_quiet : respects quiet (RunIdClaimAttempt env).
Proof.
  unfold RunIdClaimAttempt, DropClaim, CompleteIdClaim, SendNextClaim, SendIdClaim, RunWork.
  assert (respects quiet (SelectNextId env)).
  { intros s. unfold SelectNextId. pose proof (GetLowestAvailableId_quiet (claiming_device_id_ s) s) as [He Hd].
    destruct (GetLowestAvailableId env _ s) as [[s1 e1] [j|x|]]; cbn [effects_of state_of fst snd] in *; [done| |done].
    split; [|done]. by rewrite device_events_app, He. }
  respect.
Qed.
Lemma RunDiscoveryAttempt_quiet : respects quiet (RunDiscoveryAttempt env).
Proof. unfold RunDiscoveryAttempt. respect. Qed.
End told.

(** Operations after which the clients' view holds: all but those that forget the table without events,
    which are [ClearAllDevices] and the stop and start of the service. *)
Definition forgets (op : NetOp) : bool :=
  match op with
  | OpStart _ | OpStop | OpClear | OpStatus VERSION_MISMATCH | OpStatus ERROR => true
  | _ => false
  end.

Section runs.
Context `{UnorderedIter}.
Implicit Types (s : NetworkService).

#[local] Hint Resolve ProcessFrame_told OwnDevice_told UpdateNetworkDevices_told RemoveDevice_told
  UpdateDeviceFromHeartbeat_told OwnDevice_quiet : respects.

Lemma RunQueuedWork_told env session w :
  op_wf (OpQueued session w) -> respects told (RunQueuedWork env session w).
Proof.
  intros Hop s. unfold RunQueuedWork. rewrite bind_get. destruct (negb _); [by apply trace_nil|].
  respects_goal. destruct w; simpl in *; [respect| | | |respect..]; apply quiet_told; auto with preserves;
    unfold StartInitialization, StartIdClaim, SendDiscoveryResponse; respect.
Qed.

Lemma ProcessPeriodicValidation_told env : respects told (ProcessPeriodicValidation env).
Proof. unfold ProcessPeriodicValidation, ProcessPeriodicTasks, RemoveOfflineDevices. respect. Qed.

Lemma run_op_told env op : op_wf op -> forgets op = false -> respects told (run_op env op).
Proof.
  intros Hop Hf.
  assert (respects quiet (run_op env op) -> respects told (run_op env op)) as Hquiet
    by (intros; apply quiet_told; [by apply run_op_wf|done]).
  destruct op as [f|n w|hb| | | | |h| |st|id| |b|d]; simpl in Hf; try done.
  - by apply ProcessFrame_told.
  - by apply RunQueuedWork_told.
  - by apply UpdateDeviceFromHeartbeat_told.
  - apply Hquiet, respects_bind; [apply _|apply RunDiscoveryAttempt_quiet|respect].
  - apply Hquiet, respects_bind; [apply _|apply RunIdClaimAttempt_quiet|respect].
  - apply respects_bind; [apply _|apply ProcessPeriodicValidation_told|intros; apply respects_ret, _].
  - apply Hquiet. simpl. unfold Initialize, NetworkWorkOf, NetworkDoInitialize; simpl. respect.
  - apply Hquiet. simpl. unfold NetworkOnDeviceStatusChanged, StartValidationTask, RunWork. destruct st; try done; respect.
  - apply RemoveDevice_told.
  - by apply Hquiet.
  - by apply Hquiet.
Qed.
(** ** Starts, stops and clears *)

(** Whether the operation empties the table: a clear; a start that is not of a started service; a stop that is
    not of a stopped one, by a call or by the status that stops it. *)
Definition empties (op : NetOp) s : bool :=
  let starts := negb (bool_decide (net_service_state_ s = RUNNING)) && negb (bool_decide (net_service_state_ s = STARTING)) in
  let stops := negb (bool_decide (net_service_state_ s = STOPPED)) && negb (bool_decide (net_service_state_ s = STOPPING)) in
  match op with
  | OpClear => true
  | OpStart _ => starts
  | OpStop | OpStatus VERSION_MISMATCH | OpStatus ERROR => stops
  | _ => false
  end.

Definition no_devices s : Prop := network_devices_ s = ∅.

Lemma cleared_then {A} (k : NM A) s : preserves no_devices k -> no_devices (state_of ((ClearAllDevices ;; k) s)).
Proof. intros Hk. unfold ClearAllDevices. rewrite bind_modify. by apply Hk. Qed.

Lemma no_devices_bind {A B} (m : NM A) (k : A -> NM B) s :
  succeeds m -> (forall a s1, no_devices (state_of (k a s1))) -> no_devices (state_of ((m ≫= k) s)).
Proof.
  intros Hm Hk. destruct (Hm s) as [a Ha]. destruct (m s) as [[s1 e1] r] eqn:E. simpl in Ha. subst r.
  erewrite bind_ok by exact E. rewrite state_of_prepend. apply Hk.
Qed.

Lemma NetworkDoStart_empties env register s : no_devices (state_of (NetworkDoStart env register s)).
Proof.
  apply cleared_then. unfold NetworkRegisterCanHandlers, RegisterReceiveHandler, StartValidationTask. preserve.
Qed.
Lemma NetworkDoStop_empties env s : no_devices (state_of (NetworkDoStop env s)).
Proof.
  unfold NetworkDoStop, NetworkUnregisterCanHandlers.
  do 6 (apply no_devices_bind; [succeed; by eexists|intros ? ?]). apply (cleared_then (mret true)), preserves_ret.
Qed.

Lemma transition_empties env register (work : NM bool) p q s :
  no_devices (state_of (work s)) -> no_devices (state_of (Transition (NetworkWorkOf env register) work p q s)).
Proof. unfold Transition, state_of. by destruct (work s) as [[s1 e1] [[]|x|]]. Qed.

Lemma NetworkStart_empties env register s :
  if empties (OpStart register) s then no_devices (state_of (NetworkStart env register s))
  else NetworkStart env register s = (s, [], result_of (NetworkStart env register s)).
Proof.
  unfold NetworkStart, Start, empties. rewrite bind_get. cbn [sw_state NetworkWorkOf].
  case_bool_decide; [done|]. case_bool_decide; [done|]. cbn [negb andb]. unfold SetState. rewrite bind_modify.
  apply (transition_empties env register), NetworkDoStart_empties.
Qed.
Lemma NetworkStop_empties env s :
  if empties OpStop s then no_devices (state_of (NetworkStop env s))
  else NetworkStop env s = (s, [], result_of (NetworkStop env s)).
Proof.
  unfold NetworkStop, Stop, empties. rewrite bind_get. cbn [sw_state NetworkWorkOf].
  case_bool_decide; [done|]. case_bool_decide; [done|]. cbn [negb andb]. unfold SetState. rewrite bind_modify.
  apply (transition_empties env (fun _ => 0)), NetworkDoStop_empties.
Qed.

Lemma state_of_ignored (m : NM bool) s : state_of ((m ;; mret tt) s) = state_of (m s).
Proof. unfold state_of. unfold mbind, M_bind. by destruct (m s) as [[s1 e1] []]. Qed.
Lemma quiet_ignored (m : NM bool) s :
  m s = (s, [], result_of (m s)) -> told s (effects_of ((m ;; mret tt) s)) (state_of ((m ;; mret tt) s)).
Proof. intros E. unfold mbind, M_bind. rewrite E. by destruct (result_of (m s)). Qed.

(** An operation either empties the table, or its events tell what it does to it. *)
Lemma run_op_told_or_empties env op s :
  op_wf op ->
  if empties op s then no_devices (state_of (run_op env op s)) else told s (effects_of (run_op env op s)) (state_of (run_op env op s)).
Proof.
  intros Hop. destruct (forgets op) eqn:Hf.
  - pose proof (NetworkStop_empties env s) as Hstop.
    assert (if empties OpStop s then no_devices (state_of ((NetworkStop env ;; mret tt) s))
            else told s (effects_of ((NetworkStop env ;; mret tt) s)) (state_of ((NetworkStop env ;; mret tt) s))) as Hs.
    { destruct (empties OpStop s); [by rewrite state_of_ignored|by apply quiet_ignored]. }
    destruct op as [| | | | | | |register| |[]| | | |]; try discriminate Hf; cbn [run_op]; [|exact Hs..|done].
    pose proof (NetworkStart_empties env register s) as Hstart.
    destruct (empties (OpStart register) s); [by rewrite state_of_ignored|by apply quiet_ignored].
  - replace (empties op s) with false by (by destruct op as [| | | | | | | | |[]| | | |]). by apply run_op_told.
Qed.

(** What a client knows that hears the events, and that the table is emptied when the service starts or stops or its
    devices are cleared. *)
Fixpoint follow (l : list (Env * NetOp)) s (known : gset Z) : option (gset Z) :=
  match l with
  | [] => Some known
  | (env, op) :: l =>
      let o := run_op env op s in
      (if empties op s then Some ∅ else replay (device_events (effects_of o)) known) ≫= follow l (state_of o)
  end.
End runs.

(** C4. In every run of the service: a client that knew the table at the beginning, hears the JOINED, RESTARTED and
    LEFT events in order, and forgets everything when the service starts, stops or is cleared, never hears an event that
    contradicts what it knows (a device joins only when it was not there, restarts or leaves only when it was), and
    knows exactly the IDs that are in the table at the end.  The table is emptied without events only by a clear, by a
    start of a service that is not started, and by a stop of one that is not stopped. *)
Theorem device_events_tell_the_table `{UnorderedIter} l s :
  net_wf s -> Forall (fun p => op_wf p.2) l -> follow l s (known_ids s) = Some (known_ids (run_ops l s).1).
Proof.
  revert s. induction l as [|[env op] l IH]; intros s Hs Hl; [done|].
  apply Forall_cons in Hl as [Hop Hl]. cbn [follow run_ops].
  pose proof (run_op_told_or_empties env op s Hop) as Ht. pose proof (run_op_wf env op Hop s Hs) as Hs1.
  specialize (IH _ Hs1 Hl). destruct (run_ops l _) as [s2 e2]. cbn [fst] in *. rewrite <- IH.
  destruct (empties op s); [|by destruct (Ht Hs) as [_ ->]].
  unfold no_devices in Ht. simpl. by rewrite Ht, dom_empty_L.
Qed.

(** The same run, with a stop and a start after it and a device that joins then. *)
Definition restarted_run : list (Env * NetOp) :=
  sample_run ++ [(mkEnv 9000 true, OpStart (fun _ => 3)); (mkEnv 9001 true, OpStop); (mkEnv 9002 true, OpStart (fun _ => 3))]
    ++ sample_run.
Lemma device_events_tell_the_table_witness :
  @follow some_iter restarted_run (NewNetworkService sample_device 1792) ∅ = Some {[2; 9]} /\
  empties (@OpStop) (@run_ops some_iter (take (S (length sample_run)) restarted_run) (NewNetworkService sample_device 1792)).1 = true.
Proof.
  split; [|vm_compute; reflexivity].
  pose proof (@device_events_tell_the_table some_iter restarted_run _ (NewNetworkService_wf sample_device 1792)) as Ht.
  refine (eq_trans (Ht _) _).
  - repeat apply Forall_cons_2; [..|apply Forall_nil_2]; apply (bool_decide_eq_true_1 _); vm_compute; reflexivity.
  - vm_compute. reflexivity.
Defined.
