(* ===== verification/CdmpNetworkClaims.v ===== *)
(** * CDMP network service: how a unit gets its ID

    The ID selected, the answers to a claim, and that discovery and the ID claim come to an end. *)

From S2P Require Import Prelude Can Cdmp CdmpMessages CdmpEffects Service CdmpNetwork CdmpNetworkSpec.

(** ** The ID selected *)

(** [GetLowestAvailableId(after)] is the lowest ID above [after] that is neither in the device table nor
    held by a pending claim which has not expired; it throws exactly when no such ID is left below the
    broadcast ID, and it changes nothing but expired claims. *)
Theorem GetLowestAvailableId_lowest env after s :
  0 <= after < DEVICE_ID_BROADCAST ->
  let o := GetLowestAvailableId env after s in
  (state_of o = s \/ state_of o = expired env s) /\ effects_of o = [] /\
  ((exists j, result_of o = Ok j /\ after < j < DEVICE_ID_BROADCAST /\ id_free env s j /\
      forall k, after < k < j -> ~ id_free env s k) \/
   (result_of o = Throw (RuntimeError "No available device ID found") /\
      forall k, after < k < DEVICE_ID_BROADCAST -> ~ id_free env s k)).
Proof.
  intros Ha o. unfold DEVICE_ID_BROADCAST in Ha.
  assert (scan_result env s (after + 1) o) as (s' & Hs' & Ho).
  { unfold o, GetLowestAvailableId. rewrite u8_id by (unfold is_u8; lia). apply LowestAvailableFrom_spec; lia. }
  clearbody o.
  destruct Ho as [(j & -> & Hj & Hf & Hmin)|[-> Hmin]]; (split; [done|]); (split; [done|]); [left|right].
  - exists j. split_and!; [done|lia|lia|done|]. intros k Hk. apply Hmin. lia.
  - split; [done|]. intros k Hk. apply Hmin. lia.
Qed.

(** With devices 1 and 2 in the table and a pending claim on 3, a unit is to claim 4. *)
Definition crowded : NetworkService :=
  NewNetworkService sample_device 1792
    <| network_devices_ := {[1 := sample_device; 2 := sample_device]} |>
    <| pending_id_claims_ ::= <[0%nat := mkClaim 3 300 100]> |>.

Lemma GetLowestAvailableId_lowest_witness :
  exists j, result_of (GetLowestAvailableId (mkEnv 150 true) 0 crowded) = Ok j /\ 0 < j.
Proof.
  destruct (GetLowestAvailableId_lowest (mkEnv 150 true) 0 crowded) as (_ & _ & [(j & Hj & Hr & _)|[He _]]).
  - unfold DEVICE_ID_BROADCAST. lia.
  - exists j. split; [exact Hj|lia].
  - vm_compute in He. discriminate.
Defined.

(** ** Progress of discovery and of the ID claim

    Both run one attempt per task step and are rescheduled until they are done.  Their counters change in
    their own steps, and when they start over; nothing else touches them. *)

Definition discovery_progress (s : NetworkService) : nat * Z := (discovery_attempt_ s, discovery_backoff_resets_ s).
Definition claim_progress (s : NetworkService) : Z * Z := (claiming_device_id_ s, id_claim_attempt_ s).
Definition progress (s : NetworkService) : (nat * Z) * (Z * Z) := (discovery_progress s, claim_progress s).

Section progress.
Context `{UnorderedIter} (env : Env).
#[local] Abbreviation kept := (respects (keeps (E:=Effect) progress)).

Lemma FindPendingIdClaim_kept id : kept (FindPendingIdClaim env id).
Proof. done. Qed.
Lemma UpdateNetworkDevices_kept : kept UpdateNetworkDevices.
Proof. done. Qed.
Lemma OwnDevice_kept op : kept (OwnDevice op).
Proof. unfold OwnDevice. respect. Qed.
#[local] Hint Resolve FindPendingIdClaim_kept UpdateNetworkDevices_kept OwnDevice_kept : respects.
Lemma StorePendingIdClaim_kept c : kept (StorePendingIdClaim env c).
Proof. unfold StorePendingIdClaim. respect. Qed.
Lemma AddOrUpdateDevice_kept id uid f : kept (AddOrUpdateDevice env id uid f).
Proof. unfold AddOrUpdateDevice. respect. Qed.
Lemma RemoveDevice_kept id : kept (RemoveDevice id).
Proof. unfold RemoveDevice. respect. Qed.
#[local] Hint Resolve StorePendingIdClaim_kept AddOrUpdateDevice_kept RemoveDevice_kept : respects.
Lemma SendDiscoveryRequest_kept : kept (SendDiscoveryRequest env).
Proof. unfold SendDiscoveryRequest. respect. Qed.
#[local] Hint Resolve SendDiscoveryRequest_kept : respects.
Lemma ClearAllDevices_kept : kept ClearAllDevices.
Proof. done. Qed.
#[local] Hint Resolve ClearAllDevices_kept : respects.

Lemma UpdateDeviceFromHeartbeat_kept hb : kept (UpdateDeviceFromHeartbeat env hb).
Proof. unfold UpdateDeviceFromHeartbeat, DeviceInfoAt, ClearClaim, RequestRediscovery. respect. Qed.

Lemma ProcessFrame_kept f : kept (ProcessFrame env f).
Proof.
  unfold ProcessFrame, ProcessDiscoveryRequestFrame, ProcessDiscoveryResponseFrame, UpdateDeviceFromDiscovery,
    ProcessIdClaimRequestFrame, RecordIdClaim, ProcessIdClaimResponseFrame, FindDeviceIdByUid, DeviceInfoAt,
    ClearClaim, RunWork.
  respect.
Qed.

Lemma Transition_kept register work p n : kept work -> kept (Transition (NetworkWorkOf env register) work p n).
Proof.
  intros Hw s. specialize (Hw s). unfold Transition, state_of in *.
  by destruct (work s) as [[s1 e1] [[]|x|]].
Qed.
Lemma NetworkStop_kept : kept (NetworkStop env).
Proof.
  unfold NetworkStop, Stop, SetState. respect. apply Transition_kept.
  simpl. unfold NetworkDoStop, NetworkUnregisterCanHandlers. respect.
Qed.
Lemma NetworkStart_kept register : kept (NetworkStart env register).
Proof.
  unfold NetworkStart, Start, SetState. respect. apply Transition_kept. simpl.
  unfold NetworkDoStart, NetworkRegisterCanHandlers, RegisterReceiveHandler, StartValidationTask. respect.
Qed.
Lemma GetLowestAvailableId_kept i : kept (GetLowestAvailableId env i).
Proof.
  unfold GetLowestAvailableId. generalize 256%nat, (u8 (i + 1)). intros n.
  induction n as [|n IH]; intros z; cbn [LowestAvailableFrom]; respect.
Qed.

Lemma keeps_first {A} (m : NM A) : kept m -> respects (keeps discovery_progress) m.
Proof. intros Hm s. specialize (Hm s). unfold keeps, progress in *. congruence. Qed.
Lemma keeps_second {A} (m : NM A) : kept m -> respects (keeps claim_progress) m.
Proof. intros Hm s. specialize (Hm s). unfold keeps, progress in *. congruence. Qed.

#[local] Hint Resolve ProcessFrame_kept UpdateDeviceFromHeartbeat_kept NetworkStart_kept NetworkStop_kept : respects.

(** The operations that advance or restart one of the two tasks. *)
Definition steps_discovery (op : NetOp) : bool :=
  match op with OpDiscoveryTask | OpQueued _ WorkStartInitialization => true | _ => false end.
Definition steps_claim (op : NetOp) : bool :=
  match op with OpClaimTask | OpQueued _ WorkStartIdClaim => true | _ => false end.

Lemma run_op_kept op : steps_discovery op = false -> steps_claim op = false -> kept (run_op env op).
Proof.
  intros Hd Hc. destruct op as [f|n w|hb| | | | |h| |st|id| |b|d]; simpl in Hd, Hc; try done;
    cbn [run_op]; try solve [respect].
  - unfold RunQueuedWork, SendDiscoveryResponse. destruct w; try done; respect.
  - unfold ProcessPeriodicValidation, ProcessPeriodicTasks, RemoveOfflineDevices. respect.
  - unfold Initialize; cbn [sw_state sw_initialize NetworkWorkOf]; unfold NetworkDoInitialize. respect.
  - unfold NetworkOnDeviceStatusChanged, StartValidationTask, RunWork. respect.
Qed.

Lemma SelectNextId_keeps : respects (keeps discovery_progress) (SelectNextId env).
Proof.
  intros s. unfold SelectNextId.
  pose proof (keeps_first _ (GetLowestAvailableId_kept (claiming_device_id_ s)) s) as Hk. revert Hk.
  generalize (GetLowestAvailableId env (claiming_device_id_ s) s). by intros [[s1 e1] [j|x|]].
Qed.

Lemma run_op_keeps_discovery op :
  steps_discovery op = false -> respects (keeps discovery_progress) (run_op env op).
Proof.
  intros Hd. destruct (steps_claim op) eqn:Hc; [|by apply keeps_first, run_op_kept].
  destruct op as [|n []| | | | | | | | | | | |]; try done; cbn [run_op].
  - unfold RunQueuedWork, StartIdClaim. respect.
  - pose proof SelectNextId_keeps. pose proof (fun op => keeps_first _ (OwnDevice_kept op)). pose proof (keeps_first _ UpdateNetworkDevices_kept).
    unfold RunIdClaimAttempt, DropClaim, RunWork, CompleteIdClaim, SendNextClaim, SendIdClaim. respect.
Qed.

Lemma run_op_keeps_claim op :
  steps_claim op = false -> respects (keeps claim_progress) (run_op env op).
Proof.
  intros Hc. destruct (steps_discovery op) eqn:Hd; [|by apply keeps_second, run_op_kept].
  destruct op as [|n []| | | | | | | | | | | |]; try done; cbn [run_op].
  - unfold RunQueuedWork, StartInitialization. respect.
  - pose proof (fun op => keeps_second _ (OwnDevice_kept op)).
    pose proof (keeps_second _ SendDiscoveryRequest_kept).
    unfold RunDiscoveryAttempt. respect.
Qed.
End progress.

(** ** Discovery ends *)

Section discovery.
Context `{UnorderedIter}.

(** How often the discovery task of a run is rescheduled, up to the step that ends it. *)
Fixpoint discovery_rounds (l : list (Env * NetOp)) (s : NetworkService) : Z :=
  match l with
  | [] => 0
  | (env, OpDiscoveryTask) :: l =>
      match RunDiscoveryAttempt env s with
      | (s', _, Ok (Some _)) => 1 + discovery_rounds l s'
      | _ => 0
      end
  | (env, op) :: l => discovery_rounds l (state_of (run_op env op s))
  end.

Definition discovery_budget (s : NetworkService) : Z :=
  (DISCOVERY_MAX_BACKOFF_RESETS - discovery_backoff_resets_ s) * Z.of_nat (length RETRY_BACKOFFS_MS)
  + (Z.of_nat (length RETRY_BACKOFFS_MS) - Z.of_nat (discovery_attempt_ s)).

Lemma discovery_budget_nonneg s : net_wf s -> 0 <= discovery_budget s.
Proof.
  intros Hs. pose proof (nw_resets _ Hs). pose proof (nw_discovery _ Hs).
  unfold discovery_budget. simpl in *. lia.
Qed.

(** A step asks again and uses up budget, or hands over to the ID claim. *)
Lemma RunDiscoveryAttempt_outcome env s :
  net_wf s -> GetStatus (device_ s) = INIT ->
  let o := RunDiscoveryAttempt env s in
  (exists b, result_of o = Ok (Some b) /\ b ∈ RETRY_BACKOFFS_MS /\ discovery_budget (state_of o) < discovery_budget s)
  \/ (result_of o = Ok None /\ GetStatus (device_ (state_of o)) = CLAIMING).
Proof.
  intros Hs Hst o.
  assert (forall s', GetStatus (device_ s') = INIT ->
    let o := (OwnDevice ClaimId ;; mret (None (A:=Z))) s' in
    result_of o = Ok None /\ GetStatus (device_ (state_of o)) = CLAIMING) as Hclaim.
  { intros s' Hst'. unfold OwnDevice. rewrite bind_assoc, bind_get.
    unfold ClaimId, DeviceSetStatus, SetStatus, CanTransitionTo.
    unfold GetStatus in Hst'. rewrite Hst'. done. }
  assert (GetStatus (device_ (backed_off s)) = INIT) as Hst' by (unfold backed_off; by case_match).
  destruct (decide (discovery_attempt_ s = O \/ discovery_response_received_ s = false)) as [Hr|Hr].
  - subst o. destruct (RunDiscoveryAttempt_asks env s Hs Hst Hr) as [[_ ->]|(b & Hb & ->)]; [right; by apply Hclaim|].
    left. exists b. split; [done|]. split; [by eapply list_elem_of_lookup_2|].
    apply lookup_lt_Some in Hb. pose proof (nw_discovery _ Hs). pose proof (nw_resets _ Hs).
    change (state_of _) with (requested (backed_off s)).
    unfold discovery_budget, requested, backed_off in *. destruct (_ && _) eqn:E; simpl in *; lia.
  - apply Decidable.not_or in Hr as [Ha Hr]. subst o. rewrite RunDiscoveryAttempt_done; [right; by apply Hclaim|done..|].
    by destruct (discovery_response_received_ s).
Qed.

Lemma RunDiscoveryAttempt_rounds env s s' e b :
  net_wf s -> RunDiscoveryAttempt env s = (s', e, Ok (Some b)) ->
  net_wf s' /\ discovery_budget s' < discovery_budget s.
Proof.
  intros Hs Hrun. pose proof (RunDiscoveryAttempt_wf env s Hs) as Hw. rewrite Hrun in Hw. split; [done|].
  destruct (decide (GetStatus (device_ s) = INIT)) as [Hst|Hst].
  - destruct (RunDiscoveryAttempt_outcome env s Hs Hst) as [(b' & _ & _ & Hlt)|[Hn _]]; rewrite Hrun in *; done.
  - unfold RunDiscoveryAttempt in Hrun. rewrite bind_get, bool_decide_eq_false_2 in Hrun by done. done.
Qed.

Definition restarts_discovery (op : NetOp) : bool :=
  match op with OpQueued _ WorkStartInitialization => true | _ => false end.

Lemma discovery_rounds_le l s :
  net_wf s -> Forall (fun p => op_wf p.2 /\ restarts_discovery p.2 = false) l ->
  discovery_rounds l s <= discovery_budget s.
Proof.
  revert s. induction l as [|[env op] l IH]; intros s Hs Hl.
  { by apply discovery_budget_nonneg. }
  apply Forall_cons in Hl as [[Hop Hr] Hl].
  destruct (steps_discovery op) eqn:Hd.
  - destruct op as [|n []| | | | | | | | | | | |]; try done. cbn [discovery_rounds].
    pose proof (discovery_budget_nonneg s Hs).
    destruct (RunDiscoveryAttempt env s) as [[s' e] [[b|]|x|]] eqn:Hrun; [|done..].
    apply RunDiscoveryAttempt_rounds in Hrun as [Hs' Hlt]; [|done]. specialize (IH s' Hs' Hl). lia.
  - assert (discovery_rounds ((env, op) :: l) s = discovery_rounds l (state_of (run_op env op s))) as ->
      by (by destruct op).
    pose proof (run_op_keeps_discovery env op Hd s) as Hk.
    specialize (IH _ (run_op_wf env op Hop s Hs) Hl).
    enough (discovery_budget (state_of (run_op env op s)) = discovery_budget s) by lia.
    unfold keeps, discovery_progress in Hk. unfold discovery_budget. by injection Hk as -> ->.
Qed.
End discovery.

(** C9. However frames, heartbeats, stops and other work fall between its steps, and whoever else is
    discovering, the discovery task is rescheduled at most [discovery_budget] times, which is at most 33
    and just that from [StartInitialization] on (three requests, and again after each of ten backoffs); a
    step in INIT that does not ask again puts the unit into CLAIMING. *)
Theorem discovery_ends `{UnorderedIter} l s :
  net_wf s -> Forall (fun p => op_wf p.2 /\ restarts_discovery p.2 = false) l ->
  discovery_rounds l s <= discovery_budget s <= 33 /\
  (forall env, GetStatus (device_ s) = INIT ->
     (exists b, result_of (RunDiscoveryAttempt env s) = Ok (Some b) /\ b ∈ RETRY_BACKOFFS_MS) \/
     (result_of (RunDiscoveryAttempt env s) = Ok None /\
      GetStatus (device_ (state_of (RunDiscoveryAttempt env s))) = CLAIMING)).
Proof.
  intros Hs Hl. split; [split|].
  - by apply discovery_rounds_le.
  - pose proof (nw_discovery _ Hs). pose proof (nw_resets _ Hs).
    unfold discovery_budget, DISCOVERY_MAX_BACKOFF_RESETS in *. simpl in *. lia.
  - intros env Hst. destruct (RunDiscoveryAttempt_outcome env s Hs Hst) as [(b & Hb & Hin & _)|]; eauto.
Qed.

(** A unit that meets a lower UID in every round of its discovery. *)
Definition outbid_run : list (Env * NetOp) :=
  concat (replicate 40 [(mkEnv 0 true, OpDiscoveryTask);
                        (mkEnv 1 true, OpFrame (DiscoveryRequest_ToCanFrame (mkDiscoveryRequest 3)))]).
Lemma discovery_ends_witness :
  @discovery_rounds some_iter outbid_run (NewNetworkService sample_device 1792) = 13 /\
  @discovery_rounds some_iter outbid_run (NewNetworkService sample_device 1792) <= 33.
Proof.
  split; [vm_compute; reflexivity|].
  refine (let H := @discovery_ends some_iter outbid_run (NewNetworkService sample_device 1792)
                     (NewNetworkService_wf _ _) _ in _).
  - destruct H as [[H1 H2] _]. exact (Z.le_trans _ _ _ H1 H2).
  Unshelve. apply (bool_decide_eq_true_1 _). vm_compute. reflexivity.
Defined.

(** ** The ID claim ends *)

Section claim.
Context `{UnorderedIter}.

(** How often the claim task of a run is rescheduled, up to the step that ends it: the claims sent. *)
Fixpoint claim_rounds (l : list (Env * NetOp)) (s : NetworkService) : Z :=
  match l with
  | [] => 0
  | (env, OpClaimTask) :: l =>
      match RunIdClaimAttempt env s with
      | (s', _, Ok (Some _)) => 1 + claim_rounds l s'
      | _ => 0
      end
  | (env, op) :: l => claim_rounds l (state_of (run_op env op s))
  end.

Definition claim_budget (s : NetworkService) : Z :=
  (DEVICE_ID_BROADCAST - 1 - claiming_device_id_ s) * ID_CLAIM_MAX_ATTEMPTS
  + (ID_CLAIM_MAX_ATTEMPTS - id_claim_attempt_ s).

Lemma claim_budget_nonneg s : net_wf s -> 0 <= claim_budget s.
Proof.
  intros Hs. pose proof (nw_claiming _ Hs). pose proof (nw_attempt _ Hs).
  unfold claim_budget, DEVICE_ID_BROADCAST, ID_CLAIM_MAX_ATTEMPTS in *. lia.
Qed.

Lemma CompleteIdClaim_online s :
  GetStatus (device_ s) = CLAIMING ->
  let o := CompleteIdClaim s in
  result_of o = Ok tt /\ device_id_ (device_ (state_of o)) = claiming_device_id_ s /\
  GetStatus (device_ (state_of o)) = ONLINE /\ claiming_device_id_ (state_of o) = DEVICE_ID_UNASSIGNED.
Proof.
  intros Hst o. subst o. unfold CompleteIdClaim. rewrite bind_modify.
  erewrite bind_ok by apply UpdateNetworkDevices_run. rewrite prepend_nil.
  unfold OwnDevice. rewrite bind_get. unfold GetStatus in Hst.
  unfold GoOnline, DeviceSetStatus, SetStatus, CanTransitionTo, refreshed. simpl. by rewrite Hst.
Qed.

(** What a step of the claim does, by cases: send a claim, come ONLINE, give up. *)
Definition claim_outcome (env : Env) (s : NetworkService) (o : NetworkService * list Effect * res TaskResult) : Prop :=
  (result_of o = Ok (Some ID_CLAIM_RESPONSE_TIMEOUT_MS) /\ device_ (state_of o) = device_ s /\
     effects_of o = [SendFrame (GetManagementCanId (base_can_id_ s))
       (IdClaimRequest_ToCanFrame (mkIdClaimRequest (claiming_device_id_ (state_of o)) (uid_ (device_ s))
                                     (protocol_version_ (device_ s))))] /\
     claim_budget (state_of o) < claim_budget s /\
     ((claiming_device_id_ (state_of o) = claiming_device_id_ s /\ id_claim_result_ s <> Some CLAIM_REJECT /\
        id_claim_result_ s <> Some CLAIM_VERSION_INCOMPATIBLE) \/
      (claiming_device_id_ s < claiming_device_id_ (state_of o) /\ id_free env s (claiming_device_id_ (state_of o)))))
  \/ (result_of o = Ok None /\ GetStatus (device_ (state_of o)) = ONLINE /\
      device_id_ (device_ (state_of o)) = claiming_device_id_ s /\
      (id_claim_result_ s = Some CLAIM_ACCEPT \/
       (claiming_device_id_ s <> DEVICE_ID_UNASSIGNED /\ id_claim_result_ s <> Some CLAIM_REJECT /\
        id_claim_result_ s <> Some CLAIM_VERSION_INCOMPATIBLE /\ id_claim_attempt_ s = ID_CLAIM_MAX_ATTEMPTS)))
  \/ (result_of o = Ok None /\ device_ (state_of o) = device_ s /\
      claiming_device_id_ (state_of o) = DEVICE_ID_UNASSIGNED /\
      ((id_claim_result_ s = Some CLAIM_VERSION_INCOMPATIBLE /\
          effects_of o = [RunInSession (session_ s) WorkEnterVersionMismatch]) \/
       ((forall k, claiming_device_id_ s < k < DEVICE_ID_BROADCAST -> ~ id_free env s k) /\
          effects_of o = [RunInSession (session_ s) WorkEnterError]))).

Lemma complete_outcome env s :
  GetStatus (device_ s) = CLAIMING ->
  (id_claim_result_ s = Some CLAIM_ACCEPT \/
   (claiming_device_id_ s <> DEVICE_ID_UNASSIGNED /\ id_claim_result_ s <> Some CLAIM_REJECT /\
    id_claim_result_ s <> Some CLAIM_VERSION_INCOMPATIBLE /\ id_claim_attempt_ s = ID_CLAIM_MAX_ATTEMPTS)) ->
  claim_outcome env s ((CompleteIdClaim ;; mret None) s).
Proof.
  intros Hst Hwhy. destruct (CompleteIdClaim_online s Hst) as (Hok & Hid & Hon & _).
  destruct (CompleteIdClaim s) as [[s1 e1] r] eqn:E. cbn [result_of state_of fst snd] in *. subst r.
  erewrite bind_ok by exact E. right; left. by split_and!.
Qed.

Lemma resend_outcome env s :
  id_claim_result_ s <> Some CLAIM_REJECT -> id_claim_result_ s <> Some CLAIM_VERSION_INCOMPATIBLE ->
  claim_outcome env s (SendNextClaim s).
Proof.
  intros Hr Hv. left. rewrite SendNextClaim_run. split_and!; try done.
  - unfold claim_budget. simpl. lia.
  - by left.
Qed.

Lemma select_outcome env s :
  net_wf s ->
  claim_outcome env s ((SelectNextId env ≫= fun selected : bool => if selected then SendNextClaim else mret None) s).
Proof.
  intros Hs. pose proof (nw_attempt _ Hs) as Ha.
  destruct (SelectNextId_spec env s Hs) as (s' & Hs' & [(j & Hj & Hr & Hf & _)|[Hj Hnone]]);
    erewrite bind_ok by exact Hj.
  - left. rewrite SendNextClaim_run.
    assert (device_ s' = device_ s /\ base_can_id_ s' = base_can_id_ s) as [Hd Hb] by by destruct Hs' as [-> | ->].
    rewrite prepend_nil. split_and!; try done.
    + unfold claim_frame, effects_of. simpl. by rewrite Hd, Hb.
    + unfold claim_budget, DEVICE_ID_BROADCAST, ID_CLAIM_MAX_ATTEMPTS in *. simpl. lia.
    + right. by split; [destruct Hr|].
  - right; right. split_and!; try done; [by destruct Hs' as [-> | ->]|by right].
Qed.

Lemma RunIdClaimAttempt_outcome env s :
  net_wf s -> GetStatus (device_ s) = CLAIMING -> env_bus_valid env = true ->
  claim_outcome env s (RunIdClaimAttempt env s).
Proof.
  intros Hs Hst Hbus. unfold RunIdClaimAttempt. rewrite bind_get, bool_decide_eq_true_2, Hbus by done. cbn [negb].
  destruct (bool_decide_reflect (id_claim_result_ s = Some CLAIM_VERSION_INCOMPATIBLE)) as [Hv|Hv].
  { right; right. split_and!; try done. by left. }
  destruct (bool_decide_reflect (id_claim_result_ s = Some CLAIM_ACCEPT)) as [Hok|Hok].
  { apply complete_outcome; auto. }
  destruct (bool_decide_reflect (claiming_device_id_ s = DEVICE_ID_UNASSIGNED)) as [Hu|Hu];
    [by apply select_outcome|].
  destruct (bool_decide_reflect (id_claim_result_ s = Some CLAIM_REJECT)) as [Hr|Hr];
    [by apply select_outcome|]. cbn [orb].
  destruct (bool_decide_reflect (id_claim_attempt_ s = ID_CLAIM_MAX_ATTEMPTS)) as [Hm|Hm];
    [apply complete_outcome; auto|by apply resend_outcome].
Qed.

Lemma RunIdClaimAttempt_rounds env s s' e b :
  net_wf s -> RunIdClaimAttempt env s = (s', e, Ok (Some b)) -> net_wf s' /\ claim_budget s' < claim_budget s.
Proof.
  intros Hs Hrun. pose proof (RunIdClaimAttempt_wf env s Hs) as Hw. rewrite Hrun in Hw. split; [done|].
  destruct (decide (GetStatus (device_ s) = CLAIMING)) as [Hst|Hst].
  2: { unfold RunIdClaimAttempt in Hrun. rewrite bind_get, bool_decide_eq_false_2 in Hrun by done. done. }
  destruct (env_bus_valid env) eqn:Hbus.
  2: { unfold RunIdClaimAttempt in Hrun. by rewrite bind_get, bool_decide_eq_true_2, Hbus in Hrun by done. }
  pose proof (RunIdClaimAttempt_outcome env s Hs Hst Hbus) as Ho. rewrite Hrun in Ho.
  by destruct Ho as [(_ & _ & _ & Hlt & _)|[(? & _)|(? & _)]].
Qed.

Definition restarts_claim (op : NetOp) : bool :=
  match op with OpQueued _ WorkStartIdClaim => true | _ => false end.

Lemma claim_rounds_le l s :
  net_wf s -> Forall (fun p => op_wf p.2 /\ restarts_claim p.2 = false) l -> claim_rounds l s <= claim_budget s.
Proof.
  revert s. induction l as [|[env op] l IH]; intros s Hs Hl.
  { by apply claim_budget_nonneg. }
  apply Forall_cons in Hl as [[Hop Hr] Hl].
  destruct (steps_claim op) eqn:Hd.
  - destruct op as [|n []| | | | | | | | | | | |]; try done. cbn [claim_rounds].
    pose proof (claim_budget_nonneg s Hs).
    destruct (RunIdClaimAttempt env s) as [[s' e] [[b|]|x|]] eqn:Hrun; [|done..].
    apply RunIdClaimAttempt_rounds in Hrun as [Hs' Hlt]; [|done]. specialize (IH s' Hs' Hl). lia.
  - assert (claim_rounds ((env, op) :: l) s = claim_rounds l (state_of (run_op env op s))) as ->
      by (by destruct op).
    pose proof (run_op_keeps_claim env op Hd s) as Hk.
    specialize (IH _ (run_op_wf env op Hop s Hs) Hl).
    enough (claim_budget (state_of (run_op env op s)) = claim_budget s) by lia.
    unfold keeps, claim_progress in Hk. unfold claim_budget. by injection Hk as -> ->.
Qed.
End claim.

(** C8. However frames, heartbeats, stops and other work fall between its steps, the claim task is rescheduled
    at most [claim_budget] times, which is at most 2550 (ten claims for each of the 254 IDs, and some
    slack); and each of its steps on a valid bus either sends one more claim, for the same ID or for a
    free higher one, or comes ONLINE with the claimed ID because it was accepted or ten claims brought no
    objection, or gives the claim up because of the protocol version or because no ID is free. *)
Theorem claim_ends `{UnorderedIter} l s :
  net_wf s -> Forall (fun p => op_wf p.2 /\ restarts_claim p.2 = false) l ->
  claim_rounds l s <= claim_budget s <= 2550 /\
  (forall env, GetStatus (device_ s) = CLAIMING -> env_bus_valid env = true ->
     claim_outcome env s (RunIdClaimAttempt env s)).
Proof.
  intros Hs Hl. split; [split|].
  - by apply claim_rounds_le.
  - pose proof (nw_claiming _ Hs). pose proof (nw_attempt _ Hs).
    unfold claim_budget, DEVICE_ID_BROADCAST, ID_CLAIM_MAX_ATTEMPTS in *. lia.
  - intros env. by apply RunIdClaimAttempt_outcome.
Qed.

Definition claiming_device : CdmpDevice := sample_device <| status_machine_ := NewStatusMachine CLAIMING |>.
Definition refused_run : list (Env * NetOp) :=
  concat (replicate 3
    [(mkEnv 0 true, OpClaimTask);
     (mkEnv 1 true, OpFrame (IdClaimResponse_ToCanFrame (mkIdClaimResponse 1 1 7 CLAIM_REJECT)))])
  ++ replicate 20 (mkEnv 50 true, OpClaimTask).
(** ID 1 is refused once, then ten claims for ID 2 go unanswered. *)
Lemma claim_ends_witness :
  @claim_rounds some_iter refused_run (NewNetworkService claiming_device 1792) = 11 /\
  @claim_rounds some_iter refused_run (NewNetworkService claiming_device 1792) <= 2550.
Proof.
  split; [vm_compute; reflexivity|].
  refine (let H := @claim_ends some_iter refused_run (NewNetworkService claiming_device 1792)
                     (NewNetworkService_wf _ _) _ in _).
  - destruct H as [[H1 H2] _]. exact (Z.le_trans _ _ _ H1 H2).
  Unshelve. apply (bool_decide_eq_true_1 _). vm_compute. reflexivity.
Defined.

(** ** The answers to a claim *)

(** The answers that arrive between two steps, in order. *)
Definition hear (responses : list CdmpIdClaimResponseMessage) (s : NetworkService) : NetworkService :=
  foldl (fun s m => state_of (ProcessIdClaimResponseFrame (IdClaimResponse_ToCanFrame m) s)) s responses.

(** The result after the answers [codes], in order. *)
Definition weigh (result : option Z) (code : Z) : option Z :=
  if negb (bool_decide (code = CLAIM_ACCEPT)) || bool_decide (result = None) then Some code else result.

Section answers.
Implicit Types (s : NetworkService).

Definition with_result (r : option Z) (s : NetworkService) : NetworkService := s <| id_claim_result_ := r |>.

Lemma ProcessIdClaimResponseFrame_run m s :
  GetStatus (device_ s) = CLAIMING ->
  state_of (ProcessIdClaimResponseFrame (IdClaimResponse_ToCanFrame m) s) =
    if bool_decide (cresp_claiming_device_id m = claiming_device_id_ s)
    then with_result (weigh (id_claim_result_ s) (cresp_result m)) s else s.
Proof.
  intros Hst. unfold ProcessIdClaimResponseFrame.
  change (IdClaimResponse_FromCanFrame (IdClaimResponse_ToCanFrame m)) with
    (Ok (mkIdClaimResponse (cresp_responding_device_id m) (cresp_claiming_device_id m) 0 (cresp_result m))).
  unfold try_log. rewrite bind_lift_ok, bind_get. rewrite bool_decide_eq_true_2 by done. cbn [negb].
  cbn [cresp_claiming_device_id cresp_result]. case_bool_decide; cbn [negb]; [|done].
  unfold weigh. destruct (_ || _); simpl; by destruct s.
Qed.

Lemma hear_spec rs s :
  GetStatus (device_ s) = CLAIMING ->
  hear rs s = with_result
    (foldl weigh (id_claim_result_ s)
       (cresp_result <$> filter (fun m => cresp_claiming_device_id m = claiming_device_id_ s) rs)) s.
Proof.
  revert s. induction rs as [|m rs IH]; intros s Hst; [by destruct s|].
  change (hear (m :: rs) s) with
    (hear rs (state_of (ProcessIdClaimResponseFrame (IdClaimResponse_ToCanFrame m) s))).
  rewrite ProcessIdClaimResponseFrame_run, filter_cons by done.
  case_bool_decide; [rewrite decide_True by done|rewrite decide_False by done]; by rewrite IH by done.
Qed.

(** One objection is never forgotten, and only acceptances leave acceptance. *)
Lemma weigh_objected codes r :
  (exists c, r = Some c /\ c <> CLAIM_ACCEPT) \/ Exists (fun c => c <> CLAIM_ACCEPT) codes ->
  exists c, foldl weigh r codes = Some c /\ c <> CLAIM_ACCEPT /\ (r = Some c \/ c ∈ codes).
Proof.
  revert r. induction codes as [|c codes IH]; intros r H; cbn [foldl].
  { destruct H as [(c & -> & Hc)|H%Exists_nil]; [|done]. exists c. auto. }
  destruct (IH (weigh r c)) as (c' & Hf & Hn & Hin).
  { unfold weigh. destruct (bool_decide_reflect (c = CLAIM_ACCEPT)) as [->|Hc]; cbn [negb orb].
    - destruct H as [(c' & -> & Hc')|H]; [left; by exists c'|]. apply Exists_cons in H as [H|H]; [done|by right].
    - left. by exists c. }
  exists c'. split_and!; [done..|]. destruct Hin as [Hw|Hin]; [|right; by right].
  unfold weigh in Hw. destruct (_ || _); [right|by left].
  injection Hw as ->. left.
Qed.
Lemma weigh_accepted codes :
  codes <> [] -> Forall (fun c => c = CLAIM_ACCEPT) codes -> foldl weigh None codes = Some CLAIM_ACCEPT.
Proof.
  intros Hn Hall. destruct codes as [|c codes]; [done|]. apply Forall_cons in Hall as [-> Hall]. cbn [foldl].
  change (weigh None CLAIM_ACCEPT) with (Some CLAIM_ACCEPT). clear Hn.
  induction codes as [|c codes IH]; [done|]. apply Forall_cons in Hall as [-> Hall]. by apply IH.
Qed.
End answers.

Lemma RunIdClaimAttempt_accepted `{UnorderedIter} env s :
  GetStatus (device_ s) = CLAIMING -> env_bus_valid env = true ->
  let o := RunIdClaimAttempt env (with_result (Some CLAIM_ACCEPT) s) in
  device_id_ (device_ (state_of o)) = claiming_device_id_ s /\ GetStatus (device_ (state_of o)) = ONLINE.
Proof.
  intros Hst Hbus o.
  assert (o = (CompleteIdClaim ;; mret None) (with_result (Some CLAIM_ACCEPT) s)) as ->.
  { unfold o, RunIdClaimAttempt. rewrite bind_get, bool_decide_eq_true_2, Hbus by done. done. }
  destruct (CompleteIdClaim_online (with_result (Some CLAIM_ACCEPT) s) Hst) as (Hok & Hid & Hon & _).
  destruct (CompleteIdClaim _) as [[s1 e1] r] eqn:E. cbn [result_of state_of fst snd] in *. subst r.
  by erewrite bind_ok by exact E.
Qed.

Definition known_result (m : CdmpIdClaimResponseMessage) : Prop :=
  cresp_result m = CLAIM_ACCEPT \/ cresp_result m = CLAIM_REJECT \/ cresp_result m = CLAIM_VERSION_INCOMPATIBLE.

(** C5. The answers to a claim may come from several units and in any order, mixed with answers to other
    claims.  One objection among them, from the owner of the ID or about the protocol version, outweighs
    any number of acceptances before or after it: the next step does not take the ID, and goes on with a
    higher one or gives up.  When there are only acceptances, the next step comes ONLINE with the ID. *)
Theorem objection_outweighs_acceptance `{UnorderedIter} env s responses :
  net_wf s -> GetStatus (device_ s) = CLAIMING -> env_bus_valid env = true -> id_claim_result_ s = None ->
  Forall known_result responses ->
  let answers := filter (fun m => cresp_claiming_device_id m = claiming_device_id_ s) responses in
  let o := RunIdClaimAttempt env (hear responses s) in
  (Exists (fun m => cresp_result m <> CLAIM_ACCEPT) answers ->
     device_ (state_of o) = device_ s /\
     (claiming_device_id_ s < claiming_device_id_ (state_of o) \/
      claiming_device_id_ (state_of o) = DEVICE_ID_UNASSIGNED)) /\
  (answers <> [] -> Forall (fun m => cresp_result m = CLAIM_ACCEPT) answers ->
     device_id_ (device_ (state_of o)) = claiming_device_id_ s /\ GetStatus (device_ (state_of o)) = ONLINE).
Proof.
  intros Hs Hst Hbus Hnone Hknown answers o. unfold o. rewrite hear_spec, Hnone by done. fold answers.
  assert (forall r, net_wf (with_result r s)) as Hw by (intros r; by destruct Hs).
  assert (forall m, m ∈ answers -> known_result m) as Hka.
  { intros m [_ Hm]%list_elem_of_filter. by eapply Forall_forall in Hknown. }
  split.
  - intros Hobj. destruct (weigh_objected (cresp_result <$> answers) None) as (c & Hc & Hn & Hin).
    { right. apply Exists_fmap. done. }
    destruct Hin as [|(m & -> & Hm)%list_elem_of_fmap]; [done|].
    specialize (Hka m Hm). rewrite Hc.
    pose proof (RunIdClaimAttempt_outcome env _ (Hw (Some (cresp_result m))) Hst Hbus) as Ho.
    assert (cresp_result m = CLAIM_REJECT \/ cresp_result m = CLAIM_VERSION_INCOMPATIBLE) as Hcode
      by (by destruct Hka).
    destruct Ho as [(_ & Hd & _ & _ & [(_ & Hr & Hv)|[Hlt _]])|[(_ & _ & _ & Hwhy)|(_ & Hd & Hz & _)]].
    + exfalso. destruct Hcode as [E|E]; [apply Hr|apply Hv]; simpl; by rewrite E.
    + split; [done|by left].
    + exfalso. destruct Hwhy as [Ha|(_ & Hr & Hv & _)]; [by injection Ha|].
      destruct Hcode as [E|E]; [apply Hr|apply Hv]; simpl; by rewrite E.
    + split; [done|by right].
  - intros Hn Hall. rewrite weigh_accepted; [|by intros ?%fmap_nil_inv|by apply Forall_fmap].
    by apply RunIdClaimAttempt_accepted.
Qed.

(** ID 1 is accepted by device 5 and refused by its owner, in this order. *)
Lemma objection_outweighs_acceptance_witness :
  let s := state_of (@RunIdClaimAttempt some_iter (mkEnv 0 true) (NewNetworkService claiming_device 1792)) in
  let o := @RunIdClaimAttempt some_iter (mkEnv 50 true)
             (hear [mkIdClaimResponse 5 1 0 CLAIM_ACCEPT; mkIdClaimResponse 1 1 0 CLAIM_REJECT] s) in
  device_ (state_of o) = device_ s.
Proof.
  refine (proj1 (proj1 (@objection_outweighs_acceptance some_iter (mkEnv 50 true)
    (state_of (@RunIdClaimAttempt some_iter (mkEnv 0 true) (NewNetworkService claiming_device 1792)))
    [mkIdClaimResponse 5 1 0 CLAIM_ACCEPT; mkIdClaimResponse 1 1 0 CLAIM_REJECT] _ _ _ _ _) _)).
  - apply (@RunIdClaimAttempt_wf some_iter), NewNetworkService_wf.
  - vm_compute. reflexivity.
  - reflexivity.
  - vm_compute. reflexivity.
  - apply Forall_cons_2; [by left|]. apply Forall_cons_2; [right; by left|]. apply Forall_nil_2.
  - apply (bool_decide_eq_true_1 _). vm_compute. reflexivity.
Defined.

(** C17. Between [StartIdClaim] and the first claim the unit claims no ID, which the code writes as ID 0; an
    acceptance of ID 0 that arrives then is taken for the answer, and the unit comes ONLINE with the
    unassigned ID. *)
Theorem acceptance_before_the_first_claim_assigns_no_id `{UnorderedIter} env s responder :
  GetStatus (device_ s) = CLAIMING -> env_bus_valid env = true ->
  let s0 := state_of (StartIdClaim s) in
  let o := RunIdClaimAttempt env (hear [mkIdClaimResponse responder 0 0 CLAIM_ACCEPT] s0) in
  GetStatus (device_ (state_of o)) = ONLINE /\ device_id_ (device_ (state_of o)) = DEVICE_ID_UNASSIGNED.
Proof.
  intros Hst Hbus s0 o.
  assert (device_ s0 = device_ s /\ claiming_device_id_ s0 = 0 /\ id_claim_result_ s0 = None) as (Hd & Hc & Hr).
  { unfold s0, StartIdClaim. rewrite bind_modify, bind_get, state_of_when_emit. done. }
  unfold o. rewrite hear_spec by (by rewrite Hd). rewrite Hr, Hc.
  destruct (RunIdClaimAttempt_accepted env s0) as [Hid Hon]; [by rewrite Hd|done|].
  rewrite Hc in Hid. done.
Qed.
Lemma acceptance_before_the_first_claim_assigns_no_id_witness :
  device_id_ (device_ (state_of (@RunIdClaimAttempt some_iter (mkEnv 0 true)
    (hear [mkIdClaimResponse 5 0 0 CLAIM_ACCEPT] (state_of (StartIdClaim (NewNetworkService claiming_device 1792))))))) = 0.
Proof.
  exact (proj2 (@acceptance_before_the_first_claim_assigns_no_id some_iter (mkEnv 0 true)
    (NewNetworkService claiming_device 1792) 5 eq_refl eq_refl)).
Defined.
