(* ===== verification/CdmpNetworkTable.v ===== *)
(** * CDMP network service: the device table

    Which devices leave, what a claim may change, and the two values every unit derives from its table:
    whether it has the lowest ID, and its slot among the answers. *)

From S2P Require Import Prelude Can Cdmp CdmpMessages CdmpEffects Service CdmpNetwork CdmpNetworkSpec CdmpNetworkEvents.

(** ** The table without the derived values *)

Definition core (d : CdmpDevice) : CdmpDevice :=
  d <| is_lowest_id_on_network_ := false |> <| staggered_message_delay_ := 0 |>.
Definition core_table (s : NetworkService) : gmap Z CdmpDevice := core <$> network_devices_ s.

Section table.
Context `{UnorderedIter} (env : Env).
Implicit Types (s : NetworkService).

Lemma core_table_refreshed s : core_table (refreshed s) = core_table s.
Proof.
  apply map_eq. intros i. unfold core_table. rewrite !lookup_fmap.
  destruct (network_devices_ (refreshed s) !! i) as [d|] eqn:E.
  - apply refreshed_lookup in E as (d0 & -> & ->). done.
  - destruct (network_devices_ s !! i) as [d|] eqn:E'; [|done].
    assert (i ∈ known_ids (refreshed s)) as Hin by (rewrite refreshed_dom; by eapply elem_of_dom_2).
    apply not_elem_of_dom in E. done.
Qed.

Lemma core_table_lookup s i d : network_devices_ s !! i = Some d -> core_table s !! i = Some (core d).
Proof. unfold core_table. rewrite lookup_fmap. by intros ->. Qed.

Lemma RemoveDevice_core s id d :
  network_devices_ s !! id = Some d ->
  exists s1, RemoveDevice id s = (s1, [NotifyDeviceEvent LEFT (ToDeviceInfo (core d))], Ok tt) /\
    core_table s1 = delete id (core_table s).
Proof.
  intros Hd. eexists. split; [by erewrite RemoveDevice_present by done|].
  rewrite core_table_refreshed. unfold core_table. simpl. by rewrite fmap_delete.
Qed.

(** Removing a list of known devices, one after another. *)
Lemma remove_all (l : list (Z * CdmpDevice)) s :
  NoDup l.*1 -> (forall i d, (i, d) ∈ l -> core_table s !! i = Some (core d)) ->
  exists s1, for_each l.*1 RemoveDevice s =
      (s1, (fun p : Z * CdmpDevice => NotifyDeviceEvent LEFT (ToDeviceInfo p.2)) <$> l, Ok tt) /\
    core_table s1 = filter (fun p : Z * CdmpDevice => p.1 ∉ l.*1) (core_table s).
Proof.
  revert s. induction l as [|[i d] l IH]; intros s Hnd Hl; cbn [fmap list_fmap for_each].
  { exists s. split; [done|]. symmetry. apply map_filter_id. intros j d _. simpl. apply not_elem_of_nil. }
  apply NoDup_cons in Hnd as [Hni Hnd].
  pose proof (Hl i d ltac:(left)) as Hi. unfold core_table in Hi. rewrite lookup_fmap in Hi.
  apply fmap_Some in Hi as (d0 & Hd0 & Hcore).
  destruct (RemoveDevice_core s i d0 Hd0) as (s1 & Hrun & Hc1).
  destruct (IH s1 Hnd) as (s2 & Hrun2 & Hc2).
  { intros j e Hj. rewrite Hc1. rewrite lookup_delete_ne; [apply Hl; by right|].
    intros ->. apply Hni, list_elem_of_fmap. by exists (j, e). }
  exists s2. split.
  - erewrite bind_ok by exact Hrun. rewrite Hrun2. unfold prepend. simpl. rewrite <- Hcore. done.
  - rewrite Hc2, Hc1. apply map_eq. intros j. apply option_eq. intros x.
    rewrite !map_lookup_filter_Some, lookup_delete_Some. simpl. rewrite not_elem_of_cons. naive_solver.
Qed.

Definition timed_out (d : CdmpDevice) : Prop := HEARTBEAT_TIMEOUT_MS < GetLastHeartbeatDeltaMs (env_now env) d.
#[export] Instance timed_out_dec d : Decision (timed_out d).
Proof. unfold timed_out. apply _. Defined.

Lemma OfflineDevices_filter s :
  OfflineDevices env s = (filter (fun p : Z * CdmpDevice => timed_out p.2) (uiter (network_devices_ s))).*1.
Proof. done. Qed.
End table.

Lemma device_events_left (l : list (Z * CdmpDevice)) :
  device_events ((fun p : Z * CdmpDevice => NotifyDeviceEvent LEFT (ToDeviceInfo p.2)) <$> l)
  = (fun p : Z * CdmpDevice => (LEFT, ToDeviceInfo p.2)) <$> l.
Proof. induction l as [|p l IH]; [done|]. cbn [fmap list_fmap]. unfold device_events in *. simpl. f_equal. exact IH. Qed.

(** The validation removes from the table exactly the devices whose last heartbeat is more than the
    timeout ago, with one LEFT event for each of them and no other event; every other device stays as it
    was (but for the lowest-ID flag and the stagger, which follow the table). *)
Theorem offline_devices_leave `{UnorderedIter} env s :
  let o := RemoveOfflineDevices env s in
  result_of o = Ok tt /\
  core_table (state_of o) = filter (fun p : Z * CdmpDevice => ~ timed_out env p.2) (core_table s) /\
  Permutation (device_events (effects_of o))
    ((fun p : Z * CdmpDevice => (LEFT, ToDeviceInfo p.2))
       <$> map_to_list (filter (fun p : Z * CdmpDevice => timed_out env p.2) (network_devices_ s))).
Proof.
  intros o. unfold o, RemoveOfflineDevices. rewrite bind_gets, OfflineDevices_filter.
  set (l := filter _ (uiter _)).
  assert (forall i d, (i, d) ∈ l <-> network_devices_ s !! i = Some d /\ timed_out env d) as Hl.
  { intros i d. unfold l. rewrite list_elem_of_filter, elem_of_uiter. naive_solver. }
  assert (NoDup l.*1) as Hnd.
  { eapply sublist_NoDup; [apply (NoDup_uiter_fst (network_devices_ s))|]. apply fmap_sublist, sublist_filter. }
  destruct (remove_all l s) as (s1 & Hrun & Hc); [done| |].
  { intros i d [Hd _]%Hl. by apply core_table_lookup. }
  rewrite Hrun. split_and!; [done| |].
  - cbn [state_of fst]. rewrite Hc. apply map_eq. intros i. apply option_eq. intros x.
    rewrite !map_lookup_filter_Some. simpl.
    enough (core_table s !! i = Some x -> (i ∈ l.*1 <-> timed_out env x)) by tauto.
    intros Hx. unfold core_table in Hx. rewrite lookup_fmap in Hx. apply fmap_Some in Hx as (d & Hd & ->).
    change (timed_out env (core d)) with (timed_out env d). rewrite list_elem_of_fmap. split.
    + intros ([j e] & -> & [He Ht]%Hl). simpl in *. congruence.
    + intros Ht. exists (i, d). split; [done|]. by apply Hl.
  - unfold effects_of. simpl. clear Hrun Hc.
    rewrite device_events_left.
    apply fmap_Permutation, NoDup_Permutation; [by eapply NoDup_fmap_1|apply NoDup_map_to_list|].
    intros [i d]. rewrite Hl, elem_of_map_to_list, map_lookup_filter_Some. done.
Qed.

(** ** What an ID claim may change *)

(** Nothing is added, and devices of other UIDs stay as they were. *)
Definition spares (uid : Z) (s : NetworkService) (_ : list Effect) (s' : NetworkService) : Prop :=
  (forall id, core_table s !! id = None -> core_table s' !! id = None) /\
  (forall id d, core_table s !! id = Some d -> uid_ d <> uid -> core_table s' !! id = Some d).
#[export] Instance spares_trace uid : TraceRel (spares uid).
Proof.
  split; [by split|]. intros s1 s2 s3 e1 e2 [Hn1 Hs1] [Hn2 Hs2]. split; [auto|].
  intros id d Hd Hu. by apply Hs2; [apply Hs1|].
Qed.
Lemma spares_same uid s e s' : core_table s' = core_table s -> spares uid s e s'.
Proof. intros E. split; by rewrite E. Qed.

Section spares.
Context `{UnorderedIter} (env : Env).

Lemma StorePendingIdClaim_table c s :
  network_devices_ (state_of (StorePendingIdClaim env c s)) = network_devices_ s.
Proof.
  unfold StorePendingIdClaim. rewrite bind_modify. erewrite bind_ok by apply FindPendingIdClaim_run.
  rewrite prepend_nil. destruct (claim_slot _ _); [done|].
  erewrite bind_ok by apply FindPendingIdClaim_run. by destruct (claim_slot _ _).
Qed.

Lemma RecordIdClaim_spares c : respects (spares (claim_uid c)) (RecordIdClaim env c).
Proof.
  intros s. unfold RecordIdClaim. rewrite bind_get. destruct (_ || _); [by apply trace_nil|].
  destruct (network_devices_ s !! _) as [d|] eqn:Hd.
  - destruct (bool_decide_reflect (uid_ d = claim_uid c)) as [Hu|Hu]; cbn [negb]; [|by apply trace_nil].
    erewrite bind_ok by apply FindPendingIdClaim_run. rewrite prepend_nil, bind_get, bind_modify.
    erewrite bind_ok by apply StorePendingIdClaim_run. rewrite prepend_nil.
    rewrite state_of_when_emit.
    unfold spares, core_table, stored. rewrite StorePendingIdClaim_table. simpl.
    setoid_rewrite lookup_fmap. split.
    + intros id Hid. apply fmap_None in Hid. rewrite lookup_insert_ne; [by rewrite Hid|]. intros <-. by simplify_eq.
    + intros id e He Hne. apply fmap_Some in He as (d0 & Hd0 & ->).
      rewrite lookup_insert_ne; [by rewrite Hd0|]. intros <-. by simplify_eq.
  - unfold FindDeviceIdByUid. rewrite bind_gets. destruct (find_first _ _) as [[previous p]|] eqn:Hf; simpl.
    + apply find_first_Some in Hf as [Hp Hu]. apply elem_of_uiter in Hp. apply bool_decide_eq_true in Hu. simpl in Hu.
      erewrite bind_ok by apply StorePendingIdClaim_run. rewrite prepend_nil.
      pose proof (StorePendingIdClaim_table c s) as Ht. fold (stored env c s) in Ht.
      destruct (RemoveDevice_core (stored env c s) previous p) as (s1 & Hrun & Hc); [by rewrite Ht|].
      rewrite Hrun. unfold spares. cbn [state_of fst]. rewrite Hc. unfold core_table. rewrite Ht. split.
      * intros id Hid. by rewrite lookup_delete_None; right.
      * intros id e He Hne. rewrite lookup_delete_ne; [done|]. intros <-.
        rewrite lookup_fmap, Hp in He. simplify_eq/=.
    + erewrite bind_ok by apply StorePendingIdClaim_run. rewrite prepend_nil. apply spares_same.
      change (core <$> network_devices_ (stored env c s) = core_table s). unfold stored.
      by rewrite StorePendingIdClaim_table.
Qed.
End spares.

(** C12. An ID claim on the wire, whatever it says, adds no device to the table (only a heartbeat or a
    discovery response does), and touches no device of another UID: a unit cannot take over or evict
    another one's entry by claiming its ID. *)
Theorem id_claim_spares_other_devices `{UnorderedIter} env frame s claim :
  IdClaimRequest_FromCanFrame frame = Ok claim ->
  spares (claim_uid claim) s [] (state_of (ProcessIdClaimRequestFrame env frame s)).
Proof.
  intros Hdec.
  assert (respects (spares (claim_uid claim)) (ProcessIdClaimRequestFrame env frame)) as Hr; [|exact (Hr s)].
  unfold ProcessIdClaimRequestFrame. rewrite Hdec. apply respects_try. intros s1. rewrite bind_lift_ok.
  pose proof (RecordIdClaim_spares env claim). respect_rest; by apply spares_same.
Qed.

Definition two_devices : NetworkService :=
  NewNetworkService sample_device 1792
    <| network_devices_ := {[2 := sample_device <| device_id_ := 2 |> <| uid_ := 300 |>]} |>.
Lemma id_claim_spares_other_devices_witness :
  core_table (state_of (@ProcessIdClaimRequestFrame some_iter (mkEnv 50 true)
    (IdClaimRequest_ToCanFrame (mkIdClaimRequest 2 301 16)) two_devices)) !! 2 = core_table two_devices !! 2.
Proof.
  apply (proj2 (@id_claim_spares_other_devices some_iter (mkEnv 50 true)
    (IdClaimRequest_ToCanFrame (mkIdClaimRequest 2 301 16)) two_devices (mkIdClaimRequest 2 301 16) eq_refl)).
  - reflexivity.
  - vm_compute. discriminate.
Defined.

(** ** The lowest ID and the stagger *)

(** The slot of [id] among the units [ids]: 5 ms for every lower ID. *)
Definition stagger (ids : gset Z) (id : Z) : Z :=
  u32 (Z.of_nat (size (filter (fun i => i < id) ({[id]} ∪ ids))) * STAGGERED_MESSAGE_TIME_OFFSET_MS).

(** What the unit derives from its table is up to date. *)
Definition view_right (s : NetworkService) : Prop :=
  (is_lowest_id_on_network_ (device_ s) = true <-> set_Forall (fun i => device_id_ (device_ s) <= i) (known_ids s)) /\
  staggered_message_delay_ (device_ s) = stagger (known_ids s) (device_id_ (device_ s)).

Definition view_inputs (s : NetworkService) : gset Z * (Z * bool * Z) :=
  (known_ids s, (device_id_ (device_ s), is_lowest_id_on_network_ (device_ s), staggered_message_delay_ (device_ s))).

Definition tracks (s : NetworkService) (_ : list Effect) (s' : NetworkService) : Prop := view_right s -> view_right s'.
#[export] Instance tracks_trace : TraceRel tracks.
Proof. split; unfold tracks; auto. Qed.

Lemma tracks_same s e s' : view_inputs s' = view_inputs s -> tracks s e s'.
Proof. unfold tracks, view_right. intros [= -> -> -> ->]. done. Qed.

(** A change of the unit's own device which another service makes: not the ID and what depends on it. *)
Definition keeps_identity (change : CdmpDevice -> CdmpDevice) : Prop :=
  forall d, device_id_ (change d) = device_id_ d /\
    is_lowest_id_on_network_ (change d) = is_lowest_id_on_network_ d /\
    staggered_message_delay_ (change d) = staggered_message_delay_ d.

Section view.
Context `{UnorderedIter} (env : Env).
Implicit Types (s : NetworkService).

Lemma CalculateStaggered_set l id :
  CalculateStaggeredMessageTimeOffset l id = stagger (list_to_set l) id.
Proof. unfold CalculateStaggeredMessageTimeOffset, stagger. by rewrite (union_comm_L {[id]}). Qed.

Lemma GetAllDeviceIds_set s : list_to_set (GetAllDeviceIds s) = known_ids s.
Proof.
  apply set_eq. intros i. rewrite elem_of_list_to_set. unfold GetAllDeviceIds.
  by rewrite elem_of_uiter_fst, elem_of_dom.
Qed.

Lemma lowest_le l a :
  let f := fun lowest id => if bool_decide (id < lowest) then Z.min lowest id else lowest in
  foldl f a l <= a /\ (a = foldl f a l <-> Forall (fun i => a <= i) l).
Proof.
  intros f. revert a. induction l as [|i l IH]; intros a; cbn [foldl]; [split; [lia|by split]|].
  rewrite Forall_cons. destruct (IH (f a i)) as [Hle Heq]. unfold f in *. case_bool_decide as Hi.
  - rewrite Z.min_r in * by lia. split; [lia|]. split; [intros; lia|intros [? _]; lia].
  - split; [lia|]. rewrite Heq. naive_solver lia.
Qed.

Lemma view_refreshed s : view_right (refreshed s).
Proof.
  assert (known_ids (state_of (UpdateLowestIdOnNetwork s)) = known_ids s) as Hk.
  { apply set_eq. intros i. rewrite !elem_of_dom. simpl. rewrite map_lookup_imap.
    by destruct (network_devices_ s !! i). }
  unfold view_right. rewrite refreshed_dom. split.
  - change (is_lowest_id_on_network_ (device_ (refreshed s)))
      with (bool_decide (device_id_ (device_ s) = LowestIdOnNetwork s)).
    change (device_id_ (device_ (refreshed s))) with (device_id_ (device_ s)).
    rewrite bool_decide_eq_true. unfold LowestIdOnNetwork.
    destruct (lowest_le (GetAllDeviceIds s) (device_id_ (device_ s))) as [_ ->].
    rewrite <- GetAllDeviceIds_set, Forall_forall. unfold set_Forall. by setoid_rewrite elem_of_list_to_set.
  - rewrite <- Hk, <- GetAllDeviceIds_set. apply CalculateStaggered_set.
Qed.

Lemma UpdateNetworkDevices_tracks : respects tracks UpdateNetworkDevices.
Proof. intros s _. apply view_refreshed. Qed.
Lemma FindPendingIdClaim_tracks id : respects tracks (FindPendingIdClaim env id).
Proof. intros s. by apply tracks_same. Qed.
Lemma StorePendingIdClaim_tracks c : respects tracks (StorePendingIdClaim env c).
Proof.
  intros s. apply tracks_same. unfold view_inputs. rewrite StorePendingIdClaim_table.
  unfold StorePendingIdClaim. rewrite bind_modify. erewrite bind_ok by apply FindPendingIdClaim_run.
  rewrite prepend_nil. destruct (claim_slot _ _); [done|].
  erewrite bind_ok by apply FindPendingIdClaim_run. by destruct (claim_slot _ _).
Qed.
Lemma OwnDevice_tracks op : keeps_identity (fun d => (op d).1) -> respects tracks (OwnDevice op).
Proof.
  intros Hop s. apply tracks_same. unfold OwnDevice. rewrite bind_get.
  destruct (Hop (device_ s)) as (Hi & Hf & Hd). destruct (op (device_ s)) as [d calls].
  unfold view_inputs. simpl in *. by rewrite Hi, Hf, Hd.
Qed.
Lemma DeviceSetStatus_identity st force : keeps_identity (fun d => (DeviceSetStatus st force d).1).
Proof. intros d. unfold DeviceSetStatus. by destruct (SetStatus _ _ _). Qed.
Lemma AddOrUpdateDevice_tracks id uid f : respects tracks (AddOrUpdateDevice env id uid f).
Proof.
  intros s. destruct (network_devices_ s !! id) as [d|] eqn:E.
  - erewrite AddOrUpdateDevice_known by done. apply tracks_same. unfold view_inputs. simpl.
    by rewrite dom_insert_lookup_L by (by eexists).
  - destruct (decide (uid = 0)) as [->|Hu];
      [rewrite AddOrUpdateDevice_zero by done; by apply tracks_same|].
    rewrite AddOrUpdateDevice_new by done. intros _. apply view_refreshed.
Qed.
Lemma RemoveDevice_tracks id : respects tracks (RemoveDevice id).
Proof.
  intros s. destruct (network_devices_ s !! id) as [d|] eqn:E;
    [|rewrite RemoveDevice_absent by done; by apply tracks_same].
  erewrite RemoveDevice_present by done. intros _. apply view_refreshed.
Qed.
#[local] Hint Resolve UpdateNetworkDevices_tracks FindPendingIdClaim_tracks StorePendingIdClaim_tracks
  OwnDevice_tracks DeviceSetStatus_identity AddOrUpdateDevice_tracks RemoveDevice_tracks : respects.
#[local] Hint Extern 1 (respects tracks (OwnDevice _)) =>
  apply OwnDevice_tracks, DeviceSetStatus_identity : respects.

Ltac track := respect; by apply tracks_same.

Lemma RecordIdClaim_tracks c : respects tracks (RecordIdClaim env c).
Proof.
  intros s. unfold RecordIdClaim. rewrite bind_get. destruct (_ || _); [by apply trace_nil|].
  destruct (network_devices_ s !! _) as [d|] eqn:Hd; [|unfold FindDeviceIdByUid; respect_rest].
  case_match; [by apply trace_nil|].
  erewrite bind_ok by apply FindPendingIdClaim_run. rewrite prepend_nil, bind_get, bind_modify.
  set (s1 := upd network_devices_ _ (expired env s)). intros Hv.
  assert (view_right s1) as Hv1; [|clearbody s1; revert Hv1].
  { apply (tracks_same s []); [|done]. unfold view_inputs. simpl. by rewrite dom_insert_lookup_L by (by eexists). }
  match goal with |- view_right _ -> view_right (state_of (?m _)) => enough (respects tracks m) as Hm by exact (Hm s1) end.
  track.
Qed.
#[local] Hint Resolve RecordIdClaim_tracks : respects.

Lemma ProcessFrame_tracks f : respects tracks (ProcessFrame env f).
Proof.
  unfold ProcessFrame, ProcessDiscoveryRequestFrame, ProcessDiscoveryResponseFrame, UpdateDeviceFromDiscovery,
    ProcessIdClaimRequestFrame, ProcessIdClaimResponseFrame, FindDeviceIdByUid, DeviceInfoAt, ClearClaim, RunWork.
  track.
Qed.
Lemma UpdateDeviceFromHeartbeat_tracks hb : respects tracks (UpdateDeviceFromHeartbeat env hb).
Proof.
  unfold UpdateDeviceFromHeartbeat, DeviceInfoAt, ClearClaim, RequestRediscovery, SendDiscoveryRequest. track.
Qed.

Lemma CompleteIdClaim_tracks : respects tracks CompleteIdClaim.
Proof.
  intros s _. unfold CompleteIdClaim. rewrite bind_modify.
  erewrite bind_ok by apply UpdateNetworkDevices_run. rewrite prepend_nil.
  apply (OwnDevice_tracks (GoOnline false)); [apply DeviceSetStatus_identity|]. apply view_refreshed.
Qed.
#[local] Hint Resolve CompleteIdClaim_tracks ProcessFrame_tracks UpdateDeviceFromHeartbeat_tracks : respects.

Lemma GetLowestAvailableId_tracks i : respects tracks (GetLowestAvailableId env i).
Proof.
  unfold GetLowestAvailableId. generalize 256%nat, (u8 (i + 1)). intros n.
  induction n as [|n IH]; intros z; cbn [LowestAvailableFrom]; respect.
Qed.
Lemma SelectNextId_tracks : respects tracks (SelectNextId env).
Proof.
  intros s. unfold SelectNextId. pose proof (GetLowestAvailableId_tracks (claiming_device_id_ s) s) as Hk. revert Hk.
  generalize (GetLowestAvailableId env (claiming_device_id_ s) s). by intros [[s1 e1] [j|x|]].
Qed.
#[local] Hint Resolve SelectNextId_tracks : respects.

Lemma RunIdClaimAttempt_tracks : respects tracks (RunIdClaimAttempt env).
Proof. unfold RunIdClaimAttempt, DropClaim, RunWork, SendNextClaim, SendIdClaim. track. Qed.
Lemma RunDiscoveryAttempt_tracks : respects tracks (RunDiscoveryAttempt env).
Proof. unfold RunDiscoveryAttempt, SendDiscoveryRequest. track. Qed.
Lemma ProcessPeriodicValidation_tracks : respects tracks (ProcessPeriodicValidation env).
Proof. unfold ProcessPeriodicValidation, ProcessPeriodicTasks, RemoveOfflineDevices. track. Qed.
Lemma RunQueuedWork_tracks n w : respects tracks (RunQueuedWork env n w).
Proof.
  unfold RunQueuedWork, StartInitialization, StartIdClaim, SendDiscoveryResponse. track.
Qed.
#[local] Hint Resolve RunIdClaimAttempt_tracks RunDiscoveryAttempt_tracks ProcessPeriodicValidation_tracks
  RunQueuedWork_tracks : respects.

Definition own_change_ok (op : NetOp) : Prop :=
  match op with OpDevice change => keeps_identity change | _ => True end.

Lemma run_op_tracks op : forgets op = false -> own_change_ok op -> respects tracks (run_op env op).
Proof.
  intros Hf Ho. destruct op as [f|n w|hb| | | | |h| |st|id| |b|change]; simpl in Hf; try done; cbn [run_op];
    try solve [respect].
  - unfold Initialize; cbn [sw_state sw_initialize NetworkWorkOf]; unfold NetworkDoInitialize. track.
  - unfold NetworkOnDeviceStatusChanged, StartValidationTask, RunWork. destruct st; try done; track.
  - unfold SetAutoDiscovery. track.
  - intros s. apply tracks_same. destruct (Ho (device_ s)) as (Hi & Hl & Hd).
    unfold view_inputs. simpl. by rewrite Hi, Hl, Hd.
Qed.
(** *** What brings the view up to date *)

(** The attempts of a claim leave the unit's own device alone until the claim is complete. *)
Definition same_device (s : NetworkService) (_ : list Effect) (s' : NetworkService) : Prop := device_ s' = device_ s.
#[export] Instance same_device_trace : TraceRel same_device.
Proof. split; unfold same_device; congruence. Qed.

Lemma GetLowestAvailableId_device i : respects same_device (GetLowestAvailableId env i).
Proof.
  assert (forall id, respects same_device (FindPendingIdClaim env id)) by done.
  unfold GetLowestAvailableId. generalize 256%nat, (u8 (i + 1)). intros n.
  induction n as [|n IH]; intros z; cbn [LowestAvailableFrom]; respect.
Qed.
Lemma SelectNextId_device : respects same_device (SelectNextId env).
Proof.
  intros s. unfold SelectNextId. pose proof (GetLowestAvailableId_device (claiming_device_id_ s) s) as Hk. revert Hk.
  generalize (GetLowestAvailableId env (claiming_device_id_ s) s). by intros [[s1 e1] [j|x|]].
Qed.

Lemma CompleteIdClaim_view s : view_right (state_of ((CompleteIdClaim ;; mret (@None Z)) s)).
Proof.
  unfold CompleteIdClaim. rewrite bind_assoc, bind_modify, bind_assoc.
  erewrite bind_ok by apply UpdateNetworkDevices_run. rewrite prepend_nil.
  assert (respects tracks (OwnDevice (GoOnline false) ;; mret (@None Z))) as Hm by respect. apply Hm, view_refreshed.
Qed.

Lemma RunIdClaimAttempt_view s :
  device_ (state_of (RunIdClaimAttempt env s)) = device_ s \/ view_right (state_of (RunIdClaimAttempt env s)).
Proof.
  pose proof SelectNextId_device as Hsel.
  assert (forall m : NM TaskResult, respects same_device m -> device_ (state_of (m s)) = device_ s) as Hs by (intros m Hm; apply Hm).
  unfold RunIdClaimAttempt. rewrite bind_get.
  repeat (case_match; [try (by right; apply CompleteIdClaim_view); left; apply Hs;
    unfold DropClaim, RunWork, SendNextClaim, SendIdClaim; respect; done|]).
  left. apply Hs. unfold SendNextClaim, SendIdClaim. respect; done.
Qed.

(** The validation pass, and the completion of the ID claim, which puts the unit ONLINE. *)
Definition refreshes (op : NetOp) s : Prop :=
  match op with
  | OpValidationTask => is_validation_task_running_ s = true
  | OpClaimTask => GetStatus (device_ s) <> ONLINE /\ GetStatus (device_ (state_of (RunIdClaimAttempt env s))) = ONLINE
  | _ => False
  end.

Lemma RemoveOfflineDevices_ok s : exists s1 e, RemoveOfflineDevices env s = (s1, e, Ok tt).
Proof.
  destruct (offline_devices_leave env s) as [Hok _]. destruct (RemoveOfflineDevices env s) as [[s1 e] r] eqn:E.
  unfold result_of in Hok. simpl in Hok. subst r. by eexists _, _.
Qed.

Lemma refreshes_view op s : refreshes op s -> view_right (state_of (run_op env op s)).
Proof.
  destruct op; try done; cbn [refreshes run_op].
  - intros [Hb Ha]. assert (state_of ((RunIdClaimAttempt env ;; mret tt) s) = state_of (RunIdClaimAttempt env s)) as ->
      by (unfold state_of, mbind, M_bind; by destruct (RunIdClaimAttempt env s) as [[s1 e1] []]).
    destruct (RunIdClaimAttempt_view s) as [E|]; [|done]. congruence.
  - intros Hr. unfold ProcessPeriodicValidation, ProcessPeriodicTasks. rewrite bind_assoc, bind_get, Hr. cbn [negb].
    destruct (RemoveOfflineDevices_ok s) as (s1 & e & E). rewrite !bind_assoc. erewrite bind_ok by exact E.
    rewrite state_of_prepend. erewrite bind_ok by apply UpdateNetworkDevices_run. apply view_refreshed.
Qed.

(** An operation that does not empty the table keeps the view. *)
Lemma run_op_keeps_view op s :
  empties op s = false -> own_change_ok op -> view_right s -> view_right (state_of (run_op env op s)).
Proof.
  intros He Ho Hv. destruct (forgets op) eqn:Hf; [|by apply run_op_tracks].
  pose proof (NetworkStop_empties env s) as Hstop.
  destruct op as [| | | | | | |register| |[]| | | |]; try discriminate Hf; cbn [run_op]; simpl in He; try discriminate He;
    first [pose proof (NetworkStart_empties env register s) as E; unfold empties in E; rewrite He in E
          |unfold empties in Hstop; rewrite He in Hstop; pose proof Hstop as E];
    unfold NetworkOnDeviceStatusChanged; rewrite state_of_ignored; unfold state_of; by rewrite E.
Qed.
End view.

(** No operation of the run empties the table (see [empties]). *)
Fixpoint never_emptied `{UnorderedIter} (l : list (Env * NetOp)) (s : NetworkService) : bool :=
  match l with
  | [] => true
  | (env, op) :: l => negb (empties op s) && never_emptied l (state_of (run_op env op s))
  end.

Lemma never_emptied_view `{UnorderedIter} l s :
  never_emptied l s = true -> Forall (fun p => own_change_ok p.2) l -> view_right s -> view_right (run_ops l s).1.
Proof.
  revert s. induction l as [|[env op] l IH]; intros s Hn Hl Hv; [done|]. apply Forall_cons in Hl as [Ho Hl].
  simpl in Hn. apply andb_true_iff in Hn as [He%negb_true_iff Hn]. cbn [run_ops].
  specialize (IH _ Hn Hl (run_op_keeps_view env op s He Ho Hv)). by destruct (run_ops l _).
Qed.

(** C11. In every run of the service, from any state: once a validation pass has run, or the ID claim has put the unit
    ONLINE, the unit knows whether it has the lowest ID on the network, and its delay is its slot, 5 ms for every
    known unit with a lower ID; and it stays so whatever happens, until the service is started, stopped or cleared
    (other services change the unit's own device, but not its ID and what follows from it). *)
Theorem lowest_id_and_slot_follow_the_table `{UnorderedIter} l1 env op l2 s :
  let before := (run_ops l1 s).1 in
  refreshes env op before -> never_emptied l2 (state_of (run_op env op before)) = true ->
  Forall (fun p => own_change_ok p.2) l2 ->
  view_right (run_ops (l1 ++ (env, op) :: l2) s).1.
Proof.
  intros before Hr Hn Hl.
  assert (forall l1 l2 s, (run_ops (l1 ++ l2) s).1 = (run_ops l2 (run_ops l1 s).1).1) as Happ.
  { clear. induction l1 as [|[env op] l1 IH]; intros l2 s; [done|]. simpl. specialize (IH l2 (state_of (run_op env op s))).
    destruct (run_ops (l1 ++ l2) _), (run_ops l1 _). simpl in *. by rewrite IH. }
  rewrite Happ. cbn [run_ops]. pose proof (never_emptied_view l2 _ Hn Hl (refreshes_view env op before Hr)) as Hv.
  by destruct (run_ops l2 _).
Qed.

(** A unit that starts, finds its ID, and hears two others. *)
Definition starting_unit : NetworkService :=
  NewNetworkService (sample_device <| status_machine_ := NewStatusMachine CLAIMING |>) 1792
    <| claiming_device_id_ := 4 |> <| id_claim_attempt_ := ID_CLAIM_MAX_ATTEMPTS |>.
Lemma lowest_id_and_slot_follow_the_table_witness :
  let s := (@run_ops some_iter ([(mkEnv 5 true, OpStart (fun _ => 1))] ++ (mkEnv 9 true, OpClaimTask) :: sample_run) starting_unit).1 in
  view_right s /\ device_id_ (device_ s) = 4 /\ known_ids s = {[2; 9]} /\ is_lowest_id_on_network_ (device_ s) = false /\
  staggered_message_delay_ (device_ s) = 5.
Proof.
  split; [|by vm_compute].
  apply (@lowest_id_and_slot_follow_the_table some_iter).
  - split; vm_compute; [discriminate|reflexivity].
  - vm_compute. reflexivity.
  - repeat constructor.
Defined.

(** ** Two units that know each other *)

(** The IDs of the network as a unit sees it, its own among them. *)
Definition members (s : NetworkService) : gset Z := {[device_id_ (device_ s)]} ∪ known_ids s.

Lemma lower_members_lt (ids : gset Z) a b :
  a ∈ ids -> a < b ->
  (size (filter (fun i => i < a)%Z ids) < size (filter (fun i => i < b)%Z ids))%nat.
Proof.
  intros Ha Hab. apply subset_size. split.
  - intros i. rewrite !elem_of_filter. intros [? ?]. split; [lia|done].
  - intros Hsub. specialize (Hsub a). rewrite !elem_of_filter in Hsub. destruct (Hsub (conj Hab Ha)). lia.
Qed.

Lemma stagger_members s :
  stagger (known_ids s) (device_id_ (device_ s))
  = u32 (Z.of_nat (size (filter (fun i => i < device_id_ (device_ s)) (members s))) * STAGGERED_MESSAGE_TIME_OFFSET_MS).
Proof. done. Qed.

Lemma members_small s (P : Z -> Prop) `{!forall i, Decision (P i)} :
  net_wf s -> 1 <= device_id_ (device_ s) <= 254 -> (size (filter P (members s)) <= 254)%nat.
Proof.
  intros Hs Hid. change 254%nat with (length (seqZ 1 254)).
  rewrite <- (size_list_to_set (C := gset Z)) by apply NoDup_seqZ. apply subseteq_size.
  intros i [_ Hi]%elem_of_filter. rewrite elem_of_list_to_set, elem_of_seqZ.
  unfold members in Hi. apply elem_of_union in Hi as [->%elem_of_singleton|Hi]; [lia|].
  apply elem_of_dom in Hi as [d Hd]. apply (nw_table _ Hs) in Hd as [? _]. lia.
Qed.

(** An ID claim changes nothing about the unit itself. *)
Definition same_core (s : NetworkService) (_ : list Effect) (s' : NetworkService) : Prop := core (device_ s') = core (device_ s).
#[export] Instance same_core_trace : TraceRel same_core.
Proof. split; unfold same_core; congruence. Qed.

Lemma RecordIdClaim_core `{UnorderedIter} env c : respects same_core (RecordIdClaim env c).
Proof.
  assert (forall id, respects same_core (RemoveDevice id)) as Hr.
  { intros id s. destruct (network_devices_ s !! id) as [d|] eqn:E; [by erewrite RemoveDevice_present|by rewrite RemoveDevice_absent]. }
  assert (forall x, respects same_core (StorePendingIdClaim env x)) as Hst by (intros x; unfold StorePendingIdClaim; respect; done).
  unfold RecordIdClaim, FindDeviceIdByUid. respect; done.
Qed.

(** The frames of a method that starts at [t], with the times they are sent at. *)
Fixpoint sent_at (t : Z) (l : list Effect) : list (Z * (CanId * list Z)) :=
  match l with
  | [] => []
  | Sleep ms :: l => sent_at (t + ms) l
  | SendFrame i d :: l => (t, (i, d)) :: sent_at t l
  | _ :: l => sent_at t l
  end.

(** [own] has the unit of [peer] in its table. *)
Definition knows (own peer : NetworkService) : Prop :=
  exists d, network_devices_ own !! device_id_ (device_ peer) = Some d /\ uid_ d = uid_ (device_ peer).

(** The unit answers the claim with [result]. *)
Definition answers `{UnorderedIter} env (frame : list Z) (s : NetworkService) (result : Z) : Prop :=
  exists responder claimed uid,
    (GetManagementCanId (base_can_id_ s), IdClaimResponse_ToCanFrame (mkIdClaimResponse responder claimed uid result))
      ∈ frames_sent (effects_of (ProcessIdClaimRequestFrame env frame s)).

Lemma try_effects (m : NM unit) s : effects_of (try_log m s) = effects_of (m s).
Proof. unfold try_log, effects_of. by destruct (m s) as [[? ?] []]. Qed.

Lemma answers_ClaimAnswer `{UnorderedIter} env frame s claim result :
  IdClaimRequest_FromCanFrame frame = Ok claim -> answers env frame s result ->
  ClaimAnswer (device_ (state_of (RecordIdClaim env claim s))) claim = Some result.
Proof.
  intros Hdec (i & c & u & Hin). unfold ProcessIdClaimRequestFrame in Hin. rewrite Hdec in Hin.
  assert (frames_sent (effects_of (RecordIdClaim env claim s)) = []) as Hq.
  { assert (respects (fun _ e _ => frames_sent e = []) (RecordIdClaim env claim)) as Hr; [|exact (Hr s)].
    assert (TraceRel (fun (_ : NetworkService) e (_ : NetworkService) => frames_sent e = [])).
    { split; [done|]. intros ? ? ? e1 e2 E1 E2. by rewrite frames_sent_app, E1, E2. }
    assert (forall id, respects (fun _ e _ => frames_sent e = []) (RemoveDevice id)) as Hrm.
    { intros id s'. destruct (network_devices_ s' !! id) as [d|] eqn:E; [by erewrite RemoveDevice_present|by rewrite RemoveDevice_absent]. }
    unfold RecordIdClaim, StorePendingIdClaim, FindPendingIdClaim, ExpirePendingIdClaims, FindDeviceIdByUid. respect; done. }
  rewrite try_effects, bind_lift_ok in Hin.
  destruct (RecordIdClaim env claim s) as [[s1 e1] r] eqn:E. unfold effects_of in Hq. cbn [state_of fst snd] in Hq |- *.
  destruct r as [[]|x|].
  - erewrite bind_ok in Hin by exact E. rewrite effects_of_prepend, frames_sent_app, Hq, bind_get in Hin.
    destruct (negb (env_bus_valid env) || negb (IsOnline (device_ s1))); [by apply elem_of_nil in Hin|].
    destruct (ClaimAnswer (device_ s1) claim) as [result'|]; [|by apply elem_of_nil in Hin].
    apply list_elem_of_singleton in Hin. by simplify_eq/=.
  - erewrite bind_throw in Hin by exact E. unfold effects_of in Hin. cbn [fst snd] in Hin. rewrite Hq in Hin. by apply elem_of_nil in Hin.
  - erewrite bind_oob in Hin by exact E. unfold effects_of in Hin. cbn [fst snd] in Hin. rewrite Hq in Hin. by apply elem_of_nil in Hin.
Qed.

(** After the claim of a third unit the peer is still known. *)
Lemma RecordIdClaim_knows `{UnorderedIter} env claim s peer :
  knows s peer -> claim_uid claim <> uid_ (device_ peer) ->
  device_id_ (device_ peer) ∈ known_ids (state_of (RecordIdClaim env claim s)).
Proof.
  intros (d & Hd & Hu) Hne. destruct (RecordIdClaim_spares env claim s) as [_ Hs].
  specialize (Hs _ _ (core_table_lookup s _ d Hd)). unfold core_table in Hs. rewrite lookup_fmap in Hs.
  apply elem_of_dom. destruct (network_devices_ (state_of _) !! _); [done|]. discriminate Hs. simpl. congruence.
Qed.

Lemma SendDiscoveryResponse_sent env s t :
  sent_at t (effects_of (SendDiscoveryResponse env s)) =
    if IsOnline (device_ s) && env_bus_valid env
    then [(t + staggered_message_delay_ (device_ s), (GetManagementCanId (base_can_id_ s), DiscoveryResponse_ToCanFrame
            (mkDiscoveryResponse (device_id_ (device_ s)) (uid_ (device_ s)) (features_ (device_ s)))))]
    else [].
Proof. unfold SendDiscoveryResponse. rewrite bind_get. by destruct (_ && _). Qed.

Lemma slots_apart s1 s2 :
  net_wf s1 -> net_wf s2 -> view_right s1 -> view_right s2 ->
  1 <= device_id_ (device_ s1) <= 254 -> 1 <= device_id_ (device_ s2) <= 254 ->
  members s1 = members s2 -> device_id_ (device_ s1) <> device_id_ (device_ s2) ->
  STAGGERED_MESSAGE_TIME_OFFSET_MS
    <= Z.abs (staggered_message_delay_ (device_ s1) - staggered_message_delay_ (device_ s2)).
Proof.
  intros Hw1 Hw2 [_ Hd1] [_ Hd2] Hr1 Hr2 Hm Hne. rewrite Hd1, Hd2, !stagger_members.
  pose proof (members_small s1 (fun i => i < device_id_ (device_ s1)) Hw1 Hr1).
  pose proof (members_small s2 (fun i => i < device_id_ (device_ s2)) Hw2 Hr2).
  assert (device_id_ (device_ s1) ∈ members s2) as Hin1 by (rewrite <- Hm; by apply elem_of_union_l, elem_of_singleton).
  assert (device_id_ (device_ s2) ∈ members s2) as Hin2 by by apply elem_of_union_l, elem_of_singleton.
  rewrite Hm in *. unfold STAGGERED_MESSAGE_TIME_OFFSET_MS. rewrite !u32_id by (unfold is_u32; lia).
  destruct (decide (device_id_ (device_ s1) < device_id_ (device_ s2))) as [Hlt|Hge].
  - pose proof (lower_members_lt (members s2) _ _ Hin1 Hlt). lia.
  - assert (device_id_ (device_ s2) < device_id_ (device_ s1)) as Hlt by lia.
    pose proof (lower_members_lt (members s2) _ _ Hin2 Hlt). lia.
Qed.

(** C10. Two units with different IDs whose view of their tables is up to date (as [lowest_id_and_slot_follow_the_table]
    shows).  When both hear the ID claim of a third unit and each has the other in its table, their answers on the bus
    are never the same: not both accept it, nor both reject it, nor both refuse its protocol version.  And when both
    know the same units and begin to answer a discovery request at the same moment, their responses are put on the
    bus at least 5 ms apart. *)
Theorem one_unit_answers_a_claim `{UnorderedIter} s1 s2 :
  view_right s1 -> view_right s2 -> device_id_ (device_ s1) <> device_id_ (device_ s2) ->
  (forall env1 env2 frame claim result,
     knows s1 s2 -> knows s2 s1 -> IdClaimRequest_FromCanFrame frame = Ok claim ->
     claim_uid claim <> uid_ (device_ s1) -> claim_uid claim <> uid_ (device_ s2) ->
     answers env1 frame s1 result -> answers env2 frame s2 result -> False) /\
  (forall env1 env2 t t1 t2 f1 f2,
     net_wf s1 -> net_wf s2 -> 1 <= device_id_ (device_ s1) <= 254 -> 1 <= device_id_ (device_ s2) <= 254 ->
     members s1 = members s2 ->
     (t1, f1) ∈ sent_at t (effects_of (SendDiscoveryResponse env1 s1)) ->
     (t2, f2) ∈ sent_at t (effects_of (SendDiscoveryResponse env2 s2)) ->
     STAGGERED_MESSAGE_TIME_OFFSET_MS <= Z.abs (t1 - t2)).
Proof.
  intros Hv1 Hv2 Hne. split.
  - intros env1 env2 frame claim result Hk1 Hk2 Hdec Hu1 Hu2 A1 A2.
    apply (answers_ClaimAnswer env1 _ _ claim) in A1; [|done]. apply (answers_ClaimAnswer env2 _ _ claim) in A2; [|done].
    pose proof (RecordIdClaim_knows env1 claim s1 s2 Hk1 Hu2) as K1. pose proof (RecordIdClaim_knows env2 claim s2 s1 Hk2 Hu1) as K2.
    pose proof (RecordIdClaim_tracks env1 claim s1 Hv1) as [L1 _]. pose proof (RecordIdClaim_tracks env2 claim s2 Hv2) as [L2 _].
    pose proof (f_equal device_id_ (RecordIdClaim_core env1 claim s1)) as I1.
    pose proof (f_equal device_id_ (RecordIdClaim_core env2 claim s2)) as I2. simpl in I1, I2.
    destruct (RecordIdClaim env1 claim s1) as [[s1' e1] r1], (RecordIdClaim env2 claim s2) as [[s2' e2] r2].
    unfold state_of in *. cbn [fst] in *.
    assert (~ (is_lowest_id_on_network_ (device_ s1') = true /\ is_lowest_id_on_network_ (device_ s2') = true)) as Hlow.
    { intros [H1%L1 H2%L2]. specialize (H1 _ K1). specialize (H2 _ K2). simpl in *. lia. }
    unfold ClaimAnswer in A1, A2.
    destruct (is_lowest_id_on_network_ (device_ s1')), (is_lowest_id_on_network_ (device_ s2')); try tauto;
      repeat case_match; simplify_eq/=; rewrite ?bool_decide_eq_true in *; try congruence; done.
  - intros env1 env2 t t1 t2 f1 f2 Hw1 Hw2 Hr1 Hr2 Hm H1 H2. rewrite SendDiscoveryResponse_sent in H1, H2.
    pose proof (slots_apart s1 s2 Hw1 Hw2 Hv1 Hv2 Hr1 Hr2 Hm Hne).
    destruct (_ && env_bus_valid env1) in H1; [|by apply elem_of_nil in H1].
    destruct (_ && env_bus_valid env2) in H2; [|by apply elem_of_nil in H2].
    apply list_elem_of_singleton in H1, H2. simplify_eq. lia.
Qed.

(** The unit [own] knowing the unit [peer]. *)
Definition online_unit (id : Z) : CdmpDevice :=
  sample_device <| device_id_ := id |> <| uid_ := 100 + id |> <| status_machine_ := NewStatusMachine ONLINE |>.
Definition unit_knowing (own peer : Z) : NetworkService :=
  refreshed (H := some_iter) (NewNetworkService (online_unit own) 1792 <| network_devices_ := {[peer := online_unit peer]} |>).
Lemma unit_knowing_wf own peer : 1 <= peer <= 254 -> net_wf (unit_knowing own peer).
Proof.
  intros Hp. apply wf_refreshed. apply wf_table; [|apply NewNetworkService_wf].
  apply map_Forall_singleton. unfold peer_ok. simpl. split_and!; [lia..|done|lia|done].
Qed.

(** Units 1 and 2 hear unit 7 claim ID 3, which unit 1 accepts; and they answer a discovery at 0 ms and 5 ms. *)
Definition claim_of_three : list Z := IdClaimRequest_ToCanFrame (mkIdClaimRequest 3 7 16).
Lemma one_unit_answers_a_claim_witness :
  @answers some_iter (mkEnv 0 true) claim_of_three (unit_knowing 1 2) CLAIM_ACCEPT /\
  ~ @answers some_iter (mkEnv 0 true) claim_of_three (unit_knowing 2 1) CLAIM_ACCEPT /\
  STAGGERED_MESSAGE_TIME_OFFSET_MS <= Z.abs (0 - 5).
Proof.
  pose proof (one_unit_answers_a_claim (H := some_iter) (unit_knowing 1 2) (unit_knowing 2 1)
    (view_refreshed (H := some_iter) _) (view_refreshed (H := some_iter) _) ltac:(by vm_compute)) as [Hclaim Hapart].
  assert (@answers some_iter (mkEnv 0 true) claim_of_three (unit_knowing 1 2) CLAIM_ACCEPT) as Hone.
  { exists 1, 3, 7. vm_compute. left. }
  split; [exact Hone|]. split.
  - intros Htwo. apply (Hclaim (mkEnv 0 true) (mkEnv 0 true) claim_of_three (mkIdClaimRequest 3 7 16) CLAIM_ACCEPT); try done;
      try (eexists; split; vm_compute; reflexivity).
  - eapply (Hapart (mkEnv 0 true) (mkEnv 0 true) 0 0 5);
      [by apply unit_knowing_wf|by apply unit_knowing_wf|by vm_compute|by vm_compute| |vm_compute; left|vm_compute; left].
    apply (bool_decide_eq_true_1 _). vm_compute. reflexivity.
Defined.
