(* ===== verification/CdmpState.v ===== *)
(** * CDMP state service: shared state records

    [src/src/subsys/cdmp/services/cdmp_state_service.*]: this unit's records, and its copies of the
    records of the others.  The record arrays and their counts are lists; [records_lock_] makes each method
    one step.  The shared device and the network service are read through the environment of the step. *)

From S2P Require Import Prelude Can Cdmp CdmpMessages CdmpEffects Service.

(** ** Digest and versions

    Zephyr's [crc8_ccitt] is a parameter. *)

Class Crc8 := crc8_ccitt : Z -> list Z -> Z.

Definition AddToDigest `{Crc8} (digest state_type version : Z) (data : list Z) : Z :=
  crc8_ccitt (crc8_ccitt digest [state_type; version; u8 (Z.of_nat (length data))]) data.

(** [static_cast<int8_t>(version - current) > 0]. *)
Definition IsNewer (version current : Z) : bool := bool_decide (0 < i8 (version - current)).

(** ** State *)

Record LocalRecord := mkLocal {
  lr_state_type : Z;
  lr_version : Z;
  lr_is_withdrawn : bool;
  lr_is_announce_pending : bool;
  lr_data : list Z;
  lr_unacknowledged : list Z;
  lr_retransmit_count : nat;
  lr_next_retransmit_ms : Z;
}.
#[export] Instance LocalRecord_eta : Eta LocalRecord := fun r =>
  mkLocal (lr_state_type r) (lr_version r) (lr_is_withdrawn r) (lr_is_announce_pending r) (lr_data r)
    (lr_unacknowledged r) (lr_retransmit_count r) (lr_next_retransmit_ms r).

Record RemoteRecord := mkRemote {
  rr_source : Z;
  rr_state_type : Z;
  rr_version : Z;
  rr_is_stale : bool;
  rr_data : list Z;
}.
#[export] Instance RemoteRecord_eta : Eta RemoteRecord := fun r =>
  mkRemote (rr_source r) (rr_state_type r) (rr_version r) (rr_is_stale r) (rr_data r).
#[export] Instance RemoteRecord_eq_dec : EqDecision RemoteRecord.
Proof. solve_decision. Defined.

Record SourceState := mkSource {
  ss_device_id : Z;
  ss_is_overflowed : bool;
  ss_has_requested_sync : bool;
  ss_sync_requested_at_ms : Z;
}.
#[export] Instance SourceState_eta : Eta SourceState := fun s =>
  mkSource (ss_device_id s) (ss_is_overflowed s) (ss_has_requested_sync s) (ss_sync_requested_at_ms s).

(** [SourceState{ .device_id = id }]; the unassigned ID marks a free slot. *)
Definition NewSource (device_id : Z) : SourceState := mkSource device_id false false 0.

Record StateHandlerEntry := mkHandlerEntry {
  sh_state_type : Z;
  sh_handler : Z;
  sh_is_first_call_pending : bool;
}.

Record ReceivedFrame := mkReceived { rx_is_response : bool; rx_data : list Z }.

Definition RX_QUEUE_SIZE : nat := 16.

Record StateService := mkState {
  st_base_can_id_ : Z;
  st_service_state_ : ServiceState;
  st_tasks_created_ : bool;
  state_change_handler_id_ : Z;
  state_change_response_handler_id_ : Z;
  rx_queue_ : list ReceivedFrame;
  rx_dropped_ : Z;
  is_started_ : bool;
  version_counter_ : Z;
  is_announce_all_pending_ : bool;
  local_records_ : list LocalRecord;
  remote_records_ : list RemoteRecord;
  sources_ : list SourceState;
  changed_types_ : gset Z;
  next_handler_id_ : Z;
  state_handlers_ : gmap Z StateHandlerEntry;
}.
#[export] Instance StateService_eta : Eta StateService := fun s =>
  mkState (st_base_can_id_ s) (st_service_state_ s) (st_tasks_created_ s) (state_change_handler_id_ s)
    (state_change_response_handler_id_ s) (rx_queue_ s) (rx_dropped_ s) (is_started_ s) (version_counter_ s)
    (is_announce_all_pending_ s) (local_records_ s) (remote_records_ s) (sources_ s) (changed_types_ s)
    (next_handler_id_ s) (state_handlers_ s).

Abbreviation SM := (M StateService Effect).

Section state.
Context `{CdmpConfig} `{Crc8} `{NetworkInfo} (env : Env) (device : CdmpDevice).
#[local] Abbreviation now := (env_now env).
#[local] Abbreviation bus_valid := (env_bus_valid env).

Definition NewStateService (base : Z) : StateService :=
  mkState base STOPPED false (-1) (-1) [] 0 false 0 false [] [] (replicate MAX_REMOTE_RECORDS (NewSource 0)) ∅ 0 ∅.

(** ** Searching the sorted records *)

Definition local_position (state_type : Z) (l : list LocalRecord) : nat :=
  lower_bound (fun r => bool_decide (lr_state_type r < state_type)) l.

Definition FindLocalRecord (state_type : Z) (l : list LocalRecord) : option (nat * LocalRecord) :=
  let i := local_position state_type l in
  match l !! i with
  | Some r => if bool_decide (lr_state_type r = state_type) then Some (i, r) else None
  | None => None
  end.

(** The order of the remote records: by source, then by type. *)
Definition key_lt (a b : Z * Z) : Prop := a.1 < b.1 \/ (a.1 = b.1 /\ a.2 < b.2).
#[export] Instance key_lt_dec : RelDecision key_lt.
Proof. intros a b. unfold key_lt. apply _. Defined.
Definition remote_key (r : RemoteRecord) : Z * Z := (rr_source r, rr_state_type r).
Definition remote_position (key : Z * Z) (l : list RemoteRecord) : nat :=
  lower_bound (fun r => bool_decide (key_lt (remote_key r) key)) l.

Definition FindRemoteRecord (key : Z * Z) (l : list RemoteRecord) : option RemoteRecord :=
  match l !! remote_position key l with
  | Some r => if bool_decide (remote_key r = key) then Some r else None
  | None => None
  end.

(** [SourceRecords] is the equal range of a source; a change applies to just those. *)
Definition SourceRecords (source : Z) (l : list RemoteRecord) : list RemoteRecord :=
  filter (fun r => rr_source r = source) l.
Definition on_source (source : Z) (f : RemoteRecord -> RemoteRecord) (l : list RemoteRecord) : list RemoteRecord :=
  (fun r => if bool_decide (rr_source r = source) then f r else r) <$> l.

(** ** Tasks *)

Definition ScheduleStateHandlers : SM unit :=
  s ← get; when (st_tasks_created_ s) (emit (Schedule NotifyTask 0)).

(** [if(is_started_ && transmit_task_.has_value() && device_->IsOnline()) transmit_task_->Reschedule()]. *)
Definition TransmitSoon : SM unit :=
  s ← get;
  when (is_started_ s && st_tasks_created_ s && IsOnline device) (emit (Reschedule TransmitTask 0)).

(** ** This unit's records *)

Definition NewLocalRecord (state_type : Z) : LocalRecord := mkLocal state_type 0 false false [] [] 0 0.

(** [AddLocalRecord]: the records with the new one and its index; when full, the first withdrawn record
    gives way, and without one nothing is added. *)
Definition AddLocalRecord (state_type : Z) (l : list LocalRecord) : option (nat * list LocalRecord) :=
  let l' :=
    if bool_decide (length l = MAX_LOCAL_RECORDS) then
      (fun withdrawn => delete withdrawn l) <$> find_index lr_is_withdrawn l
    else Some l in
  (fun l' => (local_position state_type l', insert_at (local_position state_type l') (NewLocalRecord state_type) l'))
    <$> l'.

Definition Restamp (version : Z) (r : LocalRecord) : LocalRecord :=
  r <| lr_version := version |> <| lr_unacknowledged := [] |> <| lr_is_announce_pending := true |>.

Definition is_lagging (counter : Z) (r : LocalRecord) : bool :=
  negb (lr_is_withdrawn r || bool_decide (u8 (counter - lr_version r) < STATE_VERSION_REFRESH_LAG)).

(** [RefreshLaggingVersions], on the version counter and the records. *)
Fixpoint RefreshLaggingVersions (counter : Z) (l : list LocalRecord) : Z * list LocalRecord :=
  match l with
  | [] => (counter, [])
  | r :: l =>
      let '(counter, r) :=
        if is_lagging counter r then (u8 (counter + 1), Restamp (u8 (counter + 1)) r) else (counter, r) in
      let '(counter, l) := RefreshLaggingVersions counter l in
      (counter, r :: l)
  end.

(** The digest of this unit's records, withdrawn ones left out. *)
Definition LocalDigest (l : list LocalRecord) : Z :=
  foldl (fun digest r =>
    if lr_is_withdrawn r then digest else AddToDigest digest (lr_state_type r) (lr_version r) (lr_data r)) 0 l.

Definition UpdateDigest : SM unit :=
  s ← get; emit (SetStateDigest (LocalDigest (local_records_ s))).

Definition StampChange (i : nat) : SM unit :=
  modify (fun s => s <| version_counter_ ::= fun c => u8 (c + 1) |>) ;;
  modify (fun s => s <| local_records_ ::= alter (Restamp (version_counter_ s)) i |>) ;;
  modify (fun s =>
    let '(counter, l) := RefreshLaggingVersions (version_counter_ s) (local_records_ s) in
    s <| version_counter_ := counter |> <| local_records_ := l |>) ;;
  UpdateDigest ;;
  TransmitSoon.

Definition ClearLocalState (state_type : Z) : SM unit :=
  s ← get;
  match FindLocalRecord state_type (local_records_ s) with
  | None => mret tt
  | Some (i, r) =>
      if lr_is_withdrawn r then mret tt
      else
        modify (fun s => s <| local_records_ ::=
          alter (fun r => r <| lr_is_withdrawn := true |> <| lr_data := [] |>) i |>) ;;
        StampChange i
  end.

(** The new value of a record, found or added. *)
Definition StoreLocalState (data : list Z) (i : nat) (l : list LocalRecord) : SM bool :=
  modify (fun s => s <| local_records_ :=
    alter (fun r => r <| lr_is_withdrawn := false |> <| lr_data := data |>) i l |>) ;;
  StampChange i ;;
  mret true.

Definition SetLocalState (state_type : Z) (data : list Z) : SM bool :=
  match data with
  | [] => ClearLocalState state_type ;; mret (negb (bool_decide (state_type = 0)))
  | _ =>
      if bool_decide (state_type = 0) || bool_decide (STATE_DATA_MAX_SIZE < length data)%nat then mret false
      else
        s ← get;
        let l := local_records_ s in
        match FindLocalRecord state_type l with
        | Some (i, r) =>
            if negb (lr_is_withdrawn r) && bool_decide (lr_data r = data) then mret true
            else StoreLocalState data i l
        | None =>
            match AddLocalRecord state_type l with
            | None => mret false
            | Some (i, l) => StoreLocalState data i l
            end
        end
  end.

(** ** Acknowledgements *)

(** [*it = unacknowledged.back(); unacknowledged_count--]. *)
Definition remove_unordered (x : Z) (l : list Z) : list Z :=
  match find_index (fun y => bool_decide (y = x)) l, last l with
  | Some i, Some b => take (pred (length l)) (<[i := b]> l)
  | _, _ => l
  end.

Definition is_freed (r : LocalRecord) : bool :=
  lr_is_withdrawn r && negb (lr_is_announce_pending r) && bool_decide (lr_unacknowledged r = []).

Definition FreeAcknowledgedWithdrawals (l : list LocalRecord) : list LocalRecord :=
  filter (fun r => is_freed r = false) l.

Definition RemoveFromAcknowledgementSets (peer_id : Z) (version : option Z) (l : list LocalRecord) :
    list LocalRecord :=
  FreeAcknowledgedWithdrawals
    ((fun r => match version with
               | Some v =>
                   if bool_decide (lr_version r = v) then r <| lr_unacknowledged ::= remove_unordered peer_id |> else r
               | None => r <| lr_unacknowledged ::= remove_unordered peer_id |>
               end) <$> l).

Definition ScheduleRetransmission : SM unit :=
  s ← get;
  let waiting := filter (fun r => lr_unacknowledged r <> []) (local_records_ s) in
  match lr_next_retransmit_ms <$> waiting with
  | [] => mret tt
  | t :: ts =>
      when (st_tasks_created_ s) (emit (Reschedule TransmitTask (Z.max (foldr Z.min t ts - now) 0)))
  end.

(** ** Copies of other units' records *)

Definition set_changed_types (types : list Z) : SM unit :=
  modify (fun s => s <| changed_types_ ::= fun c => c ∪ list_to_set types |>).

Definition RemoveRemoteRecords (predicate : RemoteRecord -> bool) : SM unit :=
  s ← get;
  let removed := filter (fun r => predicate r = true) (remote_records_ s) in
  set_changed_types (rr_state_type <$> removed) ;;
  match removed with
  | [] => mret tt
  | _ =>
      modify (fun s => s
        <| remote_records_ ::= filter (fun r => predicate r = false) |>
        <| sources_ ::= fmap (fun x => x <| ss_is_overflowed := false |>) |>) ;;
      ScheduleStateHandlers
  end.

(** *** Per-source bookkeeping; [now] is [k_uptime_get_32()], whose differences wrap. *)

Definition sync_interval_passed (x : SourceState) : bool :=
  bool_decide (STATE_SYNC_REQUEST_MIN_INTERVAL_MS <= u32 (u32 now - ss_sync_requested_at_ms x)).

Definition is_reusable (x : SourceState) : bool :=
  bool_decide (ss_device_id x = DEVICE_ID_UNASSIGNED)
  || (negb (ss_is_overflowed x) && (negb (ss_has_requested_sync x) || sync_interval_passed x)).

Definition source_index (source : Z) (l : list SourceState) : option nat :=
  find_index (fun x => bool_decide (ss_device_id x = source)) l.

(** [FindSourceState(source)], and with [add = true], which may take a slot over. *)
Definition FindSourceState (source : Z) (s : StateService) : option SourceState :=
  i ← source_index source (sources_ s); sources_ s !! i.

Definition AddSourceState (source : Z) : SM (option nat) :=
  s ← get;
  match source_index source (sources_ s) with
  | Some i => mret (Some i)
  | None =>
      match find_index is_reusable (sources_ s) with
      | None => mret None
      | Some i => modify (fun s => s <| sources_ ::= <[i := NewSource source]> |>) ;; mret (Some i)
      end
  end.

Definition MarkOverflowed (source : Z) : SM unit :=
  AddSourceState source ≫= fun slot : option nat =>
  match slot with
  | None => mret tt
  | Some i => modify (fun s => s <| sources_ ::= alter (fun x => x <| ss_is_overflowed := true |>) i |>)
  end.

Definition StartSyncRequest (source : Z) : SM bool :=
  AddSourceState source ≫= fun slot : option nat =>
  s ← get;
  match i ← slot; x ← sources_ s !! i; Some (i, x) with
  | None => mret false
  | Some (i, x) =>
      if ss_has_requested_sync x && negb (sync_interval_passed x) then mret false
      else
        modify (fun s => s <| sources_ ::=
          alter (fun x => x <| ss_has_requested_sync := true |> <| ss_sync_requested_at_ms := u32 now |>) i |>) ;;
        mret true
  end.

Definition DropSource (source : Z) : SM unit :=
  RemoveRemoteRecords (fun r => bool_decide (rr_source r = source)) ;;
  modify (fun s => s <| local_records_ ::= RemoveFromAcknowledgementSets source None |>) ;;
  modify (fun s => match source_index source (sources_ s) with
                   | Some i => s <| sources_ ::= <[i := NewSource DEVICE_ID_UNASSIGNED]> |>
                   | None => s
                   end).

Definition ForgetNetwork : SM unit :=
  RemoveRemoteRecords (fun _ => true) ;;
  modify (fun s => s
    <| sources_ := replicate MAX_REMOTE_RECORDS (NewSource DEVICE_ID_UNASSIGNED) |>
    <| is_announce_all_pending_ := false |>
    <| local_records_ ::= fmap (fun r => r <| lr_unacknowledged := [] |>) |>).

Definition ApplyRecord (m : CdmpStateChangeMessage) : SM unit :=
  let source := sc_source_device_id m in
  let key := (source, sc_state_type m) in
  s ← get;
  let position := remote_position key (remote_records_ s) in
  match FindRemoteRecord key (remote_records_ s) with
  | Some r =>
      if negb (rr_is_stale r) && negb (IsNewer (sc_version m) (rr_version r)) then mret tt
      else match sc_data m with
           | [] =>
               RemoveRemoteRecords (fun r =>
                 bool_decide (rr_source r = source) && bool_decide (rr_state_type r = sc_state_type m))
           | _ =>
               when (negb (bool_decide (rr_data r = sc_data m)))
                 (set_changed_types [sc_state_type m] ;; ScheduleStateHandlers) ;;
               modify (fun s => s <| remote_records_ ::=
                 alter (fun r => r <| rr_version := sc_version m |> <| rr_data := sc_data m |>
                                   <| rr_is_stale := false |>) position |>)
           end
  | None =>
      match sc_data m with
      | [] => mret tt
      | _ =>
          if bool_decide (length (remote_records_ s) = MAX_REMOTE_RECORDS) then MarkOverflowed source
          else
            modify (fun s => s <| remote_records_ ::=
              insert_at position (mkRemote source (sc_state_type m) (sc_version m) false (sc_data m)) |>) ;;
            set_changed_types [sc_state_type m] ;;
            ScheduleStateHandlers
      end
  end.

Definition RemoteDigest (l : list RemoteRecord) : Z :=
  foldl (fun digest r => AddToDigest digest (rr_state_type r) (rr_version r) (rr_data r)) 0 l.

Definition mark_stale (source : Z) (stale : bool) : SM unit :=
  modify (fun s => s <| remote_records_ ::= on_source source (fun r => r <| rr_is_stale := stale |>) |>).

Definition OnHeartbeat (heartbeat : CdmpHeartbeatMessage) : SM unit :=
  let source := hb_device_id heartbeat in
  if negb (IsOnline device) then mret tt
  else
    s ← get;
    match FindSourceState source s with
    | Some (mkSource _ true _ _) => mret tt
    | _ =>
        let records := SourceRecords source (remote_records_ s) in
        let has_stale := existsb rr_is_stale records in
        let fresh_digest := RemoteDigest (filter (fun r => rr_is_stale r = false) records) in
        if bool_decide (RemoteDigest records = hb_state_digest heartbeat) then mark_stale source false
        else if has_stale && bool_decide (fresh_digest = hb_state_digest heartbeat) then
          RemoveRemoteRecords (fun r => bool_decide (rr_source r = source) && rr_is_stale r)
        else
          mark_stale source true ;;
          StartSyncRequest source ≫= fun request_sync : bool =>
          when request_sync (emit (SendSyncRequest source))
    end.

Definition OnDeviceEvent (event : CdmpDeviceEvent) (info : CdmpDeviceInfo) : SM unit :=
  match event with
  | RESTARTED => mark_stale (info_device_id info) true
  | LEFT => DropSource (info_device_id info)
  | JOINED => mret tt
  end.

Definition StateOnDeviceStatusChanged (old_status new_status : CdmpDeviceStatus) : SM unit :=
  if bool_decide (new_status = ONLINE) then
    modify (fun s => s <| is_announce_all_pending_ := true |>) ;;
    s ← get;
    when (is_started_ s && st_tasks_created_ s) (emit (Reschedule TransmitTask 0))
  else when (bool_decide (old_status = ONLINE)) ForgetNetwork.

(** ** Sending *)

Definition SendNotification (m : CdmpStateChangeMessage) : SM unit :=
  s ← get;
  when bus_valid (emit (SendFrame (GetStateChangeRequestCanId (st_base_can_id_ s)) (StateChange_ToCanFrame m))).

Definition SendResponse (notification : CdmpStateChangeMessage) : SM unit :=
  s ← get;
  when bus_valid
    (emit (SendFrame (GetStateChangeResponseCanId (st_base_can_id_ s))
       (StateChangeResponse_ToCanFrame
          (mkStateChangeResponse (device_id_ device) (sc_source_device_id notification) (sc_version notification)
             RESULT_SUCCESS)))).

(** The notification of a record's current value. *)
Definition RecordMessage (r : LocalRecord) : CdmpStateChangeMessage :=
  mkStateChange (device_id_ device) (lr_version r) (lr_state_type r) (lr_data r).

(** One record in a pass of [Transmit]: the record afterwards and whether it is sent. *)
Definition TransmitRecord (peers : list CdmpDeviceInfo) (r : LocalRecord) : LocalRecord * bool :=
  if lr_is_announce_pending r then
    (r <| lr_is_announce_pending := false |> <| lr_retransmit_count := O |>
       <| lr_unacknowledged := info_device_id <$> filter (fun p => info_status p = ONLINE) peers |>
       <| lr_next_retransmit_ms := now + nth 0 STATE_RETRANSMIT_BACKOFFS_MS 0 |>, true)
  else if negb (bool_decide (lr_unacknowledged r = [])) && bool_decide (lr_next_retransmit_ms r <= now) then
    let count := S (lr_retransmit_count r) in
    let r := r <| lr_retransmit_count := count |> in
    (if bool_decide (count = length STATE_RETRANSMIT_BACKOFFS_MS) then r <| lr_unacknowledged := [] |>
     else r <| lr_next_retransmit_ms := now + nth count STATE_RETRANSMIT_BACKOFFS_MS 0 |>, true)
  else (r, false).

Definition Transmit : SM unit :=
  let peers := network_devices STATE_ACK_PEERS_MAX in
  s ← get;
  if negb (is_started_ s) || negb (IsOnline device) then mret tt
  else
    let request_sync := is_announce_all_pending_ s in
    when request_sync
      (modify (fun s => s <| is_announce_all_pending_ := false |>
         <| local_records_ ::= fmap (fun r => r <| lr_is_announce_pending := true |>) |>)) ;;
    s ← get;
    let pass := TransmitRecord peers <$> local_records_ s in
    let messages := RecordMessage <$> (filter (fun p : LocalRecord * bool => p.2 = true) pass).*1 in
    modify (fun s => s <| local_records_ := FreeAcknowledgedWithdrawals pass.*1 |>) ;;
    ScheduleRetransmission ;;
    for_each messages SendNotification ;;
    when request_sync (emit (SendSyncRequest DEVICE_ID_BROADCAST)).

Definition ReplayRecords : SM (option nat) :=
  s ← get;
  if negb (is_started_ s) || negb (IsOnline device) then mret None
  else
    let messages := RecordMessage <$> filter (fun r => lr_is_withdrawn r = false) (local_records_ s) in
    for_each messages SendNotification ;;
    mret (Some (length messages)).

Definition ProcessSyncRequest (request : CdmpCommandRequestMessage) : SM (option CdmpCommandResult) :=
  if bool_decide (creq_target_device_id request = DEVICE_ID_BROADCAST) then
    s ← get;
    when (is_started_ s && st_tasks_created_ s) (emit (Schedule ReplayTask (staggered_message_delay_ device))) ;;
    mret None
  else
    ReplayRecords ≫= fun count : option nat =>
    mret ((fun n => mkCommandResult RESULT_SUCCESS [u8 (Z.of_nat n)]) <$> count).

(** ** Receiving *)

Definition DropFrame : SM unit := modify (fun s => s <| rx_dropped_ ::= fun n => n + 1 |>).

Definition QueueFrame (frame_data : list Z) (is_response : bool) : SM unit :=
  if bool_decide (STATE_MAX_FRAME_SIZE < length frame_data)%nat then DropFrame
  else
    s ← get;
    if bool_decide (RX_QUEUE_SIZE <= length (rx_queue_ s))%nat then DropFrame
    else
      modify (fun s => s <| rx_queue_ ::= fun q => q ++ [mkReceived is_response frame_data] |>) ;;
      when (st_tasks_created_ s) (emit (Schedule ReceiveTask 0)).

Definition ProcessStateChangeFrame (frame_data : list Z) : SM unit :=
  if negb (IsOnline device) then mret tt
  else
    lift (StateChange_TryFromCanFrame frame_data) ≫= fun message : option CdmpStateChangeMessage =>
    match message with
    | None => DropFrame
    | Some m =>
        if bool_decide (sc_state_type m = 0) then DropFrame
        else if bool_decide (sc_source_device_id m = device_id_ device) then mret tt
        else if negb (is_device_online (sc_source_device_id m)) then mret tt
        else ApplyRecord m ;; SendResponse m
    end.

Definition ProcessStateChangeResponseFrame (frame_data : list Z) : SM unit :=
  if negb (IsOnline device) then mret tt
  else
    lift (StateChangeResponse_TryFromCanFrame frame_data) ≫= fun response : option CdmpStateChangeResponseMessage =>
    match response with
    | None => DropFrame
    | Some m =>
        let own_id := device_id_ device in
        if bool_decide (scr_responding_device_id m = own_id) || negb (bool_decide (scr_source_device_id m = own_id))
        then mret tt
        else
          modify (fun s => s <| local_records_ ::=
            RemoveFromAcknowledgementSets (scr_responding_device_id m) (Some (scr_version m)) |>)
    end.

Definition ProcessReceived (frame : ReceivedFrame) : SM unit :=
  if rx_is_response frame then ProcessStateChangeResponseFrame (rx_data frame)
  else ProcessStateChangeFrame (rx_data frame).

(** The loop of [ReceiveFrames]; the queue holds at most [RX_QUEUE_SIZE] frames. *)
Fixpoint ReceiveLoop (fuel : nat) : SM unit :=
  match fuel with
  | O => mret tt
  | S fuel =>
      s ← get;
      match rx_queue_ s with
      | [] => mret tt
      | frame :: queue => modify (fun s => s <| rx_queue_ := queue |>) ;; ProcessReceived frame ;; ReceiveLoop fuel
      end
  end.

Definition ReceiveFrames : SM unit :=
  ReceiveLoop (S RX_QUEUE_SIZE) ;;
  modify (fun s => s <| rx_dropped_ := 0 |>).

(** ** State handlers

    [std::map] iterates in the order of the handler IDs.  A handler's exception is caught, and it may not
    register or unregister handlers. *)

Definition handler_le (a b : Z * StateHandlerEntry) : Prop := a.1 <= b.1.
#[export] Instance handler_le_dec a b : Decision (handler_le a b).
Proof. unfold handler_le. apply _. Defined.

Definition NotifyStateHandlers : SM unit :=
  s ← get;
  let changed_types := changed_types_ s in
  modify (fun s => s <| changed_types_ := ∅ |>) ;;
  for_each (merge_sort handler_le (map_to_list (state_handlers_ s))) (fun p : Z * StateHandlerEntry =>
    let '(handler_id, entry) := p in
    when (sh_is_first_call_pending entry || bool_decide (sh_state_type entry ∈ changed_types))
      (modify (fun s => s <| state_handlers_ ::=
         <[handler_id := mkHandlerEntry (sh_state_type entry) (sh_handler entry) false]> |>) ;;
       emit (CallStateHandler (sh_handler entry) (sh_state_type entry)))).

Definition RegisterStateHandler (state_type handler : Z) : SM Z :=
  s ← get;
  let handler_id := next_handler_id_ s in
  modify (fun s => s <| next_handler_id_ := handler_id + 1 |>
                     <| state_handlers_ ::= <[handler_id := mkHandlerEntry state_type handler true]> |>) ;;
  ScheduleStateHandlers ;;
  mret handler_id.

Definition UnregisterStateHandler (handler_id : Z) : SM unit :=
  modify (fun s => s <| state_handlers_ ::= delete handler_id |>).

(** [CdmpRemoteState]. *)
Record CdmpRemoteState := mkRemoteState {
  rs_device_id : Z;
  rs_data : list Z;
  rs_is_stale : bool;
}.

Definition ToRemoteState (r : RemoteRecord) : CdmpRemoteState := mkRemoteState (rr_source r) (rr_data r) (rr_is_stale r).

(** The loop of [GetRemoteStates] into a span of [capacity] elements. *)
Fixpoint CopyRemoteStates (state_type : Z) (capacity : nat) (l : list RemoteRecord) : list CdmpRemoteState :=
  match capacity, l with
  | S room, r :: l =>
      if bool_decide (rr_state_type r = state_type) then ToRemoteState r :: CopyRemoteStates state_type room l
      else CopyRemoteStates state_type capacity l
  | _, _ => []
  end.
Definition GetRemoteStates (state_type : Z) (capacity : nat) (s : StateService) : list CdmpRemoteState :=
  CopyRemoteStates state_type capacity (remote_records_ s).

(** ** Life cycle *)

Definition StateUnregisterCanHandlers : SM unit :=
  when bus_valid
    (s ← get;
     when (bool_decide (0 <= state_change_handler_id_ s)) (emit (RemoveFrameHandler (state_change_handler_id_ s))) ;;
     when (bool_decide (0 <= state_change_response_handler_id_ s))
       (emit (RemoveFrameHandler (state_change_response_handler_id_ s))) ;;
     modify (fun s => s <| state_change_handler_id_ := -1 |> <| state_change_response_handler_id_ := -1 |>)).

Definition StateRegisterCanHandlers (register : CanFilter -> Z) : SM unit :=
  if negb bus_valid then mret tt
  else
    s ← get;
    let base := st_base_can_id_ s in
    RegisterReceiveHandler register base (GetStateChangeRequestCanId base) ≫= fun i : Z =>
    modify (fun s => s <| state_change_handler_id_ := i |>) ;;
    RegisterReceiveHandler register base (GetStateChangeResponseCanId base) ≫= fun j : Z =>
    modify (fun s => s <| state_change_response_handler_id_ := j |>) ;;
    when (bool_decide (i < 0) || bool_decide (j < 0))
      (StateUnregisterCanHandlers ;;
       throw (RuntimeError "Failed to register the CAN frame handlers for state changes")).

Definition StateDoInitialize : SM bool :=
  modify (fun s => s <| st_tasks_created_ := true |>) ;; emit (Schedule NotifyTask 0) ;; mret true.

Definition StateDoStart (register : CanFilter -> Z) : SM bool :=
  StateRegisterCanHandlers register ;;
  modify (fun s => s <| is_started_ := true |>) ;;
  when (IsOnline device)
    (modify (fun s => s <| is_announce_all_pending_ := true |>) ;;
     s ← get; when (st_tasks_created_ s) (emit (Reschedule TransmitTask 0))) ;;
  mret true.

Definition StateDoStop : SM bool :=
  StateUnregisterCanHandlers ;;
  modify (fun s => s <| is_started_ := false |>) ;;
  s ← get;
  when (st_tasks_created_ s) (emit (CancelTask ReceiveTask)) ;;
  modify (fun s => s <| rx_queue_ := [] |>) ;;
  when (st_tasks_created_ s) (emits [CancelTask TransmitTask; CancelTask ReplayTask]) ;;
  ForgetNetwork ;;
  mret true.

Definition StateWorkOf (register : CanFilter -> Z) : ServiceWork StateService Effect :=
  {| sw_state := st_service_state_; sw_set_state := fun st s => s <| st_service_state_ := st |>;
     sw_is_pausable := false; sw_initialize := StateDoInitialize; sw_start := StateDoStart register;
     sw_stop := StateDoStop; sw_pause := mret true; sw_resume := mret true |}.
End state.
