(* ===== verification/CdmpStateLocal.v ===== *)
(** * CDMP state service: this unit's records

    The operations of [CdmpState.v] as steps of one state.  What every run keeps of this unit's records: the
    order and size of the array, the window of the version numbers, the digest in the heartbeat, and the
    number of times a change is sent. *)

From S2P Require Import Prelude Can Cdmp CdmpMessages CdmpEffects Service CdmpState.

(** ** The steps of the service

    A step runs one method with the time, the own device and the network's answers of that moment. *)

Inductive StateOp :=
| StSetLocal (state_type : Z) (data : list Z)
| StClearLocal (state_type : Z)
| StQueueFrame (frame : list Z) (is_response : bool)
| StReceiveFrames
| StStatusChanged (old_status new_status : CdmpDeviceStatus)
| StDeviceEvent (event : CdmpDeviceEvent) (info : CdmpDeviceInfo)
| StHeartbeat (heartbeat : CdmpHeartbeatMessage)
| StFrame (frame : list Z)
| StResponse (frame : list Z)
| StSyncRequest (request : CdmpCommandRequestMessage)
| StTransmit
| StReplay
| StNotify
| StRegister (state_type handler : Z)
| StUnregister (handler_id : Z)
| StInitialize
| StStart (register : CanFilter -> Z)
| StStop.

Record StateStep := mkStateStep {
  sp_env : Env;
  sp_device : CdmpDevice;
  sp_network : NetworkInfo;
  sp_op : StateOp;
}.

Section steps.
Context `{CdmpConfig} `{Crc8}.

Definition ignore {A} (m : SM A) : SM unit := m ;; mret tt.

Definition run_state_step (p : StateStep) : SM unit :=
  let env := sp_env p in
  let device := sp_device p in
  let network := sp_network p in
  match sp_op p with
  | StSetLocal t data => ignore (SetLocalState device t data)
  | StClearLocal t => ClearLocalState device t
  | StQueueFrame frame is_response => QueueFrame frame is_response
  | StReceiveFrames => ReceiveFrames env device
  | StStatusChanged old new => StateOnDeviceStatusChanged old new
  | StDeviceEvent event info => OnDeviceEvent event info
  | StHeartbeat heartbeat => OnHeartbeat env device heartbeat
  | StFrame frame => ProcessStateChangeFrame env device frame
  | StResponse frame => ProcessStateChangeResponseFrame device frame
  | StSyncRequest request => ignore (ProcessSyncRequest env device request)
  | StTransmit => Transmit env device
  | StReplay => ignore (ReplayRecords env device)
  | StNotify => NotifyStateHandlers
  | StRegister t h => ignore (RegisterStateHandler t h)
  | StUnregister i => UnregisterStateHandler i
  | StInitialize => ignore StateDoInitialize
  | StStart register => ignore (StateDoStart env device register)
  | StStop => ignore (StateDoStop env)
  end.

Fixpoint run_state_steps (l : list StateStep) (s : StateService) : StateService * list Effect :=
  match l with
  | [] => (s, [])
  | p :: l =>
      let o := run_state_step p s in
      let '(s', e) := run_state_steps l (state_of o) in
      (s', effects_of o ++ e)
  end.
End steps.

(** What the other units see of this unit's records: the type, version and data of those not withdrawn. *)
Definition record_value (r : LocalRecord) : Z * Z * list Z := (lr_state_type r, lr_version r, lr_data r).
Definition published (l : list LocalRecord) : list (Z * Z * list Z) :=
  record_value <$> filter (fun r => lr_is_withdrawn r = false) l.

Definition pub (s : StateService) : list (Z * Z * list Z) * Z := (published (local_records_ s), version_counter_ s).

(** Every record with its value, withdrawn ones too. *)
Definition skeleton (l : list LocalRecord) : list (Z * Z * list Z * bool) :=
  (fun r => (record_value r, lr_is_withdrawn r)) <$> l.

(** The digests handed to the device. *)
Definition digests (e : list Effect) : list Z :=
  omap (fun x => match x with SetStateDigest d => Some d | _ => None end) e.
Lemma digests_app e1 e2 : digests (e1 ++ e2) = digests e1 ++ digests e2.
Proof. apply omap_app. Qed.

(** While acknowledgements are awaited, the last resend is still to come. *)
Definition send_ok (r : LocalRecord) : Prop :=
  lr_unacknowledged r <> [] -> (lr_retransmit_count r < length STATE_RETRANSMIT_BACKOFFS_MS)%nat.

(** Nothing published changes, no record appears or changes its value, and the digest stays. *)
Definition settles (s : StateService) (e : list Effect) (s' : StateService) : Prop :=
  pub s' = pub s /\ skeleton (local_records_ s') `sublist_of` skeleton (local_records_ s) /\ digests e = [] /\
  (Forall send_ok (local_records_ s) -> Forall send_ok (local_records_ s')).
#[export] Instance settles_trace : TraceRel settles.
Proof.
  split; [intros s; unfold settles; done|]. intros s1 s2 s3 e1 e2 (H1 & H2 & H3 & H3') (H4 & H5 & H6 & H6').
  unfold settles. rewrite digests_app, H3, H6.
  split_and!; [congruence|by etrans|done|auto].
Qed.

(** ** Steps that change no record of this unit

    All but [SetLocalState] and [ClearLocalState] keep the published values: acknowledgements, resends and
    freed withdrawals never touch a value. *)

Lemma published_fmap (f : LocalRecord -> LocalRecord) l :
  (forall r, lr_is_withdrawn (f r) = lr_is_withdrawn r /\ record_value (f r) = record_value r) ->
  published (f <$> l) = published l.
Proof.
  intros Hf. unfold published. induction l as [|r l IH]; [done|]. destruct (Hf r) as [Hw Hv].
  rewrite fmap_cons, !filter_cons, Hw. destruct (decide _); [|done]. rewrite !fmap_cons. by f_equal.
Qed.

Lemma published_free l : published (FreeAcknowledgedWithdrawals l) = published l.
Proof.
  unfold published, FreeAcknowledgedWithdrawals. f_equal. rewrite list_filter_filter. apply list_filter_iff.
  intros r. unfold is_freed. destruct (lr_is_withdrawn r); simpl; naive_solver.
Qed.

Lemma published_ack peer v l : published (RemoveFromAcknowledgementSets peer v l) = published l.
Proof.
  unfold RemoveFromAcknowledgementSets. rewrite published_free. apply published_fmap. intros r.
  destruct v as [v|]; [destruct (bool_decide (lr_version r = v))|]; done.
Qed.

Lemma skeleton_fmap (f : LocalRecord -> LocalRecord) l :
  (forall r, lr_is_withdrawn (f r) = lr_is_withdrawn r /\ record_value (f r) = record_value r) ->
  skeleton (f <$> l) = skeleton l.
Proof.
  intros Hf. unfold skeleton. rewrite <- list_fmap_compose. apply list_fmap_ext. intros i r _.
  destruct (Hf r) as [Hw Hv]. unfold compose. by rewrite Hw, Hv.
Qed.
Lemma skeleton_free l : skeleton (FreeAcknowledgedWithdrawals l) `sublist_of` skeleton l.
Proof. apply fmap_sublist, sublist_filter. Qed.
Lemma skeleton_ack peer v l : skeleton (RemoveFromAcknowledgementSets peer v l) `sublist_of` skeleton l.
Proof.
  unfold RemoveFromAcknowledgementSets. etrans; [apply skeleton_free|]. rewrite skeleton_fmap; [done|]. intros r.
  destruct v as [v|]; [destruct (bool_decide (lr_version r = v))|]; done.
Qed.
Lemma Forall_sub {A} (P Q : A -> Prop) `{!forall x, Decision (P x)} l : Forall Q l -> Forall Q (filter P l).
Proof. rewrite !Forall_forall. intros Hl x [_ Hx]%list_elem_of_filter. by apply Hl. Qed.
Lemma send_ok_ack peer v l : Forall send_ok l -> Forall send_ok (RemoveFromAcknowledgementSets peer v l).
Proof.
  intros Hl. unfold RemoveFromAcknowledgementSets, FreeAcknowledgedWithdrawals. apply Forall_sub, Forall_fmap.
  apply (Forall_impl _ _ _ Hl). intros r Hr. unfold compose.
  assert (send_ok (r <| lr_unacknowledged ::= remove_unordered peer |>)).
  { intros Hn. apply Hr. intros E. apply Hn. simpl. by rewrite E. }
  destruct v as [v|]; [by destruct (bool_decide (lr_version r = v))|done].
Qed.
Lemma settles_ack peer v s :
  settles s [] (s <| local_records_ ::= RemoveFromAcknowledgementSets peer v |>).
Proof. unfold settles; split_and!; [unfold pub; simpl; by rewrite published_ack|apply skeleton_ack|done|simpl; apply send_ok_ack]. Qed.
#[local] Hint Resolve settles_ack : respects.
Ltac settle := respect; try (unfold settles; split_and!; [done|reflexivity|done|done]); try solve [eauto with respects].

Section kept.
Context `{CdmpConfig} `{Crc8} `{NetworkInfo} (env : Env) (device : CdmpDevice).
#[local] Abbreviation kept := (respects settles).

Lemma TransmitRecord_value peers r :
  lr_is_withdrawn (TransmitRecord env peers r).1 = lr_is_withdrawn r /\
  record_value (TransmitRecord env peers r).1 = record_value r.
Proof. unfold TransmitRecord. by repeat case_match. Qed.

Lemma TransmitRecord_send_ok peers r : send_ok r -> send_ok (TransmitRecord env peers r).1.
Proof.
  unfold send_ok, TransmitRecord. change (length STATE_RETRANSMIT_BACKOFFS_MS) with 3%nat. intros Hok.
  destruct (lr_is_announce_pending r); [simpl; lia|].
  destruct (bool_decide_reflect (lr_unacknowledged r = [])) as [Hu|Hu]; simpl; [done|].
  destruct (bool_decide (lr_next_retransmit_ms r <= env_now env)); [|done]. specialize (Hok Hu).
  case_bool_decide; simpl; [done|lia].
Qed.

Lemma ScheduleStateHandlers_kept : kept ScheduleStateHandlers.
Proof. unfold ScheduleStateHandlers. settle. Qed.
Lemma set_changed_types_kept l : kept (set_changed_types l).
Proof. unfold set_changed_types. settle. Qed.
#[local] Hint Resolve ScheduleStateHandlers_kept set_changed_types_kept : respects.
Lemma RemoveRemoteRecords_kept p : kept (RemoveRemoteRecords p).
Proof. unfold RemoveRemoteRecords. settle. Qed.
Lemma AddSourceState_kept x : kept (AddSourceState env x).
Proof. unfold AddSourceState. settle. Qed.
#[local] Hint Resolve RemoveRemoteRecords_kept AddSourceState_kept : respects.
Lemma MarkOverflowed_kept x : kept (MarkOverflowed env x).
Proof. unfold MarkOverflowed. settle. Qed.
Lemma StartSyncRequest_kept x : kept (StartSyncRequest env x).
Proof. unfold StartSyncRequest. settle. Qed.
Lemma mark_stale_kept x b : kept (mark_stale x b).
Proof. unfold mark_stale. settle. Qed.
Lemma DropSource_kept x : kept (DropSource x).
Proof.
  unfold DropSource. settle. by case_match.
Qed.
Lemma ForgetNetwork_kept : kept ForgetNetwork.
Proof.
  unfold ForgetNetwork. settle. unfold settles; split_and!; [unfold pub; simpl; by rewrite published_fmap|simpl; by rewrite skeleton_fmap|done|].
  intros Hl. simpl. apply Forall_fmap, (Forall_impl _ _ _ Hl). intros r _ Hr. done.
Qed.
#[local] Hint Resolve MarkOverflowed_kept StartSyncRequest_kept mark_stale_kept DropSource_kept ForgetNetwork_kept : respects.
Lemma ApplyRecord_kept m : kept (ApplyRecord env m).
Proof. unfold ApplyRecord. settle. Qed.
Lemma SendNotification_kept m : kept (SendNotification env m).
Proof. unfold SendNotification. settle. Qed.
Lemma SendResponse_kept m : kept (SendResponse env device m).
Proof. unfold SendResponse. settle. Qed.
Lemma ScheduleRetransmission_kept : kept (ScheduleRetransmission env).
Proof. unfold ScheduleRetransmission. settle. Qed.
Lemma DropFrame_kept : kept DropFrame.
Proof. unfold DropFrame. settle. Qed.
#[local] Hint Resolve ApplyRecord_kept SendNotification_kept SendResponse_kept ScheduleRetransmission_kept DropFrame_kept : respects.
Lemma ReplayRecords_kept : kept (ReplayRecords env device).
Proof. unfold ReplayRecords. settle. Qed.
Lemma ProcessStateChangeFrame_kept f : kept (ProcessStateChangeFrame env device f).
Proof. unfold ProcessStateChangeFrame. settle. Qed.
Lemma ProcessStateChangeResponseFrame_kept f : kept (ProcessStateChangeResponseFrame device f).
Proof. unfold ProcessStateChangeResponseFrame. settle. Qed.
#[local] Hint Resolve ReplayRecords_kept ProcessStateChangeFrame_kept ProcessStateChangeResponseFrame_kept : respects.
Lemma ReceiveLoop_kept fuel : kept (ReceiveLoop env device fuel).
Proof. induction fuel; simpl; unfold ProcessReceived; settle. Qed.
Lemma StateUnregister_kept : kept (StateUnregisterCanHandlers env).
Proof. unfold StateUnregisterCanHandlers. settle. Qed.
Lemma RegisterReceiveHandler_kept register base c : kept (RegisterReceiveHandler register base c).
Proof. unfold RegisterReceiveHandler. settle. Qed.
#[local] Hint Resolve ReceiveLoop_kept StateUnregister_kept RegisterReceiveHandler_kept : respects.
Lemma StateRegister_kept register : kept (StateRegisterCanHandlers env register).
Proof. unfold StateRegisterCanHandlers. settle. Qed.
#[local] Hint Resolve StateRegister_kept : respects.

Lemma Transmit_kept : kept (Transmit env device).
Proof.
  intros s. unfold Transmit. rewrite bind_get. destruct (_ || _); [done|]. rewrite bind_when_modify, bind_get, bind_modify.
  match goal with |- settles _ _ (state_of (?m ?s1)) =>
    eapply (trace_app s s1 _ []); [|enough (respects settles m) as Hm by exact (Hm s1); settle] end.
  assert (forall l, skeleton ((TransmitRecord env (network_devices STATE_ACK_PEERS_MAX) <$> l).*1) = skeleton l /\
                    published ((TransmitRecord env (network_devices STATE_ACK_PEERS_MAX) <$> l).*1) = published l) as Hl.
  { intros l. rewrite <- list_fmap_compose. rewrite skeleton_fmap, published_fmap; [done|intros r; apply TransmitRecord_value..]. }
  unfold settles; split_and!; simpl.
  - unfold pub. simpl. rewrite published_free. f_equal; [|by destruct (is_announce_all_pending_ s)].
    rewrite (proj2 (Hl _)). destruct (is_announce_all_pending_ s); [simpl; by rewrite published_fmap|done].
  - etrans; [apply skeleton_free|]. rewrite (proj1 (Hl _)).
    destruct (is_announce_all_pending_ s); [simpl; by rewrite skeleton_fmap|done].
  - done.
  - intros Hok. unfold FreeAcknowledgedWithdrawals. apply Forall_sub. rewrite <- list_fmap_compose. apply Forall_fmap.
    apply (Forall_impl send_ok); [|intros r Hr; by apply TransmitRecord_send_ok].
    destruct (is_announce_all_pending_ s); [|done]. simpl. apply Forall_fmap, (Forall_impl _ _ _ Hok). done.
Qed.
End kept.
#[export] Hint Resolve Transmit_kept ReceiveLoop_kept ReplayRecords_kept StateRegister_kept StateUnregister_kept
  ForgetNetwork_kept DropSource_kept mark_stale_kept StartSyncRequest_kept RemoveRemoteRecords_kept
  ScheduleStateHandlers_kept ProcessStateChangeFrame_kept ProcessStateChangeResponseFrame_kept DropFrame_kept : respects.

Definition is_local_change (op : StateOp) : bool :=
  match op with StSetLocal _ _ | StClearLocal _ => true | _ => false end.

Lemma other_steps_kept `{CdmpConfig} `{Crc8} p :
  is_local_change (sp_op p) = false -> respects settles (run_state_step p).
Proof.
  destruct p as [env device network []]; try done; intros _; unfold run_state_step, ignore; cbn [sp_op sp_env sp_device sp_network].
  - unfold QueueFrame. settle.
  - unfold ReceiveFrames. settle.
  - unfold StateOnDeviceStatusChanged. settle.
  - unfold OnDeviceEvent. settle.
  - unfold OnHeartbeat. settle.
  - settle.
  - settle.
  - unfold ProcessSyncRequest. settle.
  - settle.
  - settle.
  - unfold NotifyStateHandlers. settle.
  - unfold RegisterStateHandler. settle.
  - unfold StateDoStart. settle.
  - unfold StateDoStop. settle.
Qed.

(** ** Version numbers

    [behind c v]: how many versions [v] is behind the counter [c], modulo 256. *)

Definition behind (c v : Z) : Z := u8 (c - v).

Lemma behind_range c v : 0 <= behind c v < 256.
Proof. apply u8_range. Qed.
Lemma behind_refl c : behind c c = 0.
Proof. unfold behind, u8. by rewrite Z.sub_diag. Qed.
Lemma behind_add c v b : 0 <= b -> behind c v + b < 256 -> behind (u8 (c + b)) v = behind c v + b.
Proof. unfold behind, u8. intros. Z.div_mod_to_equations. lia. Qed.
Lemma u8_add_add c a b : u8 (u8 (c + a) + b) = u8 (c + (a + b)).
Proof. unfold u8. Z.div_mod_to_equations. lia. Qed.

(** The serial number comparison: [v] is newer than [c] when it is 1 to 127 versions ahead of it. *)
Lemma IsNewer_spec v c : IsNewer v c = true <-> 1 <= behind v c <= 127.
Proof.
  unfold IsNewer, i8, behind. rewrite bool_decide_eq_true. pose proof (u8_range (v - c)) as Hr.
  unfold is_u8 in Hr. case_bool_decide; lia.
Qed.
Lemma IsNewer_asym v c : IsNewer v c = true -> IsNewer c v = false.
Proof.
  intros Hn. apply not_true_is_false. rewrite !IsNewer_spec in *. unfold behind, u8 in *.
  Z.div_mod_to_equations. lia.
Qed.

(** A record before and after a refresh pass that starts at most [x] versions after it and ends at [c]. *)
Definition refreshed_record (x y c : Z) (r r' : LocalRecord) : Prop :=
  (r' = r \/ r' = Restamp (lr_version r') r /\ lr_is_withdrawn r = false /\
             STATE_VERSION_REFRESH_LAG < behind (lr_version r') (lr_version r) <= x) /\
  (lr_is_withdrawn r = false -> behind c (lr_version r') <= y).

(** The pass bumps the counter [b] times, at most once per record. *)
Lemma refresh_pass l : forall c x,
  is_u8 c -> 0 <= x -> x + Z.of_nat (length l) <= 255 -> STATE_VERSION_REFRESH_LAG + Z.of_nat (length l) <= 255 ->
  Forall (fun r => lr_is_withdrawn r = false -> behind c (lr_version r) <= x) l ->
  exists b l', RefreshLaggingVersions c l = (u8 (c + b), l') /\ 0 <= b <= Z.of_nat (length l) /\
    Forall2 (refreshed_record (x + Z.of_nat (length l)) (STATE_VERSION_REFRESH_LAG + Z.of_nat (length l) - 2)
               (u8 (c + b))) l l'.
Proof.
  induction l as [|r l IH]; intros c x Hc Hx Hlen Hlag Hl.
  { exists 0, []. cbn. rewrite Z.add_0_r, u8_id by done. split_and!; [done|lia|lia|constructor]. }
  apply Forall_cons in Hl as [Hr Hl]. cbn [RefreshLaggingVersions length] in *.
  assert (exists b0 r', (0 <= b0 <= 1) /\
    (if is_lagging c r then (u8 (c + 1), Restamp (u8 (c + 1)) r) else (c, r)) = (u8 (c + b0), r') /\
    (r' = r \/ r' = Restamp (lr_version r') r /\ lr_is_withdrawn r = false /\
       STATE_VERSION_REFRESH_LAG < behind (lr_version r') (lr_version r) <= x + 1) /\
    (lr_is_withdrawn r = false -> behind (u8 (c + b0)) (lr_version r') < STATE_VERSION_REFRESH_LAG))
    as (b0 & r' & Hb0 & Heq & Hstep & Hend).
  { unfold is_lagging. change (u8 (c - lr_version r)) with (behind c (lr_version r)).
    destruct (lr_is_withdrawn r) eqn:Hw; cbn [orb negb].
    - exists 0, r. rewrite Z.add_0_r, u8_id by done. split_and!; [lia|lia|done|by left|done].
    - specialize (Hr eq_refl). case_bool_decide; cbn [negb].
      + exists 0, r. rewrite Z.add_0_r, u8_id by done. split_and!; [lia|lia|done|by left|done].
      + exists 1, (Restamp (u8 (c + 1)) r). split_and!; [lia|lia|done| |].
        * right. cbn. rewrite behind_add by lia. split_and!; [done|done|lia|lia].
        * intros _. cbn. by rewrite behind_refl. }
  rewrite Heq.
  destruct (IH (u8 (c + b0)) (x + b0)) as (b & l' & E & Hb & HF).
  - apply u8_range.
  - lia.
  - lia.
  - lia.
  - apply (Forall_impl _ _ _ Hl). intros r0 Hr0 Hw. specialize (Hr0 Hw). rewrite behind_add; lia.
  - rewrite E. exists (b0 + b), (r' :: l'). rewrite u8_add_add in *. split; [done|]. split; [lia|].
    constructor.
    + split; [destruct Hstep as [?|(?&?&?)]; [by left|right]; split_and!; [done|done|lia|lia]|].
      intros Hw. specialize (Hend Hw). rewrite <- u8_add_add, behind_add by (pose proof (behind_range (u8 (c + b0)) (lr_version r')); lia).
      lia.
    + eapply Forall2_impl; [exact HF|]. intros r0 r0' [H1 H2]. split.
      * destruct H1 as [?|(?&?&?)]; [by left|right]. split_and!; [done|done|lia|lia].
      * intros Hw. specialize (H2 Hw). lia.
Qed.

Lemma refresh_app l1 l2 c :
  RefreshLaggingVersions c (l1 ++ l2) =
    (let '(c1, l1') := RefreshLaggingVersions c l1 in
     let '(c2, l2') := RefreshLaggingVersions c1 l2 in (c2, l1' ++ l2')).
Proof.
  revert c. induction l1 as [|r l1 IH]; intros c; cbn [app RefreshLaggingVersions]; [by case_match|].
  destruct (if is_lagging c r then _ else _) as [c0 r']. rewrite IH.
  destruct (RefreshLaggingVersions c0 l1) as [c1 l1']. by destruct (RefreshLaggingVersions c1 l2).
Qed.

(** ** A change of a record

    [local_change t data l l1 r l2]: in the records [l], the record of type [t] found or added is now
    [r], which holds [data] and is not stamped yet; [l1] and [l2] are the records around it. *)

Definition with_value (data : list Z) (r : LocalRecord) : LocalRecord :=
  r <| lr_is_withdrawn := bool_decide (data = []) |> <| lr_data := data |>.

Abbreviation by_type := (StronglySorted (fun a b : LocalRecord => lr_state_type a < lr_state_type b)).

Section changes.
Context `{CdmpConfig} `{Crc8}.

Inductive local_change (t : Z) (data : list Z) (l : list LocalRecord) :
    list LocalRecord -> LocalRecord -> list LocalRecord -> Prop :=
| change_found l1 r l2 :
    l = l1 ++ r :: l2 -> lr_state_type r = t -> lr_is_withdrawn r = true \/ lr_data r <> data ->
    local_change t data l l1 (with_value data r) l2
| change_added l0 :
    data <> [] -> t <> 0 -> (forall r, r ∈ l -> lr_state_type r <> t) ->
    (l0 = l /\ (length l < MAX_LOCAL_RECORDS)%nat \/
     exists la w lb, l = la ++ w :: lb /\ lr_is_withdrawn w = true /\ l0 = la ++ lb) ->
    local_change t data l (take (local_position t l0) l0) (with_value data (NewLocalRecord t))
      (drop (local_position t l0) l0).

(** The records after [StampChange], with the version counter. *)
Definition stamped (c : Z) (l1 : list LocalRecord) (r : LocalRecord) (l2 : list LocalRecord) : Z * list LocalRecord :=
  RefreshLaggingVersions (u8 (c + 1)) (l1 ++ Restamp (u8 (c + 1)) r :: l2).

Definition stamp_state (l1 : list LocalRecord) (r : LocalRecord) (l2 : list LocalRecord) (s : StateService) : StateService :=
  s <| version_counter_ := (stamped (version_counter_ s) l1 r l2).1 |>
    <| local_records_ := (stamped (version_counter_ s) l1 r l2).2 |>.

Definition stamp_effects (device : CdmpDevice) (s' : StateService) : list Effect :=
  SetStateDigest (LocalDigest (local_records_ s'))
  :: (if is_started_ s' && st_tasks_created_ s' && IsOnline device then [Reschedule TransmitTask 0] else []).

(** ** The invariant of this unit's records *)

Definition LAG_BOUND : Z := STATE_VERSION_REFRESH_LAG + Z.of_nat MAX_LOCAL_RECORDS - 3.
(** The bound of the [static_assert]. *)
Definition REFRESH_BOUND : Z := STATE_VERSION_REFRESH_LAG + 2 * Z.of_nat MAX_LOCAL_RECORDS - 3.

Definition record_ok (r : LocalRecord) : Prop :=
  0 < lr_state_type r < 256 /\ (lr_is_withdrawn r = true <-> lr_data r = []) /\ (length (lr_data r) <= STATE_DATA_MAX_SIZE)%nat.

Record local_wf (s : StateService) : Prop := {
  lw_counter : is_u8 (version_counter_ s);
  lw_sorted : by_type (local_records_ s);
  lw_length : (length (local_records_ s) <= MAX_LOCAL_RECORDS)%nat;
  lw_records : Forall record_ok (local_records_ s);
  lw_versions : Forall (fun r => lr_is_withdrawn r = false -> behind (version_counter_ s) (lr_version r) <= LAG_BOUND)
                  (local_records_ s);
}.

Lemma alter_middle {A} (f : A -> A) l1 x l2 : alter f (length l1) (l1 ++ x :: l2) = l1 ++ f x :: l2.
Proof. induction l1 as [|y l1 IH]; [done|]. simpl. by rewrite <- IH. Qed.

Lemma StampChange_run device l1 r l2 s :
  local_records_ s = l1 ++ r :: l2 ->
  StampChange device (length l1) s =
    (stamp_state l1 r l2 s, stamp_effects device (stamp_state l1 r l2 s), Ok tt).
Proof.
  intros Hl. destruct (stamped (version_counter_ s) l1 r l2) as [c l] eqn:E.
  unfold stamp_effects, stamp_state. rewrite E. cbn [fst snd]. unfold stamped in E.
  unfold StampChange, UpdateDigest, TransmitSoon. rewrite !bind_modify. simpl. rewrite Hl, alter_middle, E.
  rewrite bind_assoc, bind_get, bind_emit, bind_get. simpl.
  by destruct (is_started_ s && st_tasks_created_ s && IsOnline device).
Qed.

Lemma FindLocalRecord_Some t l i r :
  FindLocalRecord t l = Some (i, r) -> exists l1 l2, l = l1 ++ r :: l2 /\ i = length l1 /\ lr_state_type r = t.
Proof.
  unfold FindLocalRecord. destruct (l !! local_position t l) as [r'|] eqn:E; [|done].
  case_bool_decide; [|done]. intros [= <- <-]. exists (take (local_position t l) l), (drop (S (local_position t l)) l).
  split; [by rewrite take_drop_middle|]. split; [|done].
  rewrite length_take_le; [done|]. apply lookup_lt_Some in E. lia.
Qed.

Lemma FindLocalRecord_None t l :
  by_type l -> FindLocalRecord t l = None -> forall r, r ∈ l -> lr_state_type r <> t.
Proof.
  intros Hs Hf r Hr Ht. unfold FindLocalRecord in Hf.
  destruct (lookup_lower_bound lr_state_type Z.lt Z.lt_trans Z.lt_irrefl Z.lt_total t l r Hs) as [_ Hx].
  destruct (Hx (conj Hr Ht)) as [Hx' _]. unfold local_position in Hf. rewrite Hx' in Hf.
  by rewrite bool_decide_eq_true_2 in Hf.
Qed.

Definition changed_by (device : CdmpDevice) (t : Z) (data : list Z) (s : StateService) (o : StateService * list Effect * res unit) : Prop :=
  exists l1 r l2, local_change t data (local_records_ s) l1 r l2 /\
    state_of o = stamp_state l1 r l2 s /\ effects_of o = stamp_effects device (state_of o).

Lemma ClearLocalState_cases device t s :
  local_wf s ->
  (ClearLocalState device t s = (s, [], Ok tt) /\
     Forall (fun r => lr_state_type r = t -> lr_is_withdrawn r = true) (local_records_ s)) \/
  changed_by device t [] s (ClearLocalState device t s).
Proof.
  intros Hwf. unfold ClearLocalState. rewrite bind_get.
  destruct (FindLocalRecord t (local_records_ s)) as [[i r]|] eqn:Hf.
  - destruct (FindLocalRecord_Some _ _ _ _ Hf) as (l1 & l2 & Hl & -> & Ht).
    destruct (lr_is_withdrawn r) eqn:Hw.
    + left. split; [done|]. apply Forall_forall. intros r' Hr' Ht'.
      rewrite (sorted_key_inj lr_state_type Z.lt Z.lt_irrefl (local_records_ s) r' r); [done|apply Hwf|done| |congruence].
      rewrite Hl. set_solver.
    + right. exists l1, (with_value [] r), l2. split; [|].
      * apply (change_found _ _ _ l1 r l2); [done..|]. right.
        pose proof (lw_records _ Hwf) as Hr. rewrite Hl, Forall_app, Forall_cons in Hr.
        destruct Hr as (_ & (_ & Hd & _) & _). rewrite Hw in Hd. naive_solver.
      * rewrite bind_modify. erewrite (StampChange_run device l1 (with_value [] r) l2); [split; [done|reflexivity]|].
        simpl. by rewrite Hl, alter_middle.
  - left. split; [done|]. apply Forall_forall. intros r Hr Ht.
    by destruct (FindLocalRecord_None t (local_records_ s) (lw_sorted _ Hwf) Hf r).
Qed.

Lemma StoreLocalState_run device t data l l1 r l2 s :
  data <> [] -> l = l1 ++ r :: l2 -> local_change t data (local_records_ s) l1 (with_value data r) l2 ->
  changed_by device t data s (ignore (StoreLocalState device data (length l1) l) s) /\
  result_of (StoreLocalState device data (length l1) l s) = Ok true.
Proof.
  intros Hd -> Hc.
  assert (StoreLocalState device data (length l1) (l1 ++ r :: l2) s =
    (stamp_state l1 (with_value data r) l2 s, stamp_effects device (stamp_state l1 (with_value data r) l2 s), Ok true)) as E.
  { unfold StoreLocalState. rewrite bind_modify, alter_middle.
    erewrite bind_ok by (apply (StampChange_run device l1 (with_value data r) l2); unfold with_value;
      rewrite bool_decide_eq_false_2 by done; done).
    unfold prepend. simpl. by rewrite app_nil_r. }
  unfold ignore. erewrite bind_ok by exact E. rewrite E. split; [|done].
  exists l1, (with_value data r), l2. split; [done|]. split; [done|]. unfold prepend. simpl. by rewrite app_nil_r.
Qed.

Lemma SetLocalState_nonempty device t data :
  data <> [] ->
  SetLocalState device t data =
    (if bool_decide (t = 0) || bool_decide (STATE_DATA_MAX_SIZE < length data)%nat then mret false
      else
        s ← get;
        let l := local_records_ s in
        match FindLocalRecord t l with
        | Some (i, r) =>
            if negb (lr_is_withdrawn r) && bool_decide (lr_data r = data) then mret true
            else StoreLocalState device data i l
        | None =>
            match AddLocalRecord t l with
            | None => mret false
            | Some (i, l) => StoreLocalState device data i l
            end
        end).
Proof. by destruct data. Qed.

(** [SetLocalState] refuses, finds the value there already, or changes the record; it answers whether the value
    is set. *)
Lemma SetLocalState_cases device t data s :
  local_wf s -> data <> [] ->
  (ignore (SetLocalState device t data) s = (s, [], Ok tt) /\
     (result_of (SetLocalState device t data s) = Ok false /\
        (t = 0 \/ (STATE_DATA_MAX_SIZE < length data)%nat \/
         length (local_records_ s) = MAX_LOCAL_RECORDS /\ Forall (fun r => lr_state_type r <> t /\ lr_is_withdrawn r = false) (local_records_ s)) \/
      result_of (SetLocalState device t data s) = Ok true /\
        exists r, r ∈ local_records_ s /\ lr_state_type r = t /\ lr_is_withdrawn r = false /\ lr_data r = data)) \/
  (changed_by device t data s (ignore (SetLocalState device t data) s) /\
   result_of (SetLocalState device t data s) = Ok true /\ t <> 0 /\ (length data <= STATE_DATA_MAX_SIZE)%nat).
Proof.
  intros Hwf Hd.
  rewrite SetLocalState_nonempty by done.
  destruct (bool_decide_reflect (t = 0)) as [Ht|Ht]; cbn [orb].
  { left. split; [done|]. left. split; [done|by left]. }
  destruct (bool_decide_reflect (STATE_DATA_MAX_SIZE < length data)%nat) as [Hn|Hn].
  { left. split; [done|]. left. split; [done|by right; left]. }
  unfold ignore. rewrite bind_assoc, !bind_get. cbv zeta.
  destruct (FindLocalRecord t (local_records_ s)) as [[i r]|] eqn:Hf.
  - destruct (FindLocalRecord_Some _ _ _ _ Hf) as (l1 & l2 & Hl & -> & Ht').
    destruct (lr_is_withdrawn r) eqn:Hw; cbn [negb andb].
    2: destruct (bool_decide_reflect (lr_data r = data)) as [Hv|Hv].
    + right. destruct (StoreLocalState_run device t data _ l1 r l2 s Hd Hl) as [H1 H2]; [|split_and!; [done|done|done|lia]].
      apply (change_found _ _ _ l1 r l2); [done..|by left].
    + left. split; [done|]. right. split; [done|]. exists r. split; [rewrite Hl; set_solver|done].
    + right. destruct (StoreLocalState_run device t data _ l1 r l2 s Hd Hl) as [H1 H2]; [|split_and!; [done|done|done|lia]].
      apply (change_found _ _ _ l1 r l2); [done..|by right].
  - pose proof (FindLocalRecord_None t _ (lw_sorted _ Hwf) Hf) as Hnone.
    unfold AddLocalRecord. case_bool_decide as Hfull.
    + destruct (find_index lr_is_withdrawn (local_records_ s)) as [w|] eqn:Hw; cbn [fmap option_fmap option_map].
      * right. apply find_index_Some in Hw as [(x & Hx & Hxw) _].
        destruct (StoreLocalState_run device t data _ _ (NewLocalRecord t) _ s Hd eq_refl
          (change_added t data _ (delete w (local_records_ s)) Hd Ht Hnone (or_intror
            (ex_intro _ (take w (local_records_ s)) (ex_intro _ x (ex_intro _ (drop (S w) (local_records_ s))
              (conj (eq_sym (take_drop_middle _ _ _ Hx)) (conj Hxw (delete_take_drop _ _)))))))))
          as [H1 H2].
        rewrite length_take_le in H1, H2 by apply lower_bound_le. split_and!; [done|done|done|lia].
      * left. split; [done|]. left. split; [done|]. right. right. split; [done|].
        apply Forall_forall. intros r Hr. split; [by apply Hnone|].
        by apply (proj1 (find_index_None _ _) Hw).
    + right. cbn [fmap option_fmap option_map].
      assert (length (local_records_ s) < MAX_LOCAL_RECORDS)%nat as Hlt by (pose proof (lw_length _ Hwf); lia).
      destruct (StoreLocalState_run device t data _ _ (NewLocalRecord t) _ s Hd eq_refl
          (change_added t data _ (local_records_ s) Hd Ht Hnone (or_introl (conj eq_refl Hlt)))) as [H1 H2].
      rewrite length_take_le in H1, H2 by apply lower_bound_le. split_and!; [done|done|done|lia].
Qed.
End changes.

(** ** The records after a change *)

Section after.
Context `{CdmpConfig} `{Crc8}.

Lemma refreshed_value x y c r r' :
  refreshed_record x y c r r' ->
  lr_state_type r' = lr_state_type r /\ lr_is_withdrawn r' = lr_is_withdrawn r /\ lr_data r' = lr_data r.
Proof. intros [[->|(-> & _)] _]; done. Qed.

Lemma refreshed_ahead x y y' c c' b r r' :
  0 <= b -> y + b <= y' -> y' < 256 -> c' = u8 (c + b) ->
  refreshed_record x y c r r' -> refreshed_record x y' c' r r'.
Proof.
  intros Hb Hy Hy' -> [H1 H2]. split; [done|]. intros Hw. specialize (H2 Hw). rewrite behind_add; lia.
Qed.
Lemma refreshed_within x x' y y' c r r' :
  x <= x' -> y <= y' -> refreshed_record x y c r r' -> refreshed_record x' y' c r r'.
Proof.
  intros Hx Hy [H1 H2]. split; [|intros Hw; specialize (H2 Hw); lia].
  destruct H1 as [?|(?&?&?)]; [by left|right]. split_and!; [done|done|lia|lia].
Qed.

Lemma not_lagging c b r : 0 <= b < STATE_VERSION_REFRESH_LAG -> is_lagging (u8 (c + b)) (Restamp c r) = false.
Proof.
  intros Hb. unfold is_lagging. change (u8 (u8 (c + b) - _)) with (behind (u8 (c + b)) c).
  assert (STATE_VERSION_REFRESH_LAG <= 255) by (unfold STATE_VERSION_REFRESH_LAG; lia).
  rewrite behind_add by (rewrite ?behind_refl; lia). rewrite behind_refl, bool_decide_eq_true_2 by lia. by rewrite orb_true_r.
Qed.

(** The whole of [StampChange] on the versions: the changed record takes the next version, and the others are
    refreshed within the bounds. *)
Lemma stamped_spec c l1 r l2 :
  is_u8 c -> (length (l1 ++ r :: l2) <= MAX_LOCAL_RECORDS)%nat ->
  Forall (fun r => lr_is_withdrawn r = false -> behind c (lr_version r) <= LAG_BOUND) (l1 ++ l2) ->
  exists c' l1' l2', stamped c l1 r l2 = (c', l1' ++ Restamp (u8 (c + 1)) r :: l2') /\
    is_u8 c' /\ behind c' (u8 (c + 1)) <= LAG_BOUND /\
    Forall2 (refreshed_record REFRESH_BOUND LAG_BOUND c') l1 l1' /\
    Forall2 (refreshed_record REFRESH_BOUND LAG_BOUND c') l2 l2'.
Proof.
  intros Hc Hlen [Hl1 Hl2]%Forall_app. rewrite length_app in Hlen. cbn [length] in Hlen.
  pose proof cfg_local as Hcfg. pose proof cfg_refresh as Hr.
  unfold STATE_VERSION_REFRESH_LAG, LAG_BOUND, REFRESH_BOUND in *. unfold STATE_VERSION_REFRESH_LAG in *.
  set (n := Z.of_nat MAX_LOCAL_RECORDS) in *. set (c1 := u8 (c + 1)).
  assert (forall l, Forall (fun r => lr_is_withdrawn r = false -> behind c (lr_version r) <= 64 + n - 3) l ->
                    Forall (fun r => lr_is_withdrawn r = false -> behind c1 (lr_version r) <= 64 + n - 2) l) as Hnext.
  { intros l Hl. apply (Forall_impl _ _ _ Hl). intros x Hx Hw. specialize (Hx Hw). unfold c1. rewrite behind_add; lia. }
  destruct (refresh_pass l1 c1 (64 + n - 2)) as (b1 & l1' & E1 & Hb1 & F1);
    [apply u8_range|lia|lia|unfold STATE_VERSION_REFRESH_LAG; lia|by apply Hnext|].
  destruct (refresh_pass l2 (u8 (c1 + b1)) (64 + n - 2 + b1)) as (b2 & l2' & E2 & Hb2 & F2);
    [apply u8_range|lia|lia|unfold STATE_VERSION_REFRESH_LAG; lia| |].
  { apply (Forall_impl _ _ _ (Hnext _ Hl2)). intros x Hx Hw. specialize (Hx Hw). rewrite behind_add; lia. }
  rewrite u8_add_add in E2, F2. unfold STATE_VERSION_REFRESH_LAG in F1, F2.
  exists (u8 (c1 + (b1 + b2))), l1', l2'. split_and!.
  - unfold stamped. rewrite refresh_app. fold c1. rewrite E1. cbn [RefreshLaggingVersions].
    rewrite not_lagging by (unfold STATE_VERSION_REFRESH_LAG; lia). by rewrite E2.
  - apply u8_range.
  - fold c1. rewrite behind_add, behind_refl by (rewrite ?behind_refl; lia). lia.
  - eapply Forall2_impl; [exact F1|]. intros x x' Hx.
    eapply (refreshed_within (64 + n - 2 + Z.of_nat (length l1)) _ (64 + Z.of_nat (length l1) - 2 + b2)); [lia|lia|].
    eapply (refreshed_ahead _ _ _ _ _ b2); [..|exact Hx]; [lia|lia|lia|by rewrite u8_add_add].
  - eapply Forall2_impl; [exact F2|]. intros x x' Hx. eapply refreshed_within; [..|exact Hx]; lia.
Qed.

Lemma local_change_around s t data l1 r l2 :
  local_wf s -> is_u8 t -> (length data <= STATE_DATA_MAX_SIZE)%nat ->
  local_change t data (local_records_ s) l1 r l2 ->
  by_type (l1 ++ r :: l2) /\ (length (l1 ++ r :: l2) <= MAX_LOCAL_RECORDS)%nat /\ record_ok r /\
  lr_state_type r = t /\ lr_data r = data /\ lr_is_withdrawn r = bool_decide (data = []) /\
  (forall x, x ∈ l1 ++ l2 -> x ∈ local_records_ s /\ lr_state_type x <> t) /\
  (forall x, x ∈ local_records_ s -> lr_state_type x <> t -> lr_is_withdrawn x = false -> x ∈ l1 ++ l2).
Proof.
  intros Hwf Htr Hlen Hc. destruct Hwf as [_ Hs Hl Hr _]. destruct Hc as [l1 r l2 E Ht _|l0 Hd Ht Hn Hl0].
  - rewrite E in *. pose proof Hs as Hs'. apply (StronglySorted_fmap_key Z.lt lr_state_type lr_state_type
      (fun x => if bool_decide (lr_state_type x = t) then with_value data x else x)) in Hs;
      [|intros x _; by case_bool_decide].
    assert (forall x, x ∈ l1 ++ l2 -> lr_state_type x <> t) as Hother.
    { intros x Hx Hxt. assert (NoDup (lr_state_type <$> l1 ++ r :: l2)) as Hnd
        by apply (sorted_NoDup lr_state_type Z.lt Z.lt_irrefl _ Hs').
      rewrite fmap_app, fmap_cons in Hnd. rewrite <- Permutation_middle, NoDup_cons in Hnd.
      destruct Hnd as [Hnd _]. apply Hnd. rewrite <- fmap_app. apply list_elem_of_fmap. exists x. split; [congruence|done]. }
    rewrite Forall_app, Forall_cons in Hr. destruct Hr as (_ & (Hr1 & Hr2 & Hr3) & _).
    split_and!.
    + rewrite fmap_app, fmap_cons in Hs. rewrite bool_decide_eq_true_2 in Hs by done.
      assert (forall l : list LocalRecord, (forall x, x ∈ l -> lr_state_type x <> t) ->
        (fun x => if bool_decide (lr_state_type x = t) then with_value data x else x) <$> l = l) as Hid.
      { clear. intros l. induction l as [|x l IH]; intros Hx; [done|]. rewrite fmap_cons, IH by (intros y Hy; apply Hx; by right).
        by rewrite bool_decide_eq_false_2 by (apply Hx; left). }
      rewrite (Hid l1), (Hid l2) in Hs by (intros x Hx; apply Hother; set_solver). done.
    + rewrite length_app in *. cbn [length] in *. lia.
    + split; [done|]. cbn. by rewrite bool_decide_eq_true.
    + done.
    + done.
    + done.
    + intros x Hx. split; [set_solver|by apply Hother].
    + intros x Hx Hxt _. apply elem_of_app in Hx as [?|[->|?]%elem_of_cons]; [set_solver|done|set_solver].
  - assert (by_type l0 /\ (length l0 < MAX_LOCAL_RECORDS)%nat /\ (forall x, x ∈ l0 -> x ∈ local_records_ s) /\
      forall x, x ∈ local_records_ s -> lr_is_withdrawn x = false -> x ∈ l0) as (Hs0 & Hl0' & Hsub & Hsup).
    { destruct Hl0 as [[-> ?]|(la & w & lb & E & Hw & ->)]; [done|]. rewrite E in *. split_and!.
      - eapply StronglySorted_sublist; [|exact Hs]. apply sublist_app; [done|]. by apply sublist_cons.
      - rewrite length_app in *. cbn [length] in *. lia.
      - set_solver.
      - intros x Hx Hxw. apply elem_of_app in Hx as [?|[->|?]%elem_of_cons]; [set_solver|congruence|set_solver]. }
    split_and!.
    + apply (insert_at_sorted lr_state_type Z.lt Z.lt_trans Z.lt_total (with_value data (NewLocalRecord t)) l0 Hs0).
      intros y Hy. by apply Hn, Hsub.
    + change (length (insert_at (local_position t l0) (with_value data (NewLocalRecord t)) l0) <= MAX_LOCAL_RECORDS)%nat.
      rewrite length_insert_at. lia.
    + unfold is_u8 in Htr. split; [cbn; lia|]. cbn. by rewrite bool_decide_eq_true.
    + done.
    + done.
    + done.
    + rewrite take_drop. intros x Hx. split; [by apply Hsub|by apply Hn, Hsub].
    + rewrite take_drop. intros x Hx _ Hw. by apply Hsup.
Qed.
End after.

(** ** Every step keeps the records well formed *)

Definition step_ok (p : StateStep) : Prop :=
  match sp_op p with StSetLocal t _ => is_u8 t | _ => True end.

Section invariant.
Context `{CdmpConfig} `{Crc8}.

Lemma skeleton_elem l l' r' :
  skeleton l' `sublist_of` skeleton l -> r' ∈ l' ->
  exists r, r ∈ l /\ record_value r = record_value r' /\ lr_is_withdrawn r = lr_is_withdrawn r'.
Proof.
  intros Hs Hr. assert ((record_value r', lr_is_withdrawn r') ∈ skeleton l) as Hin.
  { eapply elem_of_submseteq; [|by apply sublist_submseteq]. apply list_elem_of_fmap. by exists r'. }
  apply list_elem_of_fmap in Hin as (r & Hv & Hr'). exists r. split; [done|].
  split; symmetry; [exact (f_equal fst Hv)|exact (f_equal snd Hv)].
Qed.

Lemma by_type_skeleton l : by_type l <-> StronglySorted (fun a b : Z * Z * list Z * bool => a.1.1.1 < b.1.1.1) (skeleton l).
Proof.
  unfold skeleton. induction l as [|r l IH]; [split; constructor|]. rewrite fmap_cons. split; intros [Hs Hr]%StronglySorted_inv; constructor.
  - by apply IH.
  - by rewrite Forall_fmap.
  - by apply IH.
  - by rewrite Forall_fmap in Hr.
Qed.

Lemma local_wf_settles s e s' : local_wf s -> settles s e s' -> local_wf s'.
Proof.
  intros [Hc Hs Hl Hr Hv] (Hp & Hsub & _ & _). unfold pub in Hp. injection Hp as Hp Hcc. split.
  - by rewrite Hcc.
  - rewrite by_type_skeleton in *. by eapply StronglySorted_sublist.
  - apply sublist_length in Hsub. unfold skeleton in Hsub. rewrite !length_fmap in Hsub. lia.
  - rewrite Forall_forall in Hr |- *. intros r' Hr'. destruct (skeleton_elem _ _ _ Hsub Hr') as (r & Hin & E & Ew).
    specialize (Hr r Hin). unfold record_ok in *. injection E as Et Ev Ed. by rewrite <- Et, <- Ed, <- Ew.
  - rewrite Forall_forall in Hv |- *. intros r' Hr' Hw. destruct (skeleton_elem _ _ _ Hsub Hr') as (r & Hin & E & Ew).
    rewrite Hcc. injection E as Et Ev Ed. rewrite <- Ev. apply Hv; congruence.
Qed.

Lemma refreshed_sorted x y c l l' :
  Forall2 (refreshed_record x y c) l l' -> lr_state_type <$> l' = lr_state_type <$> l.
Proof.
  induction 1 as [|r r' l l' Hr _ IH]; [done|]. rewrite !fmap_cons, IH. f_equal. eapply refreshed_value, Hr.
Qed.
Lemma by_type_types l : by_type l <-> StronglySorted Z.lt (lr_state_type <$> l).
Proof.
  induction l as [|r l IH]; [split; constructor|]. rewrite fmap_cons.
  split; intros [Hs Hr]%StronglySorted_inv; constructor; rewrite ?Forall_fmap in *; tauto.
Qed.

Lemma refreshed_Forall x y c (P : LocalRecord -> Prop) (Q : LocalRecord -> Prop) l l' :
  Forall P l -> Forall2 (refreshed_record x y c) l l' ->
  (forall r r', P r -> refreshed_record x y c r r' -> Q r') -> Forall Q l'.
Proof. intros HP HF HQ. induction HF; [done|]. apply Forall_cons in HP as [? ?]. constructor; [eauto|by apply IHHF]. Qed.

Lemma local_wf_stamp s t data l1 r l2 :
  local_wf s -> is_u8 t -> (length data <= STATE_DATA_MAX_SIZE)%nat ->
  local_change t data (local_records_ s) l1 r l2 -> local_wf (stamp_state l1 r l2 s).
Proof.
  intros Hwf Ht Hlen Hch.
  destruct (local_change_around s t data l1 r l2 Hwf Ht Hlen Hch) as (Hs & Hl & Hr & _ & _ & _ & Hin & _).
  destruct (stamped_spec (version_counter_ s) l1 r l2) as (c' & l1' & l2' & E & Hc' & Hb & F1 & F2);
    [apply Hwf|done| |].
  { pose proof (lw_versions _ Hwf) as Hv. rewrite Forall_forall in Hv |- *. intros x Hx. apply Hv, Hin, Hx. }
  unfold stamp_state. rewrite E. cbn [fst snd].
  assert (Forall record_ok (l1 ++ l2)) as Hok.
  { pose proof (lw_records _ Hwf) as Ho. rewrite Forall_forall in Ho |- *. intros x Hx. apply Ho, Hin, Hx. }
  apply Forall_app in Hok as [Hok1 Hok2].
  assert (forall x x', record_ok x -> refreshed_record REFRESH_BOUND LAG_BOUND c' x x' -> record_ok x') as Hkeep.
  { intros x x' Hx (E1 & E2 & E3)%refreshed_value. unfold record_ok. by rewrite E1, E2, E3. }
  split; simpl; [done|..].
  - rewrite by_type_types in *. rewrite fmap_app, fmap_cons in *.
    by rewrite (refreshed_sorted _ _ _ _ _ F1), (refreshed_sorted _ _ _ _ _ F2).
  - rewrite length_app in *. cbn [length] in *. by rewrite <- (Forall2_length _ _ _ F1), <- (Forall2_length _ _ _ F2).
  - rewrite Forall_app, Forall_cons. split_and!; [|done|].
    + by eapply refreshed_Forall; [exact Hok1|exact F1|].
    + by eapply refreshed_Forall; [exact Hok2|exact F2|].
  - assert (forall l l', Forall2 (refreshed_record REFRESH_BOUND LAG_BOUND c') l l' ->
      Forall (fun x => lr_is_withdrawn x = false -> behind c' (lr_version x) <= LAG_BOUND) l') as Hlag.
    { intros l l' HF. induction HF as [|x x' l l' Hx HF IH]; constructor; [|done].
      intros Hw. destruct (refreshed_value _ _ _ _ _ Hx) as (_ & Hw' & _). apply Hx. congruence. }
    rewrite Forall_app, Forall_cons. split_and!; [by eapply Hlag| |by eapply Hlag]. by intros _.
Qed.
End invariant.

(** ** One step, and runs *)

Section runs.
Context `{CdmpConfig} `{Crc8}.

(** What a step sets, if it changes this unit's records. *)
Definition local_target (op : StateOp) : option (Z * list Z) :=
  match op with
  | StSetLocal t data => Some (t, data)
  | StClearLocal t => Some (t, [])
  | _ => None
  end.

Lemma settles_refl s : settles s [] s.
Proof. apply trace_nil. Qed.

Lemma ignore_run {A} (m : SM A) s :
  state_of (ignore m s) = state_of (m s) /\ effects_of (ignore m s) = effects_of (m s).
Proof. unfold ignore, mbind, M_bind, state_of, effects_of. destruct (m s) as [[s1 e1] []]; simpl; by rewrite ?app_nil_r. Qed.

Lemma SetLocalState_empty device t s : ignore (SetLocalState device t []) s = ClearLocalState device t s.
Proof.
  unfold ignore, SetLocalState. rewrite bind_assoc. unfold mbind, M_bind.
  destruct (ClearLocalState device t s) as [[s1 e1] [[]|x|]]; simpl; by rewrite ?app_nil_r.
Qed.

Lemma step_cases p s :
  local_wf s -> step_ok p ->
  settles s (effects_of (run_state_step p s)) (state_of (run_state_step p s)) \/
  exists t data, local_target (sp_op p) = Some (t, data) /\ is_u8 t /\ (length data <= STATE_DATA_MAX_SIZE)%nat /\
    changed_by (sp_device p) t data s (run_state_step p s).
Proof.
  intros Hwf Hok. destruct (is_local_change (sp_op p)) eqn:Hop; [|left; by apply other_steps_kept].
  destruct p as [env device network []]; try done; unfold run_state_step, step_ok in *; cbn [sp_op sp_env sp_device sp_network] in *.
  - destruct (decide (data = [])) as [->|Hd].
    + rewrite SetLocalState_empty. destruct (ClearLocalState_cases device state_type s Hwf) as [[E _]|Hc].
      * left. rewrite E. apply settles_refl.
      * right. exists state_type, []. split_and!; [done|done|simpl; lia|done].
    + destruct (SetLocalState_cases device state_type data s Hwf Hd) as [[E _]|(Hc & _ & _ & Hn)].
      * left. rewrite E. apply settles_refl.
      * right. by exists state_type, data.
  - destruct (ClearLocalState_cases device state_type s Hwf) as [[E _]|Hc].
    + left. rewrite E. apply settles_refl.
    + right. exists state_type, []. split_and!; [done| |simpl; unfold STATE_DATA_MAX_SIZE; lia|done].
      destruct Hc as (l1 & r & l2 & Hch & _). destruct Hch as [l1 r l2 E Ht _|]; [|done].
      pose proof (lw_records _ Hwf) as Hr. rewrite E, Forall_app, Forall_cons in Hr.
      destruct Hr as (_ & (Hr & _) & _). unfold is_u8. lia.
Qed.

Lemma step_local_wf p s : local_wf s -> step_ok p -> local_wf (state_of (run_state_step p s)).
Proof.
  intros Hwf Hok. destruct (step_cases p s Hwf Hok) as [Hs|(t & data & _ & Ht & Hn & (l1 & r & l2 & Hc & E & _))].
  - by eapply local_wf_settles.
  - rewrite E. by eapply local_wf_stamp.
Qed.

Lemma NewStateService_local_wf base : local_wf (NewStateService base).
Proof. split; simpl; [unfold is_u8; lia|constructor|lia|constructor|constructor]. Qed.

Lemma run_state_steps_ind (P : StateService -> Prop) l s :
  (forall p s, P s -> step_ok p -> P (state_of (run_state_step p s))) ->
  P s -> Forall step_ok l -> P (run_state_steps l s).1.
Proof.
  intros Hstep Hs Hl. revert s Hs. induction Hl as [|p l Hp Hl IH]; intros s Hs; [done|]. simpl.
  specialize (IH _ (Hstep _ _ Hs Hp)). by destruct (run_state_steps l _).
Qed.

Lemma run_local_wf base l : Forall step_ok l -> local_wf (run_state_steps l (NewStateService base)).1.
Proof. apply run_state_steps_ind; [|apply NewStateService_local_wf]. intros. by apply step_local_wf. Qed.

(** ** The digest *)

Lemma LocalDigest_published l :
  LocalDigest l = foldl (fun d v => AddToDigest d v.1.1 v.1.2 v.2) 0 (published l).
Proof.
  unfold LocalDigest, published. generalize 0. induction l as [|r l IH]; intros d; [done|]. simpl.
  rewrite filter_cons. destruct (lr_is_withdrawn r) eqn:Hw.
  - rewrite decide_False by done. apply IH.
  - rewrite decide_True by done. simpl. apply IH.
Qed.

Lemma step_digest p s d :
  local_wf s -> step_ok p -> d = LocalDigest (local_records_ s) ->
  default d (last (digests (effects_of (run_state_step p s)))) = LocalDigest (local_records_ (state_of (run_state_step p s))).
Proof.
  intros Hwf Hp Hd.
  destruct (step_cases p s Hwf Hp) as [(Hpub & _ & -> & _)|(t & data & _ & Ht & Hn & (l1 & r & l2 & Hc & _ & ->))].
  - simpl. rewrite Hd, !LocalDigest_published. unfold pub in Hpub. by injection Hpub as <- _.
  - unfold stamp_effects. by case_match.
Qed.

(** C23. The digest this unit's heartbeats carry is always the digest of its records: whatever the
    service does, the last digest it handed to the device (the initial 0 before the first) is that of the types,
    versions and data of the records not withdrawn. *)
Theorem heartbeat_digest_tracks_the_records base l :
  Forall step_ok l ->
  let '(s, e) := run_state_steps l (NewStateService base) in
  default 0 (last (digests e)) = LocalDigest (local_records_ s).
Proof.
  intros Hl. assert (forall s d, local_wf s -> d = LocalDigest (local_records_ s) ->
    let '(s', e) := run_state_steps l s in default d (last (digests e)) = LocalDigest (local_records_ s')) as Hrun.
  { induction Hl as [|p l Hp Hl IH]; intros s d Hwf Hd; [done|]. simpl.
    pose proof (step_digest p s d Hwf Hp Hd) as Hstep.
    specialize (IH _ _ (step_local_wf p s Hwf Hp) Hstep). destruct (run_state_steps l _) as [s' e].
    rewrite digests_app, last_app. destruct (last (digests e)); [done|]. simpl in IH. by rewrite <- IH. }
  apply Hrun; [apply NewStateService_local_wf|done].
Qed.
End runs.

(** ** Versions of the same record *)

Section versions.
Context `{CdmpConfig} `{Crc8}.

Lemma stamp_others t data s l1 r l2 :
  local_wf s -> is_u8 t -> (length data <= STATE_DATA_MAX_SIZE)%nat -> local_change t data (local_records_ s) l1 r l2 ->
  forall x', x' ∈ local_records_ (stamp_state l1 r l2 s) ->
    x' = Restamp (u8 (version_counter_ s + 1)) r \/
    exists x c', x ∈ l1 ++ l2 /\ refreshed_record REFRESH_BOUND LAG_BOUND c' x x'.
Proof.
  intros Hwf Ht Hn Hc. destruct (local_change_around s t data l1 r l2 Hwf Ht Hn Hc) as (_ & Hl & _ & _ & _ & _ & Hin & _).
  destruct (stamped_spec (version_counter_ s) l1 r l2) as (c' & l1' & l2' & E & _ & _ & F1 & F2); [apply Hwf|done| |].
  { pose proof (lw_versions _ Hwf) as Hv. rewrite Forall_forall in Hv |- *. intros x Hx. apply Hv, Hin, Hx. }
  unfold stamp_state. rewrite E. simpl. intros x' [Hx|[->|Hx]%elem_of_cons]%elem_of_app; [right|by left|right].
  - apply list_elem_of_lookup in Hx as [i Hi]. destruct (Forall2_lookup_r _ _ _ _ _ F1 Hi) as (x & Hx & Hr).
    exists x, c'. split; [|done]. apply elem_of_app. left. by eapply list_elem_of_lookup_2.
  - apply list_elem_of_lookup in Hx as [i Hi]. destruct (Forall2_lookup_r _ _ _ _ _ F2 Hi) as (x & Hx & Hr).
    exists x, c'. split; [|done]. apply elem_of_app. right. by eapply list_elem_of_lookup_2.
Qed.

(** C21. A version names one value, and receivers can order the versions of a record: in every
    reachable state, a step leaves a record's version and data as they are or gives it a version that the 8-bit
    serial number comparison takes for newer, at most [REFRESH_BOUND] (the bound of the [static_assert], within
    the window of 127) ahead, however often the version counter has wrapped. *)
Theorem versions_of_a_record_are_newer base l p r r' :
  Forall step_ok l -> step_ok p ->
  let s := (run_state_steps l (NewStateService base)).1 in
  r ∈ local_records_ s -> r' ∈ local_records_ (state_of (run_state_step p s)) ->
  lr_state_type r' = lr_state_type r -> lr_is_withdrawn r = false ->
  (lr_version r' = lr_version r /\ lr_data r' = lr_data r /\ lr_is_withdrawn r' = false) \/
  (IsNewer (lr_version r') (lr_version r) = true /\
   1 <= behind (lr_version r') (lr_version r) <= REFRESH_BOUND).
Proof.
  intros Hl Hp s Hr Hr' Ht Hw. assert (local_wf s) as Hwf by by apply run_local_wf.
  assert (REFRESH_BOUND <= 127) as Hb by (unfold REFRESH_BOUND; apply cfg_refresh).
  assert (forall x, x ∈ local_records_ s -> lr_state_type x = lr_state_type r -> x = r) as Hinj.
  { intros x Hx Hxt. by apply (sorted_key_inj lr_state_type Z.lt Z.lt_irrefl (local_records_ s)); [apply Hwf|..]. }
  assert (1 <= behind (lr_version r') (lr_version r) <= REFRESH_BOUND ->
    IsNewer (lr_version r') (lr_version r) = true /\ 1 <= behind (lr_version r') (lr_version r) <= REFRESH_BOUND) as Hnewer.
  { intros. split; [apply IsNewer_spec; lia|done]. }
  destruct (step_cases p s Hwf Hp) as [(_ & Hsub & _ & _)|(t & data & _ & Ht8 & Hn & (l1 & x & l2 & Hc & E & _))].
  - left. destruct (skeleton_elem _ _ _ Hsub Hr') as (x & Hx & Ev & Ew). injection Ev as Et Ev Ed.
    assert (x = r) as -> by (apply Hinj; congruence). split_and!; congruence.
  - rewrite E in Hr'. pose proof (local_change_around s t data l1 x l2 Hwf Ht8 Hn Hc) as (_ & _ & _ & Hxt & _ & _ & Hin & _).
    destruct (stamp_others t data s l1 x l2 Hwf Ht8 Hn Hc r' Hr') as [->|(y & c' & Hy & Hyr)].
    + right. apply Hnewer. simpl in *.
      pose proof (lw_versions _ Hwf) as Hv. rewrite Forall_forall in Hv. specialize (Hv r Hr Hw).
      pose proof cfg_local. unfold REFRESH_BOUND, LAG_BOUND, STATE_VERSION_REFRESH_LAG in *.
      pose proof (behind_range (version_counter_ s) (lr_version r)). rewrite behind_add; lia.
    + destruct (refreshed_value _ _ _ _ _ Hyr) as (Et & Ew & Ed).
      assert (y = r) as -> by (apply Hinj; [by apply Hin|congruence]).
      destruct Hyr as [[->|(Hres & _ & Hbeh)] _]; [by left|right]. apply Hnewer.
      unfold STATE_VERSION_REFRESH_LAG in Hbeh. lia.
Qed.
End versions.

(** ** The record API as a map

    What this unit shares, as its owner sees it: a value per state type. *)

Definition shared (s : StateService) : gmap Z (list Z) :=
  list_to_map ((fun v : Z * Z * list Z => (v.1.1, v.2)) <$> published (local_records_ s)).

Section api.
Context `{CdmpConfig} `{Crc8}.

Lemma shared_pub s s' : pub s' = pub s -> shared s' = shared s.
Proof. unfold pub, shared. by intros [= -> _]. Qed.

Lemma published_keys_NoDup s :
  local_wf s -> NoDup ((fun v : Z * Z * list Z => (v.1.1, v.2)) <$> published (local_records_ s)).*1.
Proof.
  intros Hwf. unfold published. rewrite <- !list_fmap_compose.
  eapply sublist_NoDup; [|apply (fmap_sublist lr_state_type _ _ (sublist_filter _ _))].
  apply (sorted_NoDup lr_state_type Z.lt Z.lt_irrefl), Hwf.
Qed.

Lemma filter_all {A} (P : A -> Prop) `{!forall x, Decision (P x)} l : Forall P l -> filter P l = l.
Proof. induction 1 as [|x l Hx _ IH]; [done|]. by rewrite filter_cons, decide_True, IH. Qed.

Lemma shared_size s :
  local_wf s -> size (shared s) = length (filter (fun r => lr_is_withdrawn r = false) (local_records_ s)).
Proof.
  intros Hwf. unfold shared. rewrite map_size_list_to_map by by apply published_keys_NoDup.
  unfold published. by rewrite !length_fmap.
Qed.

(** Full of values: none is withdrawn. *)
Lemma shared_full s :
  local_wf s -> size (shared s) = MAX_LOCAL_RECORDS ->
  length (local_records_ s) = MAX_LOCAL_RECORDS /\ Forall (fun r => lr_is_withdrawn r = false) (local_records_ s).
Proof.
  intros Hwf Hsz. rewrite shared_size in Hsz by done. pose proof (lw_length _ Hwf) as Hl.
  pose proof (length_filter (fun r => lr_is_withdrawn r = false) (local_records_ s)) as Hf.
  split; [lia|]. apply Forall_forall. intros r Hr. destruct (decide (lr_is_withdrawn r = false)) as [|Hn]; [done|].
  pose proof (length_filter_lt (fun r => lr_is_withdrawn r = false) _ _ Hr Hn). lia.
Qed.

Lemma shared_lookup s t data :
  local_wf s ->
  shared s !! t = Some data <->
  exists r, r ∈ local_records_ s /\ lr_state_type r = t /\ lr_is_withdrawn r = false /\ lr_data r = data.
Proof.
  intros Hwf. unfold shared. rewrite <- elem_of_list_to_map.
  - unfold published. rewrite <- list_fmap_compose. rewrite list_elem_of_fmap. split.
    + intros (r & [= -> ->] & [Hw Hr]%list_elem_of_filter). by exists r.
    + intros (r & Hr & <- & Hw & <-). exists r. split; [done|]. by apply list_elem_of_filter.
  - by apply published_keys_NoDup.
Qed.

Lemma shared_stamp s t data l1 r l2 :
  local_wf s -> is_u8 t -> (length data <= STATE_DATA_MAX_SIZE)%nat -> local_change t data (local_records_ s) l1 r l2 ->
  shared (stamp_state l1 r l2 s) = if bool_decide (data = []) then delete t (shared s) else <[t := data]> (shared s).
Proof.
  intros Hwf Ht Hn Hc.
  pose proof (local_wf_stamp s t data l1 r l2 Hwf Ht Hn Hc) as Hwf'.
  pose proof (local_change_around s t data l1 r l2 Hwf Ht Hn Hc) as (_ & Hlen & _ & Hrt & Hrd & Hrw & Hin & Hout).
  destruct (stamped_spec (version_counter_ s) l1 r l2) as (c' & l1' & l2' & E & _ & _ & F1 & F2); [apply Hwf|done| |].
  { pose proof (lw_versions _ Hwf) as Hv. rewrite Forall_forall in Hv |- *. intros x Hx. apply Hv, Hin, Hx. }
  assert (forall x, x ∈ l1 ++ l2 -> exists x', x' ∈ l1' ++ l2' /\ lr_state_type x' = lr_state_type x /\
    lr_is_withdrawn x' = lr_is_withdrawn x /\ lr_data x' = lr_data x) as Hfw.
  { intros x Hx. apply list_elem_of_lookup in Hx as [i Hi].
    destruct (Forall2_lookup_l _ _ _ _ _ (Forall2_app F1 F2) Hi) as (x' & Hx' & Hr).
    exists x'. split; [by eapply list_elem_of_lookup_2|]. by apply refreshed_value in Hr. }
  apply map_eq. intros i. apply option_eq. intros d. rewrite shared_lookup by done.
  assert (local_records_ (stamp_state l1 r l2 s) = l1' ++ Restamp (u8 (version_counter_ s + 1)) r :: l2') as El
    by (unfold stamp_state; by rewrite E).
  destruct (decide (i = t)) as [->|Hi].
  - assert ((exists r', r' ∈ local_records_ (stamp_state l1 r l2 s) /\ lr_state_type r' = t /\ lr_is_withdrawn r' = false /\ lr_data r' = d)
      <-> data <> [] /\ d = data) as ->.
    { split.
      - intros (x' & Hx' & Hxt & Hxw & <-).
        destruct (stamp_others t data s l1 r l2 Hwf Ht Hn Hc x' Hx') as [->|(x & c & Hx & Hr)].
        + simpl in *. rewrite Hrw, bool_decide_eq_false in Hxw. done.
        + apply refreshed_value in Hr as (Et & _). by destruct (Hin x Hx) as [_ []]; rewrite <- Et.
      - intros [Hd ->]. exists (Restamp (u8 (version_counter_ s + 1)) r). rewrite El. split; [set_solver|].
        simpl. rewrite Hrw, bool_decide_eq_false. done. }
    case_bool_decide; [rewrite lookup_delete_eq|rewrite lookup_insert_eq]; naive_solver.
  - assert ((if bool_decide (data = []) then delete t (shared s) else <[t:=data]> (shared s)) !! i = shared s !! i) as ->.
    { case_bool_decide; [by rewrite lookup_delete_ne|by rewrite lookup_insert_ne]. }
    rewrite shared_lookup by done. split.
    + intros (x' & Hx' & Hxt & Hxw & Hxd).
      destruct (stamp_others t data s l1 r l2 Hwf Ht Hn Hc x' Hx') as [->|(x & c & Hx & Hr)].
      * simpl in *. congruence.
      * apply refreshed_value in Hr as (Et & Ew & Ed). exists x. split; [by apply Hin|]. split_and!; congruence.
    + intros (x & Hx & Hxt & Hxw & Hxd). destruct (Hfw x) as (x' & Hx' & Et & Ew & Ed); [apply Hout; congruence|].
      exists x'. rewrite El. split; [set_solver|]. split_and!; congruence.
Qed.

End api.

(** ** Samples *)

(** A CRC-8 with the polynomial 0x07, for running the model on concrete inputs. *)
Fixpoint crc8_bits (n : nat) (c : Z) : Z :=
  match n with
  | O => c
  | S n => crc8_bits n (if Z.testbit c 7 then Z.lxor (u8 (Z.shiftl c 1)) 7 else u8 (Z.shiftl c 1))
  end.
Definition sample_crc : Crc8 := foldl (fun c b => crc8_bits 8 (Z.lxor c b)).

Definition online_device (device_id : Z) : CdmpDevice :=
  mkDevice device_id (1000 + device_id) GetCurrentProtocolVersion HEALTH_OK 0 0 0 false 0 0 (NewStatusMachine ONLINE).
Definition online_info (device_id : Z) : CdmpDeviceInfo := mkDeviceInfo device_id (1000 + device_id) 0 ONLINE.
Definition sample_network (ids : list Z) : NetworkInfo :=
  mkNetworkInfo (fun i => bool_decide (i ∈ ids)) (fun n => take n (online_info <$> ids)).
Definition sample_step (op : StateOp) : StateStep :=
  mkStateStep (mkEnv 0 true) (online_device 1) (sample_network [1; 2; 3]) op.

(** A record of type 1, then 63 changes of type 2. *)
Definition sample_changes : list StateStep :=
  sample_step (StSetLocal 1 [7]) :: ((fun i => sample_step (StSetLocal 2 [Z.of_nat i])) <$> seq 1 63).

#[local] Existing Instance default_config.
#[local] Existing Instance sample_crc.

Lemma sample_changes_ok : Forall step_ok sample_changes.
Proof.
  constructor; [done|]. apply Forall_fmap, Forall_forall. intros i _. done.
Qed.

Lemma heartbeat_digest_tracks_the_records_witness :
  let '(s, e) := run_state_steps sample_changes (NewStateService 1792) in
  default 0 (last (digests e)) = LocalDigest (local_records_ s) /\ LocalDigest (local_records_ s) = 206.
Proof.
  pose proof (heartbeat_digest_tracks_the_records 1792 sample_changes sample_changes_ok) as H.
  destruct (run_state_steps sample_changes (NewStateService 1792)) as [s e] eqn:E. split; [exact H|].
  replace s with (run_state_steps sample_changes (NewStateService 1792)).1 by (rewrite E; reflexivity).
  vm_compute. reflexivity.
Defined.

Lemma sample_set_ok t data : is_u8 t -> step_ok (sample_step (StSetLocal t data)).
Proof. intros Ht. exact Ht. Qed.
Lemma is_u8_small : is_u8 2 /\ is_u8 3.
Proof. unfold is_u8. lia. Qed.

Lemma versions_of_a_record_are_newer_witness : IsNewer 66 1 = true.
Proof.
  pose proof (versions_of_a_record_are_newer 1792 sample_changes (sample_step (StSetLocal 2 [64]))
    (mkLocal 1 1 false true [7] [] 0 0) (mkLocal 1 66 false true [7] [] 0 0) sample_changes_ok
    (sample_set_ok 2 [64] (proj1 is_u8_small))) as Hv. cbv zeta in Hv.
  destruct Hv as [(E & _)|(E & _)].
  - apply (list_elem_of_lookup_2 _ 0). vm_compute. reflexivity.
  - apply (list_elem_of_lookup_2 _ 0). vm_compute. reflexivity.
  - reflexivity.
  - reflexivity.
  - discriminate E.
  - exact E.
Defined.

