(* ===== verification/CdmpStateAcks.v ===== *)
(** * CDMP state service: the acknowledgement sets

    The fixed array of each record that lists the peers whose acknowledgement is awaited: it never holds a
    peer twice nor more than its capacity, given what the network service promises ([LawfulNetworkInfo]). *)

From S2P Require Import Prelude Can Cdmp CdmpMessages CdmpEffects Service CdmpState CdmpStateLocal.

Definition acks_ok (l : list Z) : Prop := NoDup l /\ (length l <= STATE_ACK_PEERS_MAX)%nat.
Definition acks_wf (s : StateService) : Prop := Forall (fun r => acks_ok (lr_unacknowledged r)) (local_records_ s).

Lemma acks_ok_nil : acks_ok [].
Proof. split; [constructor|simpl; lia]. Qed.

Lemma remove_unordered_sub p l : remove_unordered p l ⊆+ l.
Proof.
  unfold remove_unordered. destruct (find_index _ l) as [i|] eqn:Hi; [|done].
  destruct (last l) as [b|] eqn:Hb; [|done]. apply find_index_Some in Hi as [(y & Hy & _) _].
  apply last_Some in Hb as [l' ->]. rewrite length_app. cbn [length]. replace (pred (length l' + 1)) with (length l') by lia.
  destruct (decide (i < length l')%nat) as [Hlt|Hge].
  - rewrite insert_app_l, take_app_length' by (rewrite ?length_insert; done). rewrite lookup_app_l in Hy by done.
    destruct (list_elem_of_split_length _ _ _ Hy) as (l1 & l2 & -> & ->).
    rewrite insert_app_r_alt, Nat.sub_diag by lia. cbn [insert list_insert].
    rewrite <- (Permutation_middle l1 l2 b), <- Permutation_cons_append, <- (Permutation_middle l1 l2 y). by apply submseteq_skip, submseteq_cons.
  - apply lookup_lt_Some in Hy as Hlen. rewrite length_app in Hlen. cbn [length] in Hlen.
    assert (i = length l') as -> by lia.
    rewrite insert_app_r_alt, take_app_length' by (rewrite ?length_insert; lia || done). apply submseteq_inserts_r. done.
Qed.

Lemma acks_ok_sub l k : l ⊆+ k -> acks_ok k -> acks_ok l.
Proof.
  intros Hs [Hn Hl]. split; [|apply submseteq_length in Hs; lia].
  apply submseteq_Permutation in Hs as [k' Hk]. rewrite Hk in Hn. by apply NoDup_app in Hn as [Hn _].
Qed.

Section steps.
Context `{CdmpConfig} `{Crc8}.

#[local] Abbreviation all_ok := (Forall (fun r => acks_ok (lr_unacknowledged r))).
#[local] Abbreviation keeps m := (@preserves StateService Effect _ acks_wf m).

Lemma acks_fmap f l : (forall r, acks_ok (lr_unacknowledged r) -> acks_ok (lr_unacknowledged (f r))) -> all_ok l -> all_ok (f <$> l).
Proof. intros Hf Hl. apply Forall_fmap, (Forall_impl _ _ _ Hl). intros r. apply Hf. Qed.
Lemma acks_free l : all_ok l -> all_ok (FreeAcknowledgedWithdrawals l).
Proof. apply Forall_sub. Qed.
Lemma acks_removed peer v l : all_ok l -> all_ok (RemoveFromAcknowledgementSets peer v l).
Proof.
  intros Hl. apply acks_free, acks_fmap; [|done]. intros r Hr.
  assert (acks_ok (remove_unordered peer (lr_unacknowledged r))) by (eapply acks_ok_sub; [apply remove_unordered_sub|done]).
  destruct v as [v|]; [by destruct (bool_decide (lr_version r = v))|done].
Qed.
Lemma acks_alter f i l : (forall r, acks_ok (lr_unacknowledged r) -> acks_ok (lr_unacknowledged (f r))) -> all_ok l -> all_ok (alter f i l).
Proof. intros Hf Hl. apply Forall_alter; [done|]. intros x Hx. apply Hf. Qed.
Lemma acks_refreshed c l : all_ok l -> all_ok (RefreshLaggingVersions c l).2.
Proof.
  revert c. induction l as [|r l IH]; intros c Hl; [done|]. apply Forall_cons in Hl as [Hr Hl]. simpl.
  destruct (is_lagging c r); [specialize (IH (u8 (c + 1)) Hl)|specialize (IH c Hl)];
    (destruct (RefreshLaggingVersions _ l); apply Forall_cons; split; [|done]); [apply acks_ok_nil|done].
Qed.
Lemma acks_same s s' : local_records_ s' = local_records_ s -> acks_wf s -> acks_wf s'.
Proof. unfold acks_wf. by intros ->. Qed.

#[local] Hint Extern 5 (acks_wf _) =>
  match goal with Hx : acks_wf ?s |- _ => apply (acks_same s); [reflexivity|exact Hx] end : preserves.
#[local] Ltac keep := preserve; try solve [eauto with preserves].

Section device.
Context (env : Env) (device : CdmpDevice).

Lemma StampChange_acks i : keeps (StampChange device i).
Proof.
  unfold StampChange, UpdateDigest, TransmitSoon. keep.
  - apply acks_alter; [|done]. intros. apply acks_ok_nil.
  - pose proof (acks_refreshed (version_counter_ s) (local_records_ s) ltac:(done)) as Hr.
    by destruct (RefreshLaggingVersions _ _).
Qed.
#[local] Hint Resolve StampChange_acks : preserves.
Lemma ClearLocalState_acks t : keeps (ClearLocalState device t).
Proof. unfold ClearLocalState. keep. by apply acks_alter. Qed.
#[local] Hint Resolve ClearLocalState_acks : preserves.
Lemma AddLocalRecord_acks t l i l' : AddLocalRecord t l = Some (i, l') -> all_ok l -> all_ok l'.
Proof.
  unfold AddLocalRecord. intros E Hl.
  assert (exists k, all_ok k /\ l' = insert_at (local_position t k) (NewLocalRecord t) k) as (k & Hk & ->).
  { case_bool_decide.
    - destruct (find_index lr_is_withdrawn l) as [j|]; [|done]. injection E as <- <-. exists (delete j l). split; [|done].
      by apply Forall_delete.
    - injection E as <- <-. by exists l. }
  apply Forall_forall. intros r [->|Hr]%elem_of_insert_at; [apply acks_ok_nil|]. rewrite Forall_forall in Hk. by apply Hk.
Qed.
Lemma SetLocalState_acks t data : keeps (SetLocalState device t data).
Proof.
  assert (forall i l, all_ok l -> keeps (StoreLocalState device data i l)) as Hstore.
  { intros i l Hl. unfold StoreLocalState. keep. by apply acks_alter. }
  destruct data as [|b data']; cbn [SetLocalState]; [keep|]. set (data := b :: data') in *. fold data in Hstore.
  destruct (_ || _); [apply preserves_ret|]. intros s Hs. rewrite bind_get.
  destruct (FindLocalRecord t _) as [[i r]|].
  - destruct (negb _ && _); [done|]. by apply Hstore.
  - destruct (AddLocalRecord t _) as [[i l]|] eqn:E; [|done]. apply Hstore; [|done]. by eapply AddLocalRecord_acks.
Qed.

Lemma ScheduleStateHandlers_acks : keeps ScheduleStateHandlers.
Proof. unfold ScheduleStateHandlers. keep. Qed.
#[local] Hint Resolve ScheduleStateHandlers_acks : preserves.
Lemma RemoveRemoteRecords_acks p : keeps (RemoveRemoteRecords p).
Proof. unfold RemoveRemoteRecords, set_changed_types. keep. Qed.
Lemma AddSourceState_acks x : keeps (AddSourceState env x).
Proof. unfold AddSourceState. keep. Qed.
Lemma mark_stale_acks x b : keeps (mark_stale x b).
Proof. unfold mark_stale. keep. Qed.
#[local] Hint Resolve RemoveRemoteRecords_acks AddSourceState_acks mark_stale_acks : preserves.
Lemma DropSource_acks x : keeps (DropSource x).
Proof. unfold DropSource. keep; [by apply acks_removed|]. by case_match. Qed.
Lemma ForgetNetwork_acks : keeps ForgetNetwork.
Proof. unfold ForgetNetwork. keep. apply acks_fmap; [|done]. intros. apply acks_ok_nil. Qed.
Lemma StartSyncRequest_acks x : keeps (StartSyncRequest env x).
Proof. unfold StartSyncRequest. keep. Qed.
Lemma ApplyRecord_acks m : keeps (ApplyRecord env m).
Proof. unfold ApplyRecord, set_changed_types, MarkOverflowed. keep. Qed.
Lemma SendNotification_acks m : keeps (SendNotification env m).
Proof. unfold SendNotification. keep. Qed.
Lemma DropFrame_acks : keeps DropFrame.
Proof. unfold DropFrame. keep. Qed.
#[local] Hint Resolve DropSource_acks ForgetNetwork_acks StartSyncRequest_acks ApplyRecord_acks SendNotification_acks DropFrame_acks : preserves.
Lemma ReplayRecords_acks : keeps (ReplayRecords env device).
Proof. unfold ReplayRecords. keep. Qed.
Lemma ProcessStateChangeResponseFrame_acks f : keeps (ProcessStateChangeResponseFrame device f).
Proof. unfold ProcessStateChangeResponseFrame. keep. by apply acks_removed. Qed.
#[local] Hint Resolve ReplayRecords_acks ProcessStateChangeResponseFrame_acks : preserves.

Context {N : NetworkInfo}.
Lemma ProcessStateChangeFrame_acks f : keeps (ProcessStateChangeFrame env device f).
Proof. unfold ProcessStateChangeFrame, SendResponse. keep. Qed.
#[local] Hint Resolve ProcessStateChangeFrame_acks : preserves.
Lemma ReceiveLoop_acks n : keeps (ReceiveLoop env device n).
Proof. induction n; simpl; unfold ProcessReceived; keep. Qed.
Lemma StateUnregister_acks : keeps (StateUnregisterCanHandlers env).
Proof. unfold StateUnregisterCanHandlers. keep. Qed.
#[local] Hint Resolve ReceiveLoop_acks StateUnregister_acks : preserves.
Lemma StateRegister_acks register : keeps (StateRegisterCanHandlers env register).
Proof. unfold StateRegisterCanHandlers, RegisterReceiveHandler. keep. Qed.
#[local] Hint Resolve StateRegister_acks : preserves.

Lemma peers_ok `{!LawfulNetworkInfo N} :
  acks_ok (info_device_id <$> filter (fun p => info_status p = ONLINE) (network_devices STATE_ACK_PEERS_MAX)).
Proof.
  split.
  - eapply sublist_NoDup; [apply (devices_distinct STATE_ACK_PEERS_MAX)|]. apply fmap_sublist, sublist_filter.
  - rewrite length_fmap. etrans; [apply sublist_length, sublist_filter|]. apply devices_fit.
Qed.
Lemma Transmit_acks `{!LawfulNetworkInfo N} : keeps (Transmit env device).
Proof.
  intros s Hs. unfold Transmit. rewrite bind_get. destruct (_ || _); [done|]. rewrite bind_when_modify, bind_get, bind_modify.
  match goal with |- acks_wf (state_of (?m ?s1)) => assert (acks_wf s1) as Hs1; [|enough (keeps m) as Hm by exact (Hm s1 Hs1)] end.
  - apply acks_free. rewrite <- list_fmap_compose. apply acks_fmap.
    + intros r Hr. unfold compose, TransmitRecord. destruct (lr_is_announce_pending r); [apply peers_ok|].
      repeat case_match; try done. apply acks_ok_nil.
    + destruct (is_announce_all_pending_ s); [|done]. by apply acks_fmap.
  - clear. unfold ScheduleRetransmission. keep.
Qed.
End device.

(** A step that hears a lawful network. *)
Lemma step_acks p : LawfulNetworkInfo (sp_network p) -> keeps (run_state_step p).
Proof.
  intros HN. destruct p as [env device network op]. cbn [sp_network] in HN.
  pose proof (SetLocalState_acks device). pose proof (ClearLocalState_acks device).
  pose proof (@Transmit_acks env device network HN). pose proof (@ReceiveLoop_acks env device network).
  pose proof (@ProcessStateChangeFrame_acks env device network). pose proof (ProcessStateChangeResponseFrame_acks device).
  pose proof (ReplayRecords_acks env device). pose proof ForgetNetwork_acks. pose proof DropSource_acks. pose proof DropFrame_acks.
  pose proof mark_stale_acks. pose proof RemoveRemoteRecords_acks. pose proof (StartSyncRequest_acks env).
  pose proof ScheduleStateHandlers_acks. pose proof (StateRegister_acks env). pose proof (StateUnregister_acks env).
  destruct op; unfold run_state_step, ignore; cbn [sp_op sp_env sp_device sp_network];
    unfold QueueFrame, ReceiveFrames, StateOnDeviceStatusChanged, OnDeviceEvent, OnHeartbeat, ProcessSyncRequest,
      NotifyStateHandlers, RegisterStateHandler, UnregisterStateHandler, StateDoInitialize, StateDoStart, StateDoStop; keep.
Qed.
Lemma run_acks base l :
  Forall (fun p => LawfulNetworkInfo (sp_network p)) l -> acks_wf (run_state_steps l (NewStateService base)).1.
Proof.
  intros Hl. assert (forall s, acks_wf s -> acks_wf (run_state_steps l s).1) as Hrun.
  { induction Hl as [|p l Hp Hl IH]; intros s Hs; [done|]. simpl. specialize (IH _ (step_acks p Hp s Hs)).
    by destruct (run_state_steps l _). }
  apply Hrun. constructor.
Qed.
End steps.
