(* ===== verification/CdmpStateSend.v ===== *)
(** * CDMP state service: notifications and their retransmission

    [Transmit] of [CdmpState.v] sends what is pending and arms its task for the next deadline.  A change is
    sent at most four times, and the passes end. *)

From S2P Require Import Prelude Can Cdmp CdmpMessages CdmpEffects Service CdmpState CdmpStateLocal.

(** ** How often a record may still be sent *)

Definition SENDS_MAX : nat := S (length STATE_RETRANSMIT_BACKOFFS_MS).

Definition record_sends_left (r : LocalRecord) : nat :=
  if lr_is_announce_pending r then SENDS_MAX
  else if bool_decide (lr_unacknowledged r = []) then O
  else (length STATE_RETRANSMIT_BACKOFFS_MS - lr_retransmit_count r)%nat.

Definition announced (s : StateService) : list LocalRecord :=
  if is_announce_all_pending_ s then (fun r => r <| lr_is_announce_pending := true |>) <$> local_records_ s
  else local_records_ s.

Definition sends_left (s : StateService) : nat := sum_list_with record_sends_left (announced s).

Definition sending_wf (s : StateService) : Prop := Forall send_ok (local_records_ s).

(** Something to send at [t]. *)
Definition is_due (t : Z) (r : LocalRecord) : Prop :=
  lr_is_announce_pending r = true \/ (lr_unacknowledged r <> [] /\ lr_next_retransmit_ms r <= t).

Section passes.
Context `{CdmpConfig} `{Crc8}.

Lemma TransmitRecord_left env peers r :
  send_ok r ->
  let '(r', sent) := TransmitRecord env peers r in
  (record_sends_left r' + (if sent then 1 else 0) <= record_sends_left r)%nat /\ send_ok r' /\
  lr_is_announce_pending r' = false /\ (is_due (env_now env) r -> sent = true).
Proof.
  unfold send_ok, TransmitRecord, record_sends_left, SENDS_MAX, is_due.
  change (length STATE_RETRANSMIT_BACKOFFS_MS) with 3%nat. intros Hok.
  destruct (lr_is_announce_pending r) eqn:Ha; simpl.
  - case_bool_decide; simpl; split_and!; try done; try lia.
  - destruct (bool_decide_reflect (lr_unacknowledged r = [])) as [Hu|Hu]; simpl.
    + rewrite Ha, bool_decide_eq_true_2 by done. split_and!; [lia|done|done|]. intros [?|[? _]]; congruence.
    + specialize (Hok Hu). destruct (bool_decide_reflect (lr_next_retransmit_ms r <= env_now env)) as [Ht|Ht]; simpl.
      * case_bool_decide as Hc; simpl; rewrite ?Ha, ?(bool_decide_eq_true_2 ([] = [])) by done;
          rewrite ?(bool_decide_eq_false_2 (lr_unacknowledged r = [])) by done; split_and!; try done; try lia.
      * rewrite Ha, bool_decide_eq_false_2 by done. split_and!; [lia|done|done|]. intros [?|[_ ?]]; [congruence|lia].
Qed.

(** ** One pass *)

Definition sent_records (env : Env) (peers : list CdmpDeviceInfo) (s : StateService) : list LocalRecord :=
  (filter (fun p : LocalRecord * bool => p.2 = true) (TransmitRecord env peers <$> announced s)).*1.
Definition passed (env : Env) (peers : list CdmpDeviceInfo) (s : StateService) : StateService :=
  s <| is_announce_all_pending_ := false |>
    <| local_records_ := FreeAcknowledgedWithdrawals (TransmitRecord env peers <$> announced s).*1 |>.

Definition waiting (s : StateService) : list LocalRecord := filter (fun r => lr_unacknowledged r <> []) (local_records_ s).

Definition next_pass (t : Z) (s : StateService) : option Z :=
  match lr_next_retransmit_ms <$> waiting s with
  | [] => None
  | d :: ds => if st_tasks_created_ s then Some (Z.max (foldr Z.min d ds - t) 0) else None
  end.

Definition notification (device : CdmpDevice) (base : Z) (r : LocalRecord) : Effect :=
  SendFrame (GetStateChangeRequestCanId base) (StateChange_ToCanFrame (RecordMessage device r)).

Lemma send_all env device l s :
  for_each (RecordMessage device <$> l) (SendNotification env) s =
    (s, if env_bus_valid env then notification device (st_base_can_id_ s) <$> l else [], Ok tt).
Proof.
  assert (forall r, SendNotification env (RecordMessage device r) s =
    (s, if env_bus_valid env then [notification device (st_base_can_id_ s) r] else [], Ok tt)) as Hone
    by (intros r; unfold SendNotification; rewrite bind_get; by destruct (env_bus_valid env)).
  induction l as [|r l IH]; [by destruct (env_bus_valid env)|]. rewrite fmap_cons. cbn [for_each].
  erewrite bind_ok by apply Hone. rewrite IH. unfold prepend. simpl. by destruct (env_bus_valid env).
Qed.

Lemma ScheduleRetransmission_run env s :
  ScheduleRetransmission env s =
    (s, (fun d => Reschedule TransmitTask d) <$> option_list (next_pass (env_now env) s), Ok tt).
Proof.
  unfold ScheduleRetransmission, next_pass, waiting. rewrite bind_get.
  destruct (lr_next_retransmit_ms <$> _); [done|]. by destruct (st_tasks_created_ s).
Qed.

Lemma Transmit_run {N : NetworkInfo} env device s :
  is_started_ s = true -> IsOnline device = true ->
  let peers := network_devices STATE_ACK_PEERS_MAX in
  Transmit env device s =
    (passed env peers s,
     ((fun d => Reschedule TransmitTask d) <$> option_list (next_pass (env_now env) (passed env peers s)))
       ++ (if env_bus_valid env then notification device (st_base_can_id_ s) <$> sent_records env peers s else [])
       ++ (if is_announce_all_pending_ s then [SendSyncRequest DEVICE_ID_BROADCAST] else []), Ok tt).
Proof.
  intros Hst Hon peers. unfold Transmit. rewrite bind_get, Hst, Hon. cbn [negb orb].
  rewrite bind_when_modify, bind_get, bind_modify. fold peers.
  assert ((if is_announce_all_pending_ s then s <| is_announce_all_pending_ := false |>
      <| local_records_ ::= fmap (fun r => r <| lr_is_announce_pending := true |>) |> else s)
    = s <| is_announce_all_pending_ := false |> <| local_records_ := announced s |>) as ->.
  { unfold announced. destruct (is_announce_all_pending_ s) eqn:E; [done|]. destruct s. simpl in *. by subst. }
  cbn [upd eta StateService_eta local_records_].
  change (mkState _ _ _ _ _ _ _ _ _ _ _ _ _ _ _ _) with (passed env peers s).
  erewrite bind_ok by apply ScheduleRetransmission_run. fold (sent_records env peers s).
  erewrite bind_ok by apply send_all. unfold prepend. cbn [fst snd]. 
  destruct (is_announce_all_pending_ s); simpl; by rewrite ?app_nil_r.
Qed.
End passes.

(** ** The passes end *)

Section ending.
Context `{CdmpConfig} `{Crc8}.

Lemma pass_left env peers l :
  Forall send_ok l ->
  (sum_list_with record_sends_left (TransmitRecord env peers <$> l).*1 +
     length (filter (fun p : LocalRecord * bool => p.2 = true) (TransmitRecord env peers <$> l))
   <= sum_list_with record_sends_left l)%nat.
Proof.
  induction 1 as [|r l Hr Hl IH]; [simpl; lia|]. rewrite !fmap_cons, filter_cons.
  pose proof (TransmitRecord_left env peers r Hr) as Hone. destruct (TransmitRecord env peers r) as [r' sent].
  destruct Hone as (Hone & _). cbn [fst snd sum_list_with]. destruct sent.
  - rewrite decide_True by done. cbn [length]. lia.
  - rewrite decide_False by done. lia.
Qed.

Lemma due_sent env peers l :
  Forall send_ok l -> Exists (is_due (env_now env)) l ->
  (0 < length (filter (fun p : LocalRecord * bool => p.2 = true) (TransmitRecord env peers <$> l)))%nat.
Proof.
  intros Hl (r & Hr & Hd)%Exists_exists. rewrite Forall_forall in Hl.
  pose proof (TransmitRecord_left env peers r (Hl r Hr)) as Hone.
  assert (TransmitRecord env peers r ∈ filter (fun p : LocalRecord * bool => p.2 = true) (TransmitRecord env peers <$> l)) as Hin.
  { apply list_elem_of_filter. split; [|by apply list_elem_of_fmap_2].
    destruct (TransmitRecord env peers r) as [r' sent]. destruct Hone as (_ & _ & _ & Hone). by apply Hone. }
  destruct (filter _ _); [by apply elem_of_nil in Hin|simpl; lia].
Qed.

Lemma sum_filter (P : LocalRecord -> Prop) `{!forall x, Decision (P x)} l :
  (sum_list_with record_sends_left (filter P l) <= sum_list_with record_sends_left l)%nat.
Proof. induction l as [|r l IH]; [done|]. rewrite filter_cons. case_decide; simpl; lia. Qed.

Lemma announced_ok s : sending_wf s -> Forall send_ok (announced s).
Proof.
  unfold sending_wf, announced. intros Hs. destruct (is_announce_all_pending_ s); [|done].
  apply Forall_fmap, (Forall_impl _ _ _ Hs). done.
Qed.

Lemma record_sends_left_max r : (record_sends_left r <= SENDS_MAX)%nat.
Proof. unfold record_sends_left, SENDS_MAX. repeat case_match; lia. Qed.

Lemma passed_left env peers s :
  sending_wf s ->
  (sends_left (passed env peers s) + length (sent_records env peers s) <= sends_left s)%nat.
Proof.
  intros Hs. pose proof (pass_left env peers _ (announced_ok s Hs)) as Hp.
  unfold sends_left, sent_records. rewrite length_fmap. unfold announced at 1. simpl.
  pose proof (sum_filter (fun r => is_freed r = false) (TransmitRecord env peers <$> announced s).*1).
  unfold FreeAcknowledgedWithdrawals. lia.
Qed.

Lemma passed_wf env peers s : sending_wf s -> sending_wf (passed env peers s).
Proof.
  intros Hs. unfold sending_wf. simpl. apply Forall_sub. rewrite <- list_fmap_compose. apply Forall_fmap.
  apply (Forall_impl _ _ _ (announced_ok s Hs)). intros r Hr. by apply TransmitRecord_send_ok.
Qed.

Lemma foldr_min_le (d : Z) l x : x ∈ d :: l -> foldr Z.min d l <= x.
Proof.
  induction l as [|y l IH]; simpl; rewrite !elem_of_cons.
  - intros [->|Hx]; [lia|by apply elem_of_nil in Hx].
  - intros [->|[->|Hx]]; [|lia|]; (etrans; [apply Z.le_min_r|apply IH; set_solver]).
Qed.
Lemma foldr_min_elem (d : Z) l : foldr Z.min d l ∈ d :: l.
Proof. induction l as [|y l IH]; simpl; [set_solver|]. destruct (Z.min_spec y (foldr Z.min d l)) as [[_ ->]|[_ ->]]; set_solver. Qed.

(** When the next pass is due, some record is. *)
Lemma next_pass_due t s d : next_pass t s = Some d -> 0 <= d /\ Exists (is_due (t + d)) (announced s).
Proof.
  unfold next_pass. destruct (lr_next_retransmit_ms <$> waiting s) as [|x l] eqn:E; [done|].
  destruct (st_tasks_created_ s); [|done]. intros [= <-]. split; [lia|].
  pose proof (foldr_min_elem x l) as Hin. rewrite <- E in Hin.
  apply list_elem_of_fmap in Hin as (r & Hr & [Hw Hin]%list_elem_of_filter).
  apply Exists_exists. unfold announced. destruct (is_announce_all_pending_ s).
  - exists (r <| lr_is_announce_pending := true |>). split; [|by left].
    by apply (list_elem_of_fmap_2 (fun r : LocalRecord => r <| lr_is_announce_pending := true |>)).
  - exists r. split; [done|]. right. split; [done|]. lia.
Qed.

Lemma next_pass_None t s :
  next_pass t s = None -> st_tasks_created_ s = true -> Forall (fun r => lr_unacknowledged r = []) (local_records_ s).
Proof.
  unfold next_pass. intros Hn Ht. rewrite Ht in Hn. apply Forall_forall. intros r Hr.
  destruct (decide (lr_unacknowledged r = [])) as [|Hu]; [done|].
  assert (r ∈ waiting s) as Hw by by apply list_elem_of_filter. destruct (waiting s); [by apply elem_of_nil in Hw|done].
Qed.

(** The delay at which [Transmit] armed its task. *)
Definition armed (e : list Effect) : option Z :=
  head (omap (fun x => match x with Reschedule TransmitTask d => Some d | _ => None end) e).

(** The transmit task on its own: each pass at the time the one before armed. *)
Fixpoint transmit_passes {N : NetworkInfo} (fuel : nat) (bus_valid : bool) (device : CdmpDevice) (t : Z) (s : StateService) :
    option (StateService * list Effect) :=
  match fuel with
  | O => None
  | S fuel =>
      let o := Transmit (mkEnv t bus_valid) device s in
      match armed (effects_of o) with
      | None => Some (state_of o, effects_of o)
      | Some d => (fun '(s', e) => (s', effects_of o ++ e)) <$> transmit_passes fuel bus_valid device (t + d) (state_of o)
      end
  end.

Lemma armed_run (o : option Z) (l1 l2 : list Effect) :
  omap (fun x => match x with Reschedule TransmitTask d => Some d | _ => None end) (l1 ++ l2) = [] ->
  armed (((fun d => Reschedule TransmitTask d) <$> option_list o) ++ l1 ++ l2) = o.
Proof. intros Hl. unfold armed. rewrite omap_app, Hl. by destruct o. Qed.

Lemma omap_notifications {B} (f : Effect -> option B) device base l :
  (forall i d, f (SendFrame i d) = None) -> omap f (notification device base <$> l) = [].
Proof. intros Hf. induction l as [|r l IH]; [done|]. simpl. unfold notification at 1. by rewrite Hf. Qed.

Lemma frames_notifications device base l :
  length (frames_sent (notification device base <$> l)) = length l.
Proof. induction l as [|r l IH]; [done|]. simpl. by f_equal. Qed.

(** One pass of the task: what it arms and how many frames it sends. *)
Lemma Transmit_pass {N : NetworkInfo} t bus_valid device s :
  is_started_ s = true -> IsOnline device = true -> sending_wf s ->
  let o := Transmit (mkEnv t bus_valid) device s in
  result_of o = Ok tt /\ armed (effects_of o) = next_pass t (state_of o) /\
  is_started_ (state_of o) = true /\ st_tasks_created_ (state_of o) = st_tasks_created_ s /\ sending_wf (state_of o) /\
  (length (frames_sent (effects_of o)) + sends_left (state_of o) <= sends_left s)%nat /\
  (Exists (is_due t) (announced s) -> (sends_left (state_of o) < sends_left s)%nat).
Proof.
  intros Hst Hon Hs o. subst o. rewrite Transmit_run by done. cbn [env_now env_bus_valid].
  set (peers := network_devices STATE_ACK_PEERS_MAX). set (env := mkEnv t bus_valid).
  pose proof (passed_left env peers s Hs) as Hl. split_and!; try done; unfold effects_of, state_of; cbn [fst snd].
  - apply armed_run. destruct bus_valid; [rewrite omap_app, omap_notifications by done|];
      by destruct (is_announce_all_pending_ s).
  - by apply passed_wf.
  - rewrite !frames_sent_app, !length_app.
    assert (forall o : option Z, length (frames_sent ((fun d => Reschedule TransmitTask d) <$> option_list o)) = O) as -> by by intros [].
    assert (length (frames_sent (if is_announce_all_pending_ s then [SendSyncRequest DEVICE_ID_BROADCAST] else [])) = O) as ->
      by by destruct (is_announce_all_pending_ s).
    destruct bus_valid; [rewrite frames_notifications; lia|simpl; lia].
  - intros Hd. pose proof (due_sent env peers _ (announced_ok s Hs) Hd) as Hsent.
    unfold sent_records in Hl. rewrite length_fmap in Hl. lia.
Qed.

Lemma step_sending_wf p s : local_wf s -> sending_wf s -> step_ok p -> sending_wf (state_of (run_state_step p s)).
Proof.
  intros Hwf Hs Hok. destruct (step_cases p s Hwf Hok) as [(_ & _ & _ & Hsend)|(t & data & _ & Ht & Hn & (l1 & r & l2 & Hc & E & _))].
  - by apply Hsend.
  - rewrite E. apply Forall_forall. intros x' Hx'.
    destruct (stamp_others t data s l1 r l2 Hwf Ht Hn Hc x' Hx') as [->|(x & c & Hx & Hr)]; [by intros []|].
    destruct (local_change_around s t data l1 r l2 Hwf Ht Hn Hc) as (_ & _ & _ & _ & _ & _ & Hin & _).
    destruct Hr as [[->|(-> & _)] _]; [|by intros []]. unfold sending_wf in Hs. rewrite Forall_forall in Hs. by apply Hs, Hin.
Qed.

Lemma run_sending_wf base l : Forall step_ok l -> sending_wf (run_state_steps l (NewStateService base)).1.
Proof.
  intros Hl. assert (local_wf (run_state_steps l (NewStateService base)).1 /\
    sending_wf (run_state_steps l (NewStateService base)).1) as [_ ?]; [|done].
  apply (run_state_steps_ind (fun s => local_wf s /\ sending_wf s)); [| |done].
  - intros p s [Hwf Hs] Hok. split; [by apply step_local_wf|by apply step_sending_wf].
  - split; [apply NewStateService_local_wf|constructor].
Qed.

Lemma sends_left_max s : (sends_left s <= SENDS_MAX * length (local_records_ s))%nat.
Proof.
  unfold sends_left. assert (length (announced s) = length (local_records_ s)) as <-
    by (unfold announced; destruct (is_announce_all_pending_ s); [by rewrite length_fmap|done]).
  induction (announced s) as [|r l IH]; cbn [sum_list_with length]; [lia|].
  pose proof (record_sends_left_max r). rewrite Nat.mul_succ_r. lia.
Qed.

Lemma due_passes_end {N : NetworkInfo} bus_valid device fuel t s :
  IsOnline device = true -> is_started_ s = true -> st_tasks_created_ s = true -> sending_wf s ->
  Exists (is_due t) (announced s) -> (sends_left s < fuel)%nat ->
  exists s' e, transmit_passes fuel bus_valid device t s = Some (s', e) /\
    Forall (fun r => lr_unacknowledged r = []) (local_records_ s').
Proof.
  intros Hon. revert t s. induction fuel as [|fuel IH]; intros t s Hst Ht Hs Hd Hf; [lia|]. cbn [transmit_passes].
  destruct (Transmit_pass t bus_valid device s Hst Hon Hs) as (_ & Harm & Hst' & Ht' & Hs' & Hl & Hlt).
  specialize (Hlt Hd). rewrite Harm.
  destruct (next_pass t _) as [d|] eqn:Hn.
  - destruct (next_pass_due _ _ _ Hn) as [_ Hd']. rewrite Ht in Ht'.
    destruct (IH (t + d) _ Hst' Ht' Hs' Hd') as (s' & e & -> & Hu); [lia|]. simpl. by eexists _, _.
  - eexists _, _. split; [done|]. eapply next_pass_None; [done|congruence].
Qed.

Lemma passes_end {N : NetworkInfo} bus_valid device t s :
  is_started_ s = true -> st_tasks_created_ s = true -> IsOnline device = true -> sending_wf s ->
  exists s' e, transmit_passes (S (S (sends_left s))) bus_valid device t s = Some (s', e) /\
    Forall (fun r => lr_unacknowledged r = []) (local_records_ s').
Proof.
  intros Hst Ht Hon Hs. remember (S (sends_left s)) as fuel eqn:Hfuel. cbn [transmit_passes].
  destruct (Transmit_pass t bus_valid device s Hst Hon Hs) as (_ & -> & Hst' & Ht' & Hs' & Hl & _).
  destruct (next_pass t _) as [d|] eqn:Hn.
  - destruct (next_pass_due _ _ _ Hn) as [_ Hd']. rewrite Ht in Ht'.
    destruct (due_passes_end bus_valid device fuel (t + d) _ Hon Hst' Ht' Hs' Hd') as (s' & e & -> & Hu); [lia|].
    simpl. by eexists _, _.
  - eexists _, _. split; [done|]. eapply next_pass_None; [done|congruence].
Qed.

(** ** What is sent altogether *)

Section sent.
Context {N : NetworkInfo} (device : CdmpDevice).

(** How often a record will be sent if no acknowledgement comes: an announcement once, and three times more when there
    is somebody to acknowledge it; a record that waits for acknowledgements as often as it has retransmissions left. *)
Definition sends_due (r : LocalRecord) : nat :=
  let retransmissions := length STATE_RETRANSMIT_BACKOFFS_MS in
  if lr_is_announce_pending r then
    if bool_decide (filter (fun p => info_status p = ONLINE) (network_devices STATE_ACK_PEERS_MAX) = []) then 1 else S retransmissions
  else if bool_decide (lr_unacknowledged r = []) then 0
  else retransmissions - lr_retransmit_count r.

Definition frame_of (base : Z) (r : LocalRecord) : CanId * list Z :=
  (GetStateChangeRequestCanId base, StateChange_ToCanFrame (RecordMessage device r)).
Definition frames_due (base : Z) (l : list LocalRecord) : list (CanId * list Z) :=
  l ≫= fun r => replicate (sends_due r) (frame_of base r).

Lemma TransmitRecord_due env r base :
  send_ok r ->
  let '(r', sent) := TransmitRecord env (network_devices STATE_ACK_PEERS_MAX) r in
  sends_due r = ((if sent then 1 else 0) + sends_due r')%nat /\ frame_of base r' = frame_of base r /\
  lr_is_announce_pending r' = false.
Proof.
  unfold send_ok, TransmitRecord, sends_due. change (length STATE_RETRANSMIT_BACKOFFS_MS) with 3%nat. intros Hok.
  set (online := filter _ (network_devices _)).
  destruct (lr_is_announce_pending r) eqn:Ha; cbn [negb].
  - cbn. split; [|done]. rewrite (bool_decide_ext (info_device_id <$> online = []) (online = [])) by (by destruct online).
    by destruct (bool_decide (online = [])).
  - destruct (bool_decide_reflect (lr_unacknowledged r = [])) as [Hu|Hu]; cbn [negb andb].
    + rewrite Ha, bool_decide_eq_true_2 by done. done.
    + specialize (Hok Hu). destruct (bool_decide (lr_next_retransmit_ms r <= env_now env)).
      * cbn. case_bool_decide as Hc; cbn; rewrite Ha.
        -- split; [lia|done].
        -- split; [|done]. rewrite bool_decide_eq_false_2 by done. lia.
      * rewrite Ha, bool_decide_eq_false_2 by done. done.
Qed.

Lemma is_freed_due r : is_freed r = true -> sends_due r = 0%nat.
Proof.
  unfold is_freed, sends_due. intros [[_ Hp%negb_true_iff]%andb_true_iff Hu]%andb_true_iff. by rewrite Hp, Hu.
Qed.

Lemma frames_due_freed base l : frames_due base (FreeAcknowledgedWithdrawals l) = frames_due base l.
Proof.
  unfold frames_due, FreeAcknowledgedWithdrawals. induction l as [|r l IH]; [done|]. rewrite filter_cons, bind_cons, <- IH.
  case_decide as Hf; [done|]. apply not_false_is_true in Hf. by rewrite is_freed_due.
Qed.

Lemma pass_due env base l :
  Forall send_ok l ->
  let pass := TransmitRecord env (network_devices STATE_ACK_PEERS_MAX) <$> l in
  Permutation (frames_due base l)
    ((frame_of base <$> (filter (fun p : LocalRecord * bool => p.2 = true) pass).*1) ++ frames_due base pass.*1).
Proof.
  induction 1 as [|r l Hr Hl IH]; [done|]. cbn [fmap list_fmap] in IH |- *.
  pose proof (TransmitRecord_due env r base Hr) as Hone. destruct (TransmitRecord env _ r) as [r' sent].
  destruct Hone as (Hd & Hf & _). unfold frames_due in *. rewrite filter_cons, !bind_cons, Hd, replicate_add. cbn [fst snd].
  rewrite IH. destruct sent; cbn [fmap list_fmap]; [rewrite decide_True by done|rewrite decide_False by done].
  - cbn [fmap list_fmap replicate app fst]. rewrite !Hf. constructor. rewrite !(assoc_L (++)). f_equiv. apply Permutation_app_comm.
  - cbn [replicate app]. rewrite !Hf, !(assoc_L (++)). f_equiv. apply Permutation_app_comm.
Qed.

Lemma frames_notification base l : frames_sent (notification device base <$> l) = frame_of base <$> l.
Proof. induction l as [|r l IH]; [done|]. simpl. by f_equal. Qed.

Lemma passed_pending env s r : sending_wf s -> r ∈ local_records_ (passed env (network_devices STATE_ACK_PEERS_MAX) s) -> lr_is_announce_pending r = false.
Proof.
  intros Hs [_ (p & -> & (x & -> & Hx)%list_elem_of_fmap)%list_elem_of_fmap]%list_elem_of_filter.
  pose proof (announced_ok s Hs) as Ha. rewrite Forall_forall in Ha. pose proof (TransmitRecord_due env x 0 (Ha x Hx)) as Hone.
  destruct (TransmitRecord env _ x) as [r' sent]. by destruct Hone as (_ & _ & ?).
Qed.

(** All passes of a run of the task send each record as often as it is due, and nothing else. *)
Lemma transmit_passes_sent fuel t s s' e :
  is_started_ s = true -> st_tasks_created_ s = true -> IsOnline device = true -> sending_wf s ->
  transmit_passes fuel true device t s = Some (s', e) ->
  Permutation (frames_sent e) (frames_due (st_base_can_id_ s) (announced s)).
Proof.
  intros Hst Ht Hon. revert t s e Hst Ht. induction fuel as [|fuel IH]; intros t s e Hst Ht Hs; [done|]. cbn [transmit_passes].
  destruct (Transmit_pass t true device s Hst Hon Hs) as (_ & Harm & _ & _ & Hs' & _).
  rewrite Transmit_run in Harm, Hs' |- * by done. unfold state_of, effects_of in *. cbn [fst snd env_bus_valid env_now] in *.
  set (env := mkEnv t true) in *. set (peers := network_devices STATE_ACK_PEERS_MAX) in *. rewrite Harm. clear Harm.
  pose proof (pass_due env (st_base_can_id_ s) _ (announced_ok s Hs)) as Hp. cbv zeta in Hp. fold peers in Hp.
  rewrite <- frames_notification in Hp. fold (sent_records env peers s) in Hp.
  rewrite <- (frames_due_freed _ (TransmitRecord env peers <$> announced s).*1) in Hp.
  change (FreeAcknowledgedWithdrawals _) with (announced (passed env peers s)) in Hp.
  match goal with |- context [match ?o with Some _ => _ | None => Some (_, ?e1) end] =>
    assert (frames_sent e1 = frames_sent (notification device (st_base_can_id_ s) <$> sent_records env peers s)) as Hone end.
  { rewrite !frames_sent_app.
    assert (forall o : option Z, frames_sent ((fun d => Reschedule TransmitTask d) <$> option_list o) = []) as -> by by intros [].
    destruct (is_announce_all_pending_ s); by rewrite ?app_nil_r. }
  destruct (next_pass t (passed env peers s)) as [d|] eqn:Hn.
  - destruct (transmit_passes fuel true device (t + d) (passed env peers s)) as [[s2 e2]|] eqn:E; [|done].
    cbn [fmap option_fmap option_map]. intros [= -> <-]. specialize (IH _ (passed env peers s) _ Hst Ht Hs' E).
    match type of Hone with frames_sent ?e1 = _ =>
      change (Permutation (frames_sent (e1 ++ e2)) (frames_due (st_base_can_id_ s) (announced s))) end.
    rewrite frames_sent_app, Hone, IH. symmetry. exact Hp.
  - intros [<- <-]%(inj Some)%pair_equal_spec. rewrite Hone, Hp. symmetry. rewrite <- (app_nil_r (frames_sent _)) at 2. f_equiv.
    pose proof (next_pass_None _ _ Hn Ht) as Hu.
    assert (Forall (fun r => sends_due r = 0%nat) (announced (passed env peers s))) as Hz.
    { apply Forall_forall. intros r Hr. rewrite Forall_forall in Hu. unfold sends_due.
      rewrite (passed_pending env s r Hs Hr), bool_decide_eq_true_2 by (by apply Hu). done. }
    clear Hp. induction Hz as [|r l Hr _ IHl]; [done|].
    unfold frames_due. rewrite bind_cons, Hr.
    exact IHl.
Qed.
End sent.

(** C22. What is sent, and that it ends: from any reachable state of a started unit that stays ONLINE and hears no
    acknowledgement, the passes at the times the task armed itself for end after at most [sends_left] + 2 of them;
    then no record awaits an acknowledgement.  On a valid bus all the frames they sent are, up to their order, the
    notification of each record's value [sends_due] times and nothing else: an announcement four times, or once when
    no peer is there to acknowledge it, and a record that was sent before as often as it has retransmissions left. *)
Theorem retransmissions_end {N : NetworkInfo} base l bus_valid device t :
  Forall step_ok l ->
  let s := (run_state_steps l (NewStateService base)).1 in
  is_started_ s = true -> st_tasks_created_ s = true -> IsOnline device = true ->
  exists s' e, transmit_passes (S (S (sends_left s))) bus_valid device t s = Some (s', e) /\
    Forall (fun r => lr_unacknowledged r = []) (local_records_ s') /\
    (sends_left s <= SENDS_MAX * length (local_records_ s))%nat /\
    Forall (fun r => sends_due r <= SENDS_MAX)%nat (announced s) /\
    (bus_valid = true ->
     Permutation (frames_sent e) (announced s ≫= fun r => replicate (sends_due r)
       (GetStateChangeRequestCanId (st_base_can_id_ s), StateChange_ToCanFrame (RecordMessage device r)))).
Proof.
  intros Hok s Hst Ht Hon. pose proof (run_sending_wf base l Hok) as Hs. fold s in Hs. clearbody s. clear Hok l base.
  destruct (passes_end bus_valid device t s Hst Ht Hon Hs) as (s' & e & E & Hu). exists s', e.
  split_and!; [done|done|by apply sends_left_max| |].
  - apply Forall_true. intros r. unfold sends_due, SENDS_MAX. repeat case_match; lia.
  - intros ->. by apply (transmit_passes_sent device (S (S (sends_left s))) t s s' e).
Qed.
End ending.

(** Two records announced to two peers that never acknowledge. *)
Definition sample_announcement : list StateStep :=
  sample_step <$> [StInitialize; StStart (fun _ => 1); StSetLocal 1 [7]; StSetLocal 2 [8; 9]].

#[local] Existing Instance default_config.
#[local] Existing Instance sample_crc.

Lemma retransmissions_end_witness :
  let s := (@run_state_steps default_config sample_crc sample_announcement (NewStateService 1792)).1 in
  exists s' e, @transmit_passes (sample_network [1; 2; 3]) (S (S (sends_left s))) true (online_device 1) 0 s = Some (s', e) /\
    Forall (fun r => lr_unacknowledged r = []) (local_records_ s') /\
    Permutation (frames_sent e) (replicate 4 (Standard 1796, [1; 1; 1; 7]) ++ replicate 4 (Standard 1796, [1; 2; 2; 8; 9])).
Proof.
  intros s.
  destruct (@retransmissions_end default_config sample_crc (sample_network [1; 2; 3]) 1792 sample_announcement true (online_device 1) 0)
    as (s' & e & E & Hu & _ & _ & Hsent).
  - repeat (apply Forall_cons; split; [exact I || (split; [discriminate|reflexivity])|]). constructor.
  - vm_compute. reflexivity.
  - vm_compute. reflexivity.
  - vm_compute. reflexivity.
  - exists s', e. split; [exact E|]. split; [exact Hu|]. specialize (Hsent eq_refl).
    match type of Hsent with Permutation _ ?l => let v := eval vm_compute in l in change l with v in Hsent end. exact Hsent.
Defined.
