(* ===== verification/CdmpStateCopies.v ===== *)
(** * CDMP state service: copies of the other units' records

    The sorted array of [CdmpState.v] as a map from source and type to the newest value, what each event does
    to it, and that a replay brings the copies of a source back in line with its records. *)

From S2P Require Import Prelude Can Cdmp CdmpMessages CdmpEffects Service CdmpState CdmpStateLocal CdmpStateAcks.

(** ** The array as a map *)

Lemma key_lt_trans a b c : key_lt a b -> key_lt b c -> key_lt a c.
Proof. unfold key_lt. lia. Qed.
Lemma key_lt_irrefl a : ~ key_lt a a.
Proof. unfold key_lt. lia. Qed.
Lemma key_lt_total a b : key_lt a b \/ a = b \/ key_lt b a.
Proof.
  destruct a as [a1 a2], b as [b1 b2]. unfold key_lt. simpl.
  destruct (Z.lt_trichotomy a1 b1) as [?|[->|?]]; [auto| |auto].
  destruct (Z.lt_trichotomy a2 b2) as [?|[->|?]]; auto.
Qed.

Abbreviation by_key := (StronglySorted (fun a b : RemoteRecord => key_lt (remote_key a) (remote_key b))).

Definition copies (s : StateService) : gmap (Z * Z) RemoteRecord :=
  list_to_map ((fun r => (remote_key r, r)) <$> remote_records_ s).

Section copies.
Context `{CdmpConfig}.

Record remote_wf (s : StateService) : Prop := {
  rw_sorted : by_key (remote_records_ s);
  rw_length : (length (remote_records_ s) <= MAX_REMOTE_RECORDS)%nat;
  rw_data : Forall (fun r => rr_data r <> [] /\ (length (rr_data r) <= STATE_DATA_MAX_SIZE)%nat) (remote_records_ s);
  rw_sources : length (sources_ s) = MAX_REMOTE_RECORDS;
}.

Lemma keys_of l : ((fun r => (remote_key r, r)) <$> l).*1 = remote_key <$> l.
Proof. by rewrite <- list_fmap_compose. Qed.

Lemma copies_lookup s k r :
  by_key (remote_records_ s) -> copies s !! k = Some r <-> r ∈ remote_records_ s /\ remote_key r = k.
Proof.
  intros Hs. unfold copies. rewrite <- elem_of_list_to_map.
  - rewrite list_elem_of_fmap. split; [intros (x & [= -> ->] & Hx); done|intros [Hr <-]; by exists r].
  - rewrite keys_of. by apply (sorted_NoDup remote_key key_lt key_lt_irrefl).
Qed.

Lemma copies_size s : by_key (remote_records_ s) -> size (copies s) = length (remote_records_ s).
Proof.
  intros Hs. unfold copies. rewrite map_size_list_to_map; [by rewrite length_fmap|].
  rewrite keys_of. by apply (sorted_NoDup remote_key key_lt key_lt_irrefl).
Qed.

Lemma FindRemoteRecord_copies k s :
  by_key (remote_records_ s) -> FindRemoteRecord k (remote_records_ s) = copies s !! k.
Proof.
  intros Hs. apply option_eq. intros r. rewrite copies_lookup by done.
  rewrite <- (lookup_lower_bound remote_key key_lt key_lt_trans key_lt_irrefl key_lt_total k _ _ Hs).
  unfold FindRemoteRecord, remote_position. destruct (remote_records_ s !! _) as [x|]; [|naive_solver].
  case_bool_decide; naive_solver.
Qed.

Lemma FindRemoteRecord_position k l r :
  FindRemoteRecord k l = Some r -> l !! remote_position k l = Some r /\ remote_key r = k.
Proof. unfold FindRemoteRecord. case_match; [|done]. case_bool_decide; naive_solver. Qed.

(** The copies after a change of the array. *)
Lemma copies_filter (P : RemoteRecord -> Prop) `{!forall x, Decision (P x)} s l :
  by_key (remote_records_ s) -> l = filter P (remote_records_ s) ->
  copies (s <| remote_records_ := l |>) = filter (fun p => P p.2) (copies s).
Proof.
  intros Hs ->. assert (by_key (filter P (remote_records_ s))) by (eapply StronglySorted_sublist; [apply sublist_filter|done]).
  apply map_eq. intros k. apply option_eq. intros r. rewrite copies_lookup by done.
  rewrite map_lookup_filter_Some, copies_lookup by done. simpl. rewrite list_elem_of_filter. naive_solver.
Qed.

Lemma copies_insert s r :
  by_key (remote_records_ s) -> copies s !! remote_key r = None ->
  let s' := s <| remote_records_ ::= insert_at (remote_position (remote_key r) (remote_records_ s)) r |> in
  by_key (remote_records_ s') /\ copies s' = <[remote_key r := r]> (copies s).
Proof.
  intros Hs Hn s'. assert (forall y, y ∈ remote_records_ s -> remote_key y <> remote_key r) as Hy.
  { intros y Hy E. assert (copies s !! remote_key r = Some y) by (by apply copies_lookup). congruence. }
  assert (by_key (remote_records_ s')) as Hs'
    by apply (insert_at_sorted remote_key key_lt key_lt_trans key_lt_total r _ Hs Hy).
  split; [done|]. apply map_eq. intros k. apply option_eq. intros x. rewrite copies_lookup by done.
  unfold s'. simpl. rewrite elem_of_insert_at, lookup_insert_Some, copies_lookup by done. split.
  - intros [[->|Hx] <-]; [by left|right]. split; [by apply not_eq_sym, Hy|done].
  - intros [[<- <-]|[Hk [Hx <-]]]; [by split; [left|]|]. split; [by right|done].
Qed.

Lemma copies_alter s i r f :
  by_key (remote_records_ s) -> remote_records_ s !! i = Some r -> (forall x, remote_key (f x) = remote_key x) ->
  let s' := s <| remote_records_ ::= alter f i |> in
  by_key (remote_records_ s') /\ copies s' = <[remote_key r := f r]> (copies s).
Proof.
  intros Hs Hi Hf s'. pose proof (take_drop_middle _ _ _ Hi) as E.
  set (g := fun x => if bool_decide (remote_key x = remote_key r) then f x else x).
  assert (alter f i (remote_records_ s) = g <$> remote_records_ s) as Hg.
  { apply list_eq. intros j. rewrite list_lookup_fmap. destruct (decide (i = j)) as [<-|Hj].
    - rewrite list_lookup_alter_eq, Hi. simpl. unfold g. by rewrite bool_decide_eq_true_2.
    - rewrite list_lookup_alter_ne by done. destruct (remote_records_ s !! j) as [x|] eqn:Hx; [|done]. simpl. f_equal.
      unfold g. rewrite bool_decide_eq_false_2; [done|]. intros Hk.
      pose proof (sorted_NoDup remote_key key_lt key_lt_irrefl _ Hs) as Hnd. rewrite NoDup_alt in Hnd.
      apply Hj, (Hnd i j (remote_key r)); rewrite list_lookup_fmap; [by rewrite Hi|by rewrite Hx, <- Hk]. }
  assert (forall x, remote_key (g x) = remote_key x) as Hgk by (intros x; unfold g; by case_bool_decide).
  assert (by_key (remote_records_ s')) as Hs'.
  { unfold s'. simpl. rewrite Hg. apply (StronglySorted_fmap_key key_lt remote_key remote_key); [intros; apply Hgk|done]. }
  split; [done|]. apply map_eq. intros k. apply option_eq. intros x. rewrite copies_lookup by done.
  unfold s'. simpl. rewrite Hg, list_elem_of_fmap, lookup_insert_Some, copies_lookup by done. split.
  - intros [(y & -> & Hy) <-]. rewrite Hgk. unfold g. case_bool_decide as Hk.
    + left. split; [done|]. f_equal. symmetry.
      apply (sorted_key_inj remote_key key_lt key_lt_irrefl _ y r Hs Hy); [by eapply list_elem_of_lookup_2|done].
    + right. by split.
  - intros [[<- <-]|[Hk [Hx <-]]].
    + split; [|by rewrite Hf]. exists r. split; [unfold g; by rewrite bool_decide_eq_true_2|by eapply list_elem_of_lookup_2].
    + split; [|done]. exists x. split; [unfold g; by rewrite bool_decide_eq_false_2 by auto|done].
Qed.

Lemma copies_on_source s source f :
  by_key (remote_records_ s) -> (forall x, remote_key (f x) = remote_key x) ->
  let s' := s <| remote_records_ ::= on_source source f |> in
  by_key (remote_records_ s') /\
  copies s' = (fun r => if bool_decide (rr_source r = source) then f r else r) <$> copies s.
Proof.
  intros Hs Hf s'. set (g := fun r => if bool_decide (rr_source r = source) then f r else r).
  assert (forall x, remote_key (g x) = remote_key x) as Hgk by (intros x; unfold g; by case_bool_decide).
  assert (by_key (remote_records_ s')) as Hs'
    by (apply (StronglySorted_fmap_key key_lt remote_key remote_key); [intros; apply Hgk|done]).
  split; [done|]. apply map_eq. intros k. rewrite lookup_fmap. apply option_eq. intros x.
  rewrite copies_lookup by done. unfold s', on_source. simpl. rewrite list_elem_of_fmap, fmap_Some. split.
  - intros [(y & -> & Hy) <-]. exists y. split; [|done]. apply copies_lookup; [done|].
    split; [done|symmetry; apply Hgk].
  - intros (y & Hy & ->). apply copies_lookup in Hy as [Hy <-]; [|done]. split; [by exists y|apply Hgk].
Qed.
End copies.

(** ** Removing copies *)

Definition cleared_overflow (l : list SourceState) : list SourceState := (fun x => x <| ss_is_overflowed := false |>) <$> l.

(** The state after [RemoveRemoteRecords]. *)
Definition removed_state (p : RemoteRecord -> bool) (s : StateService) : StateService :=
  s <| changed_types_ ::= fun c => c ∪ list_to_set (rr_state_type <$> filter (fun r => p r = true) (remote_records_ s)) |>
    <| remote_records_ ::= filter (fun r => p r = false) |>
    <| sources_ ::= fun l => if bool_decide (filter (fun r => p r = true) (remote_records_ s) = []) then l else cleared_overflow l |>.

Lemma RemoveRemoteRecords_run p s :
  exists e, RemoveRemoteRecords p s = (removed_state p s, e, Ok tt) /\ (e = [] \/ e = [Schedule NotifyTask 0]).
Proof.
  unfold RemoveRemoteRecords, removed_state. rewrite bind_get. unfold set_changed_types. rewrite bind_modify.
  destruct (filter (fun r => p r = true) (remote_records_ s)) as [|x l] eqn:E.
  - exists []. split; [|by left]. rewrite bool_decide_eq_true_2 by done. simpl. unfold mret, M_ret. f_equal. f_equal.
    rewrite filter_all; [by destruct s|]. apply Forall_forall. intros r Hr.
    destruct (p r) eqn:Hp; [|done]. assert (r ∈ filter (fun r => p r = true) (remote_records_ s)) as Hin by by apply list_elem_of_filter.
    rewrite E in Hin. by apply elem_of_nil in Hin.
  - rewrite bool_decide_eq_false_2 by done. rewrite bind_modify. unfold ScheduleStateHandlers. rewrite bind_get.
    destruct (st_tasks_created_ _); simpl; eexists; (split; [reflexivity|auto]).
Qed.

Lemma ScheduleStateHandlers_effects s :
  ScheduleStateHandlers s = (s, if st_tasks_created_ s then [Schedule NotifyTask 0] else [], Ok tt).
Proof. unfold ScheduleStateHandlers. rewrite bind_get. by destruct (st_tasks_created_ s). Qed.

(** The handlers are scheduled when something is removed. *)
Lemma RemoveRemoteRecords_effects p s r :
  r ∈ remote_records_ s -> p r = true ->
  effects_of (RemoveRemoteRecords p s) = if st_tasks_created_ s then [Schedule NotifyTask 0] else [].
Proof.
  intros Hr Hp. unfold RemoveRemoteRecords. rewrite bind_get. unfold set_changed_types. rewrite bind_modify.
  destruct (filter (fun r => p r = true) (remote_records_ s)) as [|x l] eqn:E.
  - exfalso. apply (elem_of_nil r). rewrite <- E. by apply list_elem_of_filter.
  - by rewrite bind_modify, ScheduleStateHandlers_effects.
Qed.

Section removing.
Context `{CdmpConfig}.

Lemma removed_wf p s : remote_wf s -> remote_wf (removed_state p s).
Proof.
  intros [Hs Hl Hd Hso]. split; simpl.
  - eapply StronglySorted_sublist; [apply sublist_filter|done].
  - etrans; [apply length_filter|done].
  - by apply Forall_sub.
  - case_bool_decide; [done|]. unfold cleared_overflow. by rewrite length_fmap.
Qed.

Lemma removed_copies p s :
  by_key (remote_records_ s) -> copies (removed_state p s) = filter (fun x => p x.2 = false) (copies s).
Proof.
  intros Hs. change (copies (removed_state p s))
    with (copies (s <| remote_records_ := filter (fun r => p r = false) (remote_records_ s) |>)).
  exact (copies_filter (fun r => p r = false) s _ Hs eq_refl).
Qed.

(** The handlers hear of the type of every copy removed, and of no other. *)
Lemma removed_changed p s t :
  by_key (remote_records_ s) ->
  t ∈ changed_types_ (removed_state p s) <->
  t ∈ changed_types_ s \/ exists k r, copies s !! k = Some r /\ p r = true /\ rr_state_type r = t.
Proof.
  intros Hs. simpl. rewrite elem_of_union, elem_of_list_to_set, list_elem_of_fmap.
  setoid_rewrite list_elem_of_filter. split; (intros [?|Hx]; [by left|right]).
  - destruct Hx as (r & -> & Hp & Hr). exists (remote_key r), r. split; [by apply copies_lookup|done].
  - destruct Hx as (k & r & Hk & Hp & <-). apply copies_lookup in Hk as [Hk _]; [|done]. by exists r.
Qed.

(** ** The newest value per source and type *)

(** What [ApplyRecord] does to the copies, on the map. *)
Definition apply_to_copies (m : CdmpStateChangeMessage) (c : gmap (Z * Z) RemoteRecord) : gmap (Z * Z) RemoteRecord :=
  let key := (sc_source_device_id m, sc_state_type m) in
  let value := mkRemote key.1 key.2 (sc_version m) false (sc_data m) in
  match c !! key with
  | Some r =>
      if rr_is_stale r || IsNewer (sc_version m) (rr_version r) then
        if bool_decide (sc_data m = []) then delete key c else <[key := value]> c
      else c
  | None => if bool_decide (sc_data m = []) || bool_decide (size c = MAX_REMOTE_RECORDS) then c else <[key := value]> c
  end.
End removing.

Section applying.
Context `{CdmpConfig} (env : Env).

Lemma AddSourceState_state x s :
  state_of (AddSourceState env x s) = s \/
  exists i, is_Some (sources_ s !! i) /\ state_of (AddSourceState env x s) = s <| sources_ ::= <[i := NewSource x]> |>.
Proof.
  unfold AddSourceState. rewrite bind_get. destruct (source_index x (sources_ s)); [by left|].
  destruct (find_index _ _) as [i|] eqn:E; [right|by left]. exists i. split; [|done].
  apply find_index_Some in E as [(y & Hy & _) _]. by exists y.
Qed.

Lemma MarkOverflowed_run x s :
  exists l, MarkOverflowed env x s = (s <| sources_ := l |>, [], Ok tt) /\ length l = length (sources_ s).
Proof.
  assert (s = s <| sources_ := sources_ s |>) as Hid by by destruct s.
  unfold MarkOverflowed, AddSourceState. rewrite bind_assoc, bind_get.
  destruct (source_index x (sources_ s)) as [i|].
  - rewrite bind_ret. eexists. split; [reflexivity|]. simpl. by rewrite length_alter.
  - destruct (find_index _ _) as [i|].
    + rewrite bind_assoc, bind_modify, bind_ret. eexists. split; [reflexivity|]. simpl. by rewrite length_alter, length_insert.
    + rewrite bind_ret. exists (sources_ s). by rewrite <- Hid.
Qed.

(** Whether a notification changes the value that is held of its record. *)
Definition value_changes (m : CdmpStateChangeMessage) (c : gmap (Z * Z) RemoteRecord) : bool :=
  let key := (sc_source_device_id m, sc_state_type m) in
  negb (bool_decide (rr_data <$> apply_to_copies m c !! key = rr_data <$> c !! key)).
(** The task that tells the handlers is scheduled just then. *)
Definition notice (m : CdmpStateChangeMessage) (s : StateService) : list Effect :=
  if st_tasks_created_ s && value_changes m (copies s) then [Schedule NotifyTask 0] else [].

Lemma no_notice m s :
  (forall k, k = (sc_source_device_id m, sc_state_type m) ->
     rr_data <$> apply_to_copies m (copies s) !! k = rr_data <$> copies s !! k) -> notice m s = [].
Proof.
  intros Hk. unfold notice, value_changes. rewrite bool_decide_eq_true_2 by (by apply Hk). by rewrite andb_false_r.
Qed.
Lemma a_notice m s :
  (forall k, k = (sc_source_device_id m, sc_state_type m) ->
     rr_data <$> apply_to_copies m (copies s) !! k <> rr_data <$> copies s !! k) ->
  notice m s = if st_tasks_created_ s then [Schedule NotifyTask 0] else [].
Proof.
  intros Hk. unfold notice, value_changes. rewrite bool_decide_eq_false_2 by (by apply Hk). by rewrite andb_true_r.
Qed.

Lemma ScheduleStateHandlers_run s : exists e, ScheduleStateHandlers s = (s, e, Ok tt) /\ frames_sent e = [].
Proof. unfold ScheduleStateHandlers. rewrite bind_get. destruct (st_tasks_created_ s); by eexists. Qed.

(** The state after [ApplyRecord], for each thing it can do. *)
Inductive applied (m : CdmpStateChangeMessage) (s : StateService) : StateService -> Prop :=
| applied_nothing : apply_to_copies m (copies s) = copies s -> applied m s s
| applied_removed :
    (exists r, copies s !! (sc_source_device_id m, sc_state_type m) = Some r) -> sc_data m = [] ->
    apply_to_copies m (copies s) = delete (sc_source_device_id m, sc_state_type m) (copies s) ->
    applied m s (removed_state (fun r => bool_decide (rr_source r = sc_source_device_id m)
                                         && bool_decide (rr_state_type r = sc_state_type m)) s)
| applied_updated i r types :
    remote_records_ s !! i = Some r -> remote_key r = (sc_source_device_id m, sc_state_type m) -> sc_data m <> [] ->
    types = (if bool_decide (rr_data r = sc_data m) then ∅ else {[sc_state_type m]}) ->
    apply_to_copies m (copies s) =
      <[remote_key r := mkRemote (sc_source_device_id m) (sc_state_type m) (sc_version m) false (sc_data m)]> (copies s) ->
    applied m s (s <| changed_types_ ::= fun c => c ∪ types |>
                   <| remote_records_ ::= alter (fun r => r <| rr_version := sc_version m |> <| rr_data := sc_data m |>
                                                            <| rr_is_stale := false |>) i |>)
| applied_overflow l :
    copies s !! (sc_source_device_id m, sc_state_type m) = None -> size (copies s) = MAX_REMOTE_RECORDS ->
    apply_to_copies m (copies s) = copies s -> length l = length (sources_ s) -> applied m s (s <| sources_ := l |>)
| applied_added r :
    r = mkRemote (sc_source_device_id m) (sc_state_type m) (sc_version m) false (sc_data m) -> sc_data m <> [] ->
    copies s !! remote_key r = None -> (length (remote_records_ s) < MAX_REMOTE_RECORDS)%nat ->
    apply_to_copies m (copies s) = <[remote_key r := r]> (copies s) ->
    applied m s (s <| remote_records_ ::= insert_at (remote_position (remote_key r) (remote_records_ s)) r |>
                   <| changed_types_ ::= fun c => c ∪ {[sc_state_type m]} |>).

Lemma ApplyRecord_run m s :
  remote_wf s ->
  exists s' e, ApplyRecord env m s = (s', e, Ok tt) /\ frames_sent e = [] /\ applied m s s' /\ e = notice m s.
Proof.
  intros Hwf. pose proof (rw_sorted _ Hwf) as Hs. unfold ApplyRecord. rewrite bind_get.
  set (key := (sc_source_device_id m, sc_state_type m)). cbv zeta.
  assert (apply_to_copies m (copies s) = apply_to_copies m (copies s)) as Ha by done. revert Ha.
  unfold apply_to_copies at 2. fold key. cbv zeta. cbn [fst snd key].
  rewrite FindRemoteRecord_copies by done. fold key.
  destruct (copies s !! key) as [r|] eqn:Hf; intros Ha.
  - assert (FindRemoteRecord key (remote_records_ s) = Some r) as Hpos by by rewrite FindRemoteRecord_copies.
    apply FindRemoteRecord_position in Hpos as [Hpos Hk]. unfold key in Hk.
    destruct (rr_is_stale r || IsNewer (sc_version m) (rr_version r)) eqn:Hacc.
    2: { apply orb_false_iff in Hacc as [-> ->]. simpl. exists s, []. split_and!; [done|done|by constructor|].
         symmetry. apply no_notice. intros k _. by rewrite Ha. }
    assert (negb (rr_is_stale r) && negb (IsNewer (sc_version m) (rr_version r)) = false) as ->
      by (apply orb_true_iff in Hacc as [->| ->]; simpl; by rewrite ?andb_false_r).
    destruct (sc_data m) as [|b d] eqn:Hd.
    + destruct (RemoveRemoteRecords_run (fun r => bool_decide (rr_source r = sc_source_device_id m)
        && bool_decide (rr_state_type r = sc_state_type m)) s) as (e & E & He).
      pose proof (RemoveRemoteRecords_effects (fun r => bool_decide (rr_source r = sc_source_device_id m)
        && bool_decide (rr_state_type r = sc_state_type m)) s r) as Heff. rewrite E in Heff |- *.
      eexists _, e. split_and!; [done|by destruct He as [->| ->]| |].
      * apply applied_removed; [by exists r|done|done].
      * rewrite a_notice; [apply Heff|].
        -- by eapply list_elem_of_lookup_2.
        -- unfold remote_key in Hk. injection Hk as -> ->. by rewrite !bool_decide_eq_true_2.
        -- intros k ->. fold key. assert (apply_to_copies m (copies s) = delete key (copies s)) as -> by exact Ha.
           by rewrite lookup_delete_eq, Hf.
    + rewrite <- Hd in *. assert (sc_data m <> []) as Hne by by rewrite Hd. rewrite bool_decide_eq_false_2 in Ha by done.
      destruct (bool_decide_reflect (rr_data r = sc_data m)) as [Hv|Hv]; cbn [negb when].
      * rewrite bind_ret. unfold modify. eexists _, []. split_and!; [reflexivity|done| |].
        2: { symmetry. apply no_notice. intros k ->. fold key. rewrite Ha, lookup_insert_eq, Hf. simpl. by rewrite Hv. }
        match goal with |- applied _ _ ?x => replace x with (s <| changed_types_ ::= fun c => c ∪ ∅ |>
          <| remote_records_ ::= alter (fun r => r <| rr_version := sc_version m |> <| rr_data := sc_data m |>
                                                   <| rr_is_stale := false |>) (remote_position key (remote_records_ s)) |>) end.
        -- apply (applied_updated m s _ r); [done|done|done|by rewrite bool_decide_eq_true_2|by rewrite Hk].
        -- simpl. by rewrite union_empty_r_L.
      * unfold set_changed_types. rewrite bind_assoc, bind_modify.
        match goal with |- context [(ScheduleStateHandlers ≫= _) ?s1] => destruct (ScheduleStateHandlers_run s1) as (e & E & He) end.
        erewrite bind_ok by exact E. unfold modify, prepend. simpl. eexists _, _. split_and!; [reflexivity|by rewrite app_nil_r| |].
        2: { rewrite app_nil_r, a_notice.
             - rewrite ScheduleStateHandlers_effects in E. by injection E.
             - intros k ->. fold key. rewrite Ha, lookup_insert_eq, Hf. simpl. congruence. }
        apply (applied_updated m s _ r); [done|done|done| |by rewrite Hk].
        rewrite bool_decide_eq_false_2 by done. by rewrite union_empty_r_L.
  - destruct (sc_data m) as [|b d] eqn:Hd.
    + exists s, []. split_and!; [done|done|by constructor|]. symmetry. apply no_notice. intros k _. by rewrite Ha.
    + rewrite <- Hd in *. assert (sc_data m <> []) as Hne by by rewrite Hd.
      rewrite (bool_decide_eq_false_2 (sc_data m = [])) in Ha by done. rewrite copies_size in Ha by done. cbn [orb] in Ha.
      destruct (bool_decide_reflect (length (remote_records_ s) = MAX_REMOTE_RECORDS)) as [Hfull|Hroom].
      * destruct (MarkOverflowed_run (sc_source_device_id m) s) as (l & E & Hl). rewrite E.
        eexists _, []. split_and!; [done|done| |].
        -- apply applied_overflow; [done|by rewrite copies_size|done|done].
        -- symmetry. apply no_notice. intros k _. by rewrite Ha.
      * unfold set_changed_types. rewrite bind_modify, bind_modify.
        match goal with |- context [ScheduleStateHandlers ?s1] => destruct (ScheduleStateHandlers_run s1) as (e & E & He) end.
        rewrite E. eexists _, e. split_and!; [reflexivity|done| |].
        2: { rewrite a_notice.
             - rewrite ScheduleStateHandlers_effects in E. by injection E.
             - intros k ->. fold key. rewrite Ha, lookup_insert_eq, Hf. done. }
        match goal with |- applied _ _ (?x <| changed_types_ ::= ?f |>) =>
          change (applied m s (x <| changed_types_ ::= f |>)) end.
        pose proof (applied_added m s _ eq_refl Hne Hf) as Hadd. pose proof (rw_length _ Hwf).
        specialize (Hadd ltac:(lia) Ha). unfold key. simpl in *. by rewrite union_empty_r_L.
Qed.
End applying.

(** ** Every step keeps the copies well formed *)

Section remote_invariant.
Context `{CdmpConfig} `{Crc8}.

Lemma applied_wf m s s' :
  remote_wf s -> (length (sc_data m) <= STATE_DATA_MAX_SIZE)%nat -> applied m s s' ->
  remote_wf s' /\ copies s' = apply_to_copies m (copies s).
Proof.
  intros Hwf Hlen Ha. destruct Ha as [E|Hex Hd E|i r types Hi Hk Hd Ht E|l _ _ E Hl|r Hr Hd Hn Hroom E].
  - by rewrite E.
  - split; [by apply removed_wf|]. rewrite removed_copies, E by apply Hwf.
    apply map_eq. intros k. apply option_eq. intros x. rewrite map_lookup_filter_Some, lookup_delete_Some. simpl.
    assert (forall y, bool_decide (rr_source y = sc_source_device_id m) && bool_decide (rr_state_type y = sc_state_type m) = false
      <-> (sc_source_device_id m, sc_state_type m) <> remote_key y) as Hkey.
    { intros y. rewrite andb_false_iff, !bool_decide_eq_false. unfold remote_key.
      destruct (decide (rr_source y = sc_source_device_id m)), (decide (rr_state_type y = sc_state_type m));
        intuition congruence. }
    rewrite Hkey, copies_lookup by apply Hwf. intuition congruence.
  - destruct (copies_alter s i r (fun r => r <| rr_version := sc_version m |> <| rr_data := sc_data m |>
      <| rr_is_stale := false |>)) as [Hs' Hc]; [apply Hwf|done|done|].
    split.
    + split; simpl; [exact Hs'| | |by apply Hwf].
      * rewrite length_alter. apply Hwf.
      * apply Forall_alter; [apply Hwf|]. intros x _ _. by split.
    + rewrite E. etrans; [exact Hc|]. f_equal. unfold remote_key in Hk. injection Hk as <- <-. done.
  - split; [|by rewrite E]. destruct Hwf. split; simpl; [done..|congruence].
  - destruct (copies_insert s r) as [Hs' Hc]; [apply Hwf|done|].
    split; [|by rewrite E]. split; simpl; [exact Hs'| | |by apply Hwf].
    + rewrite length_insert_at. lia.
    + rewrite Forall_forall. intros x [->|Hx]%elem_of_insert_at; [by subst r|].
      pose proof (rw_data _ Hwf) as Hall. rewrite Forall_forall in Hall. by apply Hall.
Qed.

#[local] Abbreviation keeps_wf := (preserves remote_wf).

Lemma remote_wf_same s s' :
  remote_records_ s' = remote_records_ s -> sources_ s' = sources_ s -> remote_wf s -> remote_wf s'.
Proof. intros E1 E2 [? ? ? ?]. split; by rewrite ?E1, ?E2. Qed.
#[local] Hint Extern 5 (remote_wf _) =>
  match goal with Hx : remote_wf ?s |- _ => apply (remote_wf_same s); [reflexivity|reflexivity|exact Hx] end : preserves.
Ltac keep := preserve; try solve [eauto with preserves].

Lemma ApplyRecord_wf env m : (length (sc_data m) <= STATE_DATA_MAX_SIZE)%nat -> keeps_wf (ApplyRecord env m).
Proof.
  intros Hm s Hs. destruct (ApplyRecord_run env m s Hs) as (s' & e & E & _ & Ha & _). rewrite E. by eapply applied_wf.
Qed.
Lemma RemoveRemoteRecords_wf p : keeps_wf (RemoveRemoteRecords p).
Proof. intros s Hs. destruct (RemoveRemoteRecords_run p s) as (e & E & _). rewrite E. by apply removed_wf. Qed.
Lemma mark_stale_wf x b : keeps_wf (mark_stale x b).
Proof.
  unfold mark_stale. apply preserves_modify. intros s Hs.
  destruct (copies_on_source s x (fun r => r <| rr_is_stale := b |>)) as [Hs' _]; [apply Hs|done|].
  split; simpl; [exact Hs'| | |apply Hs].
  - unfold on_source. rewrite length_fmap. apply Hs.
  - unfold on_source. apply Forall_fmap, (Forall_impl _ _ _ (rw_data _ Hs)). intros r Hr. unfold compose. by case_bool_decide.
Qed.
Lemma sources_wf f s : (forall l, length (f l) = length l) -> remote_wf s -> remote_wf (s <| sources_ ::= f |>).
Proof. intros Hf [? ? ? Hl]. split; simpl; [done..|]. by rewrite Hf. Qed.
Lemma AddSourceState_wf env x : keeps_wf (AddSourceState env x).
Proof.
  intros s Hs. destruct (AddSourceState_state env x s) as [->|(i & _ & ->)]; [done|].
  apply sources_wf; [|done]. intros l. apply length_insert.
Qed.
Lemma ScheduleStateHandlers_wf : keeps_wf ScheduleStateHandlers.
Proof. unfold ScheduleStateHandlers. keep. Qed.
#[local] Hint Resolve RemoveRemoteRecords_wf mark_stale_wf AddSourceState_wf ScheduleStateHandlers_wf : preserves.
Lemma StartSyncRequest_wf env x : keeps_wf (StartSyncRequest env x).
Proof. unfold StartSyncRequest. keep. apply sources_wf; [|done]. intros. apply length_alter. Qed.
Lemma ForgetNetwork_wf : keeps_wf ForgetNetwork.
Proof.
  unfold ForgetNetwork. keep. match goal with Hx : remote_wf ?s |- _ => destruct Hx end.
  split; simpl; [done..|]. by rewrite length_replicate.
Qed.
Lemma DropSource_wf x : keeps_wf (DropSource x).
Proof.
  unfold DropSource. keep.
  case_match; [|done]. apply sources_wf; [|done]. intros. apply length_insert.
Qed.
#[local] Hint Resolve StartSyncRequest_wf ForgetNetwork_wf DropSource_wf : preserves.

Lemma TryFromCanFrame_data f m :
  StateChange_TryFromCanFrame f = Ok (Some m) -> (length (sc_data m) <= STATE_DATA_MAX_SIZE)%nat.
Proof.
  unfold StateChange_TryFromCanFrame. case_match; [done|]. unfold StateData, mbind, res_bind.
  destruct (rd f 0); [|discriminate..]. destruct (rd f 1); [|discriminate..]. destruct (rd f 2); [|discriminate..].
  destruct (bool_decide_reflect (STATE_DATA_MAX_SIZE < length (drop STATE_HEADER_SIZE f))%nat); [discriminate|].
  intros Hm. injection Hm as <-. cbn [sc_data]. lia.
Qed.

Lemma DropFrame_wf : keeps_wf DropFrame.
Proof. unfold DropFrame. keep. Qed.
Lemma SendNotification_wf env m : keeps_wf (SendNotification env m).
Proof. unfold SendNotification. keep. Qed.
#[local] Hint Resolve DropFrame_wf SendNotification_wf : preserves.
Lemma ProcessStateChangeFrame_wf {N : NetworkInfo} env device f : keeps_wf (ProcessStateChangeFrame env device f).
Proof.
  unfold ProcessStateChangeFrame. destruct (negb (IsOnline device)); [apply preserves_ret|].
  destruct (StateChange_TryFromCanFrame f) as [[m|]|x|] eqn:E; try by intros s Hs.
  - intros s Hs. rewrite bind_lift_ok. repeat case_bool_decide; [by apply DropFrame_wf|done|].
    destruct (negb (is_device_online (sc_source_device_id m))); [done|].
    revert s Hs. apply preserves_bind; [apply ApplyRecord_wf; by eapply TryFromCanFrame_data|intros _].
    unfold SendResponse. keep.
  - intros s Hs. rewrite bind_lift_ok. by apply DropFrame_wf.
Qed.
Lemma ProcessStateChangeResponseFrame_wf device f : keeps_wf (ProcessStateChangeResponseFrame device f).
Proof. unfold ProcessStateChangeResponseFrame. keep. Qed.
#[local] Hint Resolve ProcessStateChangeFrame_wf ProcessStateChangeResponseFrame_wf : preserves.
Lemma ReceiveLoop_wf {N : NetworkInfo} env device fuel : keeps_wf (ReceiveLoop env device fuel).
Proof. induction fuel; simpl; unfold ProcessReceived; keep. Qed.
Lemma ReplayRecords_wf env device : keeps_wf (ReplayRecords env device).
Proof. unfold ReplayRecords. keep. Qed.
Lemma StateUnregister_wf env : keeps_wf (StateUnregisterCanHandlers env).
Proof. unfold StateUnregisterCanHandlers. keep. Qed.
Lemma RegisterReceiveHandler_wf register base c : keeps_wf (RegisterReceiveHandler register base c).
Proof. unfold RegisterReceiveHandler. keep. Qed.
Lemma StampChange_wf device i : keeps_wf (StampChange device i).
Proof. unfold StampChange, UpdateDigest, TransmitSoon. keep. case_match. keep. Qed.
Lemma ScheduleRetransmission_wf env : keeps_wf (ScheduleRetransmission env).
Proof. unfold ScheduleRetransmission. keep. Qed.
#[local] Hint Resolve ReceiveLoop_wf ReplayRecords_wf StateUnregister_wf RegisterReceiveHandler_wf StampChange_wf
  ScheduleRetransmission_wf : preserves.
Lemma ClearLocalState_wf device t : keeps_wf (ClearLocalState device t).
Proof. unfold ClearLocalState. keep. Qed.
Lemma StateRegister_wf env register : keeps_wf (StateRegisterCanHandlers env register).
Proof. unfold StateRegisterCanHandlers. keep. Qed.
#[local] Hint Resolve ClearLocalState_wf StateRegister_wf : preserves.

Lemma step_remote_wf p : keeps_wf (run_state_step p).
Proof.
  destruct p as [env device network []]; unfold run_state_step, ignore; cbn [sp_op sp_env sp_device sp_network].
  - unfold SetLocalState, StoreLocalState. keep.
  - keep.
  - unfold QueueFrame. keep.
  - unfold ReceiveFrames. keep.
  - unfold StateOnDeviceStatusChanged. keep.
  - unfold OnDeviceEvent. keep.
  - unfold OnHeartbeat. keep.
  - keep.
  - keep.
  - unfold ProcessSyncRequest. keep.
  - unfold Transmit. keep.
  - keep.
  - unfold NotifyStateHandlers. keep.
  - unfold RegisterStateHandler. keep.
  - unfold UnregisterStateHandler. keep.
  - unfold StateDoInitialize. keep.
  - unfold StateDoStart. keep.
  - unfold StateDoStop. keep.
Qed.

Lemma run_remote_wf base l : remote_wf (run_state_steps l (NewStateService base)).1.
Proof.
  assert (forall s, remote_wf s -> remote_wf (run_state_steps l s).1) as Hrun.
  { induction l as [|p l IH]; intros s Hs; [done|]. simpl. specialize (IH _ (step_remote_wf p s Hs)).
    by destruct (run_state_steps l _). }
  apply Hrun. split; simpl; [constructor|lia|constructor|by rewrite length_replicate].
Qed.
End remote_invariant.

(** ** A notification *)

Section notifications.
Context `{CdmpConfig} `{Crc8} `{NetworkInfo} (env : Env) (device : CdmpDevice).

Definition copied_data (s : StateService) (k : Z * Z) : option (list Z) := rr_data <$> copies s !! k.

Lemma applied_changed m s s' :
  remote_wf s -> (length (sc_data m) <= STATE_DATA_MAX_SIZE)%nat -> applied m s s' ->
  forall t, t ∈ changed_types_ s' <-> t ∈ changed_types_ s \/
    t = sc_state_type m /\ copied_data s' (sc_source_device_id m, t) <> copied_data s (sc_source_device_id m, t).
Proof.
  intros Hwf Hlen Ha t. destruct (applied_wf m s s' Hwf Hlen Ha) as [_ Hc]. unfold copied_data. rewrite Hc.
  destruct Ha as [E|(r & Hr) Hd E|i r types Hi Hk Hd -> E|l _ _ E Hl|r -> Hd Hn Hroom E]; rewrite E.
  - naive_solver.
  - rewrite removed_changed by apply Hwf. apply or_iff_compat_l. split.
    + intros (k & x & Hx & Hp & <-). apply andb_true_iff in Hp as [Hp1 Hp2]. rewrite bool_decide_eq_true in Hp1, Hp2.
      split; [done|]. rewrite Hp2, lookup_delete_eq, Hr. done.
    + intros [-> _]. apply copies_lookup in Hr as Hr'; [|apply Hwf]. destruct Hr' as [_ Hk]. unfold remote_key in Hk.
      injection Hk as Hk1 Hk2. exists (sc_source_device_id m, sc_state_type m), r.
      split; [done|]. by rewrite Hk1, Hk2, !bool_decide_eq_true_2.
  - simpl. rewrite elem_of_union. apply or_iff_compat_l.
    assert (copies s !! remote_key r = Some r) as Hr by (apply copies_lookup; [apply Hwf|]; split; [by eapply list_elem_of_lookup_2|done]).
    rewrite Hk in Hr. rewrite Hk. case_bool_decide as Hv.
    + split; [by intros ?%elem_of_empty|]. intros [-> []]. by rewrite lookup_insert_eq, Hr, <- Hv.
    + rewrite elem_of_singleton. split; [|by intros [-> _]]. intros ->. split; [done|].
      rewrite lookup_insert_eq, Hr. simpl. congruence.
  - simpl. naive_solver.
  - simpl. rewrite elem_of_union, elem_of_singleton. apply or_iff_compat_l. split; [|by intros [-> _]].
    intros ->. split; [done|]. change (remote_key _) with (sc_source_device_id m, sc_state_type m) in *.
    by rewrite lookup_insert_eq, Hn.
Qed.

Definition response_to (m : CdmpStateChangeMessage) (base : Z) : CanId * list Z :=
  (GetStateChangeResponseCanId base, [device_id_ device; sc_source_device_id m; sc_version m; RESULT_SUCCESS]).

Definition takes (m : CdmpStateChangeMessage) : Prop :=
  IsOnline device = true /\ sc_state_type m <> 0 /\ sc_source_device_id m <> device_id_ device /\
  is_device_online (sc_source_device_id m) = true.

Lemma ProcessStateChangeFrame_taken f m s :
  remote_wf s -> StateChange_TryFromCanFrame f = Ok (Some m) -> takes m ->
  exists s' e, ProcessStateChangeFrame env device f s = (s', e, Ok tt) /\ applied m s s' /\
    frames_sent e = (if env_bus_valid env then [response_to m (st_base_can_id_ s')] else []) /\
    (Schedule NotifyTask 0 ∈ e <-> Schedule NotifyTask 0 ∈ notice m s).
Proof.
  intros Hwf Hf (Hon & Ht & Hsrc & Hnet). unfold ProcessStateChangeFrame. rewrite Hon, Hf. cbn [negb].
  rewrite bind_lift_ok, !bool_decide_eq_false_2, Hnet by done. cbn [negb].
  destruct (ApplyRecord_run env m s Hwf) as (s' & e & E & He & Ha & Hn). erewrite bind_ok by exact E.
  unfold SendResponse. rewrite bind_get. unfold prepend. destruct (env_bus_valid env); simpl.
  - eexists _, _. split_and!; [reflexivity|done|by rewrite frames_sent_app, He|].
    rewrite <- Hn, elem_of_app, list_elem_of_singleton. naive_solver.
  - eexists _, _. split_and!; [reflexivity|done|by rewrite app_nil_r|]. by rewrite app_nil_r, <- Hn.
Qed.

Lemma applied_handlers m s s' : applied m s s' -> state_handlers_ s' = state_handlers_ s.
Proof. by destruct 1. Qed.

(** The pass that tells the handlers calls those that are new and those of a changed type, and no other. *)
Lemma NotifyStateHandlers_calls s h t :
  CallStateHandler h t ∈ effects_of (NotifyStateHandlers s) <->
  exists id entry, state_handlers_ s !! id = Some entry /\ sh_handler entry = h /\ sh_state_type entry = t /\
    (sh_is_first_call_pending entry = true \/ t ∈ changed_types_ s).
Proof.
  unfold NotifyStateHandlers. rewrite bind_get, bind_modify. set (s1 := s <| changed_types_ := ∅ |>).
  assert (forall l s2, CallStateHandler h t ∈ effects_of (for_each l (fun p : Z * StateHandlerEntry =>
      let '(handler_id, entry) := p in
      when (sh_is_first_call_pending entry || bool_decide (sh_state_type entry ∈ changed_types_ s))
        (modify (fun s => s <| state_handlers_ ::=
           <[handler_id := mkHandlerEntry (sh_state_type entry) (sh_handler entry) false]> |>) ;;
         emit (CallStateHandler (sh_handler entry) (sh_state_type entry)))) s2) <->
    exists id entry, (id, entry) ∈ l /\ sh_handler entry = h /\ sh_state_type entry = t /\
      (sh_is_first_call_pending entry = true \/ t ∈ changed_types_ s)) as Hl.
  { induction l as [|[id entry] l IH]; intros s2; cbn [for_each].
    - split; [by intros ?%elem_of_nil|by intros (? & ? & ?%elem_of_nil & _)].
    - setoid_rewrite elem_of_cons. destruct (sh_is_first_call_pending entry || _) eqn:Hc; cbn [when].
      + rewrite bind_assoc, bind_modify, bind_emit, effects_of_prepend, elem_of_app, list_elem_of_singleton, IH.
        apply orb_true_iff in Hc. rewrite bool_decide_eq_true in Hc. split.
        * intros [[= -> ->]|(i & x & ? & ?)]; [exists id, entry; naive_solver|exists i, x; naive_solver].
        * intros (i & x & [[= -> ->]|?] & <- & <- & ?); [by left|right; by exists i, x].
      + rewrite bind_ret, IH. apply orb_false_iff in Hc as [Hc1 Hc2]. apply bool_decide_eq_false in Hc2. split.
        * intros (i & x & ? & ?). exists i, x. naive_solver.
        * intros (i & x & [[= -> ->]|?] & <- & <- & Hor); [|by exists i, x]. destruct Hor as [?|?]; [congruence|done]. }
  rewrite Hl. setoid_rewrite merge_sort_Permutation. by setoid_rewrite elem_of_map_to_list.
Qed.

Lemma value_changes_data m s s' :
  copies s' = apply_to_copies m (copies s) ->
  value_changes m (copies s) = true <->
  copied_data s' (sc_source_device_id m, sc_state_type m) <> copied_data s (sc_source_device_id m, sc_state_type m).
Proof. intros Hc. unfold value_changes, copied_data. by rewrite Hc, negb_true_iff, bool_decide_eq_false. Qed.

(** C19. Each unit holds the newest value of every record it hears of, per source and type.  In every
    reachable state, a well-formed notification that the unit takes (it is ONLINE, and the source is another
    unit ONLINE in the table) changes the map of copies as [apply_to_copies] says: a stale or older copy is replaced, and
    deleted when the data is empty; a duplicate or overtaken notification changes nothing; a new copy is added while
    there is room.  It is acknowledged with its version in every case.  The task that tells the handlers is scheduled
    exactly when the value changed; and when it runs next, it calls, besides the handlers of types that changed
    before and those that are new, exactly the handlers of the record's type if the value changed. *)
Theorem copies_hold_the_newest_value base l f m :
  StateChange_TryFromCanFrame f = Ok (Some m) -> takes m ->
  let s := (run_state_steps l (NewStateService base)).1 in
  let o := ProcessStateChangeFrame env device f s in
  let key := (sc_source_device_id m, sc_state_type m) in
  let changed := copied_data (state_of o) key <> copied_data s key in
  result_of o = Ok tt /\ copies (state_of o) = apply_to_copies m (copies s) /\
  frames_sent (effects_of o) = (if env_bus_valid env then [response_to m (st_base_can_id_ (state_of o))] else []) /\
  (Schedule NotifyTask 0 ∈ effects_of o <-> st_tasks_created_ s = true /\ changed) /\
  forall h t, CallStateHandler h t ∈ effects_of (NotifyStateHandlers (state_of o)) <->
    exists id entry, state_handlers_ s !! id = Some entry /\ sh_handler entry = h /\ sh_state_type entry = t /\
      (sh_is_first_call_pending entry = true \/ t ∈ changed_types_ s \/ t = sc_state_type m /\ changed).
Proof.
  intros Hf Ht s o key changed. subst o changed. pose proof (run_remote_wf base l) as Hwf. fold s in Hwf.
  pose proof (TryFromCanFrame_data f m Hf) as Hlen.
  destruct (ProcessStateChangeFrame_taken f m s Hwf Hf Ht) as (s' & e & -> & Ha & He & Hn).
  destruct (applied_wf m s s' Hwf Hlen Ha) as [_ Hc]. unfold state_of, effects_of, result_of. cbn [fst snd].
  split_and!; [done|done|done| |].
  - rewrite Hn. unfold key. rewrite <- (value_changes_data m s s' Hc). unfold notice.
    destruct (st_tasks_created_ s), (value_changes m (copies s)); cbn [andb]; set_solver.
  - intros h t. change (NotifyStateHandlers s').1.2 with (effects_of (NotifyStateHandlers s')).
    rewrite NotifyStateHandlers_calls, (applied_handlers m s s' Ha).
    setoid_rewrite (applied_changed m s s' Hwf Hlen Ha t). fold key.
    split; intros (id & x & ? & ? & ? & Hor); exists id, x; (do 3 (split; [done|]));
      (destruct Hor as [?|[?|[Et ?]]]; [by left|by right; left|right; right]); rewrite Et in *; done.
Qed.

(** ** A device leaves *)

Lemma remove_unordered_elem p l x :
  NoDup l -> x ∈ remove_unordered p l <-> x ∈ l /\ x <> p.
Proof.
  intros Hnd. unfold remove_unordered. destruct (find_index _ l) as [i|] eqn:Hi.
  2: { split; [|by intros [? _]]. intros Hx. split; [done|]. intros ->.
       pose proof (proj1 (find_index_None _ _) Hi p Hx) as Hp. simpl in Hp. by rewrite bool_decide_eq_true_2 in Hp. }
  apply find_index_Some in Hi as [(y & Hy & Hyp) _]. apply bool_decide_eq_true in Hyp. subst y.
  destruct (last l) as [b|] eqn:Hb; [|by apply last_None in Hb as ->].
  apply last_Some in Hb as [l' ->]. rewrite length_app. cbn [length]. replace (pred (length l' + 1)) with (length l') by lia.
  apply NoDup_app in Hnd as (Hnd & Hbl & _).
  destruct (decide (i < length l')%nat) as [Hlt|Hge].
  - rewrite insert_app_l, take_app_length' by (rewrite ?length_insert; done).
    rewrite lookup_app_l in Hy by done. destruct (list_elem_of_split_length _ _ _ Hy) as (l1 & l2 & -> & ->).
    rewrite insert_app_r_alt, Nat.sub_diag by lia. cbn [insert list_insert].
    assert (p ∉ l1 ++ l2) as Hp by (rewrite <- Permutation_middle in Hnd; by apply NoDup_cons in Hnd as [? _]).
    assert (p <> b) as Hpb by (intros ->; apply (Hbl b); set_solver).
    rewrite !elem_of_app, !elem_of_cons, elem_of_nil. set_solver.
  - apply lookup_lt_Some in Hy as Hlen. rewrite length_app in Hlen. cbn [length] in Hlen.
    assert (i = length l') as -> by lia. rewrite lookup_app_r, Nat.sub_diag in Hy by lia. injection Hy as <-.
    rewrite insert_app_r_alt, take_app_length' by (rewrite ?length_insert; lia || done).
    split; [|set_solver]. intros Hx. split; [set_solver|]. intros ->. apply (Hbl b); set_solver.
Qed.

Lemma DropSource_run x s :
  exists l e, DropSource x s =
    (removed_state (fun r => bool_decide (rr_source r = x)) s
       <| local_records_ ::= RemoveFromAcknowledgementSets x None |> <| sources_ := l |>, e, Ok tt).
Proof.
  unfold DropSource.
  destruct (RemoveRemoteRecords_run (fun r => bool_decide (rr_source r = x)) s) as (e & E & _).
  erewrite bind_ok by exact E. rewrite bind_modify. unfold modify, prepend. simpl.
  destruct (source_index x _) as [i|]; eexists _, _; reflexivity.
Qed.

(** C24. A device that leaves the table takes everything of it along: its copies, and only those, go, and
    the handlers hear of their types; no value of this unit's own changes; and the acknowledgement sets lose
    that peer and no other.  In every reachable state, as long as the network service answers as it promises,
    these sets list no peer twice and fit their array. *)
Theorem departed_source_leaves_nothing base l info :
  Forall (fun p => LawfulNetworkInfo (sp_network p)) l ->
  let s := (run_state_steps l (NewStateService base)).1 in
  let s' := state_of (OnDeviceEvent LEFT info s) in
  let left := info_device_id info in
  copies s' = filter (fun p => rr_source p.2 <> left) (copies s) /\
  (forall t, t ∈ changed_types_ s' <-> t ∈ changed_types_ s \/ is_Some (copies s !! (left, t))) /\
  published (local_records_ s') = published (local_records_ s) /\
  (forall r', r' ∈ local_records_ s' -> acks_ok (lr_unacknowledged r') /\
     exists r, r ∈ local_records_ s /\ record_value r' = record_value r /\
       forall x, x ∈ lr_unacknowledged r' <-> x ∈ lr_unacknowledged r /\ x <> left).
Proof.
  intros HN s s' x. pose proof (run_remote_wf base l) as Hwf. pose proof (run_acks base l HN) as Hacks. fold s in Hwf, Hacks.
  pose proof (DropSource_acks x s Hacks) as Hacks'. unfold s'. clear s'. simpl. fold x.
  destruct (DropSource_run x s) as (ls & e & E). rewrite E in Hacks' |- *. unfold state_of in *. cbn [fst] in *.
  set (p := fun r => bool_decide (rr_source r = x)) in *.
  set (s1 := removed_state p s <| local_records_ ::= RemoveFromAcknowledgementSets x None |> <| sources_ := ls |>) in *.
  change (copies s1) with (copies (removed_state p s)).
  change (changed_types_ s1) with (changed_types_ (removed_state p s)).
  change (local_records_ s1) with (RemoveFromAcknowledgementSets x None (local_records_ s)).
  split_and!.
  - rewrite removed_copies by apply Hwf. apply map_filter_ext. intros k r _. unfold p. simpl. by rewrite bool_decide_eq_false.
  - intros t. rewrite removed_changed by apply Hwf. apply or_iff_compat_l. split.
    + intros (k & r & Hr & Hp & <-). apply bool_decide_eq_true in Hp. exists r.
      apply copies_lookup in Hr as [Hr _]; [|apply Hwf]. apply copies_lookup; [apply Hwf|]. split; [done|].
      unfold remote_key. by rewrite Hp.
    + intros [r Hr]. exists (x, t), r. split; [done|]. apply copies_lookup in Hr as [_ [= <- <-]]; [|apply Hwf].
      split; [by apply bool_decide_eq_true|done].
  - apply published_ack.
  - intros r' Hr'. unfold acks_wf in Hacks, Hacks'. rewrite Forall_forall in Hacks, Hacks'. split; [by apply Hacks'|].
    unfold RemoveFromAcknowledgementSets, FreeAcknowledgedWithdrawals in Hr'.
    apply list_elem_of_filter in Hr' as [_ (r & -> & Hr)%list_elem_of_fmap]. exists r. split_and!; [done|done|].
    intros y. apply remove_unordered_elem. by apply Hacks.
Qed.
End notifications.

(** A unit that knows device 3 announces a record to it; then device 3 leaves. *)
Definition one_peer : NetworkInfo :=
  {| is_device_online := fun i => bool_decide (i = 3); network_devices := fun n => take n [mkDeviceInfo 3 77 0 ONLINE] |}.
Lemma one_peer_lawful : LawfulNetworkInfo one_peer.
Proof.
  split; cbn [one_peer network_devices is_device_online]; intros [|capacity]; rewrite ?take_0, ?(take_ge _ (S capacity)) by (simpl; lia).
  - simpl. lia.
  - simpl. lia.
  - constructor.
  - repeat constructor.
  - constructor.
  - apply NoDup_singleton.
  - intros i Hi. by apply elem_of_nil in Hi.
  - intros i Hi%list_elem_of_singleton _. by subst.
Qed.
Definition announced_to_one_peer : list StateStep :=
  (fun op => mkStateStep (mkEnv 5 true) (online_device 2) one_peer op) <$>
    [StInitialize; StStart (fun _ => 1); StStatusChanged CLAIMING ONLINE; StSetLocal 20 [1; 2]; StTransmit].

#[local] Existing Instance default_config.
#[local] Existing Instance sample_crc.
Lemma departed_source_leaves_nothing_witness :
  exists r, local_records_ (run_state_steps announced_to_one_peer (NewStateService 1792)).1 = [r] /\
    lr_unacknowledged r = [3] /\
    published (local_records_ (state_of (OnDeviceEvent LEFT (mkDeviceInfo 3 77 0 ONLINE)
      (run_state_steps announced_to_one_peer (NewStateService 1792)).1))) = [(20, 1, [1; 2])].
Proof.
  eexists. split; [vm_compute; reflexivity|]. split; [reflexivity|].
  pose proof (departed_source_leaves_nothing 1792 announced_to_one_peer (mkDeviceInfo 3 77 0 ONLINE)) as Ht.
  destruct Ht as (_ & _ & Hp & _); [repeat constructor; apply one_peer_lawful|].
  refine (eq_trans Hp _). vm_compute. reflexivity.
Defined.
