(* ===== verification/CdmpStateSync.v ===== *)
(** * CDMP state service: digest check and replay

    A heartbeat carries the digest of its sender's records.  What [OnHeartbeat] concludes from it, and that a
    replay followed by a heartbeat leaves exact copies. *)

From S2P Require Import Prelude Can Cdmp CdmpMessages CdmpEffects Service CdmpState CdmpStateLocal CdmpStateSend CdmpStateCopies.

(** ** The digest of a source's copies *)

Section digest.
Context `{CdmpConfig} `{Crc8}.

Definition values_digest (l : list (Z * Z * list Z)) : Z := foldl (fun d v => AddToDigest d v.1.1 v.1.2 v.2) 0 l.

Definition remote_value (r : RemoteRecord) : Z * Z * list Z := (rr_state_type r, rr_version r, rr_data r).
Definition source_values (source : Z) (s : StateService) : list (Z * Z * list Z) :=
  remote_value <$> SourceRecords source (remote_records_ s).

Lemma RemoteDigest_values l : RemoteDigest l = values_digest (remote_value <$> l).
Proof.
  unfold RemoteDigest, values_digest. generalize 0. induction l as [|r l IH]; intros d; [done|]. simpl. apply IH.
Qed.
Lemma LocalDigest_values l : LocalDigest l = values_digest (published l).
Proof. apply LocalDigest_published. Qed.

Definition value_lt (a b : Z * Z * list Z) : Prop := a.1.1 < b.1.1.

Lemma source_sorted source l : by_key l -> StronglySorted value_lt (remote_value <$> SourceRecords source l).
Proof.
  intros Hs. unfold SourceRecords. induction Hs as [|r l Hs IH Hr]; [constructor|]. rewrite filter_cons.
  destruct (decide (rr_source r = source)) as [Hsrc|]; [|done]. rewrite fmap_cons. constructor; [done|].
  apply Forall_fmap, Forall_forall. intros x [Hx Hxl]%list_elem_of_filter. rewrite Forall_forall in Hr.
  specialize (Hr x Hxl). unfold key_lt, remote_key, value_lt in *. simpl in *. lia.
Qed.

Lemma published_sorted s : local_wf s -> StronglySorted value_lt (published (local_records_ s)).
Proof.
  intros Hwf. assert (by_type (filter (fun r => lr_is_withdrawn r = false) (local_records_ s))) as Hs.
  { eapply StronglySorted_sublist; [apply sublist_filter|apply Hwf]. }
  unfold published. induction Hs as [|r l Hs IH Hr]; [constructor|]. rewrite fmap_cons. constructor; [done|].
  by apply Forall_fmap.
Qed.

(** Sorted lists of values are determined by their elements. *)
Lemma sorted_values_eq l1 l2 :
  StronglySorted value_lt l1 -> StronglySorted value_lt l2 -> (forall v, v ∈ l1 <-> v ∈ l2) -> l1 = l2.
Proof.
  intros Hs1. revert l2. induction Hs1 as [|a l1 Hs1 IH Ha]; intros [|b l2] Hs2 Heq.
  - done.
  - exfalso. apply (elem_of_nil b), Heq. left.
  - exfalso. apply (elem_of_nil a), Heq. left.
  - apply StronglySorted_inv in Hs2 as [Hs2 Hb]. rewrite Forall_forall in Ha, Hb.
    assert (a = b) as ->.
    { pose proof (proj1 (Heq a) (list_elem_of_here _ _)) as Hab. pose proof (proj2 (Heq b) (list_elem_of_here _ _)) as Hba.
      apply elem_of_cons in Hab as [|Hab]; [done|]. apply elem_of_cons in Hba as [|Hba]; [done|].
      specialize (Hb _ Hab). specialize (Ha _ Hba). unfold value_lt in *. lia. }
    f_equal. apply IH; [done|]. intros v. specialize (Heq v). rewrite !elem_of_cons in Heq. split; intros Hv.
    + destruct (proj1 Heq (or_intror Hv)) as [->|]; [|done]. specialize (Ha _ Hv). unfold value_lt in Ha. lia.
    + destruct (proj2 Heq (or_intror Hv)) as [->|]; [|done]. specialize (Hb _ Hv). unfold value_lt in Hb. lia.
Qed.

Lemma source_values_elem source s v :
  by_key (remote_records_ s) ->
  v ∈ source_values source s <-> exists r, copies s !! (source, v.1.1) = Some r /\ remote_value r = v.
Proof.
  intros Hs. unfold source_values, SourceRecords. rewrite list_elem_of_fmap. split.
  - intros (r & -> & [Hsrc Hr]%list_elem_of_filter). exists r. split; [|done]. apply copies_lookup; [done|].
    split; [done|]. unfold remote_key. simpl. by rewrite Hsrc.
  - intros (r & Hr & <-). apply copies_lookup in Hr as [Hr Hk]; [|done]. exists r. split; [done|].
    apply list_elem_of_filter. split; [|done]. by injection Hk.
Qed.
End digest.

(** ** A heartbeat *)

Section heartbeat.
Context `{CdmpConfig} `{Crc8} (env : Env) (device : CdmpDevice).

Definition is_overflowed (source : Z) (s : StateService) : bool :=
  match FindSourceState source s with Some x => ss_is_overflowed x | None => false end.

Definition fresh_values (source : Z) (s : StateService) : list (Z * Z * list Z) :=
  remote_value <$> filter (fun r => rr_is_stale r = false) (SourceRecords source (remote_records_ s)).

Definition with_staleness (source : Z) (stale : bool) (r : RemoteRecord) : RemoteRecord :=
  if bool_decide (rr_source r = source) then r <| rr_is_stale := stale |> else r.

Definition sync_requests (e : list Effect) : list Z :=
  omap (fun x => match x with SendSyncRequest t => Some t | _ => None end) e.

Lemma mark_stale_run source b s :
  by_key (remote_records_ s) ->
  exists s', mark_stale source b s = (s', [], Ok tt) /\ copies s' = with_staleness source b <$> copies s /\
    sources_ s' = sources_ s /\ by_key (remote_records_ s').
Proof.
  intros Hs. eexists. split; [reflexivity|].
  by destruct (copies_on_source s source (fun r => r <| rr_is_stale := b |>) Hs) as [Hs' Hc].
Qed.

(** A source whose copies are incomplete is not checked; a unit that is not ONLINE checks nothing. *)
Lemma OnHeartbeat_ignored hb s :
  IsOnline device = false \/ is_overflowed (hb_device_id hb) s = true -> OnHeartbeat env device hb s = (s, [], Ok tt).
Proof.
  unfold OnHeartbeat, is_overflowed. intros [->|Ho]; [done|]. destruct (IsOnline device); [|done].
  cbn [negb]. rewrite bind_get. destruct (FindSourceState _ s) as [[i o r t]|]; simpl in Ho; by subst.
Qed.

Lemma StartSyncRequest_run source s :
  exists l b, StartSyncRequest env source s = (s <| sources_ := l |>, [], Ok b).
Proof.
  unfold StartSyncRequest. destruct (AddSourceState env source s) as [[s1 e1] r] eqn:E.
  assert (exists l slot, AddSourceState env source s = (s <| sources_ := l |>, [], Ok slot)) as (l & slot & Hadd).
  { unfold AddSourceState. rewrite bind_get. destruct (source_index source (sources_ s)) as [i|].
    - exists (sources_ s), (Some i). by destruct s.
    - destruct (find_index _ _) as [i|]; [by eexists _, _|]. exists (sources_ s), None. by destruct s. }
  clear E. erewrite bind_ok by exact Hadd. rewrite prepend_nil, bind_get.
  destruct slot as [i|]; [|by eexists _, _]. simpl. destruct (l !! i) as [x|]; [|by eexists _, _]. simpl.
  destruct (_ && _); by eexists _, _.
Qed.

Lemma stale_and_sync source s :
  by_key (remote_records_ s) ->
  exists s' e, (mark_stale source true ;; StartSyncRequest env source ≫= fun request_sync : bool =>
                when request_sync (emit (SendSyncRequest source))) s = (s', e, Ok tt) /\
    copies s' = with_staleness source true <$> copies s /\ (sync_requests e = [] \/ sync_requests e = [source]).
Proof.
  intros Hs. destruct (mark_stale_run source true s Hs) as (s1 & E & Hc & _). erewrite bind_ok by exact E. rewrite prepend_nil.
  destruct (StartSyncRequest_run source s1) as (l & b & E'). erewrite bind_ok by exact E'. rewrite prepend_nil.
  destruct b; eexists _, _; (split; [reflexivity|]); (split; [exact Hc|]); auto.
Qed.

(** The three outcomes of a check. *)
Lemma OnHeartbeat_run hb s :
  by_key (remote_records_ s) -> IsOnline device = true -> is_overflowed (hb_device_id hb) s = false ->
  let source := hb_device_id hb in
  let o := OnHeartbeat env device hb s in
  result_of o = Ok tt /\
  (values_digest (source_values source s) = hb_state_digest hb /\
     copies (state_of o) = with_staleness source false <$> copies s /\ effects_of o = [] \/
   values_digest (source_values source s) <> hb_state_digest hb /\
     (exists t r, copies s !! (source, t) = Some r /\ rr_is_stale r = true) /\
     values_digest (fresh_values source s) = hb_state_digest hb /\
     copies (state_of o) = filter (fun p => ~ (rr_source p.2 = source /\ rr_is_stale p.2 = true)) (copies s) /\
     sync_requests (effects_of o) = [] \/
   values_digest (source_values source s) <> hb_state_digest hb /\
     ((exists t r, copies s !! (source, t) = Some r /\ rr_is_stale r = true) ->
        values_digest (fresh_values source s) <> hb_state_digest hb) /\
     copies (state_of o) = with_staleness source true <$> copies s /\
     (sync_requests (effects_of o) = [] \/ sync_requests (effects_of o) = [source])).
Proof.
  intros Hs Hon Ho source o. subst o. fold source in Ho. unfold OnHeartbeat. rewrite Hon. cbn [negb]. fold source. cbv zeta.
  rewrite bind_get.
  assert (existsb rr_is_stale (SourceRecords source (remote_records_ s)) = true <->
    exists t r, copies s !! (source, t) = Some r /\ rr_is_stale r = true) as Hstale.
  { rewrite existsb_exists. setoid_rewrite <- list_elem_of_In. unfold SourceRecords. setoid_rewrite list_elem_of_filter. split.
    - intros (r & [Hsrc Hr] & Hst). exists (rr_state_type r), r. split; [|done]. apply copies_lookup; [done|].
      split; [done|]. unfold remote_key. by rewrite Hsrc.
    - intros (t & r & Hr & Hst). apply copies_lookup in Hr as [Hr [= Hsrc _]]; [|done]. by exists r. }
  rewrite !RemoteDigest_values. fold (source_values source s). fold (fresh_values source s).
  match goal with |- context [match FindSourceState source s with _ => _ end] =>
    assert (forall (m : SM unit), (match FindSourceState source s with
      | Some (mkSource _ true _ _) => mret tt | _ => m end) = m) as Hm end.
  { intros m. unfold is_overflowed in Ho. destruct (FindSourceState source s) as [[i ov r t]|]; [|done]. simpl in Ho. by subst. }
  rewrite Hm. clear Hm.
  destruct (bool_decide_reflect (values_digest (source_values source s) = hb_state_digest hb)) as [Hd|Hd].
  { destruct (mark_stale_run source false s Hs) as (s' & -> & Hc & _). split; [done|]. by left. }
  destruct (existsb rr_is_stale (SourceRecords source (remote_records_ s))) eqn:Hst;
    [destruct (bool_decide_reflect (values_digest (fresh_values source s) = hb_state_digest hb)) as [Hf|Hf]|]; cbn [andb].
  - destruct (RemoveRemoteRecords_run (fun r => bool_decide (rr_source r = source) && rr_is_stale r) s) as (e & E & He).
    rewrite E. split; [done|]. right; left. split_and!; [done|by apply Hstale|done| |by destruct He as [->| ->]].
    etrans; [exact (removed_copies _ s Hs)|]. apply map_filter_ext. intros k r _. simpl.
    rewrite andb_false_iff, bool_decide_eq_false. destruct (rr_is_stale r); intuition congruence.
  - destruct (stale_and_sync source s Hs) as (s' & e & -> & Hc & He). split; [done|]. right; right. by split_and!.
  - destruct (stale_and_sync source s Hs) as (s' & e & -> & Hc & He). split; [done|]. right; right. split_and!; [done| |done|done].
    intros Hx. apply Hstale in Hx. discriminate Hx.
Qed.
End heartbeat.

(** ** A replay *)

Lemma size_union_le (X Y : gset (Z * Z)) : (size (X ∪ Y) <= size X + size Y)%nat.
Proof. rewrite size_union_alt. apply Nat.add_le_mono_l, subseteq_size. set_solver. Qed.
Lemma size_list_to_set_le (l : list (Z * Z)) : (size (list_to_set l : gset (Z * Z)) <= length l)%nat.
Proof.
  induction l as [|k l IH]; [done|]. simpl.
  etrans; [apply size_union_le|]. rewrite size_singleton. lia.
Qed.

Section replay.
Context `{CdmpConfig} `{Crc8} `{N : NetworkInfo} (env : Env) (device : CdmpDevice).

(** The copy of a value. *)
Definition current (source : Z) (v : Z * Z * list Z) : RemoteRecord := mkRemote source v.1.1 v.1.2 false v.2.

Definition value_frame (source : Z) (v : Z * Z * list Z) : list Z :=
  StateChange_ToCanFrame (mkStateChange source v.1.2 v.1.1 v.2).

(** The frames a started unit replays are one for each published value. *)
Lemma ReplayRecords_frames sender_env sender s :
  is_started_ s = true -> IsOnline sender = true -> env_bus_valid sender_env = true ->
  (frames_sent (effects_of (ReplayRecords sender_env sender s))).*2 =
    value_frame (device_id_ sender) <$> published (local_records_ s).
Proof.
  intros Hst Hon Hbus. unfold ReplayRecords. rewrite bind_get, Hst, Hon. cbn [negb orb]. cbv zeta.
  set (l := filter (fun r => lr_is_withdrawn r = false) (local_records_ s)).
  erewrite bind_ok by apply send_all. rewrite Hbus. unfold prepend, effects_of. cbn [fst snd]. rewrite frames_sent_app.
  assert (forall l, (frames_sent (notification sender (st_base_can_id_ s) <$> l)).*2 =
    value_frame (device_id_ sender) <$> (record_value <$> l)) as Hall.
  { intros l'. induction l' as [|r l' IH]; [done|]. rewrite !fmap_cons, <- IH. done. }
  rewrite fmap_app, Hall. apply app_nil_r.
Qed.

Definition frame_step (f : list Z) : StateStep := mkStateStep env device N (StFrame f).

Context (source : Z) (P : list (Z * Z * list Z)).
Context (P_keys : NoDup ((fun v : Z * Z * list Z => v.1.1) <$> P)).
Context (P_values : Forall (fun v => v.1.1 <> 0 /\ v.2 <> [] /\ (length v.2 <= STATE_DATA_MAX_SIZE)%nat) P).
Context (online : IsOnline device = true) (other : source <> device_id_ device) (known : is_device_online source = true).
Context (s0 : StateService) (stale0 : forall t r, copies s0 !! (source, t) = Some r -> rr_is_stale r = true).
Context (room : (size (copies s0) + length P <= MAX_REMOTE_RECORDS)%nat).

(** While the replay arrives: the copies of the source are the ones from before or the replayed values. *)
Record replaying (s : StateService) : Prop := {
  rp_wf : remote_wf s;
  rp_sources : sources_ s = sources_ s0;
  rp_other : forall k, k ∉ (fun v : Z * Z * list Z => (source, v.1.1)) <$> P -> copies s !! k = copies s0 !! k;
  rp_values : forall v, v ∈ P -> copies s !! (source, v.1.1) = Some (current source v) \/
                                copies s !! (source, v.1.1) = copies s0 !! (source, v.1.1);
}.

Lemma P_inj v w : v ∈ P -> w ∈ P -> v.1.1 = w.1.1 -> v = w.
Proof using All.
  intros Hv Hw E. apply list_elem_of_lookup in Hv as [i Hi], Hw as [j Hj].
  assert (i = j) as <-; [|congruence]. rewrite NoDup_alt in P_keys.
  apply (P_keys i j v.1.1); rewrite list_lookup_fmap; [by rewrite Hi|by rewrite Hj, E].
Qed.

Lemma value_frame_decodes v :
  v ∈ P -> StateChange_TryFromCanFrame (value_frame source v) = Ok (Some (mkStateChange source v.1.2 v.1.1 v.2)).
Proof using All.
  intros Hv. rewrite Forall_forall in P_values. destruct (P_values v Hv) as (_ & _ & Hlen).
  unfold value_frame, StateChange_TryFromCanFrame, StateChange_ToCanFrame, StateData, STATE_MAX_FRAME_SIZE, STATE_HEADER_SIZE in *.
  simpl. rewrite drop_0, !bool_decide_eq_false_2 by lia. done.
Qed.

(** A key of the replay that is missing still has room. *)
Lemma replaying_room s v :
  replaying s -> v ∈ P -> copies s !! (source, v.1.1) = None -> (size (copies s) < MAX_REMOTE_RECORDS)%nat.
Proof using All.
  intros Hs Hv Hn. set (keys := list_to_set ((fun v : Z * Z * list Z => (source, v.1.1)) <$> P) : gset (Z * Z)).
  assert (size keys <= length P)%nat as Hk.
  { unfold keys. etrans; [apply size_list_to_set_le|]. by rewrite length_fmap. }
  assert ({[(source, v.1.1)]} ∪ dom (copies s) ⊆ dom (copies s0) ∪ keys) as Hsub.
  { intros k [->%elem_of_singleton|Hk']%elem_of_union; apply elem_of_union.
    - right. apply elem_of_list_to_set, list_elem_of_fmap. by exists v.
    - destruct (decide (k ∈ (fun v : Z * Z * list Z => (source, v.1.1)) <$> P)) as [Hin|Hin].
      + right. by apply elem_of_list_to_set.
      + left. apply elem_of_dom. rewrite <- (rp_other _ Hs k Hin). by apply elem_of_dom. }
  apply subseteq_size in Hsub. rewrite size_union in Hsub.
  - rewrite size_singleton, size_dom in Hsub. pose proof (size_union_le (dom (copies s0)) keys) as Hu.
    rewrite size_dom in Hu. lia.
  - intros k ->%elem_of_singleton Hk'. apply elem_of_dom in Hk' as [? Hk']. congruence.
Qed.

Lemma replay_step s v :
  replaying s -> v ∈ P ->
  let s' := state_of (run_state_step (frame_step (value_frame source v)) s) in
  replaying s' /\ copies s' = <[(source, v.1.1) := current source v]> (copies s).
Proof using All.
  intros Hs Hv. pose proof P_values as Hvals. rewrite Forall_forall in Hvals. destruct (Hvals v Hv) as (Ht & Hd & Hlen).
  set (m := mkStateChange source v.1.2 v.1.1 v.2).
  destruct (ProcessStateChangeFrame_taken env device (value_frame source v) m s (rp_wf _ Hs) (value_frame_decodes v Hv))
    as (s' & e & E & Ha & _); [by split_and!|].
  change (run_state_step (frame_step (value_frame source v)) s) with (ProcessStateChangeFrame env device (value_frame source v) s).
  rewrite E. unfold state_of. cbn [fst].
  destruct (applied_wf m s s' (rp_wf _ Hs) Hlen Ha) as [Hwf' Hc].
  assert (copies s' = <[(source, v.1.1) := current source v]> (copies s)) as Hc'.
  { rewrite Hc. unfold apply_to_copies. cbn [sc_source_device_id sc_state_type sc_version sc_data m fst snd].
    rewrite (bool_decide_eq_false_2 (v.2 = [])) by done.
    destruct (rp_values _ Hs v Hv) as [E1|E1].
    - rewrite E1. cbn [rr_is_stale current rr_version orb].
      assert (IsNewer v.1.2 v.1.2 = false) as ->.
      { apply not_true_is_false. rewrite IsNewer_spec, behind_refl. lia. }
      by rewrite insert_id.
    - destruct (copies s !! (source, v.1.1)) as [r|] eqn:Hr.
      + rewrite (stale0 v.1.1 r) by done. done.
      + cbn [orb]. rewrite bool_decide_eq_false_2; [done|]. pose proof (replaying_room s v Hs Hv Hr). lia. }
  split; [|done]. split; [done| | |].
  - destruct Ha as [E1|(r & Hr) Hd' E1|i r types Hi Hk Hd' Htypes E1|l Hn Hfull E1 Hl|r Hr Hd' Hn Hroom E1]; try apply Hs.
    + done.
    + pose proof (replaying_room s v Hs Hv Hn). lia.
  - intros k Hk. rewrite Hc', lookup_insert_ne; [by apply Hs|]. intros <-. apply Hk, list_elem_of_fmap. by exists v.
  - intros w Hw. rewrite Hc'. destruct (decide (v.1.1 = w.1.1)) as [Ew|Ew].
    + left. rewrite (P_inj v w Hv Hw Ew). by rewrite lookup_insert_eq.
    + rewrite lookup_insert_ne by congruence. by apply Hs.
Qed.

Lemma replay_all l s :
  replaying s -> (forall v, v ∈ l -> v ∈ P) ->
  let s' := (run_state_steps (frame_step <$> (value_frame source <$> l)) s).1 in
  replaying s' /\ forall v, v ∈ P -> v ∈ l \/ copies s !! (source, v.1.1) = Some (current source v) ->
    copies s' !! (source, v.1.1) = Some (current source v).
Proof using All.
  revert s. induction l as [|w l IH]; intros s Hs Hl.
  { split; [done|]. intros v _ [Hv|Hv]; [by apply elem_of_nil in Hv|done]. }
  rewrite !fmap_cons. cbn [run_state_steps].
  assert (w ∈ P) as Hw by (apply Hl; left). destruct (replay_step s w Hs Hw) as [Hs' Hc].
  destruct (IH _ Hs') as [Hs'' Hall]; [intros v Hv; apply Hl; by right|].
  destruct (run_state_steps (frame_step <$> (value_frame source <$> l)) _) as [s2 e2]. cbn [fst] in *.
  split; [done|]. intros v Hv Hin. apply Hall; [done|]. rewrite Hc.
  destruct (decide (w.1.1 = v.1.1)) as [E|E].
  - right. rewrite (P_inj w v Hw Hv E). by rewrite lookup_insert_eq.
  - rewrite lookup_insert_ne by congruence. destruct Hin as [[->|?]%elem_of_cons|?]; [done|by left|by right].
Qed.

(** What is there once every value has arrived. *)
Definition replayed (s : StateService) : Prop :=
  replaying s /\ forall v, v ∈ P -> copies s !! (source, v.1.1) = Some (current source v).

Lemma replayed_fresh s t r :
  replayed s -> copies s !! (source, t) = Some r ->
  (rr_is_stale r = false <-> exists v, v ∈ P /\ v.1.1 = t /\ r = current source v) /\
  (rr_is_stale r = false -> remote_value r ∈ P).
Proof using All.
  intros [Hs Hall] Hr.
  destruct (decide ((source, t) ∈ (fun v : Z * Z * list Z => (source, v.1.1)) <$> P)) as [Hin|Hin].
  - apply list_elem_of_fmap in Hin as (v & [= ->] & Hv). rewrite (Hall v Hv) in Hr. injection Hr as <-.
    split; [split; [by exists v|done]|]. intros _. by destruct v as [[]].
  - rewrite (rp_other _ Hs _ Hin) in Hr. specialize (stale0 _ _ Hr). split; [|congruence].
    split; [congruence|]. intros (v & Hv & <- & ->). exfalso. apply Hin, list_elem_of_fmap. by exists v.
Qed.

Lemma replayed_fresh_values s : StronglySorted value_lt P -> replayed s -> fresh_values source s = P.
Proof using All.
  intros HP Hs. pose proof (rw_sorted _ (rp_wf _ (proj1 Hs))) as Hkey. apply sorted_values_eq; [|done|].
  - unfold fresh_values, SourceRecords. rewrite list_filter_filter.
    rewrite (list_filter_iff _ (fun r => rr_source r = source /\ rr_is_stale r = false)) by naive_solver.
    rewrite <- list_filter_filter. apply source_sorted. eapply StronglySorted_sublist; [apply sublist_filter|done].
  - intros v. unfold fresh_values, SourceRecords. rewrite list_elem_of_fmap. split.
    + intros (r & -> & [Hst [Hsrc Hr]%list_elem_of_filter]%list_elem_of_filter).
      eapply replayed_fresh; [done| |done]. apply copies_lookup; [done|]. split; [done|]. unfold remote_key. by rewrite Hsrc.
    + intros Hv. exists (current source v). split; [by destruct v as [[]]|].
      pose proof (proj2 Hs v Hv) as Hr. apply copies_lookup in Hr as [Hr _]; [|done].
      apply list_elem_of_filter. split; [done|]. by apply list_elem_of_filter.
Qed.

Lemma replayed_heartbeat env2 s hb :
  StronglySorted value_lt P -> replayed s -> is_overflowed source s = false ->
  hb_device_id hb = source -> hb_state_digest hb = values_digest P ->
  (values_digest (source_values source s) = values_digest P -> source_values source s = P) ->
  let o := OnHeartbeat env2 device hb s in
  sync_requests (effects_of o) = [] /\
  (forall k, k.1 <> source -> copies (state_of o) !! k = copies s0 !! k) /\
  (forall t r, copies (state_of o) !! (source, t) = Some r <-> exists v, v ∈ P /\ v.1.1 = t /\ r = current source v).
Proof using All.
  intros HP Hs Ho Hid Hdig Hcol o. pose proof (rw_sorted _ (rp_wf _ (proj1 Hs))) as Hkey.
  assert (forall k, k.1 <> source -> copies s !! k = copies s0 !! k) as Hother.
  { intros k Hk. apply (rp_other _ (proj1 Hs)). intros (v & -> & _)%list_elem_of_fmap. by apply Hk. }
  assert (forall v, v ∈ P -> copies s !! (source, v.1.1) = Some (current source v)) as Hall by apply Hs.
  destruct (OnHeartbeat_run env2 device hb s Hkey online) as [_ Hcases]; [by rewrite Hid|].
  fold o in Hcases. rewrite Hid, Hdig in Hcases. rewrite (replayed_fresh_values s HP Hs) in Hcases.
  destruct Hcases as [(Hd & Hc & He)|[(Hd & Hst & _ & Hc & He)|(Hd & Hst & _ & _)]].
  - rewrite He, Hc. specialize (Hcol Hd). split; [done|]. split.
    + intros k Hk. rewrite lookup_fmap, <- Hother by done. destruct (copies s !! k) as [r|] eqn:Hr; [|done]. simpl. f_equal.
      unfold with_staleness. rewrite bool_decide_eq_false_2; [done|].
      apply copies_lookup in Hr as [_ <-]; [|done]. done.
    + intros t r. rewrite lookup_fmap, fmap_Some. split.
      * intros (x & Hx & ->). assert (remote_value x ∈ P) as Hin.
        { rewrite <- Hcol. apply source_values_elem; [done|]. exists x. split; [|done].
          apply copies_lookup in Hx as Hx'; [|done]. destruct Hx' as [_ [= _ Ht]]. simpl. by rewrite Ht. }
        pose proof (Hall _ Hin) as Hx'. exists (remote_value x). split; [done|].
        apply copies_lookup in Hx as Hk; [|done]. destruct Hk as [_ [= _ Ht]]. split; [done|]. simpl in Hx'. rewrite Ht, Hx in Hx'.
        injection Hx' as ->. unfold with_staleness. simpl. by rewrite bool_decide_eq_true_2.
      * intros (v & Hv & <- & ->). exists (current source v). split; [by apply Hall|].
        unfold with_staleness. simpl. by rewrite bool_decide_eq_true_2.
  - rewrite He, Hc. split; [done|]. split.
    + intros k Hk. rewrite <- Hother by done. apply option_eq. intros r. rewrite map_lookup_filter_Some. simpl.
      split; [by intros [? _]|]. intros Hr. split; [done|]. intros [Hsrc _].
      apply copies_lookup in Hr as [_ <-]; [|done]. by apply Hk.
    + intros t r. rewrite map_lookup_filter_Some. simpl. split.
      * intros [Hr Hn]. apply (proj1 (replayed_fresh s t r Hs Hr)).
        destruct (rr_is_stale r) eqn:Er; [|done]. destruct Hn. split; [|done].
        apply copies_lookup in Hr as [_ [= -> _]]; [|done]. done.
      * intros (v & Hv & <- & ->). split; [by apply Hall|]. by intros [_ ?].
  - exfalso.
    apply Hd. f_equal. apply sorted_values_eq; [by apply source_sorted|done|]. intros v.
    rewrite source_values_elem by done. split.
    + intros (r & Hr & <-). apply (replayed_fresh s _ r Hs Hr). destruct (rr_is_stale r) eqn:Er; [|done].
      destruct Hst; [by eexists _, r|done].
    + intros Hv. exists (current source v). split; [by apply Hall|by destruct v as [[]]].
Qed.
End replay.

Section theorem.
Context `{CdmpConfig} `{Crc8} `{N : NetworkInfo} (env env2 sender_env : Env) (device sender : CdmpDevice).

Lemma value_frame_inj source v w : value_frame source v = value_frame source w -> v = w.
Proof. destruct v as [[t x] d], w as [[t' x'] d']. intros [= -> -> ->]. done. Qed.

Lemma frames_values source (P : list (Z * Z * list Z)) (frames : list (list Z)) :
  (forall f, f ∈ frames -> f ∈ value_frame source <$> P) ->
  exists l : list (Z * Z * list Z), frames = value_frame source <$> l /\ forall v, v ∈ l -> v ∈ P.
Proof.
  induction frames as [|f frames IH]; intros Hf; [by exists []; split; [|intros v Hv; apply elem_of_nil in Hv]|].
  destruct IH as (l & -> & Hl); [intros f' Hf'; apply Hf; by right|].
  destruct (proj1 (list_elem_of_fmap _ _ _) (Hf f (list_elem_of_here _ _))) as (v & -> & Hv).
  exists (v :: l). split; [done|]. intros w [->|Hw]%elem_of_cons; [done|by apply Hl].
Qed.

(** C18. A replay brings the copies of a source back in line with its records.  Let [frames] be the
    frames a started, ONLINE unit replays, in any order and any number of times but each at least once; let another ONLINE
    unit, in any reachable state, receive them while it takes the sender for stale (it restarted, its digest differed, or
    there is no copy yet) and has room; and let the sender's next heartbeat follow.  Then, unless the 8-bit
    digest confuses the copies with the records, the receiver holds exactly the sender's records, none of them stale, its copies
    of other units are untouched, and it asks for no further replay. *)
Theorem replay_restores_the_copies base1 l1 base l (frames : list (list Z)) hb :
  let source := device_id_ sender in
  let s1 := (run_state_steps l1 (NewStateService base1)).1 in
  let s := (run_state_steps l (NewStateService base)).1 in
  let records := published (local_records_ s1) in
  let s' := (run_state_steps ((fun f => mkStateStep env device N (StFrame f)) <$> frames) s).1 in
  let o := OnHeartbeat env2 device hb s' in
  Forall step_ok l1 -> is_started_ s1 = true -> IsOnline sender = true -> env_bus_valid sender_env = true ->
  (forall f, f ∈ frames <-> f ∈ (frames_sent (effects_of (ReplayRecords sender_env sender s1))).*2) ->
  IsOnline device = true -> source <> device_id_ device -> is_device_online source = true ->
  (forall t r, copies s !! (source, t) = Some r -> rr_is_stale r = true) ->
  is_overflowed source s = false -> (size (copies s) + length records <= MAX_REMOTE_RECORDS)%nat ->
  hb_device_id hb = source -> hb_state_digest hb = LocalDigest (local_records_ s1) ->
  (values_digest (source_values source s') = values_digest records -> source_values source s' = records) ->
  sync_requests (effects_of o) = [] /\
  (forall k, k.1 <> source -> copies (state_of o) !! k = copies s !! k) /\
  (forall t r, copies (state_of o) !! (source, t) = Some r <-> exists v, v ∈ records /\ v.1.1 = t /\ r = current source v).
Proof.
  intros source s1 s records s' o Hok Hst Hson Hsbus Hframes Hon Hother Hknown Hstale Hover Hroom Hid Hdig Hcol.
  pose proof (run_local_wf base1 l1 Hok) as Hwf1. fold s1 in Hwf1.
  pose proof (run_remote_wf base l) as Hwf. fold s in Hwf.
  rewrite ReplayRecords_frames in Hframes by done. fold source in Hframes. fold records in Hframes.
  assert (NoDup ((fun v : Z * Z * list Z => v.1.1) <$> records)) as HP1.
  { pose proof (published_keys_NoDup s1 Hwf1) as Hk. by rewrite <- list_fmap_compose in Hk. }
  assert (Forall (fun v : Z * Z * list Z => v.1.1 <> 0 /\ v.2 <> [] /\ (length v.2 <= STATE_DATA_MAX_SIZE)%nat) records) as HP2.
  { apply Forall_fmap, Forall_forall. intros r [Hw Hr]%list_elem_of_filter.
    pose proof (lw_records _ Hwf1) as Hrec. rewrite Forall_forall in Hrec. destruct (Hrec r Hr) as (? & Hd & ?).
    unfold compose, record_value. cbn [fst snd]. rewrite Hw in Hd. split_and!; [lia|naive_solver|done]. }
  destruct (frames_values source records frames) as (vs & -> & Hvs); [intros f Hf; by apply Hframes|].
  destruct (replay_all env device source records HP1 HP2 Hon Hother Hknown s Hstale Hroom vs s) as [Hrep Hall]; [|done|].
  { split; [done|done|done|]. intros v _. by right. }
  change (run_state_steps (frame_step env device <$> (value_frame source <$> vs)) s).1 with s' in Hrep, Hall.
  rewrite LocalDigest_values in Hdig. fold records in Hdig.
  apply (replayed_heartbeat env device source records HP1 HP2 Hon Hother Hknown s Hstale Hroom); [by apply published_sorted| | |done..].
  - split; [done|]. intros v Hv. apply Hall; [done|]. left.
    assert (value_frame source v ∈ value_frame source <$> vs) as Hin by (apply Hframes; by apply list_elem_of_fmap_2).
    apply list_elem_of_fmap in Hin as (w & Hw & Hin). by rewrite (value_frame_inj _ _ _ Hw).
  - unfold is_overflowed, FindSourceState in *. by rewrite (rp_sources _ _ _ _ Hrep).
Qed.
End theorem.

(** ** Reading the copies *)

Section reading.
Context `{CdmpConfig} `{Crc8}.

Lemma CopyRemoteStates_spec t capacity l :
  CopyRemoteStates t capacity l = take capacity (ToRemoteState <$> filter (fun r => rr_state_type r = t) l).
Proof.
  revert capacity. induction l as [|r l IH]; intros [|n]; try done. cbn [CopyRemoteStates].
  rewrite filter_cons. case_bool_decide as Ht.
  - rewrite decide_True by done. rewrite fmap_cons. cbn [take]. by rewrite IH.
  - rewrite decide_False by done. apply IH.
Qed.

(** [GetRemoteStates] answers from the copies of the type it is asked for: in ascending order of the
    device IDs, at most as many as the span takes, each with the newest data and its staleness; and whatever
    it leaves out has a higher device ID than everything it returns, with the span full. *)
Theorem remote_states_are_those_of_the_lowest_ids base l t capacity :
  let s := (run_state_steps l (NewStateService base)).1 in
  let states := GetRemoteStates t capacity s in
  StronglySorted (fun a b => rs_device_id a < rs_device_id b) states /\ (length states <= capacity)%nat /\
  (forall x, x ∈ states -> exists r, copies s !! (rs_device_id x, t) = Some r /\ x = ToRemoteState r) /\
  (forall source r, copies s !! (source, t) = Some r -> ToRemoteState r ∉ states ->
     length states = capacity /\ forall x, x ∈ states -> rs_device_id x < source).
Proof.
  intros s states. pose proof (run_remote_wf base l) as Hwf. fold s in Hwf. pose proof (rw_sorted _ Hwf) as Hs.
  unfold states, GetRemoteStates. clear states. rewrite CopyRemoteStates_spec.
  set (l' := filter (fun r => rr_state_type r = t) (remote_records_ s)).
  assert (StronglySorted (fun a b => rs_device_id a < rs_device_id b) (ToRemoteState <$> l')) as Hsort.
  { assert (by_key l') as Hl' by (eapply StronglySorted_sublist; [apply sublist_filter|done]).
    assert (Forall (fun r => rr_state_type r = t) l') as Ht by (apply Forall_forall; by intros r [? _]%list_elem_of_filter).
    clearbody l'. induction Hl' as [|r l' Hl' IH Hr]; [constructor|]. rewrite fmap_cons. apply Forall_cons in Ht as [Hrt Ht].
    constructor; [by apply IH|]. apply Forall_fmap. rewrite Forall_forall in Hr, Ht |- *. intros x Hx.
    specialize (Hr x Hx). specialize (Ht x Hx). unfold key_lt, remote_key, compose in *. simpl in *. lia. }
  assert (forall r, r ∈ l' <-> copies s !! (rr_source r, t) = Some r) as Hin.
  { intros r. unfold l'. rewrite list_elem_of_filter, copies_lookup by done. unfold remote_key. naive_solver. }
  rewrite <- (take_drop capacity (ToRemoteState <$> l')) in Hsort.
  split_and!.
  - eapply StronglySorted_sublist; [|exact Hsort]. by apply sublist_inserts_r.
  - rewrite length_take. lia.
  - intros x Hx. assert (x ∈ ToRemoteState <$> l') as (r & -> & Hr)%list_elem_of_fmap
      by (rewrite <- (take_drop capacity); apply elem_of_app; by left).
    exists r. split; [by apply Hin|done].
  - intros source r Hr Hn. assert (rr_source r = source) as <- by (apply copies_lookup in Hr as [_ [= -> _]]; done).
    apply Hin in Hr. assert (ToRemoteState r ∈ drop capacity (ToRemoteState <$> l')) as Hd.
    { apply (list_elem_of_fmap_2 ToRemoteState) in Hr. rewrite <- (take_drop capacity) in Hr.
      apply elem_of_app in Hr as [?|?]; [done|done]. }
    split.
    + rewrite length_take. apply list_elem_of_lookup in Hd as [i Hi]. rewrite lookup_drop in Hi.
      apply lookup_lt_Some in Hi. lia.
    + intros x Hx. change (rr_source r) with (rs_device_id (ToRemoteState r)).
      clear - Hsort Hx Hd. induction (take capacity _) as [|y l1 IH]; [by apply elem_of_nil in Hx|].
      apply StronglySorted_inv in Hsort as [Hsort Hy]. apply elem_of_cons in Hx as [->|Hx]; [|by apply IH].
      rewrite Forall_app, !Forall_forall in Hy. by apply Hy.
Qed.
End reading.

(** ** Samples *)

#[local] Existing Instance default_config.
#[local] Existing Instance sample_crc.

(** A sender with two records, and a receiver with a stale copy of a third one and a copy of another unit's. *)
Definition sample_sender : list StateStep :=
  sample_step <$> [StInitialize; StStart (fun _ => 1); StSetLocal 1 [7]; StSetLocal 2 [8; 9]].
Definition sample_receiver : list StateStep :=
  sample_step <$> [StFrame [2; 9; 3; 5]; StFrame [3; 4; 1; 6]; StDeviceEvent RESTARTED (online_info 2)].
Definition sample_frames : list (list Z) := [[2; 2; 2; 8; 9]; [2; 1; 1; 7]; [2; 2; 2; 8; 9]].

Lemma sample_sender_ok : Forall step_ok sample_sender.
Proof. repeat (apply Forall_cons; split; [exact I || (split; [discriminate|reflexivity])|]). constructor. Qed.

(** The receiver, with a handler for the type that changes and one for another type, both told before. *)
Definition listening_receiver : StateService :=
  (run_state_steps (sample_receiver ++ (sample_step <$> [StRegister 3 71; StRegister 4 72; StNotify])) (NewStateService 1792)).1.

Lemma copies_hold_the_newest_value_witness :
  let o := @ProcessStateChangeFrame default_config (sample_network [1; 2; 3]) (mkEnv 0 true) (online_device 1) [2; 1; 3; 6] listening_receiver in
  copies (state_of o) !! (2, 3) = Some (mkRemote 2 3 1 false [6]) /\
  CallStateHandler 71 3 ∈ effects_of (NotifyStateHandlers (state_of o)) /\
  CallStateHandler 72 4 ∉ effects_of (NotifyStateHandlers (state_of o)).
Proof.
  pose proof (@copies_hold_the_newest_value default_config sample_crc (sample_network [1; 2; 3]) (mkEnv 0 true) (online_device 1)
    1792 (sample_receiver ++ (sample_step <$> [StRegister 3 71; StRegister 4 72; StNotify]))
    [2; 1; 3; 6] (mkStateChange 2 1 3 [6]) eq_refl) as Hn.
  destruct Hn as (_ & E & _ & _ & Hcalls); [split_and!; [reflexivity|discriminate|discriminate|reflexivity]|].
  cbv zeta. split; [|split].
  - refine (eq_trans (f_equal (fun c => c !! (2, 3)) E) _). vm_compute. reflexivity.
  - apply Hcalls. eexists 0, _. split; [vm_compute; reflexivity|]. split; [reflexivity|]. split; [reflexivity|]. right. right.
    split; [reflexivity|]. vm_compute. discriminate.
  - intros Hin. apply Hcalls in Hin as (id & x & Hx & _ & Ht & Hor).
    assert (map_Forall (fun _ x => sh_is_first_call_pending x = false) (state_handlers_ listening_receiver)) as Hall
      by (apply (bool_decide_eq_true_1 _); vm_compute; reflexivity).
    assert (4 ∉ changed_types_ listening_receiver) as Hch by (apply (bool_decide_eq_true_1 _); vm_compute; reflexivity).
    destruct Hor as [Hor|[Hor|[Hor _]]]; [by rewrite (Hall _ _ Hx) in Hor|by apply Hch|discriminate Hor].
Defined.

Definition sample_digest : Z := LocalDigest (local_records_ (run_state_steps sample_sender (NewStateService 1792)).1).

Lemma replay_restores_the_copies_witness :
  let s := (run_state_steps sample_receiver (NewStateService 1792)).1 in
  let s' := (run_state_steps ((fun f => sample_step (StFrame f)) <$> sample_frames) s).1 in
  let o := OnHeartbeat (mkEnv 0 true) (online_device 1) (mkHeartbeat 2 0 0 0 sample_digest) s' in
  copies s !! (2, 3) = Some (mkRemote 2 3 9 true [5]) /\
  copies (state_of o) !! (2, 3) = None /\ copies (state_of o) !! (2, 1) = Some (mkRemote 2 1 1 false [7]) /\
  copies (state_of o) !! (3, 1) = Some (mkRemote 3 1 4 false [6]).
Proof.
  cbv zeta. split; [vm_compute; reflexivity|].
  pose proof (@replay_restores_the_copies default_config sample_crc (sample_network [1; 2; 3]) (mkEnv 0 true) (mkEnv 0 true)
    (mkEnv 0 true) (online_device 1) (online_device 2) 1792 sample_sender 1792 sample_receiver sample_frames
    (mkHeartbeat 2 0 0 0 sample_digest) sample_sender_ok) as Hr.
  destruct Hr as (_ & Hother & Hcopies).
  - vm_compute. reflexivity.
  - reflexivity.
  - reflexivity.
  - intros f. match goal with |- _ <-> f ∈ ?l => replace l with [[2; 1; 1; 7]; [2; 2; 2; 8; 9]] by (vm_compute; reflexivity) end.
    unfold sample_frames. set_solver.
  - reflexivity.
  - discriminate.
  - reflexivity.
  - intros t r Hr.
    assert (map_Forall (fun (k : Z * Z) r => k.1 = 2 -> rr_is_stale r = true)
      (copies (run_state_steps sample_receiver (NewStateService 1792)).1)) as Hall
      by (apply (bool_decide_eq_true_1 _); vm_compute; reflexivity).
    exact (Hall _ _ Hr eq_refl).
  - vm_compute. reflexivity.
  - apply (bool_decide_eq_true_1 _). vm_compute. reflexivity.
  - reflexivity.
  - reflexivity.
  - intros E. vm_compute in E. discriminate E.
  - split_and!.
    + apply eq_None_not_Some. intros [r Hr]. apply Hcopies in Hr as (v & Hv & Ht & _).
      assert (Forall (fun v : Z * Z * list Z => v.1.1 <> 3) (published (local_records_ (run_state_steps sample_sender (NewStateService 1792)).1)))
        as Hall by (apply (bool_decide_eq_true_1 _); vm_compute; reflexivity).
      rewrite Forall_forall in Hall. by apply (Hall v).
    + apply Hcopies. exists (1, 1, [7]). split; [|done]. apply (list_elem_of_lookup_2 _ 0). vm_compute. reflexivity.
    + etrans; [apply Hother; discriminate|]. vm_compute. reflexivity.
Defined.
