(* ===== verification/CdmpHeartbeat.v ===== *)
(** * CDMP heartbeat service

    [src/src/subsys/cdmp/services/cdmp_heartbeat_service.*]: the periodic heartbeat of this unit, and the
    heartbeats of the others, which it hands to the network service.  Diagnostics only log and are left out. *)

From S2P Require Import Prelude Can Cdmp CdmpMessages CdmpEffects Service CdmpNetwork CdmpNetworkSpec CdmpNetworkEvents CdmpNetworkTable.

Record HeartbeatService := mkHeartbeatService {
  hb_base_can_id_ : Z;
  hb_service_state_ : ServiceState;
  heartbeat_task_ : bool;
  is_heartbeat_task_running_ : bool;
  hb_canbus_handler_id_ : Z;
  heartbeat_sequence_number_ : Z;
  heartbeat_enabled_ : bool;
}.
#[export] Instance HeartbeatService_eta : Eta HeartbeatService := fun s =>
  mkHeartbeatService (hb_base_can_id_ s) (hb_service_state_ s) (heartbeat_task_ s) (is_heartbeat_task_running_ s)
    (hb_canbus_handler_id_ s) (heartbeat_sequence_number_ s) (heartbeat_enabled_ s).

Definition NewHeartbeatService (base : Z) : HeartbeatService := mkHeartbeatService base STOPPED false false (-1) 0 true.

Abbreviation HM := (M HeartbeatService Effect).

Section heartbeat.
Context (env : Env) (device : CdmpDevice).
#[local] Abbreviation bus_valid := (env_bus_valid env).

Definition StartHeartbeatTask : HM unit :=
  s ← get;
  when (heartbeat_enabled_ s && negb (is_heartbeat_task_running_ s) && heartbeat_task_ s
        && bool_decide (GetStatus device = ONLINE))
    (emit (Schedule HeartbeatTask 0) ;; modify (fun s => s <| is_heartbeat_task_running_ := true |>)).

Definition HeartbeatRegisterCanHandlers (register : CanFilter -> Z) : HM unit :=
  if negb bus_valid then mret tt
  else
    s ← get;
    RegisterReceiveHandler register (hb_base_can_id_ s) (GetHeartbeatCanId (hb_base_can_id_ s)) ≫= fun i : Z =>
    modify (fun s => s <| hb_canbus_handler_id_ := i |>) ;;
    when (bool_decide (i < 0)) (throw (RuntimeError "Failed to register CAN frame handler for frame ID")).

Definition HeartbeatUnregisterCanHandlers : HM unit :=
  when bus_valid
    (s ← get;
     when (bool_decide (0 <= hb_canbus_handler_id_ s)) (emit (RemoveFrameHandler (hb_canbus_handler_id_ s))) ;;
     modify (fun s => s <| hb_canbus_handler_id_ := -1 |>)).

Definition HeartbeatDoInitialize : HM bool := modify (fun s => s <| heartbeat_task_ := true |>) ;; mret true.

Definition HeartbeatDoStart (register : CanFilter -> Z) : HM bool :=
  HeartbeatRegisterCanHandlers register ;; StartHeartbeatTask ;; mret true.

Definition HeartbeatDoStop : HM bool :=
  modify (fun s => s <| is_heartbeat_task_running_ := false |>) ;;
  s ← get;
  when (heartbeat_task_ s) (emit (CancelTask HeartbeatTask)) ;;
  HeartbeatUnregisterCanHandlers ;;
  mret true.

Definition HeartbeatWorkOf (register : CanFilter -> Z) : ServiceWork HeartbeatService Effect :=
  {| sw_state := hb_service_state_; sw_set_state := fun st s => s <| hb_service_state_ := st |>;
     sw_is_pausable := false; sw_initialize := HeartbeatDoInitialize; sw_start := HeartbeatDoStart register;
     sw_stop := HeartbeatDoStop; sw_pause := mret true; sw_resume := mret true |}.

Definition HeartbeatStop : HM bool := Stop (HeartbeatWorkOf (fun _ => 0)).

Definition HeartbeatOnDeviceStatusChanged (new_status : CdmpDeviceStatus) : HM unit :=
  match new_status with
  | ONLINE => StartHeartbeatTask
  | OFFLINE | VERSION_MISMATCH | ERROR => HeartbeatStop ;; mret tt
  | _ => mret tt
  end.

(** [ProcessFrame]: the decoded heartbeat goes to [UpdateDeviceFromHeartbeat] of the network service. *)
Definition HeartbeatProcessFrame (frame_data : list Z) : HM unit :=
  try_log (lift (Heartbeat_FromCanFrame frame_data) ≫= fun heartbeat : CdmpHeartbeatMessage =>
           emit (HeartbeatReceived heartbeat)).

Definition HeartbeatMessage (s : HeartbeatService) : CdmpHeartbeatMessage :=
  mkHeartbeat (device_id_ device) (health_status_ device) (heartbeat_sequence_number_ s) (features_ device)
    (state_digest_ device).

Definition SendHeartbeat : HM unit :=
  s ← get;
  when (bus_valid && heartbeat_enabled_ s)
    (emit (SendFrame (GetHeartbeatCanId (hb_base_can_id_ s)) (Heartbeat_ToCanFrame (HeartbeatMessage s))) ;;
     modify (fun s => s <| heartbeat_sequence_number_ ::= fun n => u8 (n + 1) |>)).

Definition SetHeartbeatEnabled (enabled : bool) : HM unit := modify (fun s => s <| heartbeat_enabled_ := enabled |>).

Definition ProcessPeriodicHeartbeat : HM TaskResult :=
  s ← get;
  if negb (heartbeat_enabled_ s) then mret None
  else
    SendHeartbeat ;;
    s ← get;
    mret (if heartbeat_enabled_ s then Some (HEARTBEAT_INTERVAL_MS + staggered_message_delay_ device) else None).
End heartbeat.

(** ** The period *)

Section period.
Context `{UnorderedIter}.

Lemma ProcessPeriodicHeartbeat_run env device s :
  heartbeat_enabled_ s = true -> env_bus_valid env = true ->
  ProcessPeriodicHeartbeat env device s =
    (s <| heartbeat_sequence_number_ ::= fun n => u8 (n + 1) |>,
     [SendFrame (GetHeartbeatCanId (hb_base_can_id_ s)) (Heartbeat_ToCanFrame (HeartbeatMessage device s))],
     Ok (Some (HEARTBEAT_INTERVAL_MS + staggered_message_delay_ device))).
Proof.
  intros He Hb. unfold ProcessPeriodicHeartbeat, SendHeartbeat. rewrite bind_get, He. cbn [negb].
  rewrite bind_assoc, bind_get, Hb, He. cbn [andb when]. rewrite bind_assoc, bind_emit, bind_modify, bind_get. simpl.
  by rewrite He.
Qed.

(** The heartbeat task from time [t], each pass at the delay the one before asked for: the frames with the
    times they are sent at. *)
Fixpoint heartbeats (n : nat) (device : CdmpDevice) (t : Z) (s : HeartbeatService) : list (Z * list Z) :=
  match n with
  | O => []
  | S n =>
      match ProcessPeriodicHeartbeat (mkEnv t true) device s with
      | (s', e, Ok (Some d)) => ((fun f : list Z => (t, f)) <$> (frames_sent e).*2) ++ heartbeats n device (t + d) s'
      | (_, e, _) => (fun f : list Z => (t, f)) <$> (frames_sent e).*2
      end
  end.

Definition period (device : CdmpDevice) : Z := HEARTBEAT_INTERVAL_MS + staggered_message_delay_ device.

Lemma heartbeats_lookup n device t s k :
  heartbeat_enabled_ s = true -> is_u8 (heartbeat_sequence_number_ s) -> (k < n)%nat ->
  heartbeats n device t s !! k =
    Some (t + Z.of_nat k * period device,
          Heartbeat_ToCanFrame (HeartbeatMessage device
            (s <| heartbeat_sequence_number_ ::= fun i => u8 (i + Z.of_nat k) |>))).
Proof.
  revert t s k. induction n as [|n IH]; intros t s k He Hs Hk; [lia|]. cbn [heartbeats].
  rewrite ProcessPeriodicHeartbeat_run by done. cbn [frames_sent omap list_omap fmap list_fmap snd app].
  destruct k as [|k].
  - simpl. do 2 f_equal; [lia|]. f_equal. unfold HeartbeatMessage. simpl. by rewrite Z.add_0_r, u8_id.
  - etransitivity; [apply (IH _ _ k); [done|apply u8_range|lia]|]. do 2 f_equal; [unfold period; lia|]. f_equal. unfold HeartbeatMessage. simpl. f_equal.
    unfold u8. rewrite Zplus_mod_idemp_l. f_equal. lia.
Qed.

(** What the receiver does with one frame: the heartbeat service decodes it and hands it to the network
    service, whose exceptions it logs. *)
Definition heartbeats_received (l : list Effect) : list CdmpHeartbeatMessage :=
  omap (fun e => match e with HeartbeatReceived hb => Some hb | _ => None end) l.
Definition ReceiveHeartbeat (env : Env) (receiver : HeartbeatService) (frame : list Z) : NM unit :=
  for_each (heartbeats_received (effects_of (HeartbeatProcessFrame frame receiver)))
    (fun heartbeat => try_log (UpdateDeviceFromHeartbeat env heartbeat)).

Lemma ReceiveHeartbeat_run env receiver m r :
  heartbeat_wf m ->
  ReceiveHeartbeat env receiver (Heartbeat_ToCanFrame m) r = try_log (UpdateDeviceFromHeartbeat env m) r.
Proof.
  intros Hm. unfold ReceiveHeartbeat, HeartbeatProcessFrame. rewrite (codec_roundtrip m Hm).
  apply (bind_ret_tt (try_log (UpdateDeviceFromHeartbeat env m))).
Qed.

Lemma heartbeat_touches env hb s d :
  IsPeerDeviceId s (hb_device_id hb) = true -> network_devices_ s !! hb_device_id hb = Some d ->
  network_devices_ (state_of (try_log (UpdateDeviceFromHeartbeat env hb) s)) !! hb_device_id hb
    = Some (touched env (hb_features hb) d).
Proof.
  intros Hp Hd. unfold try_log, UpdateDeviceFromHeartbeat. rewrite bind_get, Hp. cbn [negb].
  erewrite bind_ok by apply FindPendingIdClaim_run. rewrite prepend_nil, bind_get.
  destruct (claim_slot _ _ ≫= _) as [[i c]|].
  - erewrite bind_ok by (by apply AddOrUpdateDevice_known). rewrite prepend_nil, bind_ret.
    unfold ClearClaim. rewrite bind_modify, bind_ret. simpl. by rewrite lookup_insert_eq.
  - change (network_devices_ (expired env s)) with (network_devices_ s). rewrite Hd.
    erewrite bind_ok by (by apply AddOrUpdateDevice_known). rewrite prepend_nil. simpl. by rewrite lookup_insert_eq.
Qed.

Lemma heartbeat_validating env hb s :
  is_validation_task_running_ (state_of (try_log (UpdateDeviceFromHeartbeat env hb) s)) = is_validation_task_running_ s.
Proof.
  assert (TraceRel (fun s (_ : list Effect) s' => is_validation_task_running_ s' = is_validation_task_running_ s)) by (split; congruence).
  assert (forall id uid f, respects (fun s (_ : list Effect) s' => is_validation_task_running_ s' = is_validation_task_running_ s)
    (AddOrUpdateDevice env id uid f)) as Ha.
  { intros id uid f s'. destruct (network_devices_ s' !! id) as [d|] eqn:E; [by erewrite AddOrUpdateDevice_known|].
    destruct (decide (uid = 0)) as [->|]; [by rewrite AddOrUpdateDevice_zero|by rewrite AddOrUpdateDevice_new]. }
  enough (respects (fun s (_ : list Effect) s' => is_validation_task_running_ s' = is_validation_task_running_ s)
    (try_log (UpdateDeviceFromHeartbeat env hb))) as Hr by apply Hr.
  apply respects_try. unfold UpdateDeviceFromHeartbeat, FindPendingIdClaim, ExpirePendingIdClaims, DeviceInfoAt, ClearClaim,
    RequestRediscovery, SendDiscoveryRequest. respect; done.
Qed.

Lemma touched_delta t features d now :
  t <= now < t + 18446744073709551616 -> GetLastHeartbeatDeltaMs now (touched (mkEnv t true) features d) = now - t.
Proof.
  intros Hn. unfold GetLastHeartbeatDeltaMs, touched, GoOnline, DeviceSetStatus, UpdateHeartbeat.
  destruct (SetStatus _ _ _) as [[m c] b]. simpl. apply Z.mod_small. lia.
Qed.

Lemma offline_iff env s id :
  id ∈ OfflineDevices env s <-> exists d, network_devices_ s !! id = Some d /\ timed_out env d.
Proof.
  rewrite OfflineDevices_filter, list_elem_of_fmap. split.
  - intros ([j d] & -> & [Ht Hd%elem_of_uiter]%list_elem_of_filter). by exists d.
  - intros (d & Hd & Ht). exists (id, d). split; [done|]. by rewrite list_elem_of_filter, elem_of_uiter.
Qed.
End period.

(** ** When a silent unit leaves *)

(** The validation task of the network service from time [t]: [n] passes, each at the delay the one before asked for. *)
Fixpoint validation_passes `{UnorderedIter} (n : nat) (t : Z) (s : NetworkService) : NetworkService * list Effect :=
  match n with
  | O => (s, [])
  | S n =>
      match ProcessPeriodicValidation (mkEnv t true) s with
      | (s', e, Ok (Some d)) => let '(s'', e') := validation_passes n (t + d) s' in (s'', e ++ e')
      | (s', e, _) => (s', e)
      end
  end.

Section leaving.
Context `{UnorderedIter}.

Definition keeps_validating (s : NetworkService) (_ : list Effect) (s' : NetworkService) : Prop :=
  is_validation_task_running_ s' = is_validation_task_running_ s.
#[local] Instance keeps_validating_trace : TraceRel keeps_validating.
Proof. split; unfold keeps_validating; congruence. Qed.

Lemma RemoveOfflineDevices_validating env : respects keeps_validating (RemoveOfflineDevices env).
Proof.
  assert (forall id, respects keeps_validating (RemoveDevice id)) as Hr.
  { intros id s. destruct (network_devices_ s !! id) as [d|] eqn:E; [by erewrite RemoveDevice_present|by rewrite RemoveDevice_absent]. }
  unfold RemoveOfflineDevices. respect.
Qed.

(** A pass, on one device of the table. *)
Lemma ProcessPeriodicValidation_pass env s id d :
  is_validation_task_running_ s = true -> network_devices_ s !! id = Some d ->
  exists s' e, ProcessPeriodicValidation env s = (s', e, Ok (Some NETWORK_VALIDATION_INTERVAL_MS)) /\
    is_validation_task_running_ s' = true /\
    (timed_out env d -> network_devices_ s' !! id = None /\ (LEFT, ToDeviceInfo d) ∈ device_events e) /\
    (~ timed_out env d -> exists d', network_devices_ s' !! id = Some d' /\ core d' = core d).
Proof.
  intros Hrun Hd. destruct (offline_devices_leave env s) as (Hok & Hc & Hp).
  pose proof (RemoveOfflineDevices_validating env s) as Hv.
  destruct (RemoveOfflineDevices env s) as [[s1 e] r] eqn:E. unfold keeps_validating, result_of, state_of, effects_of in *.
  cbn [fst snd] in *. subst r. exists (refreshed s1), e. split_and!.
  - unfold ProcessPeriodicValidation, ProcessPeriodicTasks. rewrite bind_get, Hrun. cbn [negb]. rewrite bind_assoc.
    erewrite bind_ok by exact E. erewrite bind_ok by apply UpdateNetworkDevices_run. rewrite prepend_nil, bind_get.
    change (is_validation_task_running_ (refreshed s1)) with (is_validation_task_running_ s1). rewrite Hv, Hrun.
    unfold prepend. simpl. by rewrite app_nil_r.
  - change (is_validation_task_running_ s1 = true). congruence.
  - intros Ht. split.
    + destruct (network_devices_ (refreshed s1) !! id) as [d'|] eqn:E'; [|done]. exfalso.
      apply core_table_lookup in E'. rewrite core_table_refreshed, Hc in E'.
      apply map_lookup_filter_Some in E' as [E' Hn]. rewrite (core_table_lookup s id d Hd) in E'. apply (inj Some) in E'.
      apply Hn. rewrite <- E'. exact Ht.
    + rewrite Hp. apply list_elem_of_fmap. exists (id, d). split; [done|].
      by apply elem_of_map_to_list, map_lookup_filter_Some.
  - intros Ht. assert (core_table (refreshed s1) !! id = Some (core d)) as E'.
    { rewrite core_table_refreshed, Hc. apply map_lookup_filter_Some. split; [by apply core_table_lookup|exact Ht]. }
    unfold core_table in E'. rewrite lookup_fmap in E'. apply fmap_Some in E' as (d' & Hd' & Hcd). by exists d'.
Qed.

(** A device that is not in the table does not come back by a pass. *)
Lemma validation_passes_absent n t s id :
  network_devices_ s !! id = None -> network_devices_ (validation_passes n t s).1 !! id = None.
Proof.
  revert t s. induction n as [|n IH]; intros t s Hn; [done|]. cbn [validation_passes].
  assert (network_devices_ (state_of (ProcessPeriodicValidation (mkEnv t true) s)) !! id = None) as Hs.
  { unfold ProcessPeriodicValidation, ProcessPeriodicTasks. rewrite bind_get. case_match; [done|].
    destruct (offline_devices_leave (mkEnv t true) s) as (Hok & Hc & _). rewrite bind_assoc.
    destruct (RemoveOfflineDevices _ s) as [[s1 e] r] eqn:E. unfold result_of, state_of in *. cbn [fst snd] in *. subst r.
    erewrite bind_ok by exact E. erewrite bind_ok by apply UpdateNetworkDevices_run. rewrite prepend_nil, bind_get. simpl.
    destruct (network_devices_ (refreshed s1) !! id) as [d'|] eqn:E'; [|done]. exfalso.
    apply core_table_lookup in E'. rewrite core_table_refreshed, Hc in E'. apply map_lookup_filter_Some in E' as [E' _].
    unfold core_table in E'. by rewrite lookup_fmap, Hn in E'. }
  destruct (ProcessPeriodicValidation _ s) as [[s' e] [[d|]|x|]]; unfold state_of in Hs; cbn [fst] in Hs; try done.
  specialize (IH (t + d) s' Hs). by destruct (validation_passes n (t + d) s').
Qed.

Lemma validation_passes_spec n t s id d :
  is_validation_task_running_ s = true -> network_devices_ s !! id = Some d ->
  let o := validation_passes n t s in
  (id ∈ known_ids o.1 <-> forall j, (j < n)%nat -> ~ timed_out (mkEnv (t + Z.of_nat j * NETWORK_VALIDATION_INTERVAL_MS) true) d) /\
  (id ∉ known_ids o.1 -> (LEFT, ToDeviceInfo d) ∈ device_events o.2).
Proof.
  revert t s d. induction n as [|n IH]; intros t s d Hrun Hd o.
  - assert (id ∈ known_ids o.1) as Hin by (by eapply elem_of_dom_2). split; [|done]. split; [intros _ j Hj; lia|done].
  - unfold o. clear o. cbn [validation_passes].
    destruct (ProcessPeriodicValidation_pass (mkEnv t true) s id d Hrun Hd) as (s' & e & -> & Hrun' & Hout & Hin).
    destruct (decide (timed_out (mkEnv t true) d)) as [Ht|Ht].
    + destruct (Hout Ht) as [Hn He]. pose proof (validation_passes_absent n (t + NETWORK_VALIDATION_INTERVAL_MS) s' id Hn) as Hno.
      destruct (validation_passes n _ s') as [s'' e']. cbn [fst snd] in *. split.
      * split; [by intros Hk; apply elem_of_dom in Hk as [? ?]; congruence|].
        intros Hj. exfalso. apply (Hj O); [lia|]. by rewrite Z.mul_0_l, Z.add_0_r.
      * intros _. rewrite device_events_app. apply elem_of_app. by left.
    + destruct (Hin Ht) as (d' & Hd' & Hcd). destruct (IH (t + NETWORK_VALIDATION_INTERVAL_MS) s' d' Hrun' Hd') as [Hk He].
      assert (ToDeviceInfo d' = ToDeviceInfo d) as Hi.
      { change (ToDeviceInfo d') with (ToDeviceInfo (core d')). by rewrite Hcd. }
      assert (forall env, timed_out env d' <-> timed_out env d) as Htd.
      { intros env. change (timed_out env d') with (timed_out env (core d')). by rewrite Hcd. }
      destruct (validation_passes n _ s') as [s'' e']. cbn [fst snd] in *. rewrite Hi in He. split.
      * rewrite Hk. setoid_rewrite Htd. split; intros Hj j Hjn.
        -- destruct j as [|j]; [by rewrite Z.mul_0_l, Z.add_0_r|].
           replace (t + Z.of_nat (S j) * _) with (t + NETWORK_VALIDATION_INTERVAL_MS + Z.of_nat j * NETWORK_VALIDATION_INTERVAL_MS) by lia.
           apply Hj. lia.
        -- replace (t + _ + Z.of_nat j * _) with (t + Z.of_nat (S j) * NETWORK_VALIDATION_INTERVAL_MS) by lia. apply Hj. lia.
      * intros Hno. rewrite device_events_app. apply elem_of_app. right. by apply He.
Qed.
End leaving.

(** The largest stagger: 253 units with lower IDs. *)
Definition MAX_STAGGER : Z := 253 * STAGGERED_MESSAGE_TIME_OFFSET_MS.

(** C28. How many heartbeats may be lost.  After heartbeat [k] of a unit in the table has arrived (decoded by the
    heartbeat service and handed to the network service) at [tk], and while no other arrives, the passes of the
    validation task, from whatever time [v] and however many, leave the unit in the table exactly as long as none of
    them comes more than the timeout after [tk]; the first later one removes it and tells LEFT.  So one lost heartbeat
    never removes a unit: the timeout ends at least 470 ms after heartbeat [k + 2] is sent, whatever the slot.  Two
    lost in a row are safe only for a unit in slot 0: for every other one the timeout ends before heartbeat [k + 3] is
    sent, because it does not count the stagger that every interval has on top. *)
Theorem heartbeat_loss_tolerance `{UnorderedIter} n device t s k tk t2 t3 frame f2 f3 receiver r d passes v :
  heartbeat_enabled_ s = true -> is_u8 (heartbeat_sequence_number_ s) ->
  0 <= staggered_message_delay_ device <= MAX_STAGGER ->
  is_u8 (health_status_ device) -> is_u16 (features_ device) -> is_u8 (state_digest_ device) ->
  is_u8 (device_id_ device) -> IsPeerDeviceId r (device_id_ device) = true ->
  network_devices_ r !! device_id_ device = Some d -> is_validation_task_running_ r = true -> (k + 3 < n)%nat ->
  heartbeats n device t s !! k = Some (tk, frame) ->
  heartbeats n device t s !! (k + 2)%nat = Some (t2, f2) ->
  heartbeats n device t s !! (k + 3)%nat = Some (t3, f3) ->
  tk <= v -> v + Z.of_nat passes * NETWORK_VALIDATION_INTERVAL_MS < tk + 18446744073709551616 ->
  let heard := state_of (ReceiveHeartbeat (mkEnv tk true) receiver frame r) in
  let o := validation_passes passes v heard in
  (device_id_ device ∈ known_ids o.1 <->
     forall j, (j < passes)%nat -> v + Z.of_nat j * NETWORK_VALIDATION_INTERVAL_MS <= tk + HEARTBEAT_TIMEOUT_MS) /\
  (device_id_ device ∉ known_ids o.1 -> exists info, info_device_id info = device_id_ d /\ (LEFT, info) ∈ device_events o.2) /\
  t2 + 470 <= tk + HEARTBEAT_TIMEOUT_MS /\
  (tk + HEARTBEAT_TIMEOUT_MS < t3 <-> 0 < staggered_message_delay_ device).
Proof.
  intros He Hs Hd Hh Hf Hg Hi Hp Hr Hrun Hn H0 H2 H3 Hv Hvn heard o.
  rewrite heartbeats_lookup in H0, H2, H3 by (done || lia). simplify_eq.
  set (tk := t + Z.of_nat k * period device) in *.
  assert (network_devices_ heard !! device_id_ device = Some (touched (mkEnv tk true) (features_ device) d)) as Ht.
  { unfold heard. rewrite ReceiveHeartbeat_run by (unfold heartbeat_wf; simpl; auto using u8_range).
    exact (heartbeat_touches _ (HeartbeatMessage device _) r d Hp Hr). }
  assert (is_validation_task_running_ heard = true) as Hrun'.
  { unfold heard. rewrite ReceiveHeartbeat_run by (unfold heartbeat_wf; simpl; auto using u8_range).
    rewrite (heartbeat_validating _ (HeartbeatMessage device _) r). exact Hrun. }
  destruct (validation_passes_spec passes v heard _ _ Hrun' Ht) as [Hk Hleft]. fold o in Hk, Hleft. split_and!.
  - rewrite Hk. unfold timed_out, HEARTBEAT_TIMEOUT_MS, NETWORK_VALIDATION_INTERVAL_MS in *. cbn [env_now].
    split; intros Hj j Hjn; specialize (Hj j Hjn); rewrite touched_delta in * by lia; lia.
  - intros Hno. eexists. split; [|by apply Hleft]. unfold touched, GoOnline, DeviceSetStatus. by destruct (SetStatus _ _ _) as [[? ?] ?].
  - unfold MAX_STAGGER, STAGGERED_MESSAGE_TIME_OFFSET_MS, tk, period, HEARTBEAT_TIMEOUT_MS, HEARTBEAT_INTERVAL_MS in *. lia.
  - unfold tk, period, HEARTBEAT_TIMEOUT_MS, HEARTBEAT_INTERVAL_MS in *. lia.
Qed.

Definition slot_two_device : CdmpDevice :=
  sample_device <| device_id_ := 2 |> <| uid_ := 300 |> <| staggered_message_delay_ := 5 |>.
Definition two_devices_validated : NetworkService := two_devices <| is_validation_task_running_ := true |>.
Definition third_heartbeat : list Z :=
  Heartbeat_ToCanFrame (HeartbeatMessage slot_two_device (NewHeartbeatService 1792 <| heartbeat_sequence_number_ := 1 |>)).
Definition heard_third : NetworkService :=
  state_of (@ReceiveHeartbeat some_iter (mkEnv 3105 true) (NewHeartbeatService 1792) third_heartbeat two_devices_validated).
(** Heard at 3105 ms and then silent: still there after the pass at 12000 ms, gone after the one at 17000 ms. *)
Lemma heartbeat_loss_tolerance_witness :
  2 ∈ known_ids (@validation_passes some_iter 2 7000 heard_third).1 /\
  2 ∉ known_ids (@validation_passes some_iter 3 7000 heard_third).1.
Proof.
  assert (forall passes, (passes <= 3)%nat ->
    device_id_ slot_two_device ∈ known_ids (@validation_passes some_iter passes 7000 heard_third).1 <->
    forall j, (j < passes)%nat -> 7000 + Z.of_nat j * NETWORK_VALIDATION_INTERVAL_MS <= 3105 + HEARTBEAT_TIMEOUT_MS) as Ht.
  { intros passes Hp.
    apply (@heartbeat_loss_tolerance some_iter 5 slot_two_device 100 (NewHeartbeatService 1792) 1 3105 9115 12120
      third_heartbeat
      (Heartbeat_ToCanFrame (HeartbeatMessage slot_two_device (NewHeartbeatService 1792 <| heartbeat_sequence_number_ := 3 |>)))
      (Heartbeat_ToCanFrame (HeartbeatMessage slot_two_device (NewHeartbeatService 1792 <| heartbeat_sequence_number_ := 4 |>)))
      (NewHeartbeatService 1792) two_devices_validated (sample_device <| device_id_ := 2 |> <| uid_ := 300 |>) passes 7000);
      solve [unfold NETWORK_VALIDATION_INTERVAL_MS; lia | vm_compute; reflexivity | vm_compute; split; [discriminate|reflexivity] | vm_compute; split; discriminate]. }
  change (device_id_ slot_two_device) with 2 in Ht.
  unfold NETWORK_VALIDATION_INTERVAL_MS, HEARTBEAT_TIMEOUT_MS, HEARTBEAT_INTERVAL_MS in Ht. split; rewrite Ht by lia.
  - intros j Hj. lia.
  - intros Hj. specialize (Hj 2%nat). lia.
Defined.
