(* ===== verification/CdmpCommand.v ===== *)
(** * CDMP command service

    [src/src/subsys/cdmp/services/cdmp_command_service.*]: requests to other units and the answers to
    theirs.  Handlers are tokens; what a handler answers is a parameter ([HandlerAnswers]), and a call of it
    is an effect.  The lock of the handler map is what makes a lookup one step. *)

From S2P Require Import Prelude Can Cdmp CdmpMessages CdmpEffects CdmpTransactions Service.

Record CommandService := mkCommandService {
  cmd_base_can_id_ : Z;
  cmd_service_state_ : ServiceState;
  cmd_canbus_handler_id_ : Z;
  canbus_response_handler_id_ : Z;
  transaction_service_ : TransactionService;
  command_handlers_ : gmap Z Z;
  service_command_handlers_ : gmap Z Z;
}.
#[export] Instance CommandService_eta : Eta CommandService := fun s =>
  mkCommandService (cmd_base_can_id_ s) (cmd_service_state_ s) (cmd_canbus_handler_id_ s)
    (canbus_response_handler_id_ s) (transaction_service_ s) (command_handlers_ s) (service_command_handlers_ s).

Definition NewCommandService (base : Z) : CommandService :=
  mkCommandService base STOPPED (-1) (-1) NewTransactionService ∅ ∅.

Abbreviation CmdM := (M CommandService Effect).

(** A method of the transaction service, run on the one this service owns. *)
Definition on_transactions {A} (m : TxM A) : CmdM A := fun s =>
  let '(t, e, r) := m (transaction_service_ s) in (s <| transaction_service_ := t |>, e, r).

(** What the registered handlers answer, or throw. *)
Class HandlerAnswers := {
  command_answer : Z -> Z -> list Z -> res CdmpCommandResult;
  service_answer : Z -> CdmpCommandRequestMessage -> res (option CdmpCommandResult);
}.

Definition IsValidServiceCommandCode (code : Z) : bool :=
  bool_decide (code = STATUS_REQUEST) || bool_decide (code = RESET_DEVICE) || bool_decide (code = STATE_SYNC_REQUEST).
Definition IsValidUserCommandCode (code : Z) : bool :=
  bool_decide (USER_COMMAND_CODE_MIN <= code) && bool_decide (code <= USER_COMMAND_CODE_MAX).

(** ** Handlers *)

Definition RegisterCommandHandler (code handler : Z) : CmdM unit :=
  if bool_decide (code = 0) then throw (RuntimeError "Command code 0 is not allowed")
  else modify (fun s => s <| command_handlers_ ::= <[code := handler]> |>).

Definition RegisterUserCommandHandler (code handler : Z) : CmdM unit :=
  if negb (IsValidUserCommandCode code) then throw (RuntimeError "Invalid user command code")
  else RegisterCommandHandler code handler.

Definition RegisterServiceCommandHandler (code handler : Z) : CmdM unit :=
  if negb (IsValidServiceCommandCode code) || bool_decide (code = STATUS_REQUEST)
  then throw (RuntimeError "Invalid service command code")
  else modify (fun s => s <| service_command_handlers_ ::= <[code := handler]> |>).

Definition UnregisterCommandHandler (code : Z) : CmdM unit :=
  modify (fun s => s <| command_handlers_ ::= delete code |>).
Definition UnregisterServiceCommandHandler (code : Z) : CmdM unit :=
  modify (fun s => s <| service_command_handlers_ ::= delete code |>).

Section command.
Context `{UnorderedIter} `{CdmpConfig} (env : Env) (device : CdmpDevice).
#[local] Abbreviation bus_valid := (env_bus_valid env).
#[local] Abbreviation own_id := (device_id_ device).

(** ** Life cycle *)

Definition CommandRegisterCanHandlers (register : CanFilter -> Z) : CmdM unit :=
  if negb bus_valid then mret tt
  else
    s ← get;
    RegisterReceiveHandler register (cmd_base_can_id_ s) (GetCommandRequestCanId (cmd_base_can_id_ s)) ≫= fun i : Z =>
    modify (fun s => s <| cmd_canbus_handler_id_ := i |>) ;;
    RegisterReceiveHandler register (cmd_base_can_id_ s) (GetCommandResponseCanId (cmd_base_can_id_ s)) ≫= fun j : Z =>
    modify (fun s => s <| canbus_response_handler_id_ := j |>).

Definition CommandUnregisterCanHandlers : CmdM unit :=
  when bus_valid
    (s ← get;
     when (bool_decide (0 <= cmd_canbus_handler_id_ s))
       (emit (RemoveFrameHandler (cmd_canbus_handler_id_ s)) ;;
        modify (fun s => s <| cmd_canbus_handler_id_ := -1 |>)) ;;
     when (bool_decide (0 <= canbus_response_handler_id_ s))
       (emit (RemoveFrameHandler (canbus_response_handler_id_ s)) ;;
        modify (fun s => s <| canbus_response_handler_id_ := -1 |>))).

Definition CommandDoInitialize : CmdM bool := on_transactions InitializeTransactions ;; mret true.
Definition CommandDoStart (register : CanFilter -> Z) : CmdM bool := CommandRegisterCanHandlers register ;; mret true.
Definition CommandDoStop : CmdM bool := CommandUnregisterCanHandlers ;; mret true.

Definition CommandWorkOf (register : CanFilter -> Z) : ServiceWork CommandService Effect :=
  {| sw_state := cmd_service_state_; sw_set_state := fun st s => s <| cmd_service_state_ := st |>;
     sw_is_pausable := false; sw_initialize := CommandDoInitialize; sw_start := CommandDoStart register;
     sw_stop := CommandDoStop; sw_pause := mret true; sw_resume := mret true |}.

Definition CommandOnDeviceStatusChanged (new_status : CdmpDeviceStatus) : CmdM unit :=
  if bool_decide (new_status = ONLINE) then on_transactions StartTransactionService
  else on_transactions StopTransactionService.

(** ** Answering

    What a handler returns comes from [HandlerAnswers]; what it does itself, the replay of the state service on a
    STATE_SYNC_REQUEST above all, follows its call when the call is delivered ([CdmpUnit.react]). *)

Definition SendCommandResponse (target_device_id : Z) (response : CdmpCommandResponseMessage) : CmdM unit :=
  if negb bus_valid then mret tt
  else
    s ← get;
    when (negb (bool_decide (target_device_id = own_id))) (emit (Sleep (staggered_message_delay_ device))) ;;
    emit (SendFrame (GetCommandResponseCanId (cmd_base_can_id_ s)) (CommandResponse_ToCanFrame response)).

Context `{HandlerAnswers}.

Definition NotifyCommandHandler (command : CdmpCommandRequestMessage) : CmdM (option CdmpCommandResult) :=
  s ← get;
  match command_handlers_ s !! creq_command_code command with
  | None => mret None
  | Some handler =>
      emit (CallCommandHandler handler (creq_transaction_id command) (creq_data command)) ;;
      result ← lift (command_answer handler (creq_transaction_id command) (creq_data command));
      mret (Some result)
  end.

Definition ResponseTo (command : CdmpCommandRequestMessage) (result_code : Z) (data : list Z) :
    CdmpCommandResponseMessage :=
  mkCommandResponse own_id (creq_command_code command) (creq_transaction_id command) result_code data.

Definition ProcessServiceRequestFrame (command : CdmpCommandRequestMessage) : CmdM unit :=
  if bool_decide (creq_command_code command = STATUS_REQUEST) then
    NotifyCommandHandler command ;;
    SendCommandResponse (creq_target_device_id command)
      (StatusResponse own_id (creq_transaction_id command) RESULT_SUCCESS (GetStatus device)
         (protocol_version_ device) (health_status_ device))
  else if bool_decide (GetStatus device = ONLINE) then
    s ← get;
    match service_command_handlers_ s !! creq_command_code command with
    | None => NotifyCommandHandler command ;; mret tt
    | Some handler =>
        emit (CallServiceCommandHandler handler command) ;;
        lift (service_answer handler command) ≫= fun result : option CdmpCommandResult =>
        match result with
        | None => mret tt
        | Some result =>
            if negb (bool_decide (creq_target_device_id command = own_id)) then mret tt
            else SendCommandResponse (creq_target_device_id command)
                   (ResponseTo command (cr_result_code result) (cr_data result))
        end
    end
  else mret tt.

Definition ProcessRequestFrame (frame_data : list Z) : CmdM unit :=
  try_log (
    lift (CommandRequest_FromCanFrame frame_data) ≫= fun command : CdmpCommandRequestMessage =>
    if negb (bool_decide (creq_target_device_id command = own_id))
       && negb (bool_decide (creq_target_device_id command = DEVICE_ID_BROADCAST)) then mret tt
    else if IsValidServiceCommandCode (creq_command_code command) then ProcessServiceRequestFrame command
    else if negb (bool_decide (GetStatus device = ONLINE)) then throw (RuntimeError "Device is not online")
    else if negb (IsValidUserCommandCode (creq_command_code command))
    then throw (RuntimeError "Invalid user command code")
    else
      NotifyCommandHandler command ≫= fun result : option CdmpCommandResult =>
      match result with
      | Some result =>
          SendCommandResponse (creq_target_device_id command)
            (ResponseTo command (cr_result_code result) (cr_data result))
      | None =>
          when (bool_decide (creq_target_device_id command = own_id))
            (SendCommandResponse (creq_target_device_id command) (ResponseTo command RESULT_UNSUPPORTED_COMMAND []))
      end).

(** ** Asking *)

Definition ProcessResponseFrame (frame_data : list Z) : CmdM unit :=
  try_log (lift (CommandResponse_FromCanFrame frame_data) ≫= fun response : CdmpCommandResponseMessage =>
           on_transactions (CompleteTransaction response)).

(** The transaction ID; 0 when nothing was sent. *)
Definition SendCommand (target_device_id command_code : Z) (data : list Z) (callback : option Z) : CmdM Z :=
  if negb bus_valid then mret 0
  else if bool_decide (command_code = 0) then mret 0
  else
    transaction_id ← on_transactions (StartTransaction (env_now env) target_device_id command_code
                                        CMD_TRANSACTION_TIMEOUT_MS callback);
    s ← get;
    emit (SendFrame (GetCommandRequestCanId (cmd_base_can_id_ s))
            (CommandRequest_ToCanFrame (mkCommandRequest target_device_id command_code transaction_id data))) ;;
    mret transaction_id.
End command.

(** ** Running the parts *)

Section runs.
Context `{UnorderedIter} `{CdmpConfig} `{HandlerAnswers}.
Implicit Types (s : CommandService) (device : CdmpDevice).

Lemma on_transactions_run {A} (m : TxM A) s t e r :
  m (transaction_service_ s) = (t, e, r) -> on_transactions m s = (s <| transaction_service_ := t |>, e, r).
Proof. intros E. unfold on_transactions. by rewrite E. Qed.

Definition response_frame s (response : CdmpCommandResponseMessage) : CanId * list Z :=
  (GetCommandResponseCanId (cmd_base_can_id_ s), CommandResponse_ToCanFrame response).

(** A response is one frame, after the stagger when the request was not for this unit alone. *)
Definition response_effects env device target s (response : CdmpCommandResponseMessage) : list Effect :=
  if env_bus_valid env then
    (if bool_decide (target = device_id_ device) then [] else [Sleep (staggered_message_delay_ device)]) ++
    [SendFrame (response_frame s response).1 (response_frame s response).2]
  else [].
Lemma SendCommandResponse_effects env device target response s :
  SendCommandResponse env device target response s = (s, response_effects env device target s response, Ok tt).
Proof.
  unfold SendCommandResponse, response_effects. destruct (env_bus_valid env); [|done]. cbn [negb].
  rewrite bind_get. by destruct (bool_decide (target = device_id_ device)).
Qed.
Lemma SendCommandResponse_run env device target response s :
  exists e, SendCommandResponse env device target response s = (s, e, Ok tt) /\
    frames_sent e = if env_bus_valid env then [response_frame s response] else [].
Proof.
  eexists. split; [apply SendCommandResponse_effects|]. unfold response_effects. destruct (env_bus_valid env); [|done].
  by destruct (bool_decide (target = device_id_ device)).
Qed.

(** What the handler of a command code answers; nothing without a handler. *)
Definition handler_result s (command : CdmpCommandRequestMessage) : res (option CdmpCommandResult) :=
  match command_handlers_ s !! creq_command_code command with
  | None => Ok None
  | Some h => result ← command_answer h (creq_transaction_id command) (creq_data command); Ok (Some result)
  end.

Lemma NotifyCommandHandler_effects command s :
  NotifyCommandHandler command s =
    (s, match command_handlers_ s !! creq_command_code command with
        | Some h => [CallCommandHandler h (creq_transaction_id command) (creq_data command)]
        | None => []
        end, handler_result s command).
Proof.
  unfold NotifyCommandHandler, handler_result. rewrite bind_get.
  destruct (command_handlers_ s !! _) as [h|]; [|done]. rewrite bind_emit. by destruct (command_answer h _ _) as [r|x|].
Qed.
Lemma NotifyCommandHandler_run command s :
  exists e, NotifyCommandHandler command s = (s, e, handler_result s command) /\ frames_sent e = [].
Proof. eexists. split; [apply NotifyCommandHandler_effects|]. by destruct (command_handlers_ s !! _). Qed.

(** ** What a request may cause *)

(** No handler, or the one of the command. *)
Definition handler_call s (command : CdmpCommandRequestMessage) (calls : list Effect) : Prop :=
  calls = [] \/
  (exists h, command_handlers_ s !! creq_command_code command = Some h /\
     calls = [CallCommandHandler h (creq_transaction_id command) (creq_data command)]) \/
  (exists h, service_command_handlers_ s !! creq_command_code command = Some h /\
     IsValidServiceCommandCode (creq_command_code command) = true /\ creq_command_code command <> STATUS_REQUEST /\
     calls = [CallServiceCommandHandler h command]).

(** No response, or one of this device that echoes the request, on a valid bus and only when [allowed]. *)
Definition responds env device (command : CdmpCommandRequestMessage) (allowed : Prop) s (sent : list Effect) : Prop :=
  sent = [] \/
  exists result_code data,
    sent = response_effects env device (creq_target_device_id command) s (ResponseTo device command result_code data) /\
    env_bus_valid env = true /\ allowed.

(** [m] leaves the service as it is, calls at most one handler and then sends at most one response. *)
Definition answers_once env device command (allowed : Prop) (m : CmdM unit) : Prop :=
  forall s, state_of (m s) = s /\ exists calls sent,
    effects_of (m s) = calls ++ sent /\ handler_call s command calls /\ responds env device command allowed s sent.
Definition replies env device command (allowed : Prop) (m : CmdM unit) : Prop :=
  forall s, state_of (m s) = s /\ responds env device command allowed s (effects_of (m s)).

Lemma replies_answers env device command allowed m : replies env device command allowed m -> answers_once env device command allowed m.
Proof. intros Hm s. destruct (Hm s) as [? ?]. split; [done|]. exists [], (effects_of (m s)). split_and!; [done|by left|done]. Qed.
Lemma replies_nothing env device command allowed (r : res unit) : replies env device command allowed (lift r).
Proof. intros s. split; [done|by left]. Qed.
Lemma answers_nothing env device command allowed (r : res unit) : answers_once env device command allowed (lift r).
Proof. apply replies_answers, replies_nothing. Qed.

Lemma replies_send env device command (allowed : Prop) rc data :
  allowed ->
  replies env device command allowed
    (SendCommandResponse env device (creq_target_device_id command) (ResponseTo device command rc data)).
Proof.
  intros Ha s. rewrite SendCommandResponse_effects. split; [done|]. unfold effects_of. cbn [fst snd].
  destruct (env_bus_valid env) eqn:Hb; [right; by exists rc, data|left]. unfold response_effects. by rewrite Hb.
Qed.

Lemma answers_notify env device command allowed (k : option CdmpCommandResult -> CmdM unit) :
  (forall r, replies env device command allowed (k r)) ->
  answers_once env device command allowed (NotifyCommandHandler command ≫= k).
Proof.
  intros Hk s. pose proof (NotifyCommandHandler_effects command s) as Hrun.
  set (calls := match command_handlers_ s !! _ with Some h => _ | None => _ end) in Hrun.
  assert (handler_call s command calls) as Hc.
  { unfold calls. destruct (command_handlers_ s !! _) as [h|] eqn:Eh; [right; left; by exists h|by left]. }
  destruct (handler_result s command) as [r|x|].
  - erewrite bind_ok by exact Hrun. rewrite state_of_prepend, effects_of_prepend. destruct (Hk r s) as [? ?].
    split; [done|]. by eexists _, _.
  - erewrite bind_throw by exact Hrun. split; [done|]. exists calls, []. split_and!; [by rewrite app_nil_r|done|by left].
  - erewrite bind_oob by exact Hrun. split; [done|]. exists calls, []. split_and!; [by rewrite app_nil_r|done|by left].
Qed.

Lemma answers_try env device command allowed m :
  answers_once env device command allowed m -> answers_once env device command allowed (try_log m).
Proof. intros Hm s. specialize (Hm s). unfold try_log, state_of, effects_of in *. by destruct (m s) as [[s1 e1] []]. Qed.

(** Who may be answered. *)
Definition may_answer device (command : CdmpCommandRequestMessage) : Prop :=
  creq_target_device_id command = device_id_ device \/
  creq_target_device_id command = DEVICE_ID_BROADCAST /\
  (creq_command_code command = STATUS_REQUEST \/
   IsValidServiceCommandCode (creq_command_code command) = false /\ GetStatus device = ONLINE).

Lemma ProcessServiceRequestFrame_answers env device command :
  IsValidServiceCommandCode (creq_command_code command) = true ->
  creq_target_device_id command = device_id_ device \/ creq_target_device_id command = DEVICE_ID_BROADCAST ->
  answers_once env device command (may_answer device command) (ProcessServiceRequestFrame env device command).
Proof.
  intros Hvalid Hto. unfold ProcessServiceRequestFrame.
  destruct (bool_decide_reflect (creq_command_code command = STATUS_REQUEST)) as [E|].
  - apply answers_notify. intros _. unfold StatusResponse. rewrite <- E. apply replies_send.
    unfold may_answer. tauto.
  - destruct (bool_decide (GetStatus device = ONLINE)); [|apply (answers_nothing _ _ _ _ (Ok tt))].
    intros s. rewrite bind_get. destruct (service_command_handlers_ s !! _) as [h|] eqn:Eh.
    + rewrite bind_emit, state_of_prepend, effects_of_prepend.
      assert (handler_call s command [CallServiceCommandHandler h command]) as Hc by (do 2 right; by exists h).
      match goal with |- state_of (?m s) = s /\ _ => assert (replies env device command (may_answer device command) m) as Hm end.
      { intros s1. destruct (service_answer h command) as [[r|]|x|]; [|by split; [|left]..]. rewrite bind_lift_ok.
        destruct (bool_decide_reflect (creq_target_device_id command = device_id_ device)); [|by split; [|left]].
        apply replies_send. by left. }
      destruct (Hm s) as [? ?]. split; [done|]. by eexists _, _.
    + apply (answers_notify env device command _ (fun _ => mret tt)). intros _. apply (replies_nothing _ _ _ _ (Ok tt)).
Qed.

Lemma ProcessRequestFrame_answers env device command :
  command_request_wf command ->
  answers_once env device command (may_answer device command)
    (ProcessRequestFrame env device (CommandRequest_ToCanFrame command)).
Proof.
  intros Hwf. unfold ProcessRequestFrame. rewrite (codec_roundtrip command Hwf). apply answers_try. intros s.
  rewrite bind_lift_ok. revert s.
  destruct (bool_decide_reflect (creq_target_device_id command = device_id_ device)) as [Eo|Eo];
  destruct (bool_decide_reflect (creq_target_device_id command = DEVICE_ID_BROADCAST)) as [Eb|Eb]; cbn [negb andb];
    try apply (answers_nothing _ _ _ _ (Ok tt));
  (destruct (IsValidServiceCommandCode _) eqn:Es; [apply ProcessServiceRequestFrame_answers; tauto|];
   destruct (bool_decide_reflect (GetStatus device = ONLINE)) as [On|]; cbn [negb];
     [|apply (answers_nothing _ _ _ _ (Throw (RuntimeError _)))];
   destruct (IsValidUserCommandCode _); cbn [negb]; [|apply (answers_nothing _ _ _ _ (Throw (RuntimeError _)))];
   apply answers_notify; intros [r|];
     [apply replies_send; unfold may_answer; tauto|cbn [when]; try apply replies_send; unfold may_answer; try tauto]).
  apply (replies_nothing _ _ _ _ (Ok tt)).
Qed.

End runs.

(** ** A request and its answer *)

Section exchange.
Context `{UnorderedIter} `{CdmpConfig} `{HandlerAnswers}.

(** What the user command [code] with [data] is answered in transaction [tid]. *)
Definition user_answer (b : CommandService) (code tid : Z) (data : list Z) : res CdmpCommandResult :=
  match command_handlers_ b !! code with
  | Some handler => command_answer handler tid data
  | None => Ok (mkCommandResult RESULT_UNSUPPORTED_COMMAND [])
  end.

Lemma SendCommand_run env target code data cb s :
  env_bus_valid env = true -> code <> 0 ->
  let tid := next_transaction_id_ (transaction_service_ s) in
  SendCommand env target code data cb s =
    (s <| transaction_service_ := state_of (StartTransaction (env_now env) target code CMD_TRANSACTION_TIMEOUT_MS cb
                                              (transaction_service_ s)) |>,
     [SendFrame (GetCommandRequestCanId (cmd_base_can_id_ s))
        (CommandRequest_ToCanFrame (mkCommandRequest target code tid data))], Ok tid).
Proof.
  intros Hb Hc tid. unfold SendCommand. rewrite Hb, bool_decide_eq_false_2 by done. cbn [negb].
  erewrite bind_ok by apply on_transactions_run, StartTransaction_eq. rewrite prepend_nil, bind_get, bind_emit.
  by rewrite StartTransaction_eq.
Qed.

(** A user command addressed to an online unit is answered with what its handler says. *)
Lemma user_command_answered env device s code tid data rc rdata :
  command_request_wf (mkCommandRequest (device_id_ device) code tid data) ->
  IsValidUserCommandCode code = true -> GetStatus device = ONLINE -> env_bus_valid env = true ->
  user_answer s code tid data = Ok (mkCommandResult rc rdata) ->
  frames_sent (effects_of (ProcessRequestFrame env device
      (CommandRequest_ToCanFrame (mkCommandRequest (device_id_ device) code tid data)) s))
    = [response_frame s (mkCommandResponse (device_id_ device) code tid rc rdata)].
Proof.
  intros Hwf Hu Hon Hb Ha. unfold ProcessRequestFrame. rewrite (codec_roundtrip _ Hwf).
  set (command := mkCommandRequest _ _ _ _).
  assert (IsValidServiceCommandCode code = false) as Hs.
  { unfold IsValidUserCommandCode, IsValidServiceCommandCode, USER_COMMAND_CODE_MIN, STATUS_REQUEST, RESET_DEVICE,
      STATE_SYNC_REQUEST in *. apply andb_true_iff in Hu as [Hu%bool_decide_eq_true _].
    rewrite !bool_decide_eq_false_2 by lia. done. }
  unfold try_log. rewrite bind_lift_ok. cbn [creq_target_device_id creq_command_code command].
  rewrite (bool_decide_eq_true_2 (device_id_ device = device_id_ device)), Hs, Hu by done. cbn [negb andb].
  rewrite (bool_decide_eq_true_2 (GetStatus device = ONLINE)) by done. cbn [negb].
  destruct (NotifyCommandHandler_run command s) as (e & Hrun & He).
  assert (handler_result s command
    = Ok (match command_handlers_ s !! code with Some _ => Some (mkCommandResult rc rdata) | None => None end)) as Hr.
  { unfold handler_result, user_answer in *. cbn [creq_command_code creq_transaction_id creq_data command].
    destruct (command_handlers_ s !! code) as [h|]; [|done]. by rewrite Ha. }
  rewrite Hr in Hrun. erewrite bind_ok by exact Hrun. unfold user_answer in Ha.
  destruct (command_handlers_ s !! code) as [h|].
  - destruct (SendCommandResponse_run env device (device_id_ device) (ResponseTo device command rc rdata) s)
      as (e2 & Hs2 & He2). cbn [cr_result_code cr_data]. rewrite Hs2. unfold prepend, effects_of. simpl.
    by rewrite frames_sent_app, He, He2, Hb.
  - simplify_eq.
    destruct (SendCommandResponse_run env device (device_id_ device)
      (ResponseTo device command RESULT_UNSUPPORTED_COMMAND []) s) as (e2 & Hs2 & He2).
    cbn [when]. rewrite Hs2. unfold prepend, effects_of. simpl. by rewrite frames_sent_app, He, He2, Hb.
Qed.

Lemma IsResponseTo_own tid now timeout cb code target rc data :
  IsResponseTo (mkPending tid now timeout cb code target) (mkCommandResponse target code tid rc data) = true.
Proof.
  unfold IsResponseTo. cbn. by rewrite (bool_decide_eq_true_2 (code = code)), (bool_decide_eq_true_2 (target = target)),
    orb_true_r.
Qed.

(** A response reaches the callback of the transaction it answers. *)
Lemma ProcessResponseFrame_completes r s t cb :
  command_response_wf r ->
  pending_transactions_ (transaction_service_ s) !! crsp_transaction_id r = Some t ->
  IsResponseTo t r = true -> pt_callback t = Some cb ->
  ProcessResponseFrame (CommandResponse_ToCanFrame r) s =
    (s <| transaction_service_ ::= fun x => x <| pending_transactions_ ::= delete (crsp_transaction_id r) |> |>,
     [TransactionCallback cb (pt_transaction_id t) (crsp_result_code r) (crsp_data r)], Ok tt).
Proof.
  intros Hwf Hp Hr Hcb. unfold ProcessResponseFrame. rewrite (codec_roundtrip r Hwf).
  unfold try_log. rewrite bind_lift_ok. unfold on_transactions, CompleteTransaction. rewrite bind_get, Hp, Hr, bind_modify.
  unfold InvokeCallback. by rewrite Hcb.
Qed.
End exchange.

(** C25. From a request to its callback: a user command sent to an online unit with the frames delivered (the
    request to the target, its answer back) calls the callback of the sender exactly once, with what the
    target's handler answered for that data or UNSUPPORTED_COMMAND without a handler, and leaves no
    transaction behind. *)
Theorem command_round_trip `{CdmpConfig} `{HandlerAnswers} env env' a b device code data cb :
  env_bus_valid env = true -> env_bus_valid env' = true ->
  tx_wf (transaction_service_ a) -> (size (pending_transactions_ (transaction_service_ a)) < 254)%nat ->
  is_u8 (device_id_ device) -> GetStatus device = ONLINE ->
  is_u8 code -> IsValidUserCommandCode code = true -> Forall is_u8 data -> (length data <= 5)%nat ->
  (forall tid, is_u8 tid -> exists rc rdata, user_answer b code tid data = Ok (mkCommandResult rc rdata) /\
     is_u8 rc /\ Forall is_u8 rdata /\ (length rdata <= 4)%nat) ->
  exists tid request rc rdata response a1,
    SendCommand env (device_id_ device) code data (Some cb) a
      = (a1, [SendFrame (GetCommandRequestCanId (cmd_base_can_id_ a)) request], Ok tid) /\
    user_answer b code tid data = Ok (mkCommandResult rc rdata) /\
    frames_sent (effects_of (ProcessRequestFrame env' device request b))
      = [(GetCommandResponseCanId (cmd_base_can_id_ b), response)] /\
    let o := ProcessResponseFrame response a1 in
    effects_of o = [TransactionCallback cb tid rc rdata] /\ result_of o = Ok tt /\
    pending_transactions_ (transaction_service_ (state_of o)) = pending_transactions_ (transaction_service_ a).
Proof.
  intros Hb Hb' Hwf Hsize Hid Hon Hcode Huser Hdata Hlen Hans.
  destruct Hwf as (Hall & Hnext & Hfree).
  set (tid := next_transaction_id_ (transaction_service_ a)) in *.
  destruct (Hans tid) as (rc & rdata & Ha & Hrc & Hrd & Hrl); [unfold is_u8; lia|].
  assert (code <> 0) as Hne by (intros ->; done).
  set (r := mkCommandResponse (device_id_ device) code tid rc rdata).
  assert (is_u8 tid) as Htid by (unfold is_u8; lia).
  eexists tid, _, rc, rdata, _, _. split; [by apply SendCommand_run|]. split; [done|].
  split; [apply user_command_answered; try done; unfold command_request_wf; by split_and!|]. cbv zeta.
  rewrite StartTransaction_eq.
  rewrite (ProcessResponseFrame_completes r _
    (mkPending tid (env_now env) CMD_TRANSACTION_TIMEOUT_MS (Some cb) code (device_id_ device)) cb).
  - split; [|split; [done|]].
    + unfold effects_of. simpl. reflexivity.
    + cbn. by apply delete_insert_id.
  - unfold command_response_wf; split_and!; done.
  - cbn. apply lookup_insert_eq.
  - apply IsResponseTo_own.
  - done.
Qed.

(** An answering unit: user command 32 returns its data reversed. *)
#[local] Instance echo_answers : HandlerAnswers :=
  {| command_answer := fun _ _ data => Ok (mkCommandResult RESULT_SUCCESS (take 4 (reverse data)));
     service_answer := fun _ _ => Ok None |}.
Definition answering_device : CdmpDevice := mkDevice 7 300 16 HEALTH_OK 0 0 0 false 5 0 (NewStatusMachine ONLINE).
Definition answering_unit : CommandService := NewCommandService 1792 <| command_handlers_ := {[32 := 1]} |>.
Definition asking_unit : CommandService := NewCommandService 1792.

#[local] Existing Instance default_config.
Lemma command_round_trip_witness :
  exists tid request rc rdata response a1,
    SendCommand (mkEnv 0 true) 7 32 [1; 2; 3] (Some 5) asking_unit
      = (a1, [SendFrame (GetCommandRequestCanId 1792) request], Ok tid) /\
    user_answer answering_unit 32 tid [1; 2; 3] = Ok (mkCommandResult rc rdata) /\
    frames_sent (effects_of (ProcessRequestFrame (mkEnv 3 true) answering_device request answering_unit))
      = [(GetCommandResponseCanId 1792, response)] /\
    let o := ProcessResponseFrame response a1 in
    effects_of o = [TransactionCallback 5 tid rc rdata] /\ result_of o = Ok tt /\
    pending_transactions_ (transaction_service_ (state_of o)) = ∅.
Proof.
  apply (command_round_trip (mkEnv 0 true) (mkEnv 3 true) asking_unit answering_unit answering_device 32 [1; 2; 3] 5);
    try reflexivity.
  - exact tx_wf_init.
  - apply (bool_decide_eq_true_1 _). vm_compute. reflexivity.
  - apply (bool_decide_eq_true_1 _). vm_compute. reflexivity.
  - apply (bool_decide_eq_true_1 _). vm_compute. reflexivity.
  - apply (bool_decide_eq_true_1 _). vm_compute. reflexivity.
  - apply (bool_decide_eq_true_1 _). vm_compute. reflexivity.
  - intros tid _. exists RESULT_SUCCESS, [3; 2; 1]. split; [vm_compute; reflexivity|].
    apply (bool_decide_eq_true_1 _). vm_compute. reflexivity.
Defined.

(** C27. A response names its requester only through the transaction ID, which every unit counts on its own
    from 1: two units that each send the same user command to the same unit first, with different data, both
    take the first answer as theirs, so the second unit's callback gets the answer to the other's data. *)
Theorem equal_requests_share_an_answer `{CdmpConfig} `{HandlerAnswers} base env device b code data1 data2 cb1 cb2 rc1 r1 :
  env_bus_valid env = true -> is_u8 (device_id_ device) -> GetStatus device = ONLINE ->
  is_u8 code -> IsValidUserCommandCode code = true -> Forall is_u8 data1 -> (length data1 <= 5)%nat ->
  user_answer b code 1 data1 = Ok (mkCommandResult rc1 r1) ->
  is_u8 rc1 -> Forall is_u8 r1 -> (length r1 <= 4)%nat ->
  let a1 := SendCommand env (device_id_ device) code data1 (Some cb1) (NewCommandService base) in
  let a2 := SendCommand env (device_id_ device) code data2 (Some cb2) (NewCommandService base) in
  exists request response,
    frames_sent (effects_of a1) = [(GetCommandRequestCanId base, request)] /\
    frames_sent (effects_of (ProcessRequestFrame env device request b)) = [(GetCommandResponseCanId (cmd_base_can_id_ b), response)] /\
    effects_of (ProcessResponseFrame response (state_of a1)) = [TransactionCallback cb1 1 rc1 r1] /\
    effects_of (ProcessResponseFrame response (state_of a2)) = [TransactionCallback cb2 1 rc1 r1].
Proof.
  intros Hb Hid Hon Hcode Hu Hdata Hlen Ha Hrc Hr Hrl a1 a2.
  assert (code <> 0) as Hne by (intros ->; done).
  assert (command_response_wf (mkCommandResponse (device_id_ device) code 1 rc1 r1)) as Hwf
    by (unfold command_response_wf; by split_and!).
  unfold a1, a2. rewrite !SendCommand_run by done. eexists _, _. split; [done|].
  split; [apply user_command_answered; try done; unfold command_request_wf; by split_and!|].
  rewrite !StartTransaction_eq. split.
  - by rewrite (ProcessResponseFrame_completes _ _
      (mkPending 1 (env_now env) CMD_TRANSACTION_TIMEOUT_MS (Some cb1) code (device_id_ device)) cb1 Hwf)
      by (done || apply IsResponseTo_own).
  - by rewrite (ProcessResponseFrame_completes _ _
      (mkPending 1 (env_now env) CMD_TRANSACTION_TIMEOUT_MS (Some cb2) code (device_id_ device)) cb2 Hwf)
      by (done || apply IsResponseTo_own).
Qed.

Lemma equal_requests_share_an_answer_witness :
  exists request response,
    frames_sent (effects_of (SendCommand (mkEnv 0 true) 7 32 [1; 2] (Some 5) (NewCommandService 1792)))
      = [(GetCommandRequestCanId 1792, request)] /\
    frames_sent (effects_of (ProcessRequestFrame (mkEnv 0 true) answering_device request answering_unit))
      = [(GetCommandResponseCanId 1792, response)] /\
    effects_of (ProcessResponseFrame response
      (state_of (SendCommand (mkEnv 0 true) 7 32 [1; 2] (Some 5) (NewCommandService 1792))))
      = [TransactionCallback 5 1 RESULT_SUCCESS [2; 1]] /\
    effects_of (ProcessResponseFrame response
      (state_of (SendCommand (mkEnv 0 true) 7 32 [3; 4] (Some 6) (NewCommandService 1792))))
      = [TransactionCallback 6 1 RESULT_SUCCESS [2; 1]].
Proof.
  apply (equal_requests_share_an_answer 1792 (mkEnv 0 true) answering_device answering_unit 32 [1; 2] [3; 4] 5 6
    RESULT_SUCCESS [2; 1]);
    first [reflexivity | apply (bool_decide_eq_true_1 _); vm_compute; reflexivity].
Defined.
