(* ===== verification/CdmpUnit.v ===== *)
(** * CDMP unit: the services put together

    [src/src/subsys/cdmp/services/cdmp_service.*] with the work queue of
    [src/src/subsys/threading/work_queue_thread.*] and [work_queue_task.h].  A unit is its four services, which
    share one device, the closures and the tasks on the work queue, and its own life cycle.  What a service
    does to another one is an effect ([CdmpEffects.v]); here each effect is delivered: to the method it
    calls, to the work queue, or to the outside.  In the source these calls are made inside the method that
    causes them; every one is the last thing the method does with the state the callee reads, so it is
    delivered when the method has run.  Creating the threads, and [k_work] itself, are outside. *)

From S2P Require Import Prelude Can Cdmp CdmpMessages CdmpEffects CdmpTransactions Service CdmpNetwork CdmpHeartbeat CdmpCommand CdmpState.

(** ** State *)

(** A closure queued with [WorkQueueThread::Run]. *)
Inductive WorkItem :=
| NetworkItem (session : Z) (work : NetworkWork)
| HeartbeatItem (frame : list Z)
| RequestItem (frame : list Z)
| ResponseItem (frame : list Z).

(** [un_deadlines]: when a scheduled task is due; [un_last_results]: [last_result_] of each task. *)
Record CdmpUnit := mkUnit {
  un_network : NetworkService;
  un_heartbeat : HeartbeatService;
  un_command : CommandService;
  un_state : StateService;
  un_service_state : ServiceState;
  un_auto_discovery : bool;
  un_thread_initialized : bool;
  un_thread_running : bool;
  un_queue : list WorkItem;
  un_deadlines : list (Task * Z);
  un_last_results : list (Task * TaskResult);
}.
#[export] Instance CdmpUnit_eta : Eta CdmpUnit := fun u =>
  mkUnit (un_network u) (un_heartbeat u) (un_command u) (un_state u) (un_service_state u) (un_auto_discovery u)
    (un_thread_initialized u) (un_thread_running u) (un_queue u) (un_deadlines u) (un_last_results u).

Definition un_device (u : CdmpUnit) : CdmpDevice := device_ (un_network u).

(** A table keyed by the task. *)
Definition task_lookup {V} (t : Task) (l : list (Task * V)) : option V :=
  snd <$> find_first (fun p => bool_decide (p.1 = t)) l.
Definition task_remove {V} (t : Task) (l : list (Task * V)) : list (Task * V) :=
  filter (fun p : Task * V => p.1 <> t) l.
Definition task_insert {V} (t : Task) (v : V) (l : list (Task * V)) : list (Task * V) := (t, v) :: task_remove t l.

(** The closures [ProcessSyncRequest] and those of an application are tokens. *)
Definition SYNC_REQUEST_HANDLER : Z := 0.

(** The constructor registers the services' status handlers in this order. *)
Definition WithServiceHandlers (d : CdmpDevice) : CdmpDevice :=
  d <| status_machine_ ::= fun m =>
    foldl (fun m h => (RegisterStatusChangeHandler h m).1) m
      [NetworkStatusHandler; HeartbeatStatusHandler; CommandStatusHandler; StateStatusHandler] |>.

Abbreviation UM := (M CdmpUnit Effect).

Section unit.
Context `{CdmpConfig}.

Definition NewUnit (now uid features base : Z) : res CdmpUnit :=
  device ← NewDevice now uid features OFFLINE;
  Ok (mkUnit (NewNetworkService (WithServiceHandlers device) base) (NewHeartbeatService base)
        (NewCommandService base <| service_command_handlers_ := {[ STATE_SYNC_REQUEST := SYNC_REQUEST_HANDLER ]} |>)
        (NewStateService base) STOPPED true false false [] [] []).

Context `{UnorderedIter} `{Crc8} `{HandlerAnswers} (env : Env).
#[local] Abbreviation now := (env_now env).

(** ** What the services see of each other *)

(** The queries of the network service that the state service makes. *)
Definition TableInfo (s : NetworkService) : NetworkInfo :=
  {| is_device_online := IsDeviceOnline s; network_devices := GetNetworkDevices s |}.

(** A service command handler is the state service's, or an application's. *)
Definition UnitAnswers (u : CdmpUnit) : HandlerAnswers :=
  {| command_answer := command_answer;
     service_answer := fun handler request =>
       if bool_decide (handler = SYNC_REQUEST_HANDLER)
       then result_of (ProcessSyncRequest env (un_device u) request (un_state u))
       else service_answer handler request |}.

(** ** Delivering the effects *)

Definition run_network (m : NM unit) (u : CdmpUnit) : CdmpUnit * list Effect :=
  let o := m (un_network u) in (u <| un_network := state_of o |>, effects_of o).
Definition run_heartbeat (m : HM unit) (u : CdmpUnit) : CdmpUnit * list Effect :=
  let o := m (un_heartbeat u) in (u <| un_heartbeat := state_of o |>, effects_of o).
Definition run_command (m : CmdM unit) (u : CdmpUnit) : CdmpUnit * list Effect :=
  let o := m (un_command u) in (u <| un_command := state_of o |>, effects_of o).
Definition run_state (m : SM unit) (u : CdmpUnit) : CdmpUnit * list Effect :=
  let o := m (un_state u) in (u <| un_state := state_of o |>, effects_of o).

(** [k_work_schedule] leaves a scheduled task alone, [k_work_reschedule] does not. *)
Definition schedule_task (t : Task) (delay : Z) (u : CdmpUnit) : CdmpUnit :=
  match task_lookup t (un_deadlines u) with
  | Some _ => u
  | None => u <| un_deadlines ::= task_insert t (now + delay) |>
  end.
Definition reschedule_task (t : Task) (delay : Z) (u : CdmpUnit) : CdmpUnit :=
  u <| un_deadlines ::= task_insert t (now + delay) |>.

(** What a call of a service does, and the effects that has in turn. *)
Definition react (e : Effect) (u : CdmpUnit) : CdmpUnit * list Effect :=
  match e with
  | CallStatusHandler call =>
      match sc_handler call with
      | NetworkStatusHandler => run_network (NetworkOnDeviceStatusChanged env (sc_new call)) u
      | HeartbeatStatusHandler =>
          run_heartbeat (HeartbeatOnDeviceStatusChanged env (un_device u) (sc_new call)) u
      | CommandStatusHandler => run_command (CommandOnDeviceStatusChanged (sc_new call)) u
      | StateStatusHandler => run_state (StateOnDeviceStatusChanged (sc_old call) (sc_new call)) u
      | UserStatusHandler _ => (u, [])
      end
  | NotifyDeviceEvent event info => run_state (OnDeviceEvent event info) u
  | NotifyHeartbeat heartbeat => run_state (OnHeartbeat env (un_device u) heartbeat) u
  | HeartbeatReceived heartbeat => run_network (UpdateDeviceFromHeartbeat env heartbeat) u
  | CallServiceCommandHandler handler request =>
      if bool_decide (handler = SYNC_REQUEST_HANDLER)
      then run_state (ProcessSyncRequest env (un_device u) request ;; mret tt) u
      else (u, [])
  | SendSyncRequest target => run_command (SendCommand env target STATE_SYNC_REQUEST [] None ;; mret tt) u
  | SetStateDigest digest => (u <| un_network ::= fun s => s <| device_ ::= fun d => d <| state_digest_ := digest |> |> |>, [])
  | RunInSession session work => (u <| un_queue ::= fun q => q ++ [NetworkItem session work] |>, [])
  | Schedule t delay => (schedule_task t delay u, [])
  | Reschedule t delay => (reschedule_task t delay u, [])
  | CancelTask t => (u <| un_deadlines ::= task_remove t |>, [])
  | _ => (u, [])
  end.

(** What leaves the unit: the bus, and the callbacks and handlers of the application. *)
Definition is_output (e : Effect) : bool :=
  match e with
  | RegisterFrameHandler _ _ | RemoveFrameHandler _ | SendFrame _ _ | Sleep _ | TransactionCallback _ _ _ _
  | CallStateHandler _ _ | CallCommandHandler _ _ _ => true
  | CallStatusHandler call => match sc_handler call with UserStatusHandler _ => true | _ => false end
  | NotifyDeviceEvent _ _ | NotifyHeartbeat _ => true
  | CallServiceCommandHandler handler _ => negb (bool_decide (handler = SYNC_REQUEST_HANDLER))
  | _ => false
  end.

(** The calls an effect makes return before the next effect; [fuel] bounds how deep they nest. *)
Fixpoint deliver (fuel : nat) (e : Effect) (u : CdmpUnit) : CdmpUnit * list Effect :=
  match fuel with
  | O => (u, [])
  | S fuel =>
      let own := if is_output e then [e] else [] in
      let '(u, es) := react e u in
      foldl (fun '(u, out) e => let '(u, more) := deliver fuel e u in (u, out ++ more)) (u, own) es
  end.

(** Four calls deep is enough ([delivery_ends]). *)
Definition DELIVERY_DEPTH : nat := 4.

Definition deliver_all (es : list Effect) (u : CdmpUnit) : CdmpUnit * list Effect :=
  foldl (fun '(u, out) e => let '(u, more) := deliver DELIVERY_DEPTH e u in (u, out ++ more)) (u, []) es.

(** ** A method of a service, from outside *)

Definition on_part {S A} (part : CdmpUnit -> S) (put : S -> CdmpUnit -> CdmpUnit) (m : CdmpUnit -> M S Effect A) : UM A :=
  fun u =>
    let o := m u (part u) in
    let '(u, out) := deliver_all (effects_of o) (put (state_of o) u) in
    (u, out, result_of o).

Definition on_network {A} (m : NM A) : UM A := on_part un_network (fun s u => u <| un_network := s |>) (fun _ => m).
(** The other services see the device, the table and the answers of the moment. *)
Definition on_heartbeat {A} (m : CdmpDevice -> HM A) : UM A :=
  on_part un_heartbeat (fun s u => u <| un_heartbeat := s |>) (fun u => m (un_device u)).
Definition on_command {A} (m : HandlerAnswers -> CdmpDevice -> CmdM A) : UM A :=
  on_part un_command (fun s u => u <| un_command := s |>) (fun u => m (UnitAnswers u) (un_device u)).
Definition on_state {A} (m : NetworkInfo -> CdmpDevice -> SM A) : UM A :=
  on_part un_state (fun s u => u <| un_state := s |>) (fun u => m (TableInfo (un_network u)) (un_device u)).

(** ** [CdmpService]

    [register] is what the bus answers to a filter.  The services are started, stopped and configured in the
    order the constructor lists them. *)

Definition StartServices (register : CanFilter -> Z) : UM unit :=
  on_network (NetworkStart env register) ;;
  on_heartbeat (fun device => Start (HeartbeatWorkOf env device register)) ;;
  on_command (fun _ _ => Start (CommandWorkOf env register)) ;;
  on_state (fun _ device => Start (StateWorkOf env device register)) ;;
  mret tt.

(** What the thread does before it waits. *)
Definition ThreadEntry (register : CanFilter -> Z) : UM unit :=
  StartServices register ;;
  u ← get;
  when (un_auto_discovery u) (on_network (OwnDevice StartDiscovery)).

(** [Thread::Start]: after an exception the thread is over, otherwise it waits for [Join]. *)
Definition RunThread (register : CanFilter -> Z) : UM unit := fun u =>
  match ThreadEntry register (u <| un_thread_running := true |>) with
  | (u, out, Throw _) => (u <| un_thread_running := false |>, out, Ok tt)
  | o => o
  end.

Definition UnitDoInitialize : UM bool :=
  modify (fun u => u <| un_thread_initialized := true |>) ;;
  on_network (Initialize (NetworkWorkOf env (fun _ => 0))) ;;
  on_heartbeat (fun device => Initialize (HeartbeatWorkOf env device (fun _ => 0))) ;;
  on_command (fun _ _ => Initialize (CommandWorkOf env (fun _ => 0))) ;;
  on_state (fun _ device => Initialize (StateWorkOf env device (fun _ => 0))) ;;
  mret true.

Definition UnitDoStart (register : CanFilter -> Z) : UM bool :=
  u ← get;
  if negb (un_thread_initialized u) || un_thread_running u then mret false
  else RunThread register ;; mret true.

Definition UnitDoStop : UM bool :=
  modify (fun u => u <| un_thread_running := false |>) ;;
  on_network (NetworkStop env) ;;
  on_heartbeat (fun device => HeartbeatStop env device) ;;
  on_command (fun _ _ => Stop (CommandWorkOf env (fun _ => 0))) ;;
  on_state (fun _ device => Stop (StateWorkOf env device (fun _ => 0))) ;;
  on_network (OwnDevice Reset) ;;
  mret true.

Definition UnitWorkOf (register : CanFilter -> Z) : ServiceWork CdmpUnit Effect :=
  {| sw_state := un_service_state; sw_set_state := fun st u => u <| un_service_state := st |>;
     sw_is_pausable := false; sw_initialize := UnitDoInitialize; sw_start := UnitDoStart register;
     sw_stop := UnitDoStop; sw_pause := mret true; sw_resume := mret true |}.

(** The identifier manager is shared, so every service sees the new base. *)
Definition SetUnitBase (base : Z) (u : CdmpUnit) : CdmpUnit :=
  u <| un_network ::= fun s => s <| base_can_id_ := base |> |>
    <| un_heartbeat ::= fun s => s <| hb_base_can_id_ := base |> |>
    <| un_command ::= fun s => s <| cmd_base_can_id_ := base |> |>
    <| un_state ::= fun s => s <| st_base_can_id_ := base |> |>.

(** [has_bus]: the argument is not null. *)
Definition UnitConfigure (has_bus : bool) (base : Z) : UM unit :=
  u ← get;
  if un_thread_running u then mret tt
  else if negb has_bus then throw (RuntimeError "Canbus interface is undefined")
  else if negb (IsValidBaseCanId base)
  then throw (InvalidArgument "CDMP base CAN ID leaves no room for the CDMP ID range")
  else modify (SetUnitBase base).

Definition UnitSetAutoDiscovery (enabled : bool) : UM unit := modify (fun u => u <| un_auto_discovery := enabled |>).

Definition UnitDeviceInfo (u : CdmpUnit) : CdmpDeviceInfo := ToDeviceInfo (un_device u).

(** ** The bus *)

(** A registered handler queues a frame of its identifier. *)
Definition ReceiveFrame (id : CanId) (data : list Z) : UM unit :=
  u ← get;
  let base := base_can_id_ (un_network u) in
  let for_id handler_id own := bool_decide (0 <= handler_id) && bool_decide (id = own) in
  when (for_id (canbus_handler_id_ (un_network u)) (GetManagementCanId base))
    (on_network (RunWork (WorkProcessFrame data))) ;;
  when (for_id (hb_canbus_handler_id_ (un_heartbeat u)) (GetHeartbeatCanId base))
    (modify (fun u => u <| un_queue ::= fun q => q ++ [HeartbeatItem data] |>)) ;;
  when (for_id (cmd_canbus_handler_id_ (un_command u)) (GetCommandRequestCanId base))
    (modify (fun u => u <| un_queue ::= fun q => q ++ [RequestItem data] |>)) ;;
  when (for_id (canbus_response_handler_id_ (un_command u)) (GetCommandResponseCanId base))
    (modify (fun u => u <| un_queue ::= fun q => q ++ [ResponseItem data] |>)) ;;
  when (for_id (state_change_handler_id_ (un_state u)) (GetStateChangeRequestCanId base))
    (on_state (fun _ _ => QueueFrame data false)) ;;
  when (for_id (state_change_response_handler_id_ (un_state u)) (GetStateChangeResponseCanId base))
    (on_state (fun _ _ => QueueFrame data true)).

(** ** The work queue *)

Definition RunItem (item : WorkItem) : UM unit :=
  match item with
  | NetworkItem session work => on_network (RunQueuedWork env session work)
  | HeartbeatItem frame => on_heartbeat (fun _ => HeartbeatProcessFrame frame)
  | RequestItem frame => on_command (fun answers device => @ProcessRequestFrame env device answers frame)
  | ResponseItem frame => on_command (fun _ _ => ProcessResponseFrame frame)
  end.

(** [RunnerTaskHandler]: the first closure; it logs what the closure throws. *)
Definition RunNextItem : UM unit :=
  u ← get;
  match un_queue u with
  | [] => mret tt
  | item :: queue => modify (fun u => u <| un_queue := queue |>) ;; try_log (RunItem item)
  end.

Definition no_delay {A} (m : UM A) : UM TaskResult := m ;; mret None.

Definition RunTaskBody (t : Task) : UM TaskResult :=
  match t with
  | ValidationTask => on_network (ProcessPeriodicValidation env)
  | DiscoveryTask => on_network (RunDiscoveryAttempt env)
  | IdClaimTask => on_network (RunIdClaimAttempt env)
  | HeartbeatTask => on_heartbeat (ProcessPeriodicHeartbeat env)
  | TimeoutTask => no_delay (on_command (fun _ _ => on_transactions (ProcessTransactionTimeouts now)))
  | ReceiveTask => no_delay (on_state (fun network device => @ReceiveFrames _ network env device))
  | TransmitTask => no_delay (on_state (fun network device => @Transmit network env device))
  | ReplayTask => no_delay (on_state (fun _ device => ReplayRecords env device))
  | NotifyTask => no_delay (on_state (fun _ _ => NotifyStateHandlers))
  end.

(** [TaskHandler]: a task that throws keeps its last result. *)
Definition RunTask (t : Task) : UM unit := fun u =>
  match task_lookup t (un_deadlines u) with
  | Some deadline =>
      if bool_decide (deadline <= now) then
        let '(u, out, r) := RunTaskBody t (u <| un_deadlines ::= task_remove t |>) in
        let last := default None (task_lookup t (un_last_results u)) in
        let result := match r with Ok d => d | _ => last end in
        let u := u <| un_last_results ::= task_insert t result |> in
        (match result with Some delay => reschedule_task t delay u | None => u end, out, Ok tt)
      else (u, [], Ok tt)
  | None => (u, [], Ok tt)
  end.
End unit.
