(* ===== verification/CdmpUnitRequests.v ===== *)
(** * CDMP unit: what a command request makes a unit do

    [CdmpCommandService::ProcessRequestFrame] with the handlers it calls: the state service's replay on a
    STATE_SYNC_REQUEST is part of the unit and is followed to its frames; a handler of the application is a
    call that leaves the unit. *)

From S2P Require Import Prelude Can Cdmp CdmpMessages CdmpEffects CdmpTransactions Service CdmpNetwork CdmpHeartbeat CdmpCommand CdmpState CdmpStateLocal CdmpStateSend CdmpUnit.

(** The calls of command handlers that leave the unit. *)
Definition is_handler_call (e : Effect) : bool :=
  match e with CallCommandHandler _ _ _ | CallServiceCommandHandler _ _ => true | _ => false end.
Definition handler_calls (l : list Effect) : list Effect := filter (fun e => is_handler_call e = true) l.

Section requests.
Context `{CdmpConfig} `{UnorderedIter} `{Crc8} `{HandlerAnswers} (env : Env).
Implicit Types u : CdmpUnit.

(** An effect that calls nobody in the unit. *)
Definition leaves_unit (e : Effect) : Prop := forall u, react env e u = (u, []).

Lemma deliver_leaving n e u : leaves_unit e -> deliver env (S n) e u = (u, if is_output e then [e] else []).
Proof. intros He. cbn [deliver]. by rewrite He. Qed.

Lemma deliver_from es u out :
  foldl (fun '(u, out) e => let '(u, more) := deliver env DELIVERY_DEPTH e u in (u, out ++ more)) (u, out) es =
  ((deliver_all env es u).1, out ++ (deliver_all env es u).2).
Proof.
  unfold deliver_all. revert u out. induction es as [|e es IH]; intros u out; cbn [foldl]; [by rewrite app_nil_r|].
  destruct (deliver env DELIVERY_DEPTH e u) as [u1 more]. cbn [app].
  rewrite (IH u1 (out ++ more)), (IH u1 more). cbn [fst snd]. by rewrite app_assoc.
Qed.
Lemma deliver_all_cons e es u :
  deliver_all env (e :: es) u =
  let '(u1, out1) := deliver env DELIVERY_DEPTH e u in let '(u2, out2) := deliver_all env es u1 in (u2, out1 ++ out2).
Proof.
  unfold deliver_all at 1. cbn [foldl]. destruct (deliver env DELIVERY_DEPTH e u) as [u1 out1]. rewrite deliver_from.
  by destruct (deliver_all env es u1).
Qed.
Lemma deliver_all_leaving es u : Forall leaves_unit es -> deliver_all env es u = (u, filter (fun e => is_output e = true) es).
Proof.
  induction 1 as [|e es He Hes IH]; [done|]. rewrite deliver_all_cons. unfold DELIVERY_DEPTH. rewrite deliver_leaving, IH by done.
  rewrite filter_cons. by destruct (is_output e); [rewrite decide_True by done|rewrite decide_False by done].
Qed.

Lemma SendFrame_leaves i d : leaves_unit (SendFrame i d).
Proof. by intros []. Qed.
Lemma notifications_leave device base l : Forall leaves_unit (notification device base <$> l).
Proof. apply Forall_fmap, Forall_true. intros r. apply SendFrame_leaves. Qed.
Lemma response_leaves device target s r : Forall leaves_unit (response_effects env device target s r).
Proof. unfold response_effects. destruct (env_bus_valid env); [|constructor]. destruct (bool_decide _); repeat constructor; by intros []. Qed.
Lemma response_outputs device target s r :
  filter (fun e => is_output e = true) (response_effects env device target s r) = response_effects env device target s r.
Proof. unfold response_effects. destruct (env_bus_valid env); [|done]. by destruct (bool_decide _). Qed.
Lemma response_sent device target s r :
  frames_sent (response_effects env device target s r) = if env_bus_valid env then [response_frame s r] else [].
Proof. unfold response_effects. destruct (env_bus_valid env); [|done]. by destruct (bool_decide _). Qed.

(** What the state service does with a request for a replay. *)
Lemma ProcessSyncRequest_run device request s :
  ProcessSyncRequest env device request s =
  if bool_decide (creq_target_device_id request = DEVICE_ID_BROADCAST)
  then (s, if is_started_ s && st_tasks_created_ s then [Schedule ReplayTask (staggered_message_delay_ device)] else [], Ok None)
  else if is_started_ s && IsOnline device then
    let l := filter (fun r => lr_is_withdrawn r = false) (local_records_ s) in
    (s, if env_bus_valid env then notification device (st_base_can_id_ s) <$> l else [],
     Ok (Some (mkCommandResult RESULT_SUCCESS [u8 (Z.of_nat (length l))])))
  else (s, [], Ok None).
Proof.
  unfold ProcessSyncRequest. case_bool_decide.
  - rewrite bind_get. by destruct (is_started_ s && st_tasks_created_ s).
  - unfold ReplayRecords. rewrite bind_assoc, bind_get. destruct (is_started_ s); [|done]. destruct (IsOnline device); [|done].
    cbn [negb orb andb]. cbv zeta. rewrite bind_assoc. erewrite bind_ok by apply send_all. rewrite bind_ret, length_fmap.
    unfold prepend, mret, M_ret. cbn [fst snd]. by rewrite app_nil_r.
Qed.

(** A request for which the unit has the replay of its state service as handler. *)
Definition asks_for_replay u (command : CdmpCommandRequestMessage) : bool :=
  IsValidServiceCommandCode (creq_command_code command) && negb (bool_decide (creq_command_code command = STATUS_REQUEST))
  && bool_decide (service_command_handlers_ (un_command u) !! creq_command_code command = Some SYNC_REQUEST_HANDLER).

Definition for_unit u (command : CdmpCommandRequestMessage) : bool :=
  bool_decide (creq_target_device_id command = device_id_ (un_device u))
  || bool_decide (creq_target_device_id command = DEVICE_ID_BROADCAST).

Lemma replay_request_effects u command :
  command_request_wf command -> asks_for_replay u command = true ->
  @ProcessRequestFrame env (un_device u) (UnitAnswers env u) (CommandRequest_ToCanFrame command) (un_command u) =
  (un_command u,
   if for_unit u command && IsOnline (un_device u) then
     CallServiceCommandHandler SYNC_REQUEST_HANDLER command ::
     match result_of (ProcessSyncRequest env (un_device u) command (un_state u)) with
     | Ok (Some result) =>
         if bool_decide (creq_target_device_id command = device_id_ (un_device u))
         then response_effects env (un_device u) (creq_target_device_id command) (un_command u)
                (ResponseTo (un_device u) command (cr_result_code result) (cr_data result))
         else []
     | _ => []
     end
   else [], Ok tt).
Proof.
  intros Hwf [[Hv Hs%negb_true_iff]%andb_true_iff Hh%bool_decide_eq_true]%andb_true_iff.
  unfold ProcessRequestFrame, for_unit. rewrite (codec_roundtrip command Hwf). unfold try_log. rewrite bind_lift_ok, Hv.
  destruct (bool_decide (creq_target_device_id command = device_id_ (un_device u))) eqn:Eo;
  destruct (bool_decide (creq_target_device_id command = DEVICE_ID_BROADCAST)) eqn:Eb; cbn [negb andb orb]; try done;
    unfold ProcessServiceRequestFrame, IsOnline; rewrite Hs;
    (destruct (bool_decide (GetStatus (un_device u) = ONLINE)) eqn:On; [|done]);
    rewrite bind_get, Hh, bind_emit; cbn [service_answer UnitAnswers]; rewrite (bool_decide_eq_true_2 (_ = SYNC_REQUEST_HANDLER)) by done;
    rewrite ProcessSyncRequest_run, Eb; cbn [result_of snd]; rewrite ?bind_lift_ok, ?Eo; cbn [negb]; try done.
  unfold IsOnline. rewrite On. destruct (is_started_ (un_state u)); cbn [andb result_of snd]; rewrite ?bind_lift_ok, ?Eo; cbn [negb]; [|done].
  by rewrite SendCommandResponse_effects.
Qed.

Lemma unit_state_same u : u <| un_state := un_state u |> = u.
Proof. by destruct u. Qed.
Lemma unit_command_same u : u <| un_command := un_command u |> = u.
Proof. by destruct u. Qed.

(** The replay, as it is delivered. *)
Lemma deliver_replay u command :
  deliver env DELIVERY_DEPTH (CallServiceCommandHandler SYNC_REQUEST_HANDLER command) u =
  let s := un_state u in
  if bool_decide (creq_target_device_id command = DEVICE_ID_BROADCAST)
  then (if is_started_ s && st_tasks_created_ s
        then schedule_task env ReplayTask (staggered_message_delay_ (un_device u)) u else u, [])
  else (u, if is_started_ s && IsOnline (un_device u) && env_bus_valid env
           then notification (un_device u) (st_base_can_id_ s) <$> filter (fun r => lr_is_withdrawn r = false) (local_records_ s)
           else []).
Proof.
  unfold DELIVERY_DEPTH. cbn [deliver]. unfold react at 1. rewrite (bool_decide_eq_true_2 (_ = SYNC_REQUEST_HANDLER)) by done.
  cbn [is_output]. rewrite (bool_decide_eq_true_2 (_ = SYNC_REQUEST_HANDLER)) by done. cbn [negb]. unfold run_state.
  assert (forall x : StateService * list Effect * res (option CdmpCommandResult),
    ProcessSyncRequest env (un_device u) command (un_state u) = x -> (exists a, x.2 = Ok a) ->
    (ProcessSyncRequest env (un_device u) command ;; mret tt) (un_state u) = (x.1.1, x.1.2, Ok tt)) as Hrun.
  { intros [[s e] r] E [a Ha]. simpl in Ha. subst r. erewrite bind_ok by exact E. unfold prepend. simpl. by rewrite app_nil_r. }
  pose proof (ProcessSyncRequest_run (un_device u) command (un_state u)) as E.
  case_bool_decide.
  - erewrite Hrun; [|exact E|by eexists]. unfold state_of, effects_of. cbn [fst snd]. rewrite unit_state_same.
    by destruct (is_started_ (un_state u) && st_tasks_created_ (un_state u)).
  - destruct (is_started_ (un_state u) && IsOnline (un_device u)); cbn [andb].
    + erewrite Hrun; [|exact E|by eexists]. unfold state_of, effects_of. cbn [fst snd]. rewrite unit_state_same.
      destruct (env_bus_valid env); [|done]. generalize (filter (fun r => lr_is_withdrawn r = false) (local_records_ (un_state u))) as l.
      intros l. change ([] ++ ?x) with x.
      assert (forall out, foldl (fun '(u, out) e => let '(u, more) := deliver env 3 e u in (u, out ++ more)) (u, out)
        (notification (un_device u) (st_base_can_id_ (un_state u)) <$> l) =
        (u, out ++ (notification (un_device u) (st_base_can_id_ (un_state u)) <$> l))) as Hl; [|exact (Hl [])].
      induction l as [|r l IH]; intros out; [by rewrite app_nil_r|]. cbn [fmap list_fmap foldl].
      rewrite (deliver_leaving 2) by apply SendFrame_leaves. cbn [is_output notification]. rewrite IH. by rewrite <- app_assoc.
    + erewrite Hrun; [|exact E|by eexists]. unfold state_of, effects_of. cbn [fst snd]. by rewrite unit_state_same.
Qed.

(** Any other request: what the command service does is all the unit does. *)
Lemma other_request u command :
  command_request_wf command -> asks_for_replay u command = false ->
  let o := RunItem env (RequestItem (CommandRequest_ToCanFrame command)) u in
  state_of o = u /\ exists calls sent,
    effects_of o = calls ++ sent /\ handler_call (un_command u) command calls /\
    responds env (un_device u) command (may_answer (un_device u) command) (un_command u) sent.
Proof.
  intros Hwf Hno. cbv zeta. unfold RunItem, on_command, on_part.
  destruct (@ProcessRequestFrame_answers (UnitAnswers env u) env (un_device u) command Hwf (un_command u))
    as (Est & calls & sent & Eeff & Hc & Hs).
  rewrite Est, Eeff, unit_command_same.
  assert (Forall leaves_unit calls /\ filter (fun e => is_output e = true) calls = calls) as [Hl1 Ho1].
  { destruct Hc as [->|[(h & _ & ->)|(h & Hh & Hv & Hne & ->)]]; [done|by repeat constructor|].
    assert (h <> SYNC_REQUEST_HANDLER) as Hsync.
    { intros ->. unfold asks_for_replay in Hno. by rewrite Hv, Hh, bool_decide_eq_false_2, bool_decide_eq_true_2 in Hno. }
    split; [repeat constructor; intros v; unfold react; by rewrite bool_decide_eq_false_2|].
    rewrite filter_cons_True; [done|]. cbn [is_output]. by rewrite bool_decide_eq_false_2. }
  assert (Forall leaves_unit sent /\ filter (fun e => is_output e = true) sent = sent) as [Hl2 Ho2].
  { destruct Hs as [->|(rc & d & -> & _)]; [done|]. split; [apply response_leaves|apply response_outputs]. }
  rewrite deliver_all_leaving by by apply Forall_app. unfold state_of, effects_of. cbn [fst snd]. split; [done|].
  exists calls, sent. rewrite filter_app, Ho1, Ho2. done.
Qed.

(** A request for a replay: the frames and what becomes of the unit. *)
Lemma replay_request u command :
  command_request_wf command -> asks_for_replay u command = true ->
  let o := RunItem env (RequestItem (CommandRequest_ToCanFrame command)) u in
  let device := un_device u in
  let s := un_state u in
  let records := filter (fun r => lr_is_withdrawn r = false) (local_records_ s) in
  handler_calls (effects_of o) = [] /\
  (creq_target_device_id command = DEVICE_ID_BROADCAST ->
     frames_sent (effects_of o) = [] /\
     state_of o = if IsOnline device && is_started_ s && st_tasks_created_ s
                  then schedule_task env ReplayTask (staggered_message_delay_ device) u else u) /\
  (creq_target_device_id command <> DEVICE_ID_BROADCAST ->
     state_of o = u /\
     frames_sent (effects_of o) =
       if bool_decide (creq_target_device_id command = device_id_ device) && IsOnline device && is_started_ s && env_bus_valid env
       then (frame_of device (st_base_can_id_ s) <$> records) ++
            [response_frame (un_command u) (ResponseTo device command RESULT_SUCCESS [u8 (Z.of_nat (length records))])]
       else []).
Proof.
  intros Hwf Hask. cbv zeta. unfold RunItem, on_command, on_part.
  rewrite (replay_request_effects u command Hwf Hask). unfold state_of, effects_of. cbn [fst snd]. rewrite unit_command_same.
  destruct (for_unit u command && IsOnline (un_device u)) eqn:Hfor.
  - apply andb_true_iff in Hfor as [Hfor Hon]. rewrite Hon. rewrite deliver_all_cons, deliver_replay, ProcessSyncRequest_run, Hon.
    unfold for_unit in Hfor. destruct (bool_decide_reflect (creq_target_device_id command = DEVICE_ID_BROADCAST)) as [Eb|Eb].
    + split; [done|]. by split.
    + rewrite orb_false_r in Hfor. rewrite Hfor. cbn [andb].
      assert (forall l, handler_calls (notification (un_device u) (st_base_can_id_ (un_state u)) <$> l) = []) as Hno
        by (intros l; induction l as [|r l IH]; done).
      assert (forall r, handler_calls (response_effects env (un_device u) (creq_target_device_id command) (un_command u) r) = []) as Hno2.
      { intros r. unfold response_effects. destruct (env_bus_valid env); [|done]. by destruct (bool_decide _). }
      destruct (is_started_ (un_state u)); cbn [andb result_of snd]; [|by split_and!].
      rewrite deliver_all_leaving, response_outputs by apply response_leaves. cbn [fst snd].
      unfold handler_calls in *. rewrite filter_app, Hno2, frames_sent_app, response_sent. split_and!; [|done|intros _; split; [done|]].
      * destruct (env_bus_valid env); [by rewrite Hno|done].
      * destruct (env_bus_valid env); [by rewrite frames_notification|done].
  - split; [done|]. split.
    + intros Eb. split; [done|]. unfold for_unit in Hfor. rewrite (bool_decide_eq_true_2 (_ = DEVICE_ID_BROADCAST)), orb_true_r in Hfor by done.
      cbn [andb] in Hfor. by rewrite Hfor.
    + intros Eb. split; [done|]. unfold for_unit in Hfor. rewrite (bool_decide_eq_false_2 (_ = DEVICE_ID_BROADCAST)), orb_false_r in Hfor by done.
      by rewrite Hfor.
Qed.
End requests.

(** C26. What a request on the wire makes a unit do, whatever the request holds and whatever the handlers answer or
    throw.  A STATE_SYNC_REQUEST to this unit, ONLINE and with its state service started, sends a notification of
    every record that is not withdrawn, in their order, and then one response with their number; broadcast, it
    sends nothing now and schedules the replay after the unit's own stagger.  Any other request leaves the unit
    as it was, calls at most one handler, the one registered for its code, with its transaction ID and data, and
    then sends at most one frame: a response of this device on the response identifier, with the command code and
    the transaction ID of the request.  Nothing is sent for a request to another unit, nor for a broadcast service
    command other than STATUS_REQUEST, nor for a broadcast user command unless the unit is ONLINE, nor without a
    bus. *)
Theorem request_is_answered_at_most_once `{CdmpConfig} `{UnorderedIter} `{Crc8} `{HandlerAnswers} env u command :
  command_request_wf command ->
  let o := RunItem env (RequestItem (CommandRequest_ToCanFrame command)) u in
  let device := un_device u in
  let s := un_state u in
  let records := filter (fun r => lr_is_withdrawn r = false) (local_records_ s) in
  let frames := frames_sent (effects_of o) in
  if asks_for_replay u command then
    handler_calls (effects_of o) = [] /\
    (creq_target_device_id command = DEVICE_ID_BROADCAST ->
       frames = [] /\
       state_of o = if IsOnline device && is_started_ s && st_tasks_created_ s
                    then schedule_task env ReplayTask (staggered_message_delay_ device) u else u) /\
    (creq_target_device_id command <> DEVICE_ID_BROADCAST ->
       state_of o = u /\
       frames =
         if bool_decide (creq_target_device_id command = device_id_ device) && IsOnline device && is_started_ s && env_bus_valid env
         then ((fun r => (GetStateChangeRequestCanId (st_base_can_id_ s), StateChange_ToCanFrame (RecordMessage device r))) <$> records) ++
              [response_frame (un_command u) (ResponseTo device command RESULT_SUCCESS [u8 (Z.of_nat (length records))])]
         else [])
  else
    state_of o = u /\ handler_call (un_command u) command (handler_calls (effects_of o)) /\
    (frames = [] \/
     exists result_code data,
       frames = [response_frame (un_command u) (ResponseTo device command result_code data)] /\
       env_bus_valid env = true /\
       (creq_target_device_id command = device_id_ device \/
        creq_target_device_id command = DEVICE_ID_BROADCAST /\
        (creq_command_code command = STATUS_REQUEST \/
         IsValidServiceCommandCode (creq_command_code command) = false /\ GetStatus device = ONLINE))).
Proof.
  intros Hwf o device s records frames. destruct (asks_for_replay u command) eqn:Hask; [by apply replay_request|].
  destruct (other_request env u command Hwf Hask) as (Est & calls & sent & Eeff & Hc & Hs). fold o in Est, Eeff.
  assert (handler_calls sent = [] /\ (frames_sent sent = [] \/ exists rc d,
    frames_sent sent = [response_frame (un_command u) (ResponseTo device command rc d)] /\ env_bus_valid env = true /\
    may_answer device command)) as [Hno Hsent].
  { destruct Hs as [->|(rc & d & -> & Hb & Ha)]; [by split; [|left]|]. split.
    - unfold response_effects. rewrite Hb. by destruct (bool_decide _).
    - right. exists rc, d. by rewrite response_sent, Hb. }
  assert (frames_sent calls = [] /\ handler_calls calls = calls) as [Hnone Hcalls]
    by (by destruct Hc as [->|[(h & _ & ->)|(h & _ & _ & _ & ->)]]).
  unfold frames. rewrite Eeff, frames_sent_app, Hnone. unfold handler_calls in *. rewrite filter_app, Hno, app_nil_r, Hcalls. by split_and!.
Qed.

(** A unit with two records, asked for them. *)
#[local] Existing Instance default_config.
#[local] Existing Instance some_iter.
#[local] Existing Instance sample_crc.
#[local] Existing Instance echo_answers.
Definition asked_unit : CdmpUnit :=
  mkUnit (NewNetworkService (online_device 1) 1792) (NewHeartbeatService 1792)
    (NewCommandService 1792 <| service_command_handlers_ := {[ STATE_SYNC_REQUEST := SYNC_REQUEST_HANDLER ]} |>)
    (run_state_steps sample_announcement (NewStateService 1792)).1 RUNNING true true true [] [] [].

Lemma request_is_answered_at_most_once_witness :
  frames_sent (effects_of (RunItem (mkEnv 0 true) (RequestItem (CommandRequest_ToCanFrame (mkCommandRequest 1 STATE_SYNC_REQUEST 9 []))) asked_unit)) =
    [(Standard 1796, [1; 1; 1; 7]); (Standard 1796, [1; 2; 2; 8; 9]); (Standard 1795, [1; STATE_SYNC_REQUEST; 9; 0; 2])].
Proof.
  pose proof (request_is_answered_at_most_once (mkEnv 0 true) asked_unit (mkCommandRequest 1 STATE_SYNC_REQUEST 9 [])) as Hr.
  destruct Hr as (_ & _ & Hown); [apply (bool_decide_eq_true_1 _); vm_compute; reflexivity|].
  destruct Hown as [_ ->]; [discriminate|]. vm_compute. reflexivity.
Defined.
