(* ===== verification/CdmpUnitCalls.v ===== *)
(** * CDMP unit: the calls between the services come to an end

    The services call each other from inside their methods: status handlers, device events, heartbeats,
    requests for a replay.  How deep these calls nest, and what holds after all of them. *)

From S2P Require Import Prelude Can Cdmp CdmpMessages CdmpEffects CdmpTransactions Service CdmpNetwork CdmpHeartbeat CdmpCommand CdmpState CdmpUnit.

(** ** How deep the calls of an effect nest *)

Definition nesting (e : Effect) : nat :=
  match e with
  | HeartbeatReceived _ => 3
  | NotifyHeartbeat _ => 2
  | CallStatusHandler _ | NotifyDeviceEvent _ _ | CallServiceCommandHandler _ _ | SendSyncRequest _ => 1
  | _ => 0
  end.

Definition nests_below (n : nat) (e : Effect) : Prop := (nesting e < n)%nat.

Section calls.
Context `{CdmpConfig} `{UnorderedIter} `{Crc8} `{HandlerAnswers} (env : Env).

#[local] Abbreviation below n := (respects (emits_only (nests_below n))).
#[local] Ltac solve_below := repeat (apply Forall_cons_2); try apply Forall_nil_2; unfold nests_below; simpl; lia.
#[local] Hint Extern 3 (emits_only _ _ _ _) => solve_below : respects.
#[local] Ltac calls := respect; try solve_below; auto with respects.

Lemma emit_below {S} n (s s' : S) e : Forall (nests_below n) e -> emits_only (nests_below n) s e s'.
Proof. done. Qed.

Lemma Transition_below {S} n (W : ServiceWork S Effect) work p q : below n work -> below n (Transition W work p q).
Proof.
  intros Hw s. specialize (Hw s). unfold Transition, state_of, effects_of in *.
  by destruct (work s) as [[s1 e1] [[]|x|]].
Qed.
Lemma Stop_below {S} n (W : ServiceWork S Effect) : below n (sw_stop W) -> below n (Stop W).
Proof.
  intros Hw. unfold Stop, SetState. calls. by apply Transition_below.
Qed.

Lemma NetworkOnDeviceStatusChanged_below st : below 1 (NetworkOnDeviceStatusChanged env st).
Proof.
  assert (below 1 (NetworkStop env)).
  { apply Stop_below. cbn [sw_stop NetworkWorkOf]. unfold NetworkDoStop, NetworkUnregisterCanHandlers, ClearAllDevices. calls. }
  unfold NetworkOnDeviceStatusChanged, StartValidationTask, RunWork. calls.
Qed.
Lemma HeartbeatOnDeviceStatusChanged_below device st : below 1 (HeartbeatOnDeviceStatusChanged env device st).
Proof.
  assert (below 1 (HeartbeatStop env device)).
  { apply Stop_below. cbn [sw_stop HeartbeatWorkOf]. unfold HeartbeatDoStop, HeartbeatUnregisterCanHandlers. calls. }
  unfold HeartbeatOnDeviceStatusChanged, StartHeartbeatTask. calls.
Qed.

Lemma on_transactions_below {A} n (m : TxM A) : below n m -> below n (on_transactions m).
Proof.
  intros Hm s. specialize (Hm (transaction_service_ s)). unfold on_transactions, state_of, effects_of in *.
  by destruct (m _) as [[t e] r].
Qed.
Lemma CommandOnDeviceStatusChanged_below st : below 1 (CommandOnDeviceStatusChanged st).
Proof.
  unfold CommandOnDeviceStatusChanged. case_match; apply on_transactions_below.
  - unfold StartTransactionService. calls.
  - unfold StopTransactionService, InvokeCallback. calls.
Qed.
Lemma SendCommand_below target code data cb : below 1 (SendCommand env target code data cb).
Proof.
  unfold SendCommand. assert (forall a b c d, below 1 (on_transactions (StartTransaction (env_now env) a b c d))).
  { intros. apply on_transactions_below. unfold StartTransaction, GetNextTransactionId. calls. }
  calls.
Qed.

Lemma ScheduleStateHandlers_below : below 1 ScheduleStateHandlers.
Proof. unfold ScheduleStateHandlers. calls. Qed.
#[local] Hint Resolve ScheduleStateHandlers_below SendCommand_below : respects.
Lemma RemoveRemoteRecords_below p : below 1 (RemoveRemoteRecords p).
Proof. unfold RemoveRemoteRecords, set_changed_types. calls. Qed.
#[local] Hint Resolve RemoveRemoteRecords_below : respects.
Lemma ForgetNetwork_below : below 1 ForgetNetwork.
Proof. unfold ForgetNetwork. calls. Qed.
#[local] Hint Resolve ForgetNetwork_below : respects.
Lemma StateOnDeviceStatusChanged_below old new : below 1 (StateOnDeviceStatusChanged old new).
Proof. unfold StateOnDeviceStatusChanged. calls. Qed.
Lemma OnDeviceEvent_below event info : below 1 (OnDeviceEvent event info).
Proof. unfold OnDeviceEvent, mark_stale, DropSource. calls. Qed.
Lemma ProcessSyncRequest_below device request : below 1 (ProcessSyncRequest env device request).
Proof. unfold ProcessSyncRequest, ReplayRecords, SendNotification. calls. Qed.
Lemma below_le {S A} n k (m : M S Effect A) : below n m -> (n <= k)%nat -> below k m.
Proof. intros Hm Hk s. apply (Forall_impl _ _ _ (Hm s)). unfold nests_below. lia. Qed.
Lemma OnHeartbeat_below device heartbeat : below 2 (OnHeartbeat env device heartbeat).
Proof.
  unfold OnHeartbeat. assert (forall x, below 2 (StartSyncRequest env x)).
  { intros x. unfold StartSyncRequest, AddSourceState. calls. }
  assert (forall p, below 2 (RemoveRemoteRecords p)) by (intros; eapply below_le; [apply RemoveRemoteRecords_below|lia]).
  unfold mark_stale. calls.
Qed.
Lemma UpdateDeviceFromHeartbeat_below heartbeat : below 3 (UpdateDeviceFromHeartbeat env heartbeat).
Proof.
  unfold UpdateDeviceFromHeartbeat, FindPendingIdClaim, ExpirePendingIdClaims, AddOrUpdateDevice, UpdateNetworkDevices,
    UpdateLowestIdOnNetwork, UpdateStaggeredMessageDelay, DeviceInfoAt, ClearClaim, RequestRediscovery,
    SendDiscoveryRequest. calls.
Qed.

(** A call nests deeper than any call it makes. *)
Lemma react_below e u : Forall (nests_below (nesting e)) (react env e u).2.
Proof.
  destruct e as [| | |?|[[] ? ?]|event info|?|?|?|?|?|? ? ?|target|?|?|heartbeat|?|handler request]; try apply Forall_nil_2.
  - apply NetworkOnDeviceStatusChanged_below.
  - apply HeartbeatOnDeviceStatusChanged_below.
  - apply CommandOnDeviceStatusChanged_below.
  - apply StateOnDeviceStatusChanged_below.
  - apply OnDeviceEvent_below.
  - apply OnHeartbeat_below.
  - refine (respects_bind (emits_only (nests_below 1)) _ _ _ _ (un_command u)); [|intros; apply respects_ret, _].
    apply SendCommand_below.
  - apply UpdateDeviceFromHeartbeat_below.
  - unfold react. case_bool_decide; [|apply Forall_nil_2].
    refine (respects_bind (emits_only (nests_below 1)) _ _ _ _ (un_state u)); [|intros; apply respects_ret, _].
    apply ProcessSyncRequest_below.
Qed.

(** ** Delivery without a bound

    [delivers es u u' out]: each effect in order makes its calls, which are delivered before the next one;
    the outputs come in the order in which they happen. *)

Definition own_output (e : Effect) : list Effect := if is_output e then [e] else [].

Inductive delivers : list Effect -> CdmpUnit -> CdmpUnit -> list Effect -> Prop :=
| delivers_nil u : delivers [] u u []
| delivers_cons e es u u1 u2 out1 out2 :
    delivers (react env e u).2 (react env e u).1 u1 out1 ->
    delivers es u1 u2 out2 ->
    delivers (e :: es) u u2 (own_output e ++ out1 ++ out2).

Lemma delivers_det es u u1 u2 out1 out2 :
  delivers es u u1 out1 -> delivers es u u2 out2 -> u1 = u2 /\ out1 = out2.
Proof.
  intros Hd. revert u2 out2. induction Hd as [|e es u u1 u1' o1 o1' _ IH1 _ IH2]; intros u2 out2 Hd2.
  - by inversion Hd2.
  - inversion Hd2 as [|? ? ? v1 ? p1 p2 Da Db]; subst.
    destruct (IH1 _ _ Da) as [-> ->]. by destruct (IH2 _ _ Db) as [-> ->].
Qed.

Definition deliver_list (n : nat) (es : list Effect) (p : CdmpUnit * list Effect) : CdmpUnit * list Effect :=
  foldl (fun '(u, out) e => let '(u, more) := deliver env n e u in (u, out ++ more)) p es.

Lemma deliver_list_delivers n es p :
  (forall e u, e ∈ es -> exists u' out, deliver env n e u = (u', own_output e ++ out) /\
     delivers (react env e u).2 (react env e u).1 u' out) ->
  exists out, deliver_list n es p = ((deliver_list n es p).1, p.2 ++ out) /\
    delivers es p.1 (deliver_list n es p).1 out.
Proof.
  revert p. induction es as [|e es IH]; intros [u out0] Hes.
  - exists []. cbn. rewrite app_nil_r. split; [done|constructor].
  - destruct (Hes e u) as (u1 & out1 & E & D1); [by left|].
    destruct (IH (u1, out0 ++ own_output e ++ out1)) as (out2 & E2 & D2); [intros; apply Hes; by right|].
    assert (deliver_list n (e :: es) (u, out0) = deliver_list n es (u1, out0 ++ own_output e ++ out1)) as ->.
    { unfold deliver_list. cbn [foldl]. by rewrite E. }
    exists (own_output e ++ out1 ++ out2). split; [|by econstructor].
    rewrite E2. cbn [fst snd]. by rewrite <- !app_assoc.
Qed.

Lemma deliver_delivers n e u :
  (nesting e < n)%nat ->
  exists u' out, deliver env n e u = (u', own_output e ++ out) /\ delivers (react env e u).2 (react env e u).1 u' out.
Proof.
  revert e u. induction n as [|n IH]; intros e u Hn; [lia|].
  pose proof (react_below e u) as Hb. rewrite Forall_forall in Hb.
  destruct (deliver_list_delivers n (react env e u).2 ((react env e u).1, own_output e)) as (out & E & D).
  { intros e' u' He'. apply IH. specialize (Hb e' He'). unfold nests_below in Hb. lia. }
  eexists _, out. split; [|exact D]. refine (eq_trans _ E). cbn [deliver].
  by destruct (react env e u).
Qed.

Lemma nesting_bound e : (nesting e < DELIVERY_DEPTH)%nat.
Proof. unfold DELIVERY_DEPTH. destruct e; simpl; lia. Qed.

Lemma deliver_all_delivers es u : delivers es u (deliver_all env es u).1 (deliver_all env es u).2.
Proof.
  destruct (deliver_list_delivers DELIVERY_DEPTH es (u, [])) as (out & E & D).
  { intros e u' _. apply deliver_delivers, nesting_bound. }
  change (deliver_list DELIVERY_DEPTH es (u, [])) with (deliver_all env es u) in E, D.
  rewrite E. exact D.
Qed.

(** An assertion on the unit and the effects not yet delivered. *)
Lemma delivers_keeps (I : CdmpUnit -> list Effect -> Prop) es u u' out rest :
  (forall u e rest, I u (e :: rest) -> I (react env e u).1 ((react env e u).2 ++ rest)) ->
  delivers es u u' out -> I u (es ++ rest) -> I u' rest.
Proof.
  intros Hstep D. revert rest. induction D as [|e es u u1 u2 o1 o2 _ IH1 _ IH2]; intros rest Hi; [done|].
  apply IH2, IH1, Hstep, Hi.
Qed.
Lemma deliver_all_keeps (I : CdmpUnit -> list Effect -> Prop) es u :
  (forall u e rest, I u (e :: rest) -> I (react env e u).1 ((react env e u).2 ++ rest)) ->
  I u es -> I (deliver_all env es u).1 [].
Proof.
  intros Hstep Hi. eapply delivers_keeps; [exact Hstep|apply deliver_all_delivers|by rewrite app_nil_r].
Qed.
End calls.

(** C3. The calls between the services end: whatever effects a method has on a unit in whatever state, and
    whatever the calls these make do in turn, there is exactly one outcome of delivering them all, and the
    bounded delivery of the model, which follows calls four deep, reaches it.  So no status change, device
    event, heartbeat or request for a replay sets off an endless exchange between the services. *)
Theorem delivery_ends `{CdmpConfig} `{UnorderedIter} `{Crc8} `{HandlerAnswers} env es u :
  delivers env es u (deliver_all env es u).1 (deliver_all env es u).2 /\
  forall u' out, delivers env es u u' out -> (u', out) = deliver_all env es u.
Proof.
  split; [apply deliver_all_delivers|]. intros u' out D.
  destruct (delivers_det env _ _ _ _ _ _ D (deliver_all_delivers env es u)) as [-> ->]. by destruct (deliver_all env es u).
Qed.
