(* ===== verification/CdmpUnitSpec.v ===== *)
(** * CDMP unit: what holds of the services side by side

    What each method of a service leaves to the others, the invariants of the services as one of the unit, and
    that every call between the services keeps it, with the digest that the device advertises. *)

From S2P Require Import Prelude Can Cdmp CdmpMessages CdmpEffects CdmpTransactions Service CdmpNetwork CdmpNetworkSpec CdmpHeartbeat CdmpCommand CdmpState CdmpStateLocal CdmpStateAcks CdmpStateSend CdmpStateCopies CdmpUnit CdmpUnitCalls.

(** ** What the effects of the services keep *)

(** The bytes of the wire stay bytes on their way. *)
Definition effect_wf (e : Effect) : Prop :=
  match e with
  | RunInSession _ (WorkProcessFrame frame) => Forall is_u8 frame
  | HeartbeatReceived heartbeat => is_u8 (hb_device_id heartbeat)
  | _ => True
  end.
Definition item_wf (i : WorkItem) : Prop :=
  match i with
  | NetworkItem _ (WorkProcessFrame frame) | HeartbeatItem frame | RequestItem frame | ResponseItem frame => Forall is_u8 frame
  | _ => True
  end.

Definition sets_digest (e : Effect) : bool := match e with SetStateDigest _ => true | _ => false end.
Definition fine (e : Effect) : Prop := effect_wf e /\ sets_digest e = false.

Lemma fine_digests es : Forall fine es -> digests es = [].
Proof. induction 1 as [|e es [_ He] _ IH]; [done|]. unfold digests in *. destruct e; simpl in *; done. Qed.
Lemma fine_wf es : Forall fine es -> Forall effect_wf es.
Proof. intros Hes. apply (Forall_impl _ _ _ Hes). by intros e []. Qed.

(** The other services change no status and tell of no device; the state service also hands on digests. *)
Definition plain (e : Effect) : Prop :=
  match e with
  | CallStatusHandler _ | NotifyDeviceEvent _ _ | RunInSession _ _ | SetStateDigest _ => False
  | HeartbeatReceived heartbeat => is_u8 (hb_device_id heartbeat)
  | _ => True
  end.
Definition state_effect (e : Effect) : Prop :=
  match e with
  | CallStatusHandler _ | NotifyDeviceEvent _ _ | RunInSession _ _ | HeartbeatReceived _ => False
  | _ => True
  end.
Lemma plain_fine es : Forall plain es -> Forall fine es.
Proof. intros Hes. apply (Forall_impl _ _ _ Hes). by intros []. Qed.
Lemma state_effect_wf es : Forall state_effect es -> Forall effect_wf es.
Proof. intros Hes. apply (Forall_impl _ _ _ Hes). by intros []. Qed.

(** The network service changes the device, but not its digest. *)
Definition net_fine (s : NetworkService) (e : list Effect) (s' : NetworkService) : Prop :=
  Forall fine e /\ state_digest_ (device_ s') = state_digest_ (device_ s).
#[export] Instance net_fine_trace : TraceRel net_fine.
Proof.
  split; [intros s; split; [constructor|done]|]. intros s1 s2 s3 e1 e2 [H1 E1] [H2 E2].
  split; [by apply Forall_app|congruence].
Qed.

Section fine.
Context `{CdmpConfig} `{UnorderedIter} `{Crc8} `{HandlerAnswers} (env : Env).

#[local] Ltac one_fine := repeat (apply Forall_cons_2); try apply Forall_nil_2; split; done.
#[local] Hint Extern 3 (emits_only fine _ _ _) => one_fine : respects.
#[local] Hint Extern 3 (net_fine _ _ _) => (split; [one_fine|reflexivity]) : respects.
#[local] Ltac fines := respect; try solve [auto with respects]; try (split; [one_fine|reflexivity]); try one_fine.

Lemma Status_digest new force d : state_digest_ (DeviceSetStatus new force d).1 = state_digest_ d.
Proof. unfold DeviceSetStatus. by destruct (SetStatus new force (status_machine_ d)). Qed.

Lemma OwnDevice_fine op :
  (forall d, state_digest_ (op d).1 = state_digest_ d) -> respects net_fine (OwnDevice op).
Proof.
  intros Hop s. unfold OwnDevice. rewrite bind_get. specialize (Hop (device_ s)).
  destruct (op (device_ s)) as [d calls]. rewrite bind_modify. split; [|done].
  apply Forall_fmap, Forall_true. done.
Qed.
Lemma OwnDevice_status_fine new force : respects net_fine (OwnDevice (DeviceSetStatus new force)).
Proof. apply OwnDevice_fine, Status_digest. Qed.
#[local] Hint Resolve OwnDevice_status_fine : respects.

(** *** The network service *)

Lemma FindPendingIdClaim_fine id : respects net_fine (FindPendingIdClaim env id).
Proof. unfold FindPendingIdClaim, ExpirePendingIdClaims. fines. Qed.
Lemma StorePendingIdClaim_fine c : respects net_fine (StorePendingIdClaim env c).
Proof. pose proof FindPendingIdClaim_fine. unfold StorePendingIdClaim. fines. Qed.
Lemma UpdateNetworkDevices_fine : respects net_fine UpdateNetworkDevices.
Proof. unfold UpdateNetworkDevices, UpdateLowestIdOnNetwork, UpdateStaggeredMessageDelay. fines. Qed.
#[local] Hint Resolve FindPendingIdClaim_fine StorePendingIdClaim_fine UpdateNetworkDevices_fine : respects.
Lemma AddOrUpdateDevice_fine id uid f : respects net_fine (AddOrUpdateDevice env id uid f).
Proof. unfold AddOrUpdateDevice. fines. Qed.
Lemma RemoveDevice_fine id : respects net_fine (RemoveDevice id).
Proof. unfold RemoveDevice. fines. Qed.
Lemma SendDiscoveryRequest_fine : respects net_fine (SendDiscoveryRequest env).
Proof. unfold SendDiscoveryRequest. fines. Qed.
#[local] Hint Resolve AddOrUpdateDevice_fine RemoveDevice_fine SendDiscoveryRequest_fine : respects.
Lemma UpdateDeviceFromHeartbeat_fine hb : respects net_fine (UpdateDeviceFromHeartbeat env hb).
Proof. unfold UpdateDeviceFromHeartbeat, DeviceInfoAt, ClearClaim, RequestRediscovery. fines. Qed.
Lemma UpdateDeviceFromDiscovery_fine m : respects net_fine (UpdateDeviceFromDiscovery env m).
Proof. unfold UpdateDeviceFromDiscovery, DeviceInfoAt, ClearClaim, FindDeviceIdByUid. fines. Qed.
Lemma RecordIdClaim_fine c : respects net_fine (RecordIdClaim env c).
Proof. unfold RecordIdClaim, FindDeviceIdByUid. fines. Qed.
#[local] Hint Resolve UpdateDeviceFromDiscovery_fine RecordIdClaim_fine : respects.
Lemma ProcessDiscoveryRequestFrame_fine f : respects net_fine (ProcessDiscoveryRequestFrame f).
Proof. unfold ProcessDiscoveryRequestFrame, RunWork. fines. Qed.
Lemma ProcessDiscoveryResponseFrame_fine f : respects net_fine (ProcessDiscoveryResponseFrame env f).
Proof. unfold ProcessDiscoveryResponseFrame, EnterError. fines. Qed.
Lemma ProcessIdClaimRequestFrame_fine f : respects net_fine (ProcessIdClaimRequestFrame env f).
Proof. unfold ProcessIdClaimRequestFrame. fines. Qed.
Lemma ProcessIdClaimResponseFrame_fine f : respects net_fine (ProcessIdClaimResponseFrame f).
Proof. unfold ProcessIdClaimResponseFrame. fines. Qed.
#[local] Hint Resolve ProcessDiscoveryRequestFrame_fine ProcessDiscoveryResponseFrame_fine ProcessIdClaimRequestFrame_fine
  ProcessIdClaimResponseFrame_fine : respects.
Lemma ProcessFrame_fine f : respects net_fine (ProcessFrame env f).
Proof. unfold ProcessFrame. fines. Qed.
Lemma SelectNextId_fine : respects net_fine (SelectNextId env).
Proof.
  assert (forall i, respects net_fine (GetLowestAvailableId env i)) as Hlow.
  { intros i. unfold GetLowestAvailableId. generalize 256%nat, (u8 (i + 1)). intros n.
    induction n as [|n IH]; intros z; cbn [LowestAvailableFrom]; fines. }
  intros s. unfold SelectNextId. pose proof (Hlow (claiming_device_id_ s) s) as [He Hd].
  destruct (GetLowestAvailableId env _ s) as [[s1 e1] [j|x|]]; cbn [effects_of state_of fst snd] in *.
  - exact (conj He Hd).
  - split; [|exact Hd]. apply Forall_app. split; [exact He|one_fine].
  - exact (conj He Hd).
Qed.
#[local] Hint Resolve ProcessFrame_fine UpdateDeviceFromHeartbeat_fine SelectNextId_fine : respects.

Lemma Transition_fine {S} (R : S -> list Effect -> S -> Prop) `{!TraceRel R} (W : ServiceWork S Effect) work p q :
  (forall st s, R s [] (sw_set_state W st s)) -> respects R work -> respects R (Transition W work p q).
Proof.
  intros Hset Hw s. specialize (Hw s). unfold Transition, state_of, effects_of in *.
  destruct (work s) as [[s1 e1] [[]|x|]]; simpl in *; try done; rewrite <- (app_nil_r e1); by eapply trace_app.
Qed.
Lemma Start_fine {S} (R : S -> list Effect -> S -> Prop) `{!TraceRel R} (W : ServiceWork S Effect) :
  (forall st s, R s [] (sw_set_state W st s)) -> respects R (sw_start W) -> respects R (Start W).
Proof. intros Hset Hw. unfold Start, SetState. respect; first [by apply Transition_fine|apply Hset]. Qed.
Lemma Stop_fine {S} (R : S -> list Effect -> S -> Prop) `{!TraceRel R} (W : ServiceWork S Effect) :
  (forall st s, R s [] (sw_set_state W st s)) -> respects R (sw_stop W) -> respects R (Stop W).
Proof. intros Hset Hw. unfold Stop, SetState. respect; first [by apply Transition_fine|apply Hset]. Qed.

Lemma NetworkStop_fine : respects net_fine (NetworkStop env).
Proof.
  apply Stop_fine; [apply _|done|]. cbn [sw_stop NetworkWorkOf].
  unfold NetworkDoStop, NetworkUnregisterCanHandlers, ClearAllDevices. fines.
Qed.
Lemma NetworkStart_fine register : respects net_fine (NetworkStart env register).
Proof.
  apply Start_fine; [apply _|done|]. cbn [sw_start NetworkWorkOf].
  unfold NetworkDoStart, NetworkRegisterCanHandlers, RegisterReceiveHandler, ClearAllDevices, StartValidationTask. fines.
Qed.
#[local] Hint Resolve NetworkStop_fine NetworkStart_fine : respects.

Definition keeps_digest (op : NetOp) : Prop := match op with OpDevice _ => False | _ => True end.
Lemma run_op_fine op : keeps_digest op -> respects net_fine (run_op env op).
Proof.
  destruct op; intros Hop; cbn [run_op]; try done; try solve [auto with respects].
  - unfold RunQueuedWork, StartInitialization, StartIdClaim, SendDiscoveryResponse, EnterVersionMismatch, EnterError. fines.
  - unfold RunDiscoveryAttempt, ClaimId. fines.
  - unfold RunIdClaimAttempt, DropClaim, RunWork, CompleteIdClaim, SendNextClaim, SendIdClaim, GoOnline. fines.
  - unfold ProcessPeriodicValidation, ProcessPeriodicTasks, RemoveOfflineDevices. fines.
  - unfold Initialize. cbn [sw_initialize sw_state NetworkWorkOf]. unfold NetworkDoInitialize. fines.
  - fines.
  - fines.
  - unfold NetworkOnDeviceStatusChanged, StartValidationTask, RunWork. fines.
Qed.

(** *** The heartbeat service *)

#[local] Abbreviation all_fine := (respects (emits_only plain)).
#[local] Ltac one_plain := repeat (apply Forall_cons_2); try apply Forall_nil_2; done.
#[local] Hint Extern 3 (emits_only plain _ _ _) => one_plain : respects.
#[local] Ltac plains := respect; try solve [auto with respects]; try one_plain.

Lemma Heartbeat_id_u8 f m : Forall is_u8 f -> Heartbeat_FromCanFrame f = Ok m -> is_u8 (hb_device_id m).
Proof.
  intros Hf. unfold Heartbeat_FromCanFrame. case_match; [done|]. unfold mbind, res_bind, rd.
  destruct (f !! 0%nat) as [b|] eqn:E; [|done]. rewrite Forall_forall in Hf.
  assert (is_u8 b) by (apply Hf; by eapply list_elem_of_lookup_2).
  repeat (case_match; try done). by intros [= <-].
Qed.

Lemma HeartbeatStop_fine device : all_fine (HeartbeatStop env device).
Proof.
  apply Stop_fine; [apply _|constructor|]. cbn [sw_stop HeartbeatWorkOf].
  unfold HeartbeatDoStop, HeartbeatUnregisterCanHandlers. plains.
Qed.
Lemma HeartbeatStart_fine device register : all_fine (Start (HeartbeatWorkOf env device register)).
Proof.
  apply Start_fine; [apply _|constructor|]. cbn [sw_start HeartbeatWorkOf].
  unfold HeartbeatDoStart, HeartbeatRegisterCanHandlers, RegisterReceiveHandler, StartHeartbeatTask. plains.
Qed.
Lemma HeartbeatInitialize_fine device register : all_fine (Initialize (HeartbeatWorkOf env device register)).
Proof. unfold Initialize. cbn [sw_initialize HeartbeatWorkOf]. unfold HeartbeatDoInitialize. plains. Qed.
#[local] Hint Resolve HeartbeatStop_fine : respects.
Lemma HeartbeatOnDeviceStatusChanged_fine device st : all_fine (HeartbeatOnDeviceStatusChanged env device st).
Proof. unfold HeartbeatOnDeviceStatusChanged, StartHeartbeatTask. plains. Qed.
Lemma ProcessPeriodicHeartbeat_fine device : all_fine (ProcessPeriodicHeartbeat env device).
Proof. unfold ProcessPeriodicHeartbeat, SendHeartbeat. plains. Qed.
Lemma HeartbeatProcessFrame_fine f : Forall is_u8 f -> all_fine (HeartbeatProcessFrame f).
Proof.
  intros Hf. unfold HeartbeatProcessFrame. apply respects_try. intros s.
  destruct (Heartbeat_FromCanFrame f) as [m|x|] eqn:E; [|constructor..].
  apply Forall_singleton. by eapply Heartbeat_id_u8.
Qed.

(** *** The command service *)

Lemma on_transactions_fine {A} (m : TxM A) : all_fine m -> all_fine (on_transactions m).
Proof.
  intros Hm s. specialize (Hm (transaction_service_ s)). unfold on_transactions, state_of, effects_of in *.
  by destruct (m _) as [[t e] r].
Qed.
Lemma InvokeCallback_fine t rc data : all_fine (InvokeCallback t rc data).
Proof. unfold InvokeCallback. plains. Qed.
#[local] Hint Resolve InvokeCallback_fine on_transactions_fine : respects.
Lemma CommandStop_fine register : all_fine (Stop (CommandWorkOf env register)).
Proof.
  apply Stop_fine; [apply _|constructor|]. cbn [sw_stop CommandWorkOf]. unfold CommandDoStop, CommandUnregisterCanHandlers. plains.
Qed.
Lemma CommandStart_fine register : all_fine (Start (CommandWorkOf env register)).
Proof.
  apply Start_fine; [apply _|constructor|]. cbn [sw_start CommandWorkOf].
  unfold CommandDoStart, CommandRegisterCanHandlers, RegisterReceiveHandler. plains.
Qed.
Lemma CommandInitialize_fine register : all_fine (Initialize (CommandWorkOf env register)).
Proof.
  unfold Initialize. cbn [sw_initialize CommandWorkOf]. unfold CommandDoInitialize, InitializeTransactions. plains.
  apply on_transactions_fine. plains.
Qed.
Lemma CommandOnDeviceStatusChanged_fine st : all_fine (CommandOnDeviceStatusChanged st).
Proof.
  unfold CommandOnDeviceStatusChanged. case_match; apply on_transactions_fine.
  - unfold StartTransactionService. plains.
  - unfold StopTransactionService. plains.
Qed.
Lemma SendCommand_fine target code data cb : all_fine (SendCommand env target code data cb).
Proof.
  unfold SendCommand. assert (forall a b c d, all_fine (on_transactions (StartTransaction (env_now env) a b c d))).
  { intros. apply on_transactions_fine. unfold StartTransaction, GetNextTransactionId. plains. }
  plains.
Qed.
Lemma Timeouts_fine t : all_fine (on_transactions (ProcessTransactionTimeouts t)).
Proof.
  apply on_transactions_fine. unfold ProcessTransactionTimeouts. plains. intros s. unfold CleanupExpiredTransactions.
  generalize (S (size (pending_transactions_ s))). intros n. revert s.
  induction n as [|n IH]; intros s; [constructor|]. cbn [CleanupLoop]. respects_goal. unfold CleanupRound. plains.
Qed.
Lemma ProcessResponseFrame_fine f : all_fine (ProcessResponseFrame f).
Proof.
  unfold ProcessResponseFrame. plains. apply on_transactions_fine. unfold CompleteTransaction. plains.
Qed.
Lemma ProcessRequestFrame_fine device (answers : HandlerAnswers) f : all_fine (@ProcessRequestFrame env device answers f).
Proof.
  assert (forall t r, all_fine (SendCommandResponse env device t r)) by (intros; unfold SendCommandResponse; plains).
  assert (forall c, all_fine (NotifyCommandHandler c)) by (intros; unfold NotifyCommandHandler; plains).
  unfold ProcessRequestFrame, ProcessServiceRequestFrame. plains.
Qed.
Lemma RegisterUserCommandHandler_fine code h : all_fine (RegisterUserCommandHandler code h).
Proof. unfold RegisterUserCommandHandler, RegisterCommandHandler. plains. Qed.
Lemma RegisterServiceCommandHandler_fine code h : all_fine (RegisterServiceCommandHandler code h).
Proof. unfold RegisterServiceCommandHandler. plains. Qed.

(** *** The state service *)

#[local] Abbreviation all_wf := (respects (emits_only state_effect)).
#[local] Hint Extern 3 (emits_only state_effect _ _ _) => (repeat (apply Forall_cons_2); try apply Forall_nil_2; done) : respects.
#[local] Ltac wfs := respect; try solve [auto with respects]; try (repeat (apply Forall_cons_2); try apply Forall_nil_2; done).

Section state.
Context (network : NetworkInfo) (device : CdmpDevice).

Lemma ScheduleStateHandlers_emits : all_wf ScheduleStateHandlers.
Proof. unfold ScheduleStateHandlers. wfs. Qed.
Lemma StampChange_emits i : all_wf (StampChange device i).
Proof. unfold StampChange, UpdateDigest, TransmitSoon. wfs. Qed.
#[local] Hint Resolve ScheduleStateHandlers_emits StampChange_emits : respects.
Lemma ClearLocalState_emits t : all_wf (ClearLocalState device t).
Proof. unfold ClearLocalState. wfs. Qed.
#[local] Hint Resolve ClearLocalState_emits : respects.
Lemma SetLocalState_emits t data : all_wf (SetLocalState device t data).
Proof. unfold SetLocalState, StoreLocalState. wfs. Qed.
Lemma RemoveRemoteRecords_emits p : all_wf (RemoveRemoteRecords p).
Proof. unfold RemoveRemoteRecords, set_changed_types. wfs. Qed.
Lemma AddSourceState_emits x : all_wf (AddSourceState env x).
Proof. unfold AddSourceState. wfs. Qed.
#[local] Hint Resolve RemoveRemoteRecords_emits AddSourceState_emits : respects.
Lemma ForgetNetwork_emits : all_wf ForgetNetwork.
Proof. unfold ForgetNetwork. wfs. Qed.
Lemma OnDeviceEvent_emits event info : all_wf (OnDeviceEvent event info).
Proof. unfold OnDeviceEvent, DropSource, mark_stale. wfs. Qed.
Lemma OnHeartbeat_emits hb : all_wf (OnHeartbeat env device hb).
Proof. unfold OnHeartbeat, StartSyncRequest, mark_stale. wfs. Qed.
#[local] Hint Resolve ForgetNetwork_emits : respects.
Lemma ReplayRecords_emits : all_wf (ReplayRecords env device).
Proof. unfold ReplayRecords, SendNotification. wfs. Qed.
#[local] Hint Resolve ReplayRecords_emits : respects.
Lemma ProcessSyncRequest_emits request : all_wf (ProcessSyncRequest env device request).
Proof. unfold ProcessSyncRequest. wfs. Qed.
Lemma Transmit_emits : all_wf (Transmit env device).
Proof. unfold Transmit, ScheduleRetransmission, SendNotification. wfs. Qed.
Lemma ApplyRecord_emits m : all_wf (ApplyRecord env m).
Proof. unfold ApplyRecord, set_changed_types, MarkOverflowed. wfs. Qed.
#[local] Hint Resolve ApplyRecord_emits : respects.
Lemma ProcessReceived_emits f : all_wf (ProcessReceived env device f).
Proof.
  unfold ProcessReceived, ProcessStateChangeFrame, ProcessStateChangeResponseFrame, SendResponse, DropFrame. wfs.
Qed.
#[local] Hint Resolve ProcessReceived_emits : respects.
Lemma ReceiveFrames_emits : all_wf (ReceiveFrames env device).
Proof. unfold ReceiveFrames. assert (forall n, all_wf (ReceiveLoop env device n)) by (induction n; simpl; wfs). wfs. Qed.
Lemma NotifyStateHandlers_emits : all_wf NotifyStateHandlers.
Proof. unfold NotifyStateHandlers. wfs. Qed.
Lemma StateUnregister_emits : all_wf (StateUnregisterCanHandlers env).
Proof. unfold StateUnregisterCanHandlers. wfs. Qed.
#[local] Hint Resolve StateUnregister_emits : respects.
Lemma StateDoStart_emits register : all_wf (StateDoStart env device register).
Proof. unfold StateDoStart, StateRegisterCanHandlers, RegisterReceiveHandler. wfs. Qed.
Lemma StateDoStop_emits : all_wf (StateDoStop env).
Proof. unfold StateDoStop. wfs. Qed.
End state.

End fine.

(** ** The promise of the network service to the state service *)

Section table_info.
Context `{UnorderedIter}.

Lemma taken_infos s capacity i :
  net_wf s -> i ∈ take capacity (ToDeviceInfo <$> (uiter (network_devices_ s)).*2) ->
  exists d, network_devices_ s !! info_device_id i = Some d /\ i = ToDeviceInfo d.
Proof.
  intros Hs Hi. apply (subseteq_take capacity) in Hi. apply list_elem_of_fmap in Hi as (d & -> & Hd).
  apply list_elem_of_fmap in Hd as ([id d'] & -> & Hid). apply elem_of_uiter in Hid.
  destruct (nw_table _ Hs _ _ Hid) as (_ & Hdev & _). exists d'. simpl. by rewrite Hdev.
Qed.

Lemma ids_of_infos s :
  net_wf s -> info_device_id <$> (ToDeviceInfo <$> (uiter (network_devices_ s)).*2) = (uiter (network_devices_ s)).*1.
Proof.
  intros Hs. rewrite <- !list_fmap_compose. apply list_fmap_ext. intros i [id d] Hi.
  apply list_elem_of_lookup_2, elem_of_uiter in Hi. by destruct (nw_table _ Hs _ _ Hi) as (_ & ? & _).
Qed.

Lemma table_info_lawful s : net_wf s -> LawfulNetworkInfo (TableInfo s).
Proof.
  intros Hs. split; cbn [TableInfo network_devices is_device_online]; unfold GetNetworkDevices.
  - intros capacity. rewrite merge_sort_Permutation, length_take. lia.
  - intros capacity. apply StronglySorted_merge_sort; intros ?; unfold info_le; lia.
  - intros capacity. rewrite merge_sort_Permutation, fmap_take, ids_of_infos by done.
    eapply sublist_NoDup; [apply (NoDup_uiter_fst (network_devices_ s))|apply sublist_take].
  - intros capacity i. rewrite merge_sort_Permutation. intros Hi Hst. apply taken_infos in Hi as (d & Hd & ->); [|done].
    unfold IsDeviceOnline. rewrite Hd. by apply bool_decide_eq_true.
Qed.
End table_info.

(** ** A step of the state service *)

Record st_wf `{CdmpConfig} (s : StateService) : Prop := {
  sw_local : local_wf s;
  sw_sending : sending_wf s;
  sw_remote : remote_wf s;
  sw_acks : acks_wf s;
}.

Section state_steps.
Context `{CdmpConfig} `{UnorderedIter} `{Crc8} `{HandlerAnswers}.

(** The last digest handed to the device, or the one it had, is that of the records. *)
Definition st_fine {A} (m : SM A) : Prop := forall s, st_wf s ->
  st_wf (state_of (m s)) /\ Forall state_effect (effects_of (m s)) /\
  forall d, d = LocalDigest (local_records_ s) ->
    default d (last (digests (effects_of (m s)))) = LocalDigest (local_records_ (state_of (m s))).

Lemma step_fine p : LawfulNetworkInfo (sp_network p) -> step_ok p -> respects (emits_only state_effect) (run_state_step p) -> st_fine (run_state_step p).
Proof.
  intros HN Hok He s [Hl Hs Hr Ha]. split_and!.
  - split; [by apply step_local_wf|by apply step_sending_wf|by apply step_remote_wf|by apply step_acks].
  - apply He.
  - intros d Hd. by apply step_digest.
Qed.
Lemma ignored_fine {A} (m : SM A) : st_fine (ignore m) -> st_fine m.
Proof. intros Hm s Hs. specialize (Hm s Hs). destruct (ignore_run m s) as [E1 E2]. by rewrite E1, E2 in Hm. Qed.
Lemma ignore_emits {A} (P : Effect -> Prop) (m : SM A) :
  respects (emits_only P) m -> respects (emits_only P) (ignore m).
Proof. intros Hm. unfold ignore. apply respects_bind; [apply _|done|]. intros ?. apply respects_ret, _. Qed.

(** Steps other than a change of this unit's records leave the digest alone. *)
Definition st_still {A} (m : SM A) : Prop := forall s, st_wf s ->
  st_wf (state_of (m s)) /\ Forall state_effect (effects_of (m s)) /\ digests (effects_of (m s)) = [] /\
  LocalDigest (local_records_ (state_of (m s))) = LocalDigest (local_records_ s).

Lemma step_still p :
  LawfulNetworkInfo (sp_network p) -> is_local_change (sp_op p) = false -> respects (emits_only state_effect) (run_state_step p) -> st_still (run_state_step p).
Proof.
  intros HN Hop He s Hs. assert (step_ok p) as Hok by (unfold step_ok; by destruct p as [? ? ? []]).
  destruct (step_fine p HN Hok He s Hs) as (Hwf & Hem & _). destruct (other_steps_kept p Hop s) as (Hpub & _ & Hd & _).
  split_and!; [done|done|done|]. unfold pub in Hpub. rewrite !LocalDigest_published. by injection Hpub as -> _.
Qed.
Lemma ignored_still {A} (m : SM A) : st_still (ignore m) -> st_still m.
Proof. intros Hm s Hs. specialize (Hm s Hs). destruct (ignore_run m s) as [E1 E2]. by rewrite E1, E2 in Hm. Qed.
Lemma ignored_still_rev {A} (m : SM A) : st_still m -> st_still (ignore m).
Proof. intros Hm s Hs. specialize (Hm s Hs). destruct (ignore_run m s) as [E1 E2]. by rewrite E1, E2. Qed.
Lemma still_fine {A} (m : SM A) : st_still m -> st_fine m.
Proof. intros Hm s Hs. destruct (Hm s Hs) as (Hwf & He & -> & ->). split_and!; [done..|]. by intros d ->. Qed.

(** The methods of the service, as steps. *)
Lemma still_by_step {A} env device network op (m : SM A) :
  LawfulNetworkInfo network -> run_state_step (mkStateStep env device network op) = ignore m -> is_local_change op = false ->
  respects (emits_only state_effect) m -> st_still m.
Proof.
  intros HN E Hop He. apply ignored_still. rewrite <- E. apply step_still; [done|done|]. rewrite E. by apply ignore_emits.
Qed.
Lemma still_by_unit_step env device network op (m : SM unit) :
  LawfulNetworkInfo network -> run_state_step (mkStateStep env device network op) = m -> is_local_change op = false ->
  respects (emits_only state_effect) m -> st_still m.
Proof. intros HN <- Hop He. by apply step_still. Qed.

Context (env : Env) (device : CdmpDevice) (network : NetworkInfo) (HN : LawfulNetworkInfo network).
#[local] Ltac by_step op := first [apply (still_by_step env device network op); [exact HN|reflexivity..|]|apply (still_by_unit_step env device network op); [exact HN|reflexivity..|]].

Lemma StateOnDeviceStatusChanged_still old new : st_still (StateOnDeviceStatusChanged old new).
Proof.
  by_step (StStatusChanged old new). unfold StateOnDeviceStatusChanged. pose proof ForgetNetwork_emits.
  respect; auto; repeat constructor.
Qed.
Lemma OnDeviceEvent_still event info : st_still (OnDeviceEvent event info).
Proof. by_step (StDeviceEvent event info). apply OnDeviceEvent_emits. Qed.
Lemma OnHeartbeat_still hb : st_still (OnHeartbeat env device hb).
Proof. by_step (StHeartbeat hb). apply OnHeartbeat_emits. Qed.
Lemma ProcessSyncRequest_still request : st_still (ProcessSyncRequest env device request).
Proof. by_step (StSyncRequest request). apply ProcessSyncRequest_emits. Qed.
Lemma Transmit_still : st_still (Transmit env device).
Proof. by_step StTransmit. apply Transmit_emits. Qed.
Lemma ReplayRecords_still : st_still (ReplayRecords env device).
Proof. by_step StReplay. apply ReplayRecords_emits. Qed.
Lemma ReceiveFrames_still : st_still (ReceiveFrames env device).
Proof. by_step StReceiveFrames. apply ReceiveFrames_emits. Qed.
Lemma NotifyStateHandlers_still : st_still NotifyStateHandlers.
Proof. by_step StNotify. apply NotifyStateHandlers_emits. Qed.
Lemma QueueFrame_still f r : st_still (QueueFrame f r).
Proof. by_step (StQueueFrame f r). unfold QueueFrame, DropFrame. respect; repeat constructor. Qed.
Lemma RegisterStateHandler_still t h : st_still (RegisterStateHandler t h).
Proof.
  by_step (StRegister t h). unfold RegisterStateHandler. pose proof ScheduleStateHandlers_emits. respect; repeat constructor.
Qed.
Lemma UnregisterStateHandler_still i : st_still (UnregisterStateHandler i).
Proof. by_step (StUnregister i). unfold UnregisterStateHandler. respect; repeat constructor. Qed.
Lemma StateDoInitialize_still : st_still StateDoInitialize.
Proof. by_step StInitialize. unfold StateDoInitialize. respect; repeat constructor. Qed.
Lemma StateDoStart_still register : st_still (StateDoStart env device register).
Proof. by_step (StStart register). apply StateDoStart_emits. Qed.
Lemma StateDoStop_still : st_still (StateDoStop env).
Proof. by_step StStop. apply StateDoStop_emits. Qed.

Lemma SetLocalState_fine t data : is_u8 t -> st_fine (SetLocalState device t data).
Proof.
  intros Ht. apply ignored_fine. apply (step_fine (mkStateStep env device network (StSetLocal t data))); [done|done|].
  apply ignore_emits, SetLocalState_emits.
Qed.
Lemma ClearLocalState_fine t : st_fine (ClearLocalState device t).
Proof. apply (step_fine (mkStateStep env device network (StClearLocal t))); [done|done|]. apply ClearLocalState_emits. Qed.

(** The life cycle of the service itself changes one field of its own. *)
Lemma set_state_wf st s : st_wf s -> st_wf (s <| st_service_state_ := st |>).
Proof. intros [Hl Hs Hr Ha]. split; [by destruct Hl|done|by destruct Hr|done]. Qed.
Lemma Transition_still register (work : SM bool) p q :
  st_still work -> st_still (Transition (StateWorkOf env device register) work p q).
Proof.
  intros Hw s Hs. specialize (Hw s Hs). unfold Transition, state_of, effects_of in *.
  destruct (work s) as [[s1 e1] [[]|x|]]; cbn [fst snd] in *; try exact Hw;
    (destruct Hw as (? & ? & ? & ?); split_and!; [by apply set_state_wf|done..]).
Qed.
Lemma Start_still register : st_still (Start (StateWorkOf env device register)).
Proof.
  intros s Hs. unfold Start. rewrite bind_get. case_bool_decide; [done|]. case_bool_decide; [done|].
  unfold SetState. rewrite bind_modify.
  exact (Transition_still register _ _ _ (StateDoStart_still register) _ (set_state_wf STARTING s Hs)).
Qed.
Lemma Stop_still register : st_still (Stop (StateWorkOf env device register)).
Proof.
  intros s Hs. unfold Stop. rewrite bind_get. case_bool_decide; [done|]. case_bool_decide; [done|].
  unfold SetState. rewrite bind_modify.
  exact (Transition_still register _ _ _ StateDoStop_still _ (set_state_wf STOPPING s Hs)).
Qed.
Lemma Initialize_still register : st_still (Initialize (StateWorkOf env device register)).
Proof. intros s Hs. unfold Initialize. rewrite bind_get. case_match; [done|]. by apply StateDoInitialize_still. Qed.
End state_steps.

(** ** The invariant of a unit *)

Record unit_wf `{CdmpConfig} (u : CdmpUnit) : Prop := {
  uw_network : net_wf (un_network u);
  uw_state : st_wf (un_state u);
  uw_queue : Forall item_wf (un_queue u);
}.

(** With the effects still to be delivered: the last digest among them, or the one the device has, is that
    of the records. *)
Record unit_inv `{CdmpConfig} `{Crc8} (u : CdmpUnit) (pending : list Effect) : Prop := {
  ui_wf : unit_wf u;
  ui_pending : Forall effect_wf pending;
  ui_digest : default (state_digest_ (un_device u)) (last (digests pending)) = LocalDigest (local_records_ (un_state u));
}.

Section invariant.
Context `{CdmpConfig} `{UnorderedIter} `{Crc8} `{HandlerAnswers} (env : Env).

Lemma digests_fine es rest : Forall fine es -> digests (es ++ rest) = digests rest.
Proof. intros He. by rewrite digests_app, fine_digests. Qed.

Lemma inv_network s' es u rest :
  unit_inv u rest -> net_wf s' -> Forall fine es -> state_digest_ (device_ s') = state_digest_ (un_device u) ->
  unit_inv (u <| un_network := s' |>) (es ++ rest).
Proof.
  intros [[Hn Hs Hq] Hp Hd] Hn' He Hd'. split; [by split| |].
  - apply Forall_app. split; [by apply fine_wf|done].
  - rewrite digests_fine by done. unfold un_device. simpl. by rewrite Hd'.
Qed.
Lemma inv_other f es u rest :
  (forall u, un_network (f u) = un_network u /\ un_state (f u) = un_state u) ->
  Forall item_wf (un_queue (f u)) -> Forall fine es -> unit_inv u rest -> unit_inv (f u) (es ++ rest).
Proof.
  intros Hf Hq He [[Hn Hs _] Hp Hd]. destruct (Hf u) as [E1 E2]. split; [split|..].
  - by rewrite E1.
  - by rewrite E2.
  - done.
  - apply Forall_app. split; [by apply fine_wf|done].
  - rewrite digests_fine by done. unfold un_device. by rewrite E1, E2.
Qed.
Lemma inv_heartbeat s' es u rest :
  unit_inv u rest -> Forall plain es -> unit_inv (u <| un_heartbeat := s' |>) (es ++ rest).
Proof. intros Hu He%plain_fine. apply (inv_other (fun u => u <| un_heartbeat := s' |>)); try done. by destruct Hu as [[]]. Qed.
Lemma inv_command s' es u rest :
  unit_inv u rest -> Forall plain es -> unit_inv (u <| un_command := s' |>) (es ++ rest).
Proof. intros Hu He%plain_fine. apply (inv_other (fun u => u <| un_command := s' |>)); try done. by destruct Hu as [[]]. Qed.
Lemma inv_still {A} (m : SM A) u rest :
  st_still m -> unit_inv u rest ->
  unit_inv (u <| un_state := state_of (m (un_state u)) |>) (effects_of (m (un_state u)) ++ rest).
Proof.
  intros Hm [[Hn Hs Hq] Hp Hd]. destruct (Hm _ Hs) as (Hs' & He & Hdig & Hl). split; [by split| |].
  - apply Forall_app. split; [by apply state_effect_wf|done].
  - rewrite digests_app, Hdig. simpl. by rewrite Hl.
Qed.
Lemma inv_state {A} (m : SM A) u :
  st_fine m -> unit_inv u [] -> unit_inv (u <| un_state := state_of (m (un_state u)) |>) (effects_of (m (un_state u))).
Proof.
  intros Hm [[Hn Hs Hq] Hp Hd]. destruct (Hm _ Hs) as (Hs' & He & Hdig). split; [by split|by apply state_effect_wf|].
  by apply Hdig.
Qed.

Lemma run_op_inv op u rest :
  op_wf op -> keeps_digest op -> unit_inv u rest ->
  unit_inv (u <| un_network := state_of (run_op env op (un_network u)) |>) (effects_of (run_op env op (un_network u)) ++ rest).
Proof.
  intros Hop Hk Hu. destruct (run_op_fine env op Hk (un_network u)) as [He Hd].
  apply inv_network; [done| |done|done]. apply run_op_wf; [done|apply Hu].
Qed.

Lemma inv_drop e u rest : sets_digest e = false -> unit_inv u (e :: rest) -> unit_inv u rest.
Proof.
  intros He [Hw Hp Hd]. apply Forall_cons in Hp as [_ Hp]. split; [done|done|].
  by destruct e.
Qed.

Lemma react_keeps u e rest : unit_inv u (e :: rest) -> unit_inv (react env e u).1 ((react env e u).2 ++ rest).
Proof.
  intros Hu. assert (effect_wf e) as He by (by destruct Hu as [_ [? _]%Forall_cons _]).
  destruct (sets_digest e) eqn:Hs.
  { destruct e; try done. destruct Hu as [[Hn Hst Hq] [_ Hp]%Forall_cons Hd]. split; [split; [by apply wf_device|done|done]|done|].
    simpl in *. unfold digests in Hd. simpl in Hd. rewrite last_cons in Hd. fold (digests rest) in Hd.
    by destruct (last (digests rest)). }
  apply inv_drop in Hu; [|done].
  assert (LawfulNetworkInfo (TableInfo (un_network u))) as HN by (apply table_info_lawful; by destruct Hu as [[]]).
  destruct e as [| | |?|[[] old new]|event info|hb|session work|t delay|t delay|t|? ? ?|target|?|?|hb|?|h request]; try exact Hu.
  - by apply (run_op_inv (OpStatus new)).
  - apply inv_heartbeat; [done|]. apply HeartbeatOnDeviceStatusChanged_fine.
  - apply inv_command; [done|]. apply CommandOnDeviceStatusChanged_fine.
  - apply inv_still; [|done]. apply (StateOnDeviceStatusChanged_still env (un_device u) (TableInfo (un_network u)) HN).
  - apply inv_still; [|done]. apply (OnDeviceEvent_still env (un_device u) (TableInfo (un_network u)) HN).
  - apply inv_still; [|done]. apply (OnHeartbeat_still env (un_device u) (TableInfo (un_network u)) HN).
  - apply (inv_other (fun u => u <| un_queue ::= fun q => q ++ [NetworkItem session work] |>)); [done| |constructor|done].
    simpl. apply Forall_app. split; [by destruct Hu as [[]]|]. apply Forall_singleton. by destruct work.
  - unfold react, schedule_task. destruct (task_lookup t (un_deadlines u)); [done|].
    apply (inv_other (fun u => u <| un_deadlines ::= task_insert t (env_now env + delay) |>)); [done| |constructor|done].
    by destruct Hu as [[]].
  - apply (inv_other (fun u => reschedule_task env t delay u)); [done| |constructor|done]. by destruct Hu as [[]].
  - apply (inv_other (fun u => u <| un_deadlines ::= task_remove t |>)); [done| |constructor|done]. by destruct Hu as [[]].
  - apply inv_command; [done|].
    refine (respects_bind (emits_only plain) _ _ _ _ (un_command u)); [|intros; apply respects_ret, _]. apply SendCommand_fine.
  - done.
  - by apply (run_op_inv (OpHeartbeat hb)).
  - unfold react. case_bool_decide; [|done].
    apply (inv_still (ignore (ProcessSyncRequest env (un_device u) request))); [|done].
    apply ignored_still_rev. apply (ProcessSyncRequest_still env (un_device u) (TableInfo (un_network u)) HN request).
Qed.
End invariant.
