(* ===== verification/CdmpUnitTable.v ===== *)
(** * CDMP unit: the copies follow the device table

    The state service hears of the devices only through their events and the status of the unit.  That is
    enough: a unit holds copies of the records of devices in its table, and of no others. *)

From S2P Require Import Prelude Can Cdmp CdmpMessages CdmpEffects CdmpTransactions Service CdmpNetwork CdmpNetworkSpec CdmpNetworkEvents CdmpHeartbeat CdmpCommand CdmpState CdmpStateLocal CdmpStateAcks CdmpStateSend CdmpStateCopies CdmpUnit CdmpUnitCalls CdmpUnitSpec.

(** ** What the network service reports *)

Definition left_in (es : list Effect) (id : Z) : Prop :=
  exists info, NotifyDeviceEvent LEFT info ∈ es /\ info_device_id info = id.

Lemma left_in_app es1 es2 id : left_in (es1 ++ es2) id <-> left_in es1 id \/ left_in es2 id.
Proof. unfold left_in. setoid_rewrite elem_of_app. naive_solver. Qed.

(** A device that is no longer known has left. *)
Lemma replay_left es known known' id :
  replay (device_events es) known = Some known' -> id ∈ known -> id ∈ known' \/ left_in es id.
Proof.
  revert known. induction es as [|e es IH]; intros known Hr Hid; [injection Hr as <-; by left|].
  assert (replay (device_events es) known = Some known' -> id ∈ known' \/ left_in (e :: es) id) as Hskip.
  { intros Hr'. destruct (IH known Hr' Hid) as [?|(info & ? & ?)]; [by left|right]. exists info. split; [by right|done]. }
  destruct e as [| | | | |event info| | | | | | | | | | | |]; try (by apply Hskip).
  assert (forall k, id ∈ k -> replay (device_events es) k = Some known' -> id ∈ known' \/ left_in (NotifyDeviceEvent event info :: es) id) as Hstep.
  { intros k Hk Hr'. destruct (IH k Hr' Hk) as [?|(i & ? & ?)]; [by left|right]. exists i. split; [by right|done]. }
  change (device_events (NotifyDeviceEvent event info :: es)) with ((event, info) :: device_events es) in Hr.
  destruct event; simpl in Hr; case_decide; try done.
  - eapply Hstep; [|exact Hr]. set_solver.
  - by eapply Hstep.
  - destruct (decide (id = info_device_id info)) as [->|Hne].
    + right. exists info. split; [by left|done].
    + eapply Hstep; [|exact Hr]. set_solver.
Qed.

(** ** Changes of the unit's status *)

Abbreviation own_status s := (GetStatus (device_ s)).
Abbreviation own_callbacks s := (status_change_callbacks_ (status_machine_ (device_ s))).

Definition calm (s : NetworkService) (e : list Effect) (s' : NetworkService) : Prop :=
  (forall c, CallStatusHandler c ∉ e) /\ own_status s' = own_status s /\ own_callbacks s' = own_callbacks s.
#[export] Instance calm_trace : TraceRel calm.
Proof.
  split; [intros s; split_and!; try done; intros c; apply not_elem_of_nil|].
  intros s1 s2 s3 e1 e2 (H1 & E1 & C1) (H2 & E2 & C2). split_and!; [|congruence..].
  intros c [?|?]%elem_of_app; [by eapply H1|by eapply H2].
Qed.

(** At most one change, told to every registered handler. *)
Definition changes (s : NetworkService) (e : list Effect) (s' : NetworkService) : Prop :=
  calm s e s' \/
  (own_status s' <> own_status s /\ own_callbacks s' = own_callbacks s /\
   (forall c, CallStatusHandler c ∈ e -> sc_old c = own_status s /\ sc_new c = own_status s') /\
   forall i h, own_callbacks s !! i = Some h -> CallStatusHandler (mkStatusCall h (own_status s) (own_status s')) ∈ e).

Section changes.
Context `{UnorderedIter}.

Lemma calm_changes {A} (m : NM A) : respects calm m -> respects changes m.
Proof. intros Hm s. left. apply Hm. Qed.
Lemma changes_bind_l {A B} (m : NM A) (f : A -> NM B) :
  respects calm m -> (forall a, respects changes (f a)) -> respects changes (m ≫= f).
Proof.
  intros Hm Hf s. specialize (Hm s). unfold mbind, M_bind, state_of, effects_of in *.
  destruct (m s) as [[s1 e1] [a|x|]]; [|by left..]. specialize (Hf a s1). destruct (f a s1) as [[s2 e2] r].
  unfold state_of, effects_of in *. cbn [fst snd] in *. destruct Hf as [Hf|(Hne & Hc & Hcalls & Hall)]; [left; by eapply trace_app|right].
  destruct Hm as (Hn & Es & Ec). rewrite Es in Hne, Hcalls, Hall. rewrite Ec in Hc, Hall. split_and!; [done|done| |].
  - intros c [Hx|Hx]%elem_of_app; [by apply Hn in Hx|by apply Hcalls].
  - intros i h Hi. apply elem_of_app. right. by eapply Hall.
Qed.
Lemma changes_bind_r {A B} (m : NM A) (f : A -> NM B) :
  respects changes m -> (forall a, respects calm (f a)) -> respects changes (m ≫= f).
Proof.
  intros Hm Hf s. specialize (Hm s). unfold mbind, M_bind, state_of, effects_of in *.
  destruct (m s) as [[s1 e1] [a|x|]]; [|exact Hm..]. specialize (Hf a s1). destruct (f a s1) as [[s2 e2] r].
  unfold state_of, effects_of in *. cbn [fst snd] in *. destruct Hm as [Hm|(Hne & Hc & Hcalls & Hall)]; [left; by eapply trace_app|right].
  destruct Hf as (Hn & Es & Ec). rewrite Es, Ec. split_and!; [done|done| |].
  - intros c [Hx|Hx]%elem_of_app; [by apply Hcalls|by apply Hn in Hx].
  - intros i h Hi. apply elem_of_app. left. by eapply Hall.
Qed.
Lemma changes_try (m : NM unit) : respects changes m -> respects changes (try_log m).
Proof. intros Hm s. specialize (Hm s). unfold try_log, state_of, effects_of in *. by destruct (m s) as [[s1 e1] []]. Qed.

Lemma OwnDevice_changes op :
  (forall d, status_machine_ (op d).1 = status_machine_ d /\ (op d).2 = [] \/
     exists new, new <> GetStatus d /\ status_machine_ (op d).1 = (status_machine_ d) <| status_ := new |> /\
       (op d).2 = (fun '(_, h) => mkStatusCall h (GetStatus d) new) <$> uiter (status_change_callbacks_ (status_machine_ d))) ->
  respects changes (OwnDevice op).
Proof.
  intros Hop s. unfold OwnDevice. rewrite bind_get. specialize (Hop (device_ s)).
  destruct (op (device_ s)) as [d calls]. rewrite bind_modify. cbn [fst snd] in Hop. unfold emits, state_of, effects_of. cbn [fst snd].
  destruct Hop as [[Em ->]|(new & Hne & Em & ->)].
  - left. unfold calm, GetStatus. simpl. rewrite Em. split_and!; try done. intros c. apply not_elem_of_nil.
  - right. unfold GetStatus in *. simpl. rewrite Em. simpl. split_and!; [done|done| |].
    + intros c Hc. rewrite <- list_fmap_compose in Hc. apply list_elem_of_fmap in Hc as ([i h] & Ec & _). simpl in Ec.
      by injection Ec as ->.
    + intros i h Hi. rewrite <- list_fmap_compose. apply list_elem_of_fmap. exists (i, h). split; [done|by apply elem_of_uiter].
Qed.
Lemma DeviceSetStatus_changes new force : respects changes (OwnDevice (DeviceSetStatus new force)).
Proof.
  apply OwnDevice_changes. intros d. unfold DeviceSetStatus, SetStatus, NotifyStatusChange.
  case_bool_decide; [by left|]. destruct (negb force && _); [by left|]. right. by exists new.
Qed.
Lemma Reset_changes : respects changes (OwnDevice Reset).
Proof.
  apply OwnDevice_changes. intros d. unfold Reset, DeviceSetStatus, SetStatus, NotifyStatusChange.
  case_bool_decide; [by left|]. destruct (negb false && _); [by left|]. right. by exists OFFLINE.
Qed.

Context (env : Env).
#[local] Ltac no_calls :=
  split_and!; [intros ? Hc; repeat (apply elem_of_cons in Hc as [Hc|Hc]; [done|]); by apply elem_of_nil in Hc|reflexivity|reflexivity].
#[local] Hint Extern 3 (calm _ _ _) => no_calls : respects.
#[local] Ltac calms := respect; try solve [auto with respects]; try no_calls.
#[local] Ltac change_step :=
  lazymatch goal with
  | |- respects changes (try_log _) => apply changes_try
  | |- respects changes (mbind _ _) =>
      first [apply changes_bind_l; [solve [calms]|intros ?]|apply changes_bind_r; [|intros ?; solve [calms]]]
  | |- respects changes (OwnDevice (DeviceSetStatus _ _)) => apply DeviceSetStatus_changes
  | |- respects changes (match _ with _ => _ end) => case_match
  | |- respects changes _ => apply calm_changes; solve [calms]
  end.

Lemma FindPendingIdClaim_calm id : respects calm (FindPendingIdClaim env id).
Proof. unfold FindPendingIdClaim, ExpirePendingIdClaims. calms. Qed.
Lemma StorePendingIdClaim_calm c : respects calm (StorePendingIdClaim env c).
Proof. pose proof FindPendingIdClaim_calm. unfold StorePendingIdClaim. calms. Qed.
Lemma UpdateNetworkDevices_calm : respects calm UpdateNetworkDevices.
Proof. unfold UpdateNetworkDevices, UpdateLowestIdOnNetwork, UpdateStaggeredMessageDelay. calms. Qed.
#[local] Hint Resolve FindPendingIdClaim_calm StorePendingIdClaim_calm UpdateNetworkDevices_calm : respects.
Lemma AddOrUpdateDevice_calm id uid f : respects calm (AddOrUpdateDevice env id uid f).
Proof. unfold AddOrUpdateDevice. calms. Qed.
Lemma RemoveDevice_calm id : respects calm (RemoveDevice id).
Proof. unfold RemoveDevice. calms. Qed.
Lemma SendDiscoveryRequest_calm : respects calm (SendDiscoveryRequest env).
Proof. unfold SendDiscoveryRequest. calms. Qed.
#[local] Hint Resolve AddOrUpdateDevice_calm RemoveDevice_calm SendDiscoveryRequest_calm : respects.
Lemma UpdateDeviceFromHeartbeat_calm hb : respects calm (UpdateDeviceFromHeartbeat env hb).
Proof. unfold UpdateDeviceFromHeartbeat, DeviceInfoAt, ClearClaim, RequestRediscovery. calms. Qed.
Lemma UpdateDeviceFromDiscovery_calm m : respects calm (UpdateDeviceFromDiscovery env m).
Proof. unfold UpdateDeviceFromDiscovery, DeviceInfoAt, ClearClaim, FindDeviceIdByUid. calms. Qed.
Lemma RecordIdClaim_calm c : respects calm (RecordIdClaim env c).
Proof. unfold RecordIdClaim, FindDeviceIdByUid. calms. Qed.
#[local] Hint Resolve UpdateDeviceFromDiscovery_calm RecordIdClaim_calm : respects.
Lemma ProcessFrame_changes f : respects changes (ProcessFrame env f).
Proof.
  assert (respects calm (ProcessDiscoveryRequestFrame f)) by (unfold ProcessDiscoveryRequestFrame, RunWork; calms).
  assert (respects calm (ProcessIdClaimRequestFrame env f)) by (unfold ProcessIdClaimRequestFrame; calms).
  assert (respects calm (ProcessIdClaimResponseFrame f)) by (unfold ProcessIdClaimResponseFrame; calms).
  unfold ProcessFrame, ProcessDiscoveryResponseFrame, EnterError. repeat change_step.
Qed.
Lemma SelectNextId_calm : respects calm (SelectNextId env).
Proof.
  assert (forall i, respects calm (GetLowestAvailableId env i)) as Hlow.
  { intros i. unfold GetLowestAvailableId. generalize 256%nat, (u8 (i + 1)). intros n.
    induction n as [|n IH]; intros z; cbn [LowestAvailableFrom]; calms. }
  intros s. unfold SelectNextId. pose proof (Hlow (claiming_device_id_ s) s) as (Hn & Hs & Hc).
  destruct (GetLowestAvailableId env _ s) as [[s1 e1] [j|x|]]; cbn [effects_of state_of fst snd] in *.
  - exact (conj Hn (conj Hs Hc)).
  - split_and!; [|exact Hs|exact Hc]. intros c [Hx|Hx%list_elem_of_singleton]%elem_of_app; [by apply Hn in Hx|done].
  - exact (conj Hn (conj Hs Hc)).
Qed.
#[local] Hint Resolve SelectNextId_calm UpdateDeviceFromHeartbeat_calm : respects.
Lemma NetworkStop_calm : respects calm (NetworkStop env).
Proof.
  apply Stop_fine; [apply _|intros; no_calls|]. cbn [sw_stop NetworkWorkOf].
  unfold NetworkDoStop, NetworkUnregisterCanHandlers, ClearAllDevices. calms.
Qed.
Lemma NetworkStart_calm register : respects calm (NetworkStart env register).
Proof.
  apply Start_fine; [apply _|intros; no_calls|]. cbn [sw_start NetworkWorkOf].
  unfold NetworkDoStart, NetworkRegisterCanHandlers, RegisterReceiveHandler, ClearAllDevices, StartValidationTask. calms.
Qed.
#[local] Hint Resolve NetworkStop_calm NetworkStart_calm : respects.

Lemma NetworkOnDeviceStatusChanged_calm st : respects calm (NetworkOnDeviceStatusChanged env st).
Proof. unfold NetworkOnDeviceStatusChanged, StartValidationTask, RunWork. calms. Qed.
#[local] Hint Resolve NetworkOnDeviceStatusChanged_calm : respects.

Lemma run_op_changes op : keeps_digest op -> respects changes (run_op env op).
Proof.
  destruct op; intros Hop; cbn [run_op]; try done; try solve [apply calm_changes; auto with respects].
  - apply ProcessFrame_changes.
  - pose proof ProcessFrame_changes. unfold RunQueuedWork, EnterVersionMismatch, EnterError.
    apply changes_bind_l; [calms|intros s]. case_match; [apply calm_changes; calms|].
    destruct work; [done|apply calm_changes..|apply DeviceSetStatus_changes|apply DeviceSetStatus_changes];
      unfold StartInitialization, StartIdClaim, SendDiscoveryResponse; calms.
  - unfold RunDiscoveryAttempt, ClaimId. repeat change_step.
  - unfold RunIdClaimAttempt, DropClaim, RunWork, CompleteIdClaim, SendNextClaim, SendIdClaim, GoOnline. repeat change_step.
  - apply calm_changes. unfold ProcessPeriodicValidation, ProcessPeriodicTasks, RemoveOfflineDevices. calms.
  - apply calm_changes. unfold Initialize. cbn [sw_initialize sw_state NetworkWorkOf]. unfold NetworkDoInitialize. calms.
  - apply calm_changes. calms.
  - apply calm_changes. calms.
Qed.
End changes.

(** What an operation does to the table, if it is not one that forgets it. *)
Lemma run_op_table `{UnorderedIter} env op s id :
  net_wf s -> op_wf op -> forgets op = false -> id ∈ known_ids s ->
  id ∈ known_ids (state_of (run_op env op s)) \/ left_in (effects_of (run_op env op s)) id.
Proof. intros Hs Hop Hf Hid. destruct (run_op_told env op Hop Hf s Hs) as [_ Hr]. by eapply replay_left. Qed.

(** ** Sources of the copies *)

Abbreviation copy_sources s := (rr_source <$> remote_records_ s).

(** No copy of a new source, except of those that [known] admits. *)
Definition sources_from (known : Z -> Prop) (s : StateService) (_ : list Effect) (s' : StateService) : Prop :=
  forall x, x ∈ copy_sources s' -> x ∈ copy_sources s \/ known x.
#[export] Instance sources_from_trace known : TraceRel (sources_from known).
Proof.
  split; [by left|]. intros s1 s2 s3 e1 e2 H12 H23 x Hx. destruct (H23 x Hx) as [Hx'|]; [by apply H12|by right].
Qed.

Section sources.
Context `{CdmpConfig} `{Crc8} (env : Env) (device : CdmpDevice) (known : Z -> Prop).
#[local] Abbreviation from m := (@respects StateService Effect _ (sources_from known) m).

Lemma sources_same s s' e : remote_records_ s' = remote_records_ s -> sources_from known s e s'.
Proof. intros E x. rewrite E. by left. Qed.
#[local] Hint Extern 3 (sources_from _ _ _ _) => (apply sources_same; reflexivity) : respects.
#[local] Ltac froms := respect; try solve [auto with respects].

Lemma sources_sub s s' e : copy_sources s' `sublist_of` copy_sources s -> sources_from known s e s'.
Proof. intros Hs x Hx. left. eapply elem_of_submseteq; [exact Hx|by apply sublist_submseteq]. Qed.
Lemma sources_map (f : RemoteRecord -> RemoteRecord) (l : list RemoteRecord) : (forall r, rr_source (f r) = rr_source r) -> rr_source <$> (f <$> l) = rr_source <$> l.
Proof. intros Hf. rewrite <- list_fmap_compose. apply list_fmap_ext. intros i r _. apply Hf. Qed.

Lemma ScheduleStateHandlers_from : from ScheduleStateHandlers.
Proof. unfold ScheduleStateHandlers. froms. Qed.
#[local] Hint Resolve ScheduleStateHandlers_from : respects.
Lemma StampChange_from i : from (StampChange device i).
Proof. unfold StampChange, UpdateDigest, TransmitSoon. froms. apply sources_same. by destruct (RefreshLaggingVersions _ _). Qed.
#[local] Hint Resolve StampChange_from : respects.
Lemma ClearLocalState_from t : from (ClearLocalState device t).
Proof. unfold ClearLocalState. froms. Qed.
#[local] Hint Resolve ClearLocalState_from : respects.
Lemma SetLocalState_from t data : from (SetLocalState device t data).
Proof. unfold SetLocalState, StoreLocalState. froms. Qed.
Lemma RemoveRemoteRecords_from p : from (RemoveRemoteRecords p).
Proof.
  intros s. destruct (RemoveRemoteRecords_run p s) as (e & E & _). rewrite E.
  apply sources_sub. simpl. apply fmap_sublist. unfold removed_state. simpl. apply sublist_filter.
Qed.
Lemma AddSourceState_from x : from (AddSourceState env x).
Proof. unfold AddSourceState. froms. Qed.
#[local] Hint Resolve RemoveRemoteRecords_from AddSourceState_from : respects.
Lemma mark_stale_from x b : from (mark_stale x b).
Proof.
  unfold mark_stale. froms. apply sources_sub. simpl. unfold on_source. rewrite sources_map; [done|].
  intros r. by case_bool_decide.
Qed.
Lemma ForgetNetwork_from : from ForgetNetwork.
Proof. unfold ForgetNetwork. froms. Qed.
Lemma DropSource_from x : from (DropSource x).
Proof. unfold DropSource. froms. apply sources_same. by case_match. Qed.
Lemma StartSyncRequest_from x : from (StartSyncRequest env x).
Proof. unfold StartSyncRequest. froms. Qed.
#[local] Hint Resolve mark_stale_from ForgetNetwork_from DropSource_from StartSyncRequest_from : respects.
Lemma ReplayRecords_from : from (ReplayRecords env device).
Proof. unfold ReplayRecords, SendNotification. froms. Qed.
Lemma Transmit_from {N : NetworkInfo} : from (Transmit env device).
Proof. unfold Transmit, ScheduleRetransmission, SendNotification. froms. Qed.
Lemma OnHeartbeat_from hb : from (OnHeartbeat env device hb).
Proof. unfold OnHeartbeat. froms. Qed.
Lemma OnDeviceEvent_from event info : from (OnDeviceEvent event info).
Proof. unfold OnDeviceEvent. froms. Qed.
Lemma StateOnDeviceStatusChanged_from old new : from (StateOnDeviceStatusChanged old new).
Proof. unfold StateOnDeviceStatusChanged. froms. Qed.
#[local] Hint Resolve ReplayRecords_from : respects.
Lemma ProcessSyncRequest_from request : from (ProcessSyncRequest env device request).
Proof. unfold ProcessSyncRequest. froms. Qed.
Lemma StateDoStart_from register : from (StateDoStart env device register).
Proof. unfold StateDoStart, StateRegisterCanHandlers, StateUnregisterCanHandlers, RegisterReceiveHandler. froms. Qed.
Lemma StateDoStop_from : from (StateDoStop env).
Proof. unfold StateDoStop, StateUnregisterCanHandlers. froms. Qed.
Lemma NotifyStateHandlers_from : from NotifyStateHandlers.
Proof. unfold NotifyStateHandlers. froms. Qed.
Lemma QueueFrame_from f r : from (QueueFrame f r).
Proof. unfold QueueFrame, DropFrame. froms. Qed.
Lemma RegisterStateHandler_from t h : from (RegisterStateHandler t h).
Proof. unfold RegisterStateHandler. froms. Qed.
Lemma UnregisterStateHandler_from i : from (UnregisterStateHandler i).
Proof. unfold UnregisterStateHandler. froms. Qed.
Lemma StateStart_from register : from (Start (StateWorkOf env device register)).
Proof. apply Start_fine; [apply _|intros; by apply sources_same|apply StateDoStart_from]. Qed.
Lemma StateStop_from register : from (Stop (StateWorkOf env device register)).
Proof. apply Stop_fine; [apply _|intros; by apply sources_same|apply StateDoStop_from]. Qed.
Lemma StateInitialize_from register : from (Initialize (StateWorkOf env device register)).
Proof. unfold Initialize. cbn [sw_initialize StateWorkOf]. unfold StateDoInitialize. froms. Qed.

Lemma ApplyRecord_from m : known (sc_source_device_id m) -> from (ApplyRecord env m).
Proof.
  intros Hk. unfold ApplyRecord, set_changed_types, MarkOverflowed. froms.
  - apply sources_sub. simpl. rewrite (list_fmap_alter rr_source _ (fun x => x)) by by apply Forall_true.
    by rewrite list_alter_id.
  - intros x Hx. simpl in Hx. apply list_elem_of_fmap in Hx as (r & -> & [->|Hr]%elem_of_insert_at); [by right|].
    left. by apply list_elem_of_fmap_2.
Qed.
End sources.

(** The sources the state service accepts records of. *)
Definition heard_of (network : NetworkInfo) (device : CdmpDevice) (x : Z) : Prop :=
  IsOnline device = true /\ is_device_online x = true.

Section receiving.
Context `{CdmpConfig} `{Crc8} {N : NetworkInfo} (env : Env) (device : CdmpDevice).
#[local] Abbreviation from m := (@respects StateService Effect _ (sources_from (heard_of N device)) m).
#[local] Hint Extern 3 (sources_from _ _ _ _) => (apply sources_same; reflexivity) : respects.
#[local] Ltac froms := respect; try solve [auto with respects].

Lemma ProcessReceived_from f : from (ProcessReceived env device f).
Proof.
  unfold ProcessReceived, ProcessStateChangeResponseFrame, DropFrame. case_match; [froms|].
  unfold ProcessStateChangeFrame, DropFrame. destruct (IsOnline device) eqn:Hon; cbn [negb]; [|froms].
  apply respects_bind; [apply _|froms|intros [m|]]; [|froms].
  destruct (bool_decide (sc_state_type m = 0)); [froms|].
  destruct (bool_decide (sc_source_device_id m = device_id_ device)); [froms|].
  destruct (is_device_online (sc_source_device_id m)) eqn:Hk; cbn [negb]; [|froms].
  apply respects_bind; [apply _|by apply ApplyRecord_from|intros _]. unfold SendResponse. froms.
Qed.
Lemma ReceiveFrames_from : from (ReceiveFrames env device).
Proof.
  pose proof ProcessReceived_from. assert (forall n, from (ReceiveLoop env device n)) by (induction n; simpl; froms).
  unfold ReceiveFrames. froms.
Qed.
End receiving.

(** Leaving ONLINE, and a device that leaves. *)
Lemma ForgetNetwork_none `{CdmpConfig} s : remote_records_ (state_of (ForgetNetwork s)) = [].
Proof.
  unfold ForgetNetwork. destruct (RemoveRemoteRecords_run (fun _ => true) s) as (e & E & _).
  erewrite bind_ok by exact E. rewrite state_of_prepend. simpl. unfold removed_state. simpl.
  induction (remote_records_ s) as [|r l IH]; [done|]. rewrite filter_cons. by rewrite decide_False.
Qed.
Lemma DropSource_gone `{CdmpConfig} x s : x ∉ copy_sources (state_of (DropSource x s)).
Proof.
  destruct (DropSource_run x s) as (l & e & E). rewrite E. simpl.
  intros (r & -> & Hr)%list_elem_of_fmap. unfold removed_state in Hr. simpl in Hr.
  apply list_elem_of_filter in Hr as [Hr _]. by rewrite bool_decide_eq_true_2 in Hr.
Qed.

(** ** The invariant

    [pending]: the effects still to be delivered.  While the state service has yet to hear that the unit left
    ONLINE, it may hold anything; otherwise it holds nothing unless the unit is ONLINE, and ([strict], which is
    dropped while the services are stopped one after another) each copy is of a device in the table, or of one
    whose LEFT event is on its way. *)

Definition state_call (old new : CdmpDeviceStatus) : Effect := CallStatusHandler (mkStatusCall StateStatusHandler old new).
Definition leaving (pending : list Effect) : Prop := exists new, new <> ONLINE /\ state_call ONLINE new ∈ pending.

Record coupled (strict : bool) (u : CdmpUnit) (pending : list Effect) : Prop := {
  cp_handler : exists i, own_callbacks (un_network u) !! i = Some StateStatusHandler;
  cp_calls : forall c, CallStatusHandler c ∈ pending -> sc_new c = GetStatus (un_device u);
  cp_copies : leaving pending \/
    (GetStatus (un_device u) <> ONLINE -> remote_records_ (un_state u) = []) /\
    (strict = true -> forall x, x ∈ copy_sources (un_state u) -> x ∈ known_ids (un_network u) \/ left_in pending x);
}.

Section coupled.
Context `{CdmpConfig} `{UnorderedIter} `{Crc8} `{HandlerAnswers} (env : Env) (strict : bool).

(** Units that agree on the device, the table and the copies. *)
Lemma coupled_same u u' es pending :
  un_network u' = un_network u -> un_state u' = un_state u -> (forall c, CallStatusHandler c ∉ es) ->
  coupled strict u pending -> coupled strict u' (es ++ pending).
Proof.
  intros En Es He [Hh Hc Hp]. split; unfold un_device in *; rewrite ?En, ?Es; [done| |].
  - intros c [Hx|Hx]%elem_of_app; [by apply He in Hx|by apply Hc].
  - destruct Hp as [(new & Hn & Hin)|[Ho Hs]]; [left; exists new; split; [done|apply elem_of_app; by right]|right].
    split; [done|]. intros Hst x Hx. destruct (Hs Hst x Hx); [by left|right]. apply left_in_app. by right.
Qed.

(** Dropping an effect that is neither a call of the state service nor a departure. *)
Lemma coupled_drop u e pending :
  (forall old new, e <> state_call old new) -> (forall info, e <> NotifyDeviceEvent LEFT info) ->
  coupled strict u (e :: pending) -> coupled strict u pending.
Proof.
  intros Hne Hl [Hh Hc Hp]. split; [done|intros c Hx; apply Hc; by right|].
  destruct Hp as [(new & Hn & [Hin|Hin]%elem_of_cons)|[Ho Hs]]; [by apply eq_sym, Hne in Hin|left; by exists new|right].
  split; [done|]. intros Hst x Hx. destruct (Hs Hst x Hx) as [?|(info & [Hin|Hin]%elem_of_cons & Hid)]; [by left|by apply eq_sym, Hl in Hin|].
  right. by exists info.
Qed.

Lemma coupled_network s' es u pending :
  coupled strict u pending -> (forall c, CallStatusHandler c ∉ pending) \/ calm (un_network u) es s' ->
  changes (un_network u) es s' ->
  (strict = true -> forall x, x ∈ known_ids (un_network u) -> GetStatus (un_device u) = ONLINE -> x ∈ known_ids s' \/ left_in es x) ->
  coupled strict (u <| un_network := s' |>) (es ++ pending).
Proof.
  intros [Hh Hc Hp] Hq Hch Ht. unfold un_device in *. destruct Hch as [(Hn & Es & Ec)|(Hne & Ec & Hcalls & Hall)].
  - split; unfold un_device; simpl; rewrite ?Ec, ?Es; [done| |].
    + intros c [Hx|Hx]%elem_of_app; [by apply Hn in Hx|by apply Hc].
    + destruct Hp as [(new & Hnew & Hin)|[Ho Hs]]; [left; exists new; split; [done|apply elem_of_app; by right]|right].
      split; [done|]. intros Hst x Hx. rewrite left_in_app.
      destruct (decide (GetStatus (device_ (un_network u)) = ONLINE)) as [Hon|Hoff].
      * destruct (Hs Hst x Hx) as [Hk|Hk]; [|by right; right]. destruct (Ht Hst x Hk Hon); [by left|by right; left].
      * simpl in Hx. rewrite (Ho Hoff) in Hx. by apply elem_of_nil in Hx.
  - destruct Hq as [Hq|(Hn & Es & _)]; [|by rewrite Es in Hne].
    assert (forall c, CallStatusHandler c ∈ es ++ pending -> sc_new c = GetStatus (device_ s')) as Hc'.
    { intros c [Hx|Hx]%elem_of_app; [by apply Hcalls|by apply Hq in Hx]. }
    split; unfold un_device; simpl; [by rewrite Ec|done|].
    destruct Hp as [(new & _ & Hin)|[Ho Hs]]; [by apply Hq in Hin|].
    destruct (decide (GetStatus (device_ (un_network u)) = ONLINE)) as [Hon|Hoff].
    + left. destruct Hh as [i Hi]. exists (GetStatus (device_ s')). rewrite Hon in Hne. split; [done|].
      apply elem_of_app. left. apply Hall in Hi. by rewrite Hon in Hi.
    + right. split; [by intros _; apply Ho|]. intros _ x Hx. simpl in Hx. rewrite (Ho Hoff) in Hx. by apply elem_of_nil in Hx.
Qed.

Lemma coupled_state s' es u pending :
  coupled strict u pending -> (forall c, CallStatusHandler c ∉ es) ->
  sources_from (fun x => GetStatus (un_device u) = ONLINE /\ x ∈ known_ids (un_network u)) (un_state u) es s' ->
  coupled strict (u <| un_state := s' |>) (es ++ pending).
Proof.
  intros [Hh Hc Hp] He Hs'. split; [done| |]; unfold un_device in *; simpl.
  - intros c [Hx|Hx]%elem_of_app; [by apply He in Hx|by apply Hc].
  - destruct Hp as [(new & Hn & Hin)|[Ho Hs]]; [left; exists new; split; [done|apply elem_of_app; by right]|right]. split.
    + intros Hoff. destruct (remote_records_ s') as [|r l] eqn:E; [done|]. exfalso.
      destruct (Hs' (rr_source r)) as [Hx|[? _]]; [rewrite E; left| |done]. simpl in Hx. rewrite (Ho Hoff) in Hx. by apply elem_of_nil in Hx.
    + intros Hst x Hx. rewrite left_in_app. destruct (Hs' x Hx) as [Hx'|[_ Hk]]; [|by left].
      destruct (Hs Hst x Hx'); [by left|by right; right].
Qed.

Lemma plain_no_calls es : Forall plain es -> forall c, CallStatusHandler c ∉ es.
Proof. rewrite Forall_forall. intros He c Hc. by apply He in Hc. Qed.
Lemma state_no_calls es : Forall state_effect es -> forall c, CallStatusHandler c ∉ es.
Proof. rewrite Forall_forall. intros He c Hc. by apply He in Hc. Qed.

Lemma coupled_still {A} (m : SM A) u pending :
  unit_wf u -> st_still m -> coupled strict u pending ->
  respects (sources_from (fun x => GetStatus (un_device u) = ONLINE /\ x ∈ known_ids (un_network u))) m ->
  coupled strict (u <| un_state := state_of (m (un_state u)) |>) (effects_of (m (un_state u)) ++ pending).
Proof.
  intros Hw Hm Hc Hf. destruct (Hm _ (uw_state _ Hw)) as (_ & He & _). apply coupled_state; [done|by apply state_no_calls|apply Hf].
Qed.

Lemma react_status_coupled old new u rest :
  unit_inv u (state_call old new :: rest) -> coupled strict u (state_call old new :: rest) ->
  coupled strict (react env (state_call old new) u).1 ((react env (state_call old new) u).2 ++ rest).
Proof.
  intros [Hw _ _] Hc. assert (LawfulNetworkInfo (TableInfo (un_network u))) as HN by apply table_info_lawful, Hw.
  pose proof (StateOnDeviceStatusChanged_still env (un_device u) (TableInfo (un_network u)) HN old new) as Hst.
  destruct (decide (old = ONLINE /\ new <> ONLINE)) as [[-> Hnew]|Hno].
  - destruct (Hst _ (uw_state _ Hw)) as (_ & He0 & _). pose proof (state_no_calls _ He0) as He. destruct Hc as [Hh Hcalls _].
    change (react env (state_call ONLINE new) u) with (run_state (StateOnDeviceStatusChanged ONLINE new) u) in *.
    unfold run_state in *. cbn [fst snd]. split; [done| |right]; unfold un_device in *; simpl.
    + intros c [Hx|Hx]%elem_of_app; [by apply He in Hx|apply Hcalls; by right].
    + assert (remote_records_ (state_of (StateOnDeviceStatusChanged ONLINE new (un_state u))) = []) as ->.
      { unfold StateOnDeviceStatusChanged. rewrite bool_decide_eq_false_2, bool_decide_eq_true_2 by done. apply ForgetNetwork_none. }
      split; [done|]. intros _ x Hx. by apply elem_of_nil in Hx.
  - apply (coupled_still (StateOnDeviceStatusChanged old new)); [done|done| |].
    + destruct Hc as [Hh Hcalls Hp]. split; [done|intros c Hx; apply Hcalls; by right|].
      destruct Hp as [(n & Hn & [Hin|Hin]%elem_of_cons)|[Ho Hs]]; [|left; by exists n|right].
      * injection Hin as <- <-. by destruct Hno.
      * split; [done|]. intros Hstr x Hx. destruct (Hs Hstr x Hx) as [?|(info & [Hin|Hin]%elem_of_cons & Hid)]; [by left|done|].
        right. by exists info.
    + apply StateOnDeviceStatusChanged_from.
Qed.

Lemma react_event_coupled event info u rest :
  unit_inv u (NotifyDeviceEvent event info :: rest) -> coupled strict u (NotifyDeviceEvent event info :: rest) ->
  coupled strict (react env (NotifyDeviceEvent event info) u).1 ((react env (NotifyDeviceEvent event info) u).2 ++ rest).
Proof.
  intros [Hw _ _] Hc. assert (LawfulNetworkInfo (TableInfo (un_network u))) as HN by apply table_info_lawful, Hw.
  pose proof (OnDeviceEvent_still env (un_device u) (TableInfo (un_network u)) HN event info) as Hst.
  assert (respects (sources_from (fun x => GetStatus (un_device u) = ONLINE /\ x ∈ known_ids (un_network u)))
            (OnDeviceEvent event info)) as Hf by apply OnDeviceEvent_from.
  destruct (decide (event = LEFT)) as [->|Hne].
  - destruct (Hst _ (uw_state _ Hw)) as (_ & He0 & _). pose proof (state_no_calls _ He0) as He. specialize (Hf (un_state u)).
    destruct Hc as [Hh Hcalls Hp].
    change (react env (NotifyDeviceEvent LEFT info) u) with (run_state (DropSource (info_device_id info)) u).
    change (OnDeviceEvent LEFT info) with (DropSource (info_device_id info)) in *.
    pose proof (DropSource_gone (info_device_id info) (un_state u)) as Hgone.
    unfold run_state. cbn [fst snd]. split; [done| |]; unfold un_device in *; simpl.
    + intros c [Hx|Hx]%elem_of_app; [by apply He in Hx|apply Hcalls; by right].
    + destruct Hp as [(n & Hn & [Hin|Hin]%elem_of_cons)|[Ho Hs]]; [done|left; exists n; split; [done|apply elem_of_app; by right]|right].
      split.
      * intros Hoff. destruct (remote_records_ (state_of _)) as [|r l] eqn:E; [done|]. exfalso.
        destruct (Hf (rr_source r)) as [Hx|[? _]]; [rewrite E; left| |done]. rewrite (Ho Hoff) in Hx. by apply elem_of_nil in Hx.
      * intros Hstr x Hx. destruct (Hf x Hx) as [Hx'|[_ Hk]]; [|by left].
        destruct (Hs Hstr x Hx') as [?|(i & [Hin|Hin]%elem_of_cons & Hid)]; [by left| |].
        -- injection Hin as ->. by subst x.
        -- right. apply left_in_app. right. by exists i.
  - apply (coupled_still (OnDeviceEvent event info)); [done|done| |done].
    eapply coupled_drop; [| |exact Hc]; [done|]. intros i [= -> ->]. done.
Qed.

(** A network operation that reports nothing of the status, and does not forget an ONLINE unit's table. *)
Lemma run_op_coupled op u rest :
  net_wf (un_network u) -> op_wf op -> (GetStatus (un_device u) = ONLINE -> forgets op = false) ->
  respects calm (run_op env op) -> coupled strict u rest ->
  coupled strict (u <| un_network := state_of (run_op env op (un_network u)) |>)
    (effects_of (run_op env op (un_network u)) ++ rest).
Proof.
  intros Hn Hop Hf Hc Hu. apply coupled_network; [done|by right; apply Hc|by left; apply Hc|].
  intros _ x Hx Hon. by apply run_op_table; auto.
Qed.

(** Effects of which the state service's copies and the table are independent. *)
Lemma coupled_aside e u u' es rest :
  (forall old new, e <> state_call old new) -> (forall info, e <> NotifyDeviceEvent LEFT info) ->
  un_network u' = un_network u -> un_state u' = un_state u -> Forall plain es ->
  coupled strict u (e :: rest) -> coupled strict u' (es ++ rest).
Proof.
  intros Hn1 Hn2 En Es Hp Hu. apply (coupled_same u); [done|done|by apply plain_no_calls|by eapply coupled_drop].
Qed.

#[local] Ltac aside := eapply (coupled_aside _ _); [..|eassumption]; try done.
Lemma react_coupled e u rest :
  unit_inv u (e :: rest) -> coupled strict u (e :: rest) ->
  coupled strict (react env e u).1 ((react env e u).2 ++ rest).
Proof.
  intros Hi Hc. pose proof (uw_network _ (ui_wf _ _ Hi)) as Hn.
  assert (LawfulNetworkInfo (TableInfo (un_network u))) as HN by by apply table_info_lawful.
  destruct e as [| | |?|[[] old new]|event info|hb|session work|t delay|t delay|t|? ? ?|target|?|?|hb|?|h request];
    try solve [eapply (coupled_aside _ u _ []); [..|exact Hc]; first [done|constructor]].
  - assert (new = GetStatus (un_device u)) as Hnew by by apply (cp_calls _ _ _ Hc (mkStatusCall NetworkStatusHandler old new)); left.
    apply coupled_drop in Hc; [|done..]. apply (run_op_coupled (OpStatus new)); [done|done| | |done].
    + rewrite <- Hnew. by intros ->.
    + apply NetworkOnDeviceStatusChanged_calm.
  - aside. apply HeartbeatOnDeviceStatusChanged_fine.
  - aside. apply CommandOnDeviceStatusChanged_fine.
  - by apply react_status_coupled.
  - by apply react_event_coupled.
  - apply coupled_drop in Hc; [|done..]. apply (coupled_still (OnHeartbeat env (un_device u) hb)); [apply Hi| |done|].
    + by eapply OnHeartbeat_still.
    + apply OnHeartbeat_from.
  - eapply (coupled_aside _ u _ []); [..|exact Hc]; try done; unfold react, schedule_task; by case_match.
  - aside. refine (respects_bind (emits_only plain) _ _ _ _ (un_command u)); [|intros; apply respects_ret, _]. apply SendCommand_fine.
  - apply coupled_drop in Hc; [|done..]. by destruct Hc.
  - assert (effect_wf (HeartbeatReceived hb)) as Hw by by eapply Forall_inv, Hi.
    apply coupled_drop in Hc; [|done..]. apply (run_op_coupled (OpHeartbeat hb)); [done..|apply UpdateDeviceFromHeartbeat_calm|done].
  - apply coupled_drop in Hc; [|done..]. unfold react. case_bool_decide; [|done].
    apply (coupled_still (ProcessSyncRequest env (un_device u) request ;; mret tt)); [apply Hi| |done|].
    + apply (ignored_still_rev (ProcessSyncRequest env (un_device u) request)). by eapply ProcessSyncRequest_still.
    + apply respects_bind; [apply _|apply ProcessSyncRequest_from|intros _; apply respects_ret, _].
Qed.

(** No call between the services changes the unit's status. *)
Lemma react_status e u : GetStatus (un_device (react env e u).1) = GetStatus (un_device u).
Proof.
  destruct e as [| | |?|[[] old new]|event info|hb|session work|t delay|t delay|t|? ? ?|target|?|?|hb|?|h request]; try done.
  - apply NetworkOnDeviceStatusChanged_calm.
  - unfold react, schedule_task. by case_match.
  - apply UpdateDeviceFromHeartbeat_calm.
  - unfold react. by case_bool_decide.
Qed.
Lemma deliver_all_status es u : GetStatus (un_device (deliver_all env es u).1) = GetStatus (un_device u).
Proof.
  apply (deliver_all_keeps env (fun v _ => GetStatus (un_device v) = GetStatus (un_device u))); [|done].
  intros v e rest Hv. by rewrite react_status.
Qed.
End coupled.
