(* ===== verification/CdmpUnitRuns.v ===== *)
(** * CDMP unit: every run

    The operations of [CdmpUnit.v] as steps of one state, and what every run of them keeps: the invariants of
    the services, the digest that the device advertises, and the copies that follow the device table. *)

From S2P Require Import Prelude Can Cdmp CdmpMessages CdmpEffects CdmpTransactions Service CdmpNetwork CdmpNetworkSpec CdmpNetworkEvents CdmpHeartbeat CdmpCommand CdmpState CdmpStateLocal CdmpStateAcks CdmpStateSend CdmpStateCopies CdmpUnit CdmpUnitCalls CdmpUnitSpec CdmpUnitTable.

(** ** Every way into a unit

    The life cycle, a frame from the bus, the first closure or a due task of the work queue, and the
    methods an application calls. *)

Inductive UnitOp :=
| UnInitialize
| UnStart (register : CanFilter -> Z)
| UnStop
| UnConfigure (has_bus : bool) (base : Z)
| UnAutoDiscovery (enabled : bool)
| UnReceive (id : CanId) (data : list Z)
| UnWork
| UnTask (t : Task)
| UnRemoveDevice (device_id : Z)
| UnSendCommand (target code : Z) (data : list Z) (callback : option Z)
| UnSetLocalState (state_type : Z) (data : list Z)
| UnClearLocalState (state_type : Z)
| UnRegisterStateHandler (state_type handler : Z)
| UnUnregisterStateHandler (handler_id : Z)
| UnRegisterUserCommand (code handler : Z)
| UnUnregisterCommand (code : Z)
| UnRegisterServiceCommand (code handler : Z)
| UnHeartbeatEnabled (enabled : bool)
| UnFeature (mask : Z) (is_set : bool)
| UnHealth (health : Z)
| UnRegisterStatusHandler (handler : Z).

(** What arrives from the bus is bytes, and a state type is one. *)
Definition unit_op_wf (op : UnitOp) : Prop :=
  match op with
  | UnReceive _ data => Forall is_u8 data
  | UnSetLocalState t _ => is_u8 t
  | _ => True
  end.
#[export] Instance unit_op_wf_dec op : Decision (unit_op_wf op).
Proof. destruct op; simpl; apply _. Defined.

Section ops.
Context `{CdmpConfig} `{UnorderedIter} `{Crc8} `{HandlerAnswers}.

Definition ignore_result {A} (m : UM A) : UM unit := m ;; mret tt.

(** A change of the shared device that calls nobody. *)
Definition change_device (f : CdmpDevice -> CdmpDevice) : UM unit :=
  modify (fun u => u <| un_network ::= fun s => s <| device_ ::= f |> |>).

Definition run_unit_op (env : Env) (op : UnitOp) : UM unit :=
  match op with
  | UnInitialize => ignore_result (Initialize (UnitWorkOf env (fun _ => 0)))
  | UnStart register => ignore_result (Start (UnitWorkOf env register))
  | UnStop => ignore_result (Stop (UnitWorkOf env (fun _ => 0)))
  | UnConfigure has_bus base => UnitConfigure has_bus base
  | UnAutoDiscovery enabled => UnitSetAutoDiscovery enabled
  | UnReceive id data => ReceiveFrame env id data
  | UnWork => RunNextItem env
  | UnTask t => RunTask env t
  | UnRemoveDevice device_id => on_network env (RemoveDevice device_id)
  | UnSendCommand target code data callback =>
      ignore_result (on_command env (fun _ _ => SendCommand env target code data callback))
  | UnSetLocalState t data => ignore_result (on_state env (fun _ device => SetLocalState device t data))
  | UnClearLocalState t => on_state env (fun _ device => ClearLocalState device t)
  | UnRegisterStateHandler t handler => ignore_result (on_state env (fun _ _ => RegisterStateHandler t handler))
  | UnUnregisterStateHandler handler_id => on_state env (fun _ _ => UnregisterStateHandler handler_id)
  | UnRegisterUserCommand code handler => on_command env (fun _ _ => RegisterUserCommandHandler code handler)
  | UnUnregisterCommand code => on_command env (fun _ _ => UnregisterCommandHandler code)
  | UnRegisterServiceCommand code handler => on_command env (fun _ _ => RegisterServiceCommandHandler code handler)
  | UnHeartbeatEnabled enabled => on_heartbeat env (fun _ => SetHeartbeatEnabled enabled)
  | UnFeature mask is_set => change_device (SetFeature mask is_set)
  | UnHealth health => change_device (fun d => d <| health_status_ := health |>)
  | UnRegisterStatusHandler handler =>
      change_device (fun d => d <| status_machine_ ::= fun m => (RegisterStatusChangeHandler (UserStatusHandler handler) m).1 |>)
  end.

Fixpoint run_unit (l : list (Env * UnitOp)) (u : CdmpUnit) : CdmpUnit * list Effect :=
  match l with
  | [] => (u, [])
  | (env, op) :: l =>
      let o := run_unit_op env op u in
      let '(u', out) := run_unit l (state_of o) in (u', effects_of o ++ out)
  end.
End ops.

(** ** What the operations keep

    [guarded]: no start has found the unit ONLINE, which the copies need ([strict] as in [coupled]). *)

Record unit_good `{CdmpConfig} `{Crc8} (guarded : Prop) (strict : bool) (u : CdmpUnit) (pending : list Effect) : Prop := {
  ug_inv : unit_inv u pending;
  ug_coupled : guarded -> coupled strict u pending;
}.
Definition unit_ok `{CdmpConfig} `{Crc8} (guarded : Prop) (strict : bool) (u : CdmpUnit) : Prop := unit_good guarded strict u [].

Section operations.
Context `{CdmpConfig} `{UnorderedIter} `{Crc8} `{HandlerAnswers} (env : Env) (guarded : Prop) (strict : bool).

#[local] Abbreviation ok := (unit_ok guarded strict).
#[local] Abbreviation keeps m := (@preserves CdmpUnit Effect _ ok m).

Lemma on_part_keeps {S A} (part : CdmpUnit -> S) put (m : CdmpUnit -> M S Effect A) u :
  unit_good guarded strict (put (state_of (m u (part u))) u) (effects_of (m u (part u)) ++ []) ->
  ok (state_of (on_part env part put m u)).
Proof.
  rewrite app_nil_r. intros Hi. unfold on_part.
  pose proof (deliver_all_keeps env (unit_good guarded strict) _ (put (state_of (m u (part u))) u)
    (fun u e rest Hu => Build_unit_good _ _ _ _ _ _ (react_keeps env u e rest (ug_inv _ _ _ _ Hu))
       (fun c => react_coupled env strict e u rest (ug_inv _ _ _ _ Hu) (ug_coupled _ _ _ _ Hu c))) Hi) as Hd.
  by destruct (deliver_all env _ _) as [u' out].
Qed.

(** A network operation, with its result; one that forgets the table needs a unit that is not ONLINE. *)
Lemma on_op_at {A} op (m : NM A) u :
  (forall s, run_op env op s = (m ;; mret tt) s) -> op_wf op -> keeps_digest op ->
  (guarded -> strict = true -> GetStatus (un_device u) = ONLINE -> forgets op = false) ->
  ok u -> ok (state_of (on_network env m u)).
Proof.
  intros E Hop Hk Hf [Hi Hc]. apply on_part_keeps.
  assert (state_of (m (un_network u)) = state_of (run_op env op (un_network u)) /\
          effects_of (m (un_network u)) = effects_of (run_op env op (un_network u))) as [-> ->].
  { rewrite E. unfold mbind, M_bind, state_of, effects_of. destruct (m _) as [[s1 e1] []]; simpl; by rewrite ?app_nil_r. }
  split; [by apply run_op_inv|]. intros c. apply coupled_network; [by apply Hc|left; intros ?; apply not_elem_of_nil|by apply run_op_changes|].
  intros Hs x Hx Hon. apply run_op_table; [apply Hi|done|by apply Hf|done].
Qed.
Lemma on_op_keeps {A} op (m : NM A) :
  (forall s, run_op env op s = (m ;; mret tt) s) -> op_wf op -> keeps_digest op -> forgets op = false -> keeps (on_network env m).
Proof. intros E Hop Hk Hf u Hu. by apply (on_op_at op). Qed.

Lemma on_heartbeat_keeps {A} (m : CdmpDevice -> HM A) :
  (forall d, respects (emits_only plain) (m d)) -> keeps (on_heartbeat env m).
Proof.
  intros Hm u [Hi Hc]. apply on_part_keeps. split; [apply inv_heartbeat; [done|apply Hm]|].
  intros c. by apply (coupled_same strict u _ (effects_of _)); [done|done|apply plain_no_calls, Hm|apply Hc].
Qed.
Lemma on_command_keeps {A} (m : HandlerAnswers -> CdmpDevice -> CmdM A) :
  (forall a d, respects (emits_only plain) (m a d)) -> keeps (on_command env m).
Proof.
  intros Hm u [Hi Hc]. apply on_part_keeps. split; [apply inv_command; [done|apply Hm]|].
  intros c. by apply (coupled_same strict u _ (effects_of _)); [done|done|apply plain_no_calls, Hm|apply Hc].
Qed.
Lemma on_state_keeps {A} (m : NetworkInfo -> CdmpDevice -> SM A) :
  (forall n d, LawfulNetworkInfo n -> st_fine (m n d)) ->
  (forall n d, respects (sources_from (heard_of n d)) (m n d)) -> keeps (on_state env m).
Proof.
  intros Hm Hf u [Hi Hc].
  assert (st_fine (m (TableInfo (un_network u)) (un_device u))) as Hs by (apply Hm, table_info_lawful, Hi).
  apply on_part_keeps. split; [rewrite app_nil_r; by apply (inv_state (m _ _))|].
  intros c. apply coupled_state; [by apply Hc| |].
  - destruct (Hs _ (uw_state _ (ui_wf _ _ Hi))) as (_ & He & _). by apply state_no_calls.
  - intros x Hx. destruct (Hf _ _ _ x Hx) as [?|[Hon Hk]]; [by left|right]. split.
    + by apply bool_decide_eq_true in Hon.
    + cbn [TableInfo is_device_online] in Hk. unfold IsDeviceOnline in Hk. apply elem_of_dom.
      by destruct (network_devices_ (un_network u) !! x).
Qed.
Lemma on_state_still {A} (m : NetworkInfo -> CdmpDevice -> SM A) :
  (forall n d, LawfulNetworkInfo n -> st_still (m n d)) ->
  (forall n d, respects (sources_from (heard_of n d)) (m n d)) -> keeps (on_state env m).
Proof. intros Hm. apply on_state_keeps. intros n d HN. by apply still_fine, Hm. Qed.

(** A change of the shared device, with the handlers it calls. *)
Lemma own_device_keeps op :
  (forall d, state_digest_ (op d).1 = state_digest_ d) -> respects changes (OwnDevice op) -> keeps (on_network env (OwnDevice op)).
Proof.
  intros Hop Hch u [Hi Hc]. apply on_part_keeps.
  assert (known_ids (state_of (OwnDevice op (un_network u))) = known_ids (un_network u) /\
          net_wf (state_of (OwnDevice op (un_network u)))) as [Hk Hw].
  { unfold OwnDevice. rewrite bind_get. destruct (op (device_ (un_network u))). rewrite bind_modify.
    split; [done|]. apply wf_device, Hi. }
  destruct (OwnDevice_fine op Hop (un_network u)) as [He Hd]. split; [by apply inv_network|].
  intros c. apply coupled_network; [by apply Hc|left; intros ?; apply not_elem_of_nil|done|].
  intros _ x Hx _. left. by rewrite Hk.
Qed.

(** A change of the unit's own fields. *)
Lemma ok_change (f : CdmpUnit -> CdmpUnit) u :
  un_network (f u) = un_network u -> un_state (f u) = un_state u -> un_queue (f u) = un_queue u -> ok u -> ok (f u).
Proof.
  intros E1 E2 E3 [[[Hn Hs Hq] _ Hd] Hc]. split.
  - split; [split|constructor|]; rewrite ?E1, ?E2, ?E3; try done. unfold un_device. by rewrite E1.
  - intros c. apply (coupled_same strict u _ []); [done|done|intros ?; apply not_elem_of_nil|by apply Hc].
Qed.
Lemma modify_keeps (f : CdmpUnit -> CdmpUnit) :
  (forall u, un_network (f u) = un_network u /\ un_state (f u) = un_state u /\ un_queue (f u) = un_queue u) ->
  keeps (modify f).
Proof. intros Hf u Hu. destruct (Hf u) as (? & ? & ?). by apply ok_change. Qed.

(** *** Initialization and start *)

Lemma UnitDoInitialize_keeps : keeps (UnitDoInitialize env).
Proof.
  unfold UnitDoInitialize. repeat (apply preserves_bind; [|intros _]); [| | | | |apply preserves_ret].
  - by apply modify_keeps.
  - by apply (on_op_keeps OpInitialize).
  - apply on_heartbeat_keeps. intros d. apply HeartbeatInitialize_fine.
  - apply on_command_keeps. intros a d. apply CommandInitialize_fine.
  - apply on_state_still; [|intros; apply StateInitialize_from]. intros n d HN. by eapply Initialize_still.
Qed.
Lemma UnitInitialize_keeps register : keeps (Initialize (UnitWorkOf env register)).
Proof. unfold Initialize. preserve. apply UnitDoInitialize_keeps. Qed.

(** A start forgets the table, so it needs a unit that is not ONLINE. *)
Lemma StartServices_at register u :
  (guarded -> GetStatus (un_device u) <> ONLINE) -> ok u -> ok (state_of (StartServices env register u)).
Proof.
  intros Hg Hu. unfold StartServices. apply bind_from.
  - apply (on_op_at (OpStart register)); [done..| |done]. intros c _ Hon. by destruct (Hg c).
  - intros _. repeat (apply preserves_bind; [|intros _]); [| | |apply preserves_ret].
    + apply on_heartbeat_keeps. intros d. apply HeartbeatStart_fine.
    + apply on_command_keeps. intros a d. apply CommandStart_fine.
    + apply on_state_still; [|intros; apply StateStart_from]. intros n d HN. by eapply Start_still.
Qed.
Lemma ThreadEntry_at register u :
  (guarded -> GetStatus (un_device u) <> ONLINE) -> ok u -> ok (state_of (ThreadEntry env register u)).
Proof.
  intros Hg Hu. unfold ThreadEntry. apply bind_from; [by apply StartServices_at|].
  intros _ v Hv. rewrite bind_get. destruct (un_auto_discovery v); [|done].
  apply own_device_keeps; [intros d; apply Status_digest|apply DeviceSetStatus_changes|done].
Qed.
Lemma RunThread_at register u :
  (guarded -> GetStatus (un_device u) <> ONLINE) -> ok u -> ok (state_of (RunThread env register u)).
Proof.
  intros Hg Hu. unfold RunThread.
  assert (ok (u <| un_thread_running := true |>)) as Hu' by by apply (ok_change (fun u => u <| un_thread_running := true |>)).
  assert (ok (state_of (ThreadEntry env register (u <| un_thread_running := true |>)))) as Hr by by apply ThreadEntry_at.
  unfold state_of in *.
  destruct (ThreadEntry env register _) as [[u1 o1] [[]|x|]]; [exact Hr| |exact Hr].
  by apply (ok_change (fun u => u <| un_thread_running := false |>)).
Qed.
Lemma UnitDoStart_at register u :
  (guarded -> un_thread_running u = false -> GetStatus (un_device u) <> ONLINE) ->
  ok u -> ok (state_of (UnitDoStart env register u)).
Proof.
  intros Hg Hu. unfold UnitDoStart. rewrite bind_get. destruct (un_thread_running u) eqn:Hr; [by rewrite orb_true_r|].
  destruct (un_thread_initialized u); [|done]. cbn [negb orb].
  apply bind_from; [|intros _; apply preserves_ret]. apply RunThread_at; [|done]. intros c. by apply Hg.
Qed.

(** *** Frames, closures and tasks *)

Lemma queued_ok i u : item_wf i -> ok u -> ok (u <| un_queue ::= fun q => q ++ [i] |>).
Proof.
  intros Hi [Hu Hc]. split.
  - apply (inv_other (fun u => u <| un_queue ::= fun q => q ++ [i] |>) []); [done| |constructor|done].
    apply Forall_app. split; [by destruct Hu as [[]]|by apply Forall_singleton].
  - intros c. apply (coupled_same strict u _ []); [done|done|intros ?; apply not_elem_of_nil|by apply Hc].
Qed.
Lemma RunWork_keeps w : effect_wf (RunInSession 0 w) -> keeps (on_network env (RunWork w)).
Proof.
  intros Hw u [Hu Hc]. apply on_part_keeps. split.
  - apply (inv_network _ [RunInSession (session_ (un_network u)) w]); [done|by destruct Hu as [[]]| |done].
    apply Forall_singleton. by split.
  - intros c. apply (coupled_same strict u _ [RunInSession (session_ (un_network u)) w]); [done|done| |by apply Hc].
    by intros ? ?%list_elem_of_singleton.
Qed.
Lemma ReceiveFrame_keeps can_id data : Forall is_u8 data -> keeps (ReceiveFrame env can_id data).
Proof.
  intros Hd. unfold ReceiveFrame. apply preserves_bind; [apply (preserves_get _ id)|intros u0].
  repeat (apply preserves_bind; [|intros _]); apply preserves_when; intros _.
  - by apply RunWork_keeps.
  - apply preserves_modify. intros u Hu. by apply (queued_ok (HeartbeatItem data)).
  - apply preserves_modify. intros u Hu. by apply (queued_ok (RequestItem data)).
  - apply preserves_modify. intros u Hu. by apply (queued_ok (ResponseItem data)).
  - apply on_state_still; [|intros; apply QueueFrame_from]. intros n d HN. by eapply QueueFrame_still.
  - apply on_state_still; [|intros; apply QueueFrame_from]. intros n d HN. by eapply QueueFrame_still.
Qed.

Lemma RunItem_keeps i : item_wf i -> keeps (RunItem env i).
Proof.
  intros Hi. destruct i as [session w|f|f|f]; cbn [RunItem].
  - apply (on_op_keeps (OpQueued session w)); [|done..]. intros s. symmetry. apply bind_ret_tt.
  - apply on_heartbeat_keeps. intros _. by apply HeartbeatProcessFrame_fine.
  - apply on_command_keeps. intros a d. apply ProcessRequestFrame_fine.
  - apply on_command_keeps. intros a d. apply ProcessResponseFrame_fine.
Qed.
Lemma RunNextItem_keeps : keeps (RunNextItem env).
Proof.
  intros u Hu. unfold RunNextItem. rewrite bind_get. destruct (un_queue u) as [|i q] eqn:E; [done|].
  rewrite bind_modify. destruct Hu as [[[Hn Hs Hq] Hp Hd] Hc]. rewrite E in Hq. apply Forall_cons in Hq as [Hi Hq].
  apply (preserves_try ok _ (RunItem_keeps i Hi)). split; [by split; [split| |]|].
  intros c. apply (coupled_same strict u _ []); [done|done|intros ?; apply not_elem_of_nil|by apply Hc].
Qed.

Lemma RunTaskBody_keeps t : keeps (RunTaskBody env t).
Proof.
  assert (forall A (m : UM A), keeps m -> keeps (no_delay m)) as Hno.
  { intros A m Hm. unfold no_delay. apply preserves_bind; [done|intros _; apply preserves_ret]. }
  destruct t; cbn [RunTaskBody].
  - by apply (on_op_keeps OpValidationTask).
  - by apply (on_op_keeps OpDiscoveryTask).
  - by apply (on_op_keeps OpClaimTask).
  - apply on_heartbeat_keeps. intros d. apply ProcessPeriodicHeartbeat_fine.
  - apply Hno, on_command_keeps. intros a d. apply Timeouts_fine.
  - apply Hno, on_state_still; [|intros; apply ReceiveFrames_from]. intros n d HN. by eapply ReceiveFrames_still.
  - apply Hno, on_state_still; [|intros; apply Transmit_from]. intros n d HN. by eapply Transmit_still.
  - apply Hno, on_state_still; [|intros; apply ReplayRecords_from]. intros n d HN. by eapply ReplayRecords_still.
  - apply Hno, on_state_still; [|intros; apply NotifyStateHandlers_from]. intros n d HN. by eapply NotifyStateHandlers_still.
Qed.
Lemma RunTask_keeps t : keeps (RunTask env t).
Proof.
  intros u Hu. unfold RunTask. destruct (task_lookup t (un_deadlines u)) as [deadline|]; [|done].
  case_bool_decide; [|done].
  assert (ok (u <| un_deadlines ::= task_remove t |>)) as Hu'.
  { by apply (ok_change (fun u => u <| un_deadlines ::= task_remove t |>)). }
  pose proof (RunTaskBody_keeps t _ Hu') as Hr. unfold state_of in *.
  destruct (RunTaskBody env t _) as [[u1 out] r]. cbn [fst snd] in *.
  remember (match r with Ok d => d | _ => default None (task_lookup t (un_last_results u1)) end) as result eqn:Er. clear Er.
  assert (ok (u1 <| un_last_results ::= task_insert t result |>)) as Hu1.
  { by apply (ok_change (fun u => u <| un_last_results ::= task_insert t result |>)). }
  destruct result as [delay|]; [|exact Hu1].
  by apply (ok_change (fun u => u <| un_deadlines ::= task_insert t (env_now env + delay) |>)).
Qed.

(** *** Configuration *)

Lemma SetUnitBase_ok base u : ok u -> ok (SetUnitBase base u).
Proof.
  intros [[[Hn [Hl Hs Hr Ha] Hq] _ Hd] Hc]. split; [split; [split|constructor|done]|].
  - by destruct Hn.
  - split; [by destruct Hl|done|by destruct Hr|done].
  - done.
  - intros c. by destruct (Hc c).
Qed.
Lemma change_device_ok (f : CdmpDevice -> CdmpDevice) u :
  (forall d, state_digest_ (f d) = state_digest_ d) -> (forall d, GetStatus (f d) = GetStatus d) ->
  (forall d, status_change_callbacks_ (status_machine_ d) ⊆ status_change_callbacks_ (status_machine_ (f d))) ->
  ok u -> ok (u <| un_network ::= fun s => s <| device_ ::= f |> |>).
Proof.
  intros Hf Hst Hcb [[[Hn Hs Hq] _ Hd] Hc]. split; [split; [split|constructor|]; [|done|done|]|].
  - by apply (wf_device (f (device_ (un_network u)))).
  - unfold un_device in *. simpl. by rewrite Hf.
  - intros c. destruct (Hc c) as [[i Hi] Hcalls Hp]. split; unfold un_device in *; simpl; rewrite ?Hst; [|done|done].
    exists i. eapply lookup_weaken; [exact Hi|apply Hcb].
Qed.
End operations.

(** *** Stop

    The services are stopped one after another, and only then is the device reset: in between the state
    service may hold copies of a table that is gone.  It matters that no stop fails. *)

Section stop.
Context `{CdmpConfig} `{UnorderedIter} `{Crc8} `{HandlerAnswers} (env : Env) (guarded : Prop).

Lemma Stop_succeeds {S} (W : ServiceWork S Effect) : succeeds (sw_stop W) -> succeeds (Stop W).
Proof.
  intros Hw. unfold Stop, SetState. succeed. intros s. destruct (Hw s) as [b Ea]. unfold Transition, result_of in *.
  destruct (sw_stop W s) as [[s1 e1] r]. simpl in Ea. subst r. by destruct b; eexists.
Qed.
Lemma on_part_succeeds {S A} (part : CdmpUnit -> S) put (m : CdmpUnit -> M S Effect A) :
  (forall u, succeeds (m u)) -> succeeds (on_part env part put m).
Proof.
  intros Hm u. destruct (Hm u (part u)) as [a Ea]. exists a. unfold on_part.
  by destruct (deliver_all env _ _) as [v out].
Qed.

Lemma NetworkStop_succeeds : succeeds (NetworkStop env).
Proof. apply Stop_succeeds. cbn [sw_stop NetworkWorkOf]. unfold NetworkDoStop, NetworkUnregisterCanHandlers, ClearAllDevices. succeed. Qed.
Lemma HeartbeatStop_succeeds device : succeeds (HeartbeatStop env device).
Proof. apply Stop_succeeds. cbn [sw_stop HeartbeatWorkOf]. unfold HeartbeatDoStop, HeartbeatUnregisterCanHandlers. succeed. Qed.
Lemma CommandStop_succeeds register : succeeds (Stop (CommandWorkOf env register)).
Proof. apply Stop_succeeds. cbn [sw_stop CommandWorkOf]. unfold CommandDoStop, CommandUnregisterCanHandlers. succeed. Qed.
Lemma StateStop_succeeds device register : succeeds (Stop (StateWorkOf env device register)).
Proof.
  apply Stop_succeeds. cbn [sw_stop StateWorkOf].
  unfold StateDoStop, StateUnregisterCanHandlers, ForgetNetwork, RemoveRemoteRecords, set_changed_types, ScheduleStateHandlers. succeed.
Qed.

Lemma Reset_digest d : state_digest_ (Reset d).1 = state_digest_ d.
Proof. unfold Reset. pose proof (Status_digest OFFLINE false d). by destruct (DeviceSetStatus OFFLINE false d). Qed.
Lemma Reset_not_online d : GetStatus (Reset d).1 <> ONLINE.
Proof.
  unfold Reset, DeviceSetStatus, SetStatus, CanTransitionTo, GetStatus. destruct (status_ (status_machine_ d)) eqn:E; simpl; by rewrite ?E.
Qed.

Lemma ok_weaken u : unit_ok guarded true u -> unit_ok guarded false u.
Proof. intros [Hi Hc]. split; [done|]. intros c. destruct (Hc c) as [Hh Hl Hp]. split; [done|done|]. destruct Hp as [?|[? _]]; [by left|by right]. Qed.
Lemma ok_strengthen u : GetStatus (un_device u) <> ONLINE -> unit_ok guarded false u -> unit_ok guarded true u.
Proof.
  intros Hoff [Hi Hc]. split; [done|]. intros c. destruct (Hc c) as [Hh Hl Hp]. split; [done|done|right].
  destruct Hp as [(new & _ & Hin)|[Ho _]]; [by apply elem_of_nil in Hin|]. split; [done|].
  intros _ x. rewrite (Ho Hoff). by intros ?%elem_of_nil.
Qed.

Lemma UnitReset_at u : unit_ok guarded false u -> unit_ok guarded true (state_of (on_network env (OwnDevice Reset) u)).
Proof.
  intros Hu. apply ok_strengthen; [|by apply own_device_keeps; [apply Reset_digest|apply Reset_changes|]].
  unfold on_network, on_part. destruct (deliver_all env _ _) as [v out] eqn:E. cbn [state_of fst snd].
  replace v with (deliver_all env (effects_of (OwnDevice Reset (un_network u))) (u <| un_network := state_of (OwnDevice Reset (un_network u)) |>)).1 by by rewrite E.
  rewrite deliver_all_status. unfold OwnDevice. rewrite bind_get. pose proof (Reset_not_online (device_ (un_network u))) as Hr.
  destruct (Reset (device_ (un_network u))) as [d calls]. by rewrite bind_modify.
Qed.

Lemma UnitDoStop_at u : unit_ok guarded true u -> unit_ok guarded true (state_of (UnitDoStop env u)).
Proof.
  intros Hu%ok_weaken. unfold UnitDoStop. rewrite bind_modify.
  apply (bind_after (unit_ok guarded false)); [apply on_part_succeeds; intros; apply NetworkStop_succeeds| |intros _ v1 Hv1].
  { apply (on_op_at env guarded false OpStop); [done..|]. by apply (ok_change guarded false (fun u => u <| un_thread_running := false |>)). }
  apply (bind_after (unit_ok guarded false)); [apply on_part_succeeds; intros; apply HeartbeatStop_succeeds| |intros _ v2 Hv2].
  { apply on_heartbeat_keeps; [|done]. intros d. apply HeartbeatStop_fine. }
  apply (bind_after (unit_ok guarded false)); [apply on_part_succeeds; intros; apply CommandStop_succeeds| |intros _ v3 Hv3].
  { apply on_command_keeps; [|done]. intros a d. apply CommandStop_fine. }
  apply (bind_after (unit_ok guarded false)); [apply on_part_succeeds; intros; apply StateStop_succeeds| |intros _ v4 Hv4].
  { apply on_state_still; [|intros; apply StateStop_from|done]. intros n d HN. by eapply Stop_still. }
  apply bind_from; [by apply UnitReset_at|intros _; apply preserves_ret].
Qed.

Lemma UnitTransition_at register (work : UM bool) p q u :
  unit_ok guarded true (state_of (work u)) -> unit_ok guarded true (state_of (Transition (UnitWorkOf env register) work p q u)).
Proof.
  intros Hw. unfold Transition, state_of in *.
  destruct (work u) as [[u1 o1] [[]|x|]]; cbn [fst snd] in *; try exact Hw;
    match goal with |- unit_ok _ _ (sw_set_state _ ?st _) =>
      by apply (ok_change guarded true (fun u => u <| un_service_state := st |>)) end.
Qed.
Lemma UnitStop_keeps register : preserves (unit_ok guarded true) (Stop (UnitWorkOf env register)).
Proof.
  intros u Hu. unfold Stop. rewrite bind_get. case_bool_decide; [done|]. case_bool_decide; [done|].
  unfold SetState. rewrite bind_modify. apply UnitTransition_at, UnitDoStop_at.
  by apply (ok_change guarded true (fun u => u <| un_service_state := STOPPING |>)).
Qed.
Lemma UnitStart_at register u :
  (guarded -> un_thread_running u = false -> GetStatus (un_device u) <> ONLINE) ->
  unit_ok guarded true u -> unit_ok guarded true (state_of (Start (UnitWorkOf env register) u)).
Proof.
  intros Hg Hu. unfold Start. rewrite bind_get. case_bool_decide; [done|]. case_bool_decide; [done|].
  unfold SetState. rewrite bind_modify. apply UnitTransition_at, UnitDoStart_at; [done|].
  by apply (ok_change guarded true (fun u => u <| un_service_state := STARTING |>)).
Qed.
End stop.

(** ** Runs *)

(** No start has found the unit ONLINE with its thread over. *)
Definition start_guard (op : UnitOp) (u : CdmpUnit) : Prop :=
  match op with
  | UnStart _ => un_thread_running u = false -> GetStatus (un_device u) <> ONLINE
  | _ => True
  end.
#[export] Instance start_guard_dec op u : Decision (start_guard op u).
Proof. destruct op; simpl; apply _. Defined.
Fixpoint starts_offline `{CdmpConfig} `{UnorderedIter} `{Crc8} `{HandlerAnswers} (l : list (Env * UnitOp)) (u : CdmpUnit) : Prop :=
  match l with
  | [] => True
  | (env, op) :: l => start_guard op u /\ starts_offline l (state_of (run_unit_op env op u))
  end.

Section runs.
Context `{CdmpConfig} `{UnorderedIter} `{Crc8} `{HandlerAnswers} (guarded : Prop).

Lemma run_unit_op_ok env op u :
  unit_op_wf op -> (guarded -> start_guard op u) -> unit_ok guarded true u -> unit_ok guarded true (state_of (run_unit_op env op u)).
Proof.
  intros Hop Hg Hu.
  assert (forall A (m : UM A), preserves (unit_ok guarded true) m -> unit_ok guarded true (state_of (ignore_result m u))) as Hi.
  { intros A m Hm. unfold ignore_result. apply bind_from; [by apply Hm|intros _; apply preserves_ret]. }
  destruct op; cbn [run_unit_op].
  - apply Hi, UnitInitialize_keeps.
  - unfold ignore_result. apply bind_from; [by apply UnitStart_at|intros _; apply preserves_ret].
  - apply Hi, UnitStop_keeps.
  - unfold UnitConfigure. rewrite bind_get. repeat (case_match; [done|]). by apply SetUnitBase_ok.
  - by apply (ok_change guarded true (fun u => u <| un_auto_discovery := enabled |>)).
  - by apply ReceiveFrame_keeps.
  - by apply RunNextItem_keeps.
  - by apply RunTask_keeps.
  - by apply (on_op_keeps env guarded true (OpRemove device_id)); [intros s; symmetry; apply bind_ret_tt|..].
  - apply Hi, on_command_keeps. intros a d. apply SendCommand_fine.
  - apply Hi, on_state_keeps; [|intros; apply SetLocalState_from]. intros n d HN. by apply (SetLocalState_fine env d n HN).
  - apply on_state_keeps; [|intros; apply ClearLocalState_from|done]. intros n d HN. by apply (ClearLocalState_fine env d n HN).
  - apply Hi, on_state_still; [|intros; apply RegisterStateHandler_from]. intros n d HN. by apply (RegisterStateHandler_still env d n HN).
  - apply on_state_still; [|intros; apply UnregisterStateHandler_from|done]. intros n d HN. by apply (UnregisterStateHandler_still env d n HN).
  - apply on_command_keeps; [|done]. intros a d. apply RegisterUserCommandHandler_fine.
  - apply on_command_keeps; [|done]. intros a d. by constructor.
  - apply on_command_keeps; [|done]. intros a d. apply RegisterServiceCommandHandler_fine.
  - apply on_heartbeat_keeps; [|done]. intros d. by constructor.
  - apply change_device_ok; [| | |done]; intros d; by destruct is_set.
  - by apply change_device_ok.
  - apply change_device_ok; [done|done| |done]. intros d. simpl. unfold RegisterStatusChangeHandler. simpl.
    apply insert_subseteq. apply (RegisterStatusChangeHandler_fresh (UserStatusHandler handler)).
Qed.

Lemma NewUnit_ok now uid features base u : NewUnit now uid features base = Ok u -> unit_ok guarded true u.
Proof.
  unfold NewUnit, NewDevice. destruct (bool_decide (uid = 0)); [done|]. intros [= <-].
  split; [split; [split|constructor|]|]; simpl.
  - apply NewNetworkService_wf.
  - split; [apply NewStateService_local_wf|constructor| |constructor].
    split; simpl; [constructor|lia|constructor|by rewrite length_replicate].
  - constructor.
  - done.
  - intros _. split; [by exists 4|by intros c ?%elem_of_nil|right]. split; [done|]. by intros _ x ?%elem_of_nil.
Qed.

Lemma run_unit_ok l u :
  Forall (fun p => unit_op_wf p.2) l -> (guarded -> starts_offline l u) -> unit_ok guarded true u ->
  unit_ok guarded true (run_unit l u).1.
Proof.
  intros Hl. revert u. induction Hl as [|[env op] l Hop Hl IH]; intros u Hg Hu; [done|]. cbn [run_unit].
  specialize (IH (state_of (run_unit_op env op u)) (fun c => proj2 (Hg c)) (run_unit_op_ok env op u Hop (fun c => proj1 (Hg c)) Hu)).
  by destruct (run_unit l _).
Qed.
End runs.

(** A unit joins a network with one peer, ID 2, which accepts its claim of ID 1 and then shares a record of
    type 7; the application of the unit sets a record of its own. *)
#[local] Instance some_answers : HandlerAnswers :=
  {| command_answer := fun _ _ data => Ok (mkCommandResult 0 data); service_answer := fun _ _ => Ok None |}.
#[local] Existing Instances sample_crc default_config some_iter.
Definition at_time (t : Z) (op : UnitOp) : Env * UnitOp := (mkEnv t true, op).
Definition from_bus (t id : Z) (data : list Z) : Env * UnitOp := at_time t (UnReceive (Standard id) data).
Definition joining : list (Env * UnitOp) :=
  [at_time 0 UnInitialize; at_time 0 (UnStart (fun _ => 1)); at_time 0 UnWork; at_time 0 (UnTask DiscoveryTask);
   from_bus 20 1792 (DiscoveryResponse_ToCanFrame (mkDiscoveryResponse 2 300 0)); at_time 20 UnWork;
   at_time 1000 (UnTask DiscoveryTask); at_time 2000 (UnTask DiscoveryTask); at_time 3000 (UnTask DiscoveryTask);
   at_time 3000 UnWork; at_time 3100 (UnTask IdClaimTask);
   from_bus 3110 1792 (IdClaimResponse_ToCanFrame (mkIdClaimResponse 2 1 0 CLAIM_ACCEPT)); at_time 3110 UnWork;
   at_time 3200 (UnTask IdClaimTask); at_time 3210 (UnSetLocalState 9 [1; 2]);
   from_bus 3220 1796 (StateChange_ToCanFrame (mkStateChange 2 1 7 [5])); at_time 3220 (UnTask ReceiveTask)].
Definition new_unit : CdmpUnit :=
  match NewUnit 0 4711 0 1792 with
  | Ok u => u
  | _ => mkUnit (NewNetworkService sample_device 0) (NewHeartbeatService 0) (NewCommandService 0) (NewStateService 0)
           STOPPED false false false [] [] []
  end.
Lemma new_unit_eq : NewUnit 0 4711 0 1792 = Ok new_unit.
Proof. reflexivity. Qed.
Lemma joining_wf : Forall (fun p => unit_op_wf p.2) joining.
Proof. apply (bool_decide_eq_true_1 _). vm_compute. reflexivity. Qed.

(** C2. In every run of a unit from its construction, whatever frames, closures, task steps, starts, stops,
    reconfigurations and API calls make it up, and at whatever times: the invariants of the network service
    and of the state service hold side by side; the table answers the state service as the interface
    [NetworkInfo] promises (sorted, without repetitions, within the capacity asked for, and every device it
    lists as ONLINE online); and the digest in the heartbeat of the unit is that of the records the state
    service holds. *)
Theorem unit_keeps_its_invariants `{CdmpConfig} `{UnorderedIter} `{Crc8} `{HandlerAnswers} now uid features base u l :
  NewUnit now uid features base = Ok u -> Forall (fun p => unit_op_wf p.2) l ->
  let u' := (run_unit l u).1 in
  net_wf (un_network u') /\ local_wf (un_state u') /\ sending_wf (un_state u') /\ remote_wf (un_state u') /\
  acks_wf (un_state u') /\
  LawfulNetworkInfo (TableInfo (un_network u')) /\
  hb_state_digest (HeartbeatMessage (un_device u') (un_heartbeat u')) = LocalDigest (local_records_ (un_state u')).
Proof.
  intros Hu Hl u'.
  assert (unit_ok False true u') as [[[Hn [Hlo Hse Hre Hac] Hq] _ Hd] _] by by apply run_unit_ok; [..|eapply NewUnit_ok].
  split_and!; [done..|by apply table_info_lawful|exact Hd].
Qed.

Lemma unit_keeps_its_invariants_witness :
  let u := (run_unit joining new_unit).1 in
  GetStatus (un_device u) = ONLINE /\ lr_state_type <$> local_records_ (un_state u) = [9] /\
  hb_state_digest (HeartbeatMessage (un_device u) (un_heartbeat u)) = LocalDigest (local_records_ (un_state u)).
Proof.
  pose proof (unit_keeps_its_invariants 0 4711 0 1792 new_unit joining new_unit_eq joining_wf) as Hu. cbv zeta in *.
  split_and!; [vm_compute; reflexivity|vm_compute; reflexivity|apply Hu].
Defined.

(** C1. The state service holds copies of the records of known devices only, and none unless its unit is
    ONLINE: in every run from the construction, whatever frames, closures, task steps, starts, stops,
    reconfigurations and API calls make it up, provided that no start finds the unit ONLINE with its thread
    over, each copy is of a device in the network service's table, and a unit that is not ONLINE has no
    copies.  The state service learns of both only through the device events and the status handlers. *)
Theorem copies_follow_the_table `{CdmpConfig} `{UnorderedIter} `{Crc8} `{HandlerAnswers} now uid features base u l :
  NewUnit now uid features base = Ok u -> Forall (fun p => unit_op_wf p.2) l -> starts_offline l u ->
  let u' := (run_unit l u).1 in
  (GetStatus (un_device u') <> ONLINE -> remote_records_ (un_state u') = []) /\
  forall r, r ∈ remote_records_ (un_state u') -> exists d, network_devices_ (un_network u') !! rr_source r = Some d.
Proof.
  intros Hu Hl Hg u'. assert (unit_ok True true u') as [_ Hc] by by apply run_unit_ok; [..|eapply NewUnit_ok].
  destruct (Hc I) as [_ _ [(new & _ & Hin)|[Ho Hs]]]; [by apply elem_of_nil in Hin|]. split; [done|].
  intros r Hr. destruct (Hs eq_refl (rr_source r)) as [Hk|(info & Hin & _)]; [by apply list_elem_of_fmap_2| |by apply elem_of_nil in Hin].
  by apply elem_of_dom in Hk as [d Hd]; exists d.
Qed.

Lemma copies_follow_the_table_witness :
  let u := (run_unit joining new_unit).1 in
  remote_records_ (un_state u) <> [] /\
  forall r, r ∈ remote_records_ (un_state u) -> exists d, network_devices_ (un_network u) !! rr_source r = Some d.
Proof.
  assert (starts_offline joining new_unit) as Hg by (vm_compute; intuition congruence).
  split; [vm_compute; discriminate|].
  apply (copies_follow_the_table 0 4711 0 1792 new_unit joining new_unit_eq joining_wf Hg).
Defined.
