(* ===== verification/SmpCan.v ===== *)
(** * SMP over CAN: framing and reassembly

    [src/src/subsys/smp/smp_header.h] and [src/src/subsys/smp/can/]: [smp_can_frame_format.h],
    [smp_can_framer.*], [smp_can_reassembler.*].  Sizes and offsets are [nat] ([size_t], far from its
    bound); the packet and the buffer are lists of bytes. *)

From S2P Require Import Prelude.

(** ** [SmpHeader] *)

(** [SmpOperation] is the 3-bit field; only 0 to 3 have a name. *)
Definition OP_READ : Z := 0.
Definition OP_READ_RESPONSE : Z := 1.
Definition OP_WRITE : Z := 2.
Definition OP_WRITE_RESPONSE : Z := 3.

Record SmpHeader := mkSmpHeader {
  operation : Z;
  version : Z;
  flags : Z;
  body_length : Z;
  group : Z;
  sequence : Z;
  command_id : Z;
}.

Definition SMP_HEADER_SIZE : nat := 8.

Definition SmpHeader_Parse (data : list Z) : option SmpHeader :=
  match data with
  | d0 :: d1 :: d2 :: d3 :: d4 :: d5 :: d6 :: d7 :: _ =>
      Some (mkSmpHeader (Z.land d0 7) (Z.land (Z.shiftr d0 3) 3) d1 (Z.lor (Z.shiftl d2 8) d3)
              (Z.lor (Z.shiftl d4 8) d5) d6 d7)
  | _ => None
  end.

Definition SmpHeader_Encode (h : SmpHeader) : list Z :=
  [u8 (Z.lor (Z.land (operation h) 7) (Z.shiftl (Z.land (version h) 3) 3)); flags h;
   u8 (Z.shiftr (body_length h) 8); u8 (body_length h); u8 (Z.shiftr (group h) 8); u8 (group h);
   sequence h; command_id h].

Definition GetPacketSize (h : SmpHeader) : nat := SMP_HEADER_SIZE + Z.to_nat (body_length h).
Definition IsRequest (h : SmpHeader) : bool :=
  bool_decide (operation h = OP_READ) || bool_decide (operation h = OP_WRITE).
Definition IsResponse (h : SmpHeader) : bool :=
  bool_decide (operation h = OP_READ_RESPONSE) || bool_decide (operation h = OP_WRITE_RESPONSE).

(** ** [SmpCanFrameFormat]: classic CAN frames, or CAN FD when [true] *)

Abbreviation SmpCanFrameFormat := bool.

Definition CAN_FD_LENGTHS : list nat := [12; 16; 20; 24; 32; 48; 64]%nat.
Definition CLASSIC_FRAME_SIZE : nat := 8.
Definition CAN_FD_FRAME_SIZE : nat := 64.
Definition START_FLAG : Z := 128.
Definition SEQUENCE_MASK : Z := 127.

Definition GetFrameSize (is_can_fd : SmpCanFrameFormat) : nat :=
  if is_can_fd then CAN_FD_FRAME_SIZE else CLASSIC_FRAME_SIZE.
Definition GetDataSize (fmt : SmpCanFrameFormat) : nat := GetFrameSize fmt - 1.
Definition GetPaddedSize (is_can_fd : SmpCanFrameFormat) (size : nat) : nat :=
  if negb is_can_fd || bool_decide (size <= CLASSIC_FRAME_SIZE)%nat then size
  else default size (find_first (fun len => bool_decide (size <= len)%nat) CAN_FD_LENGTHS).
Definition GetFrameCount (fmt : SmpCanFrameFormat) (packet_size : nat) : nat :=
  (packet_size + GetDataSize fmt - 1) / GetDataSize fmt.

(** ** [SmpCanFramer] *)

Record SmpCanFramer := mkFramer {
  packet_ : list Z;
  framer_format_ : SmpCanFrameFormat;
  offset_ : nat;
  sequence_ : Z;
}.
#[export] Instance SmpCanFramer_eta : Eta SmpCanFramer := fun s =>
  mkFramer (packet_ s) (framer_format_ s) (offset_ s) (sequence_ s).

Definition NewFramer (packet : list Z) (fmt : SmpCanFrameFormat) : SmpCanFramer := mkFramer packet fmt 0 0.
Definition IsDone (s : SmpCanFramer) : bool := bool_decide (length (packet_ s) <= offset_ s)%nat.

(** The bytes written to the front of [frame], as many as the length returned. *)
Definition Encode (s : SmpCanFramer) : list Z :=
  if IsDone s then []
  else
    let data_size := Nat.min (GetDataSize (framer_format_ s)) (length (packet_ s) - offset_ s) in
    let frame_size := GetPaddedSize (framer_format_ s) (data_size + 1) in
    [u8 (Z.lor (if bool_decide (offset_ s = 0%nat) then START_FLAG else 0) (Z.land (sequence_ s) SEQUENCE_MASK))]
      ++ take data_size (drop (offset_ s) (packet_ s)) ++ replicate (frame_size - (1 + data_size)) 0.

Definition Advance (s : SmpCanFramer) : SmpCanFramer :=
  if IsDone s then s
  else
    s <| offset_ ::= fun o => (o + Nat.min (GetDataSize (framer_format_ s)) (length (packet_ s) - o))%nat |>
      <| sequence_ ::= fun n => Z.land (n + 1) SEQUENCE_MASK |>.

(** The frames of a packet: [while(!IsDone()) { Encode(); Advance(); }].  Every round advances by a byte. *)
Fixpoint frames_from (fuel : nat) (s : SmpCanFramer) : list (list Z) :=
  match fuel with
  | O => []
  | S fuel => if IsDone s then [] else Encode s :: frames_from fuel (Advance s)
  end.
Definition frames_of (fmt : SmpCanFrameFormat) (packet : list Z) : list (list Z) :=
  frames_from (length packet) (NewFramer packet fmt).

(** ** [SmpCanReassembler] *)

Inductive Result := IN_PROGRESS | COMPLETE | DROPPED | IGNORED.
#[export] Instance Result_eq_dec : EqDecision Result.
Proof. solve_decision. Defined.

Definition DEFAULT_TIMEOUT_MS : Z := 100.

Record SmpCanReassembler := mkReassembler {
  buffer_ : list Z;
  format_ : SmpCanFrameFormat;
  timeout_ms_ : Z;
  length_ : nat;
  packet_size_ : nat;
  last_frame_ms_ : Z;
  next_sequence_ : Z;
  is_active_ : bool;
}.
#[export] Instance SmpCanReassembler_eta : Eta SmpCanReassembler := fun s =>
  mkReassembler (buffer_ s) (format_ s) (timeout_ms_ s) (length_ s) (packet_size_ s) (last_frame_ms_ s)
    (next_sequence_ s) (is_active_ s).

Definition NewReassembler (timeout_ms : Z) : SmpCanReassembler := mkReassembler [] false timeout_ms 0 0 0 0 false.

Definition ResetReassembler (s : SmpCanReassembler) : SmpCanReassembler :=
  s <| length_ := 0%nat |> <| packet_size_ := 0%nat |> <| next_sequence_ := 0 |> <| is_active_ := false |>.

Definition Attach (buffer : list Z) (fmt : SmpCanFrameFormat) (s : SmpCanReassembler) : SmpCanReassembler :=
  ResetReassembler (s <| buffer_ := buffer |> <| format_ := fmt |>).

Definition IsExpired (now_ms : Z) (s : SmpCanReassembler) : bool :=
  is_active_ s && bool_decide (timeout_ms_ s < now_ms - last_frame_ms_ s).

Definition IsStartFrame (frame : list Z) : bool :=
  match frame with [] => false | b :: _ => negb (bool_decide (Z.land b START_FLAG = 0)) end.

Definition Drop (s : SmpCanReassembler) : SmpCanReassembler * Result := (ResetReassembler s, DROPPED).

(** [std::copy_n] into the buffer from [start]. *)
Definition copy_at (start : nat) (data buffer : list Z) : list Z :=
  take start buffer ++ data ++ drop (start + length data) buffer.

Definition Append (data : list Z) (s : SmpCanReassembler) : SmpCanReassembler * Result :=
  match data with
  | [] => Drop s
  | _ =>
      let start := length_ s in
      let copied := Nat.min (length data) (length (buffer_ s) - start) in
      let s := s <| buffer_ ::= copy_at start (take copied data) |> <| length_ := (start + copied)%nat |> in
      let checked :=
        if bool_decide (packet_size_ s = 0%nat) && bool_decide (SMP_HEADER_SIZE <= length_ s)%nat then
          match SmpHeader_Parse (take (length_ s) (buffer_ s)) with
          | None => None
          | Some header =>
              if bool_decide (length (buffer_ s) < GetPacketSize header)%nat then None
              else Some (s <| packet_size_ := GetPacketSize header |>)
          end
        else Some s in
      match checked with
      | None => Drop s
      | Some s =>
          if bool_decide (packet_size_ s = 0%nat) || bool_decide (length_ s < packet_size_ s)%nat then
            if bool_decide (length data < GetDataSize (format_ s))%nat || bool_decide (copied < length data)%nat
            then Drop s else (s, IN_PROGRESS)
          else if negb (bool_decide (GetPaddedSize (format_ s) (packet_size_ s - start + 1) = (length data + 1)%nat))
          then Drop s
          else (s <| length_ := packet_size_ s |> <| is_active_ := false |>, COMPLETE)
      end
  end.

Definition Accept (frame : list Z) (now_ms : Z) (s : SmpCanReassembler) : SmpCanReassembler * Result :=
  let s := if IsExpired now_ms s then ResetReassembler s else s in
  match frame with
  | [] => if is_active_ s then Drop s else (s, IGNORED)
  | b :: data =>
      if bool_decide (GetFrameSize (format_ s) < length frame)%nat
      then if is_active_ s then Drop s else (s, IGNORED)
      else
        let sequence := Z.land b SEQUENCE_MASK in
        let accept s :=
          Append data (s <| last_frame_ms_ := now_ms |> <| next_sequence_ := Z.land (sequence + 1) SEQUENCE_MASK |>) in
        if IsStartFrame frame then
          let s := ResetReassembler s in
          if negb (bool_decide (sequence = 0)) then Drop s else accept (s <| is_active_ := true |>)
        else if negb (is_active_ s) then (s, IGNORED)
        else if negb (bool_decide (sequence = next_sequence_ s)) then Drop s
        else accept s
  end.

(** A reassembler fed with frames and the times they arrive at: its last state and the results. *)
Fixpoint accept_all (l : list (Z * list Z)) (s : SmpCanReassembler) : SmpCanReassembler * list Result :=
  match l with
  | [] => (s, [])
  | (now, frame) :: l =>
      let '(s1, r) := Accept frame now s in
      let '(s2, rs) := accept_all l s1 in (s2, r :: rs)
  end.

(** The packet a completed reassembler holds. *)
Definition received (s : SmpCanReassembler) : list Z := take (length_ s) (buffer_ s).

(** A classic packet of 20 bytes: three frames, put together again in a buffer of 64. *)
Definition sample_packet : list Z :=
  SmpHeader_Encode (mkSmpHeader OP_WRITE 1 0 12 1 9 3) ++ seqZ 1 12.
Definition sample_reassembler (fmt : SmpCanFrameFormat) : SmpCanReassembler :=
  Attach (replicate 64 170) fmt (NewReassembler DEFAULT_TIMEOUT_MS).
Example sample_frame_lengths : length <$> frames_of false sample_packet = [8; 8; 7]%nat.
Proof. vm_compute. reflexivity. Qed.
Example sample_exchange :
  let o := accept_all ((fun f : list Z => (5, f)) <$> frames_of false sample_packet) (sample_reassembler false) in
  o.2 = [IN_PROGRESS; IN_PROGRESS; COMPLETE] /\ received o.1 = sample_packet.
Proof. vm_compute. split; reflexivity. Qed.
Example sample_exchange_fd :
  let o := accept_all ((fun f : list Z => (5, f)) <$> frames_of true sample_packet) (sample_reassembler true) in
  length <$> frames_of true sample_packet = [24]%nat /\ o.2 = [COMPLETE] /\ received o.1 = sample_packet.
Proof. vm_compute. repeat split; reflexivity. Qed.

#[global] Arguments Accept : simpl never.
#[global] Arguments Append : simpl never.

(** ** The header *)

Definition smp_header_wf (h : SmpHeader) : Prop :=
  0 <= operation h < 8 /\ 0 <= version h < 4 /\ is_u8 (flags h) /\ is_u16 (body_length h) /\ is_u16 (group h) /\
  is_u8 (sequence h) /\ is_u8 (command_id h).

Lemma header_bits op v : 0 <= op < 8 -> 0 <= v < 4 ->
  let b := u8 (Z.lor (Z.land op 7) (Z.shiftl (Z.land v 3) 3)) in Z.land b 7 = op /\ Z.land (Z.shiftr b 3) 3 = v.
Proof.
  intros Ho Hv.
  assert (Forall (fun '(op, v) => let b := u8 (Z.lor (Z.land op 7) (Z.shiftl (Z.land v 3) 3)) in
    Z.land b 7 = op /\ Z.land (Z.shiftr b 3) 3 = v) (list_prod (seqZ 0 8) (seqZ 0 4))) as Hall
    by (apply (bool_decide_eq_true_1 _); vm_compute; reflexivity).
  rewrite Forall_forall in Hall. apply (Hall (op, v)).
  apply list_elem_of_In, in_prod; apply list_elem_of_In, elem_of_seqZ; lia.
Qed.

Lemma be16_split w : is_u16 w -> Z.lor (Z.shiftl (u8 (Z.shiftr w 8)) 8) (u8 w) = w.
Proof. intros Hw. rewrite <- (le16_split w Hw) at 3. unfold le16, byte_at. by rewrite Z.shiftr_0_r. Qed.

Lemma SmpHeader_round_trip h : smp_header_wf h -> SmpHeader_Parse (SmpHeader_Encode h) = Some h.
Proof.
  intros (Ho & Hv & _ & Hl & Hg & _). destruct (header_bits _ _ Ho Hv) as [E1 E2].
  unfold SmpHeader_Parse, SmpHeader_Encode. rewrite E1, E2, !be16_split by done. by destruct h.
Qed.

(** The packet size the first bytes announce; 0 while the header is incomplete. *)
Definition size_of (data : list Z) : nat :=
  match SmpHeader_Parse data with Some h => GetPacketSize h | None => 0 end.

Lemma size_of_short data : (length data < 8)%nat -> size_of data = 0%nat.
Proof. intros H. do 8 (destruct data as [|? data]; [done|]). simpl in H. lia. Qed.
Lemma Parse_long data : (8 <= length data)%nat -> is_Some (SmpHeader_Parse data).
Proof. intros H. do 8 (destruct data as [|? data]; [simpl in H; lia|]). by eexists. Qed.
Lemma size_of_pos data : (8 <= length data)%nat -> (8 <= size_of data)%nat.
Proof. intros [h Hh]%Parse_long. unfold size_of. rewrite Hh. unfold GetPacketSize, SMP_HEADER_SIZE. lia. Qed.
Lemma size_of_app data more : (8 <= length data)%nat -> size_of (data ++ more) = size_of data.
Proof. intros H. do 8 (destruct data as [|? data]; [simpl in H; lia|]). done. Qed.

(** A packet: a header and as many body bytes as it announces. *)
Definition is_packet (data : list Z) : Prop :=
  exists h, SmpHeader_Parse data = Some h /\ GetPacketSize h = length data.

Lemma is_packet_size data : is_packet data <-> size_of data = length data /\ data <> [].
Proof.
  unfold is_packet, size_of. destruct (SmpHeader_Parse data) as [h|] eqn:E; split.
  - intros (h' & [= <-] & Hl). split; [done|]. by intros ->.
  - intros [Hl _]. by exists h.
  - by intros (? & ? & _).
  - intros [Hl Hne]. by destruct data.
Qed.

(** ** The frames of a packet *)

Section frames.
Context (fmt : SmpCanFrameFormat).
#[local] Abbreviation D := (GetDataSize fmt).

Lemma data_size_pos : (7 <= D)%nat.
Proof. destruct fmt; vm_compute; lia. Qed.
Lemma frame_size : GetFrameSize fmt = S D.
Proof. by destruct fmt. Qed.

Lemma padded_full : GetPaddedSize fmt (D + 1) = (D + 1)%nat.
Proof. by destruct fmt. Qed.
Lemma padded_ge n : (n <= GetPaddedSize fmt n)%nat.
Proof.
  unfold GetPaddedSize. destruct (_ || _); [lia|].
  destruct (find_first _ _) as [m|] eqn:E; simpl; [|lia].
  apply find_first_Some in E as [_ E%bool_decide_eq_true]. lia.
Qed.
Lemma padded_le n : (n <= D + 1)%nat -> (GetPaddedSize fmt n <= D + 1)%nat.
Proof.
  unfold GetPaddedSize. intros Hn.
  assert (Forall (fun m => GetPaddedSize fmt m <= D + 1)%nat (seq 0 (D + 2))) as Hall
    by (destruct fmt; apply (bool_decide_eq_true_1 _); vm_compute; reflexivity).
  rewrite Forall_forall in Hall. apply (Hall n). apply elem_of_seq. lia.
Qed.

Definition chunk (packet : list Z) (i : nat) : list Z := take D (drop (i * D) packet).
Definition control (i : nat) : Z :=
  Z.lor (if bool_decide (i = 0%nat) then START_FLAG else 0) (Z.of_nat i mod 128).

(** [fs] frames [packet]: one frame per chunk, with the control bytes in order, each padded to the length its
    chunk needs (only the last of them can be, and only on CAN FD); the padding bytes are not looked at. *)
Definition is_framing (packet : list Z) (fs : list (list Z)) : Prop :=
  length fs = GetFrameCount fmt (length packet) /\
  forall i f, fs !! i = Some f ->
    exists pad, f = control i :: chunk packet i ++ pad /\ length f = GetPaddedSize fmt (length (chunk packet i) + 1).

Lemma frame_count_iff n i : (i < GetFrameCount fmt n)%nat <-> (i * D < n)%nat.
Proof.
  unfold GetFrameCount. pose proof data_size_pos as HD. remember D as d. clear Heqd.
  split; intros H.
  - pose proof (Nat.div_mod (n + d - 1) d ltac:(lia)) as E. pose proof (Nat.mod_upper_bound (n + d - 1) d ltac:(lia)).
    assert (S i * d <= (n + d - 1) / d * d)%nat by (apply Nat.mul_le_mono_r; lia). lia.
  - apply Nat.div_le_lower_bound; lia.
Qed.

Lemma chunk_length packet i : length (chunk packet i) = Nat.min D (length packet - i * D).
Proof. unfold chunk. by rewrite length_take, length_drop. Qed.

Lemma land_mask k : Z.land k SEQUENCE_MASK = k mod 128.
Proof. unfold SEQUENCE_MASK. change 127 with (Z.ones 7). by rewrite Z.land_ones. Qed.

Lemma control_u8 i : u8 (control i) = control i.
Proof.
  apply u8_id. unfold control, is_u8. pose proof (Z.mod_pos_bound (Z.of_nat i) 128 ltac:(lia)) as Hb.
  case_bool_decide as Hi; [subst; by vm_compute|]. rewrite Z.lor_0_l. lia.
Qed.
End frames.

(** ** The framer *)

Section framer.
Context (fmt : SmpCanFrameFormat).
#[local] Abbreviation D := (GetDataSize fmt).

Definition framer_at (packet : list Z) (i : nat) : SmpCanFramer :=
  mkFramer packet fmt (Nat.min (i * D) (length packet)) (Z.of_nat i mod 128).

Lemma framer_done packet i : IsDone (framer_at packet i) = negb (bool_decide (i * D < length packet)%nat).
Proof. unfold IsDone. simpl. do 2 case_bool_decide; simpl; (done || lia). Qed.

Lemma framer_advance packet i : (i * D < length packet)%nat -> Advance (framer_at packet i) = framer_at packet (S i).
Proof.
  intros Hi. unfold Advance. rewrite framer_done, bool_decide_eq_true_2 by done. simpl. unfold framer_at. simpl.
  f_equal; [lia|]. rewrite land_mask, Zplus_mod_idemp_l. f_equal. lia.
Qed.

Definition frame_at (packet : list Z) (i : nat) : list Z :=
  let c := chunk fmt packet i in
  control i :: c ++ replicate (GetPaddedSize fmt (length c + 1) - (1 + length c)) 0.

Lemma framer_encode packet i : (i * D < length packet)%nat -> Encode (framer_at packet i) = frame_at packet i.
Proof.
  intros Hi. unfold Encode. rewrite framer_done, bool_decide_eq_true_2 by done. cbn [negb framer_at offset_ packet_ framer_format_ sequence_].
  unfold frame_at. rewrite chunk_length, land_mask, Z.mod_mod, (Nat.min_l (i * D)) by lia. cbn [app].
  f_equal; [|f_equal].
  - rewrite <- (control_u8 i). unfold control. do 2 f_equal. pose proof data_size_pos fmt.
    destruct (bool_decide_reflect (i = 0%nat)) as [->|Hne]; [done|]. rewrite bool_decide_eq_false_2; [done|].
    destruct i; [done|]. simpl. lia.
  - unfold chunk. rewrite <- (take_take (drop (i * D) packet)).  rewrite (take_ge (drop _ _) (length packet - i * D)); [done|]. rewrite length_drop. lia.
Qed.

Lemma frames_from_at fuel packet i :
  frames_from fuel (framer_at packet i) = frame_at packet <$> seq i (Nat.min fuel (GetFrameCount fmt (length packet) - i)).
Proof.
  revert i. induction fuel as [|fuel IH]; intros i; [done|]. cbn [frames_from]. rewrite framer_done.
  pose proof (frame_count_iff fmt (length packet) i).
  destruct (bool_decide_reflect (i * D < length packet)%nat) as [Hi|Hi]; cbn [negb].
  - rewrite framer_encode, framer_advance, IH by done.
    replace (Nat.min (S fuel) _) with (S (Nat.min fuel (GetFrameCount fmt (length packet) - S i))) by lia. done.
  - replace (Nat.min (S fuel) _) with 0%nat by lia. done.
Qed.

Lemma frames_of_at packet :
  frames_of fmt packet = frame_at packet <$> seq 0 (GetFrameCount fmt (length packet)).
Proof.
  unfold frames_of. change (NewFramer packet fmt) with (framer_at packet 0). rewrite frames_from_at. do 2 f_equal.
  destruct (GetFrameCount fmt (length packet)) as [|k] eqn:E; [lia|].
  assert (k * D < length packet)%nat by (apply frame_count_iff; lia). pose proof (data_size_pos fmt).
  assert (k <= k * D)%nat by (rewrite <- (Nat.mul_1_r k) at 1; apply Nat.mul_le_mono_l; lia). lia.
Qed.

Lemma frames_of_framing packet : is_framing fmt packet (frames_of fmt packet).
Proof.
  rewrite frames_of_at. split; [by rewrite length_fmap, length_seq|].
  intros i f. rewrite list_lookup_fmap, fmap_Some. intros (k & Hk & ->). apply lookup_seq in Hk as [-> Hk].
  eexists. split; [done|]. unfold frame_at. simpl. rewrite length_app, length_replicate.
  pose proof (padded_ge fmt (length (chunk fmt packet i) + 1)). lia.
Qed.
End framer.

(** ** The reassembler *)

Section reassembler.
Implicit Types (s : SmpCanReassembler).

Lemma copy_at_received (start : nat) (data buffer : list Z) :
  (start + length data <= length buffer)%nat ->
  length (copy_at start data buffer) = length buffer /\
  take (start + length data) (copy_at start data buffer) = take start buffer ++ data.
Proof.
  intros Hl. unfold copy_at. split.
  - rewrite !length_app, length_take, length_drop. lia.
  - rewrite app_assoc, take_app_le by (rewrite length_app, length_take; lia).
    apply take_ge. rewrite length_app, length_take. lia.
Qed.

(** Equal chunks in a row, and the bytes after them. *)
Lemma chunks_length (d : nat) (cs : list (list Z)) :
  Forall (fun c : list Z => length c = d) cs -> length (concat cs) = (length cs * d)%nat.
Proof. induction 1 as [|c cs Hc _ IH]; simpl; [done|]. rewrite length_app. lia. Qed.
Lemma chunks_lookup (d : nat) (cs : list (list Z)) (x : list Z) i c :
  Forall (fun c : list Z => length c = d) cs -> cs !! i = Some c -> take d (drop (i * d) (concat cs ++ x)) = c.
Proof.
  intros Hcs. revert i. induction Hcs as [|a cs Ha _ IH]; intros i Hi; [done|]. simpl. rewrite <- app_assoc.
  destruct i as [|i]; simpl in *.
  - simplify_eq. rewrite drop_0. apply take_app_length'. done.
  - rewrite <- drop_drop, drop_app_length' by done. by apply IH.
Qed.
Lemma chunks_rest (d : nat) (cs : list (list Z)) (x : list Z) :
  Forall (fun c : list Z => length c = d) cs -> drop (length cs * d) (concat cs ++ x) = x.
Proof. intros Hcs. apply drop_app_length'. symmetry. by apply chunks_length. Qed.

(** What a reassembler in the middle of a packet knows. *)
Record sound s : Prop := mkSound {
  snd_fits : (length_ s <= length (buffer_ s))%nat;
  snd_size : packet_size_ s = size_of (received s);
  snd_room : (packet_size_ s <= length (buffer_ s))%nat;
  snd_part : (packet_size_ s = 0%nat \/ length_ s < packet_size_ s)%nat;
}.

Lemma received_length s : sound s -> length (received s) = length_ s.
Proof. intros Hs. unfold received. rewrite length_take. pose proof (snd_fits _ Hs). lia. Qed.

(** One step of [Append], on the contents. *)
Lemma Append_run data s :
  sound s -> data <> [] ->
  let copied := Nat.min (length data) (length (buffer_ s) - length_ s) in
  let whole := received s ++ take copied data in
  let n := size_of whole in
  exists buffer, length buffer = length (buffer_ s) /\ take (length whole) buffer = whole /\
  let s' := s <| buffer_ := buffer |> <| length_ := length whole |> <| packet_size_ := n |> in
  length whole = (length_ s + copied)%nat /\
  Append data s =
    if bool_decide (length buffer < n)%nat then Drop s'
    else if bool_decide (n = 0 \/ length whole < n)%nat then
      if bool_decide (length data < GetDataSize (format_ s) \/ copied < length data)%nat then Drop s' else (s', IN_PROGRESS)
    else if negb (bool_decide (GetPaddedSize (format_ s) (n - length_ s + 1) = (length data + 1)%nat)) then Drop s'
    else (s' <| length_ := n |> <| is_active_ := false |>, COMPLETE).
Proof.
  intros Hs Hd copied whole n. destruct Hs as [Hfit Hsize Hroom Hpart].
  assert (length (take copied data) = copied) as Hc by (rewrite length_take; lia).
  destruct (copy_at_received (length_ s) (take copied data) (buffer_ s)) as [Hbl Hbt]; [lia|].
  assert (length whole = (length_ s + copied)%nat) as Hw.
  { unfold whole, received. rewrite length_app, length_take, Hc. lia. }
  exists (copy_at (length_ s) (take copied data) (buffer_ s)).
  split; [done|]. split; [by rewrite Hc in Hbt; rewrite Hw|]. split; [done|].
  unfold Append. destruct data as [|b data]; [done|]. remember (b :: data) as data' eqn:Ed. clear Ed Hd b data.
  fold copied. cbn [length_ buffer_ packet_size_ format_ upd]. rewrite <- Hw.
  rewrite Hc in Hbt. rewrite <- Hw in Hbt.
  change (take (length_ s) (buffer_ s) ++ take copied data') with whole in Hbt. rewrite Hbt. clear Hbt Hc.
  assert (n = if bool_decide (packet_size_ s = 0%nat) then size_of whole else packet_size_ s) as Hn.
  { case_bool_decide as Hz; [done|]. unfold n, whole. rewrite Hsize in Hz |- *. apply size_of_app.
    apply Nat.nlt_ge. intros Hlt. by rewrite size_of_short in Hz. }
  rewrite !bool_decide_or. unfold SMP_HEADER_SIZE.
  destruct (bool_decide_reflect (packet_size_ s = 0%nat)) as [Hz|Hz]; cbn [andb].
  - destruct (bool_decide_reflect (8 <= length whole)%nat) as [H8|H8].
    + destruct (Parse_long whole H8) as [h Hh]. rewrite Hh.
      assert (GetPacketSize h = n) as -> by (unfold n, size_of; by rewrite Hh).
      by destruct (bool_decide (length (copy_at _ _ _) < n)%nat).
    + assert (n = 0%nat) as -> by (rewrite Hn; apply size_of_short; lia).
      rewrite (bool_decide_eq_false_2 (length _ < 0)%nat) by lia.
      clear Hn. clearbody whole copied. by destruct s; simpl in *; subst.
  - rewrite <- Hn in Hroom |- *. rewrite (bool_decide_eq_false_2 (length _ < n)%nat) by lia.
    clear Hsize Hroom. clearbody n whole copied. by destruct s; simpl in *; subst.
Qed.

Lemma sound_received s b : sound s -> size_of (received s) = b -> packet_size_ s = b.
Proof. intros Hs <-. apply Hs. Qed.

(** Full frames and the rest. *)
Definition full_frames (d : nat) (fs : list (list Z)) : Prop :=
  forall i f, fs !! i = Some f -> exists c, f = control i :: c /\ length c = d.

Lemma full_frames_chunks d fs : full_frames d fs -> Forall (fun c : list Z => length c = d) (tail <$> fs).
Proof.
  intros Hf. apply Forall_fmap, Forall_lookup. intros i f Hi. by destruct (Hf i f Hi) as (c & -> & Hc).
Qed.

Lemma full_frames_app d fs c :
  full_frames d fs -> length c = d -> full_frames d (fs ++ [control (length fs) :: c]).
Proof.
  intros Hf Hc i f [Hi|[Hi E]]%lookup_app_Some; [by apply Hf|].
  destruct (i - length fs)%nat as [|k] eqn:Ek; [|by destruct k]. injection E as <-.
  exists c. split; [|done]. do 2 f_equal; lia.
Qed.

(** The frames [fs] of one packet are in the buffer, all of them full. *)
Record holding (fs : list (list Z)) s : Prop := mkHolding {
  hold_sound : sound s;
  hold_full : full_frames (GetDataSize (format_ s)) fs;
  hold_received : received s = concat (tail <$> fs);
}.
Definition partial (fs : list (list Z)) s : Prop :=
  holding fs s /\ fs <> [] /\ is_active_ s = true /\ next_sequence_ s = Z.of_nat (length fs) mod 128.

Lemma holding_length fs s : holding fs s -> length_ s = (length fs * GetDataSize (format_ s))%nat.
Proof.
  intros [Hs Hf Hr]. rewrite <- received_length, Hr by done.
  by rewrite (chunks_length (GetDataSize (format_ s))), length_fmap by by apply full_frames_chunks.
Qed.

(** The two ways into [Append]. *)
Definition started (now : Z) s : SmpCanReassembler :=
  ResetReassembler s <| is_active_ := true |> <| last_frame_ms_ := now |> <| next_sequence_ := 1 |>.
Definition continued (now : Z) s : SmpCanReassembler :=
  s <| last_frame_ms_ := now |> <| next_sequence_ := (next_sequence_ s + 1) mod 128 |>.

Lemma started_holding now s : holding [] (started now s).
Proof.
  split; [|done|done]. split; simpl; [lia|done|lia|by left].
Qed.
Lemma continued_holding now fs s : holding fs s -> holding fs (continued now s).
Proof. intros [[] Hf Hr]. by repeat split. Qed.

Lemma control_start : control 0 = START_FLAG.
Proof. done. Qed.
Lemma control_next i : i <> 0%nat -> control i = Z.of_nat i mod 128.
Proof. intros Hi. unfold control. rewrite bool_decide_eq_false_2 by done. apply Z.lor_0_l. Qed.

Lemma byte_split b : is_u8 b ->
  (Z.land b START_FLAG = 0 -> b = Z.land b SEQUENCE_MASK) /\
  (Z.land b START_FLAG <> 0 -> b = START_FLAG + Z.land b SEQUENCE_MASK).
Proof.
  intros Hb.
  assert (Forall (fun b => (Z.land b START_FLAG = 0 -> b = Z.land b SEQUENCE_MASK) /\
    (Z.land b START_FLAG <> 0 -> b = START_FLAG + Z.land b SEQUENCE_MASK)) (seqZ 0 256)) as Hall
    by (apply (bool_decide_eq_true_1 _); vm_compute; reflexivity).
  rewrite Forall_forall in Hall. apply Hall, elem_of_seqZ. unfold is_u8 in Hb. lia.
Qed.

(** A first frame is taken in any state. *)
Lemma Accept_first c now s :
  (length c <= GetDataSize (format_ s))%nat -> Accept (control 0 :: c) now s = Append c (started now s).
Proof.
  intros Hc. unfold Accept, IsStartFrame. rewrite control_start.
  rewrite bool_decide_eq_false_2 by (destruct (IsExpired now s); rewrite frame_size; simpl; lia).
  by destruct (IsExpired now s).
Qed.

(** The next frame is taken while the packet is in progress. *)
Lemma Accept_next i c now s :
  (length c <= GetDataSize (format_ s))%nat -> i <> 0%nat -> is_active_ s = true -> IsExpired now s = false ->
  next_sequence_ s = Z.of_nat i mod 128 -> Accept (control i :: c) now s = Append c (continued now s).
Proof.
  intros Hc Hi Ha He Hn. unfold Accept, IsStartFrame. rewrite He, control_next by done.
  pose proof (Z.mod_pos_bound (Z.of_nat i) 128 ltac:(lia)) as Hb. rewrite <- Hn in *.
  rewrite bool_decide_eq_false_2 by (rewrite frame_size; simpl; lia).
  assert (Z.land (next_sequence_ s) START_FLAG = 0) as ->.
  { destruct (byte_split (next_sequence_ s)) as [_ H]; [unfold is_u8; lia|].
    destruct (decide (Z.land (next_sequence_ s) START_FLAG = 0)); [done|]. specialize (H n).
    rewrite land_mask, Z.mod_small in H by lia. unfold START_FLAG in H. lia. }
  rewrite Ha, land_mask, Z.mod_small by lia. cbn [negb].
  rewrite (bool_decide_eq_true_2 (0 = 0)), (bool_decide_eq_true_2 (next_sequence_ s = next_sequence_ s)) by done. by rewrite land_mask.
Qed.

(** Any other frame ends the packet in progress, if there is one. *)
Lemma Accept_cases i f now s :
  Forall is_u8 f -> (is_active_ s = true -> i <> 0%nat /\ next_sequence_ s = Z.of_nat i mod 128) ->
  (exists c, f = control 0 :: c /\ (length c <= GetDataSize (format_ s))%nat) \/
  (exists c, f = control i :: c /\ (length c <= GetDataSize (format_ s))%nat /\
     is_active_ s = true /\ IsExpired now s = false) \/
  exists r, r <> COMPLETE /\
    (Accept f now s = (ResetReassembler s, r) \/ Accept f now s = (s, r) /\ is_active_ s = false).
Proof.
  intros Hu Hi. unfold Accept. set (s1 := if IsExpired now s then ResetReassembler s else s).
  assert (s1 = ResetReassembler s \/ s1 = s) as Hs1 by (unfold s1; destruct (IsExpired now s); auto).
  assert (format_ s1 = format_ s) as Hfmt by by destruct Hs1 as [-> | ->].
  assert (forall r, r <> COMPLETE -> exists r', r' <> COMPLETE /\
    ((if is_active_ s1 then Drop s1 else (s1, r)) = (ResetReassembler s, r') \/
     (if is_active_ s1 then Drop s1 else (s1, r)) = (s, r') /\ is_active_ s = false)) as Hend.
  { intros r Hr. destruct Hs1 as [-> | ->]; [simpl; eauto|].
    destruct (is_active_ s) eqn:Ha; [exists DROPPED|exists r]; auto. }
  destruct f as [|b c]; [right; right; by apply Hend|].
  destruct (bool_decide_reflect (GetFrameSize (format_ s1) < length (b :: c))%nat) as [Hl|Hl];
    [right; right; by apply Hend|].
  rewrite Hfmt, frame_size in Hl. simpl in Hl. assert (length c <= GetDataSize (format_ s))%nat as Hc by lia.
  apply Forall_cons in Hu as [Hb _]. destruct (byte_split b Hb) as [Hb0 Hb1]. unfold IsStartFrame.
  destruct (bool_decide_reflect (Z.land b START_FLAG = 0)) as [H0|H0]; cbn [negb].
  - right. destruct (is_active_ s1) eqn:Ha; cbn [negb].
    + assert (s1 = s) as E by (destruct Hs1 as [-> | ->]; [done|done]). rewrite E in *. destruct (Hi Ha) as [Hne Hn].
      destruct (bool_decide_reflect (Z.land b SEQUENCE_MASK = next_sequence_ s)) as [Hq|Hq]; cbn [negb].
      * left. exists c. split; [by rewrite control_next, <- Hn, <- Hq, <- Hb0|]. split; [done|]. split; [done|].
        unfold s1 in E. destruct (IsExpired now s); [|done]. by rewrite <- E in Ha.
      * right. exists DROPPED. split; [done|]. by left.
    + right. exists IGNORED. split; [done|]. destruct Hs1 as [-> | E]; [by left|right]. by rewrite E in *.
  - destruct (bool_decide_reflect (Z.land b SEQUENCE_MASK = 0)) as [Hq|Hq]; cbn [negb].
    + left. exists c. split; [|done]. by rewrite control_start, (Hb1 H0), Hq.
    + right. right. exists DROPPED. split; [done|]. left. by destruct Hs1 as [-> | ->].
Qed.

(** The chunks of a packet, put together. *)
Lemma chunks_concat fmt (packet : list Z) (fs : list (list Z)) :
  (forall i f, fs !! i = Some f -> tail f = chunk fmt packet i) ->
  (length fs * GetDataSize fmt <= length packet)%nat ->
  concat (tail <$> fs) = take (length fs * GetDataSize fmt) packet.
Proof.
  induction fs as [|f fs IH] using rev_ind; intros Hf Hl; [by rewrite take_0|].
  rewrite length_app in *. simpl in Hl. rewrite fmap_app, concat_app, IH.
  - simpl. rewrite app_nil_r, (Hf (length fs) f) by (apply list_lookup_middle; lia).
    unfold chunk. rewrite Nat.mul_add_distr_r, Nat.mul_1_l. apply take_take_drop.
  - intros i g Hg. apply Hf. by apply lookup_app_l_Some.
  - lia.
Qed.

(** The last chunk completes a framing. *)
Lemma framing_complete fmt fs c (used : nat) :
  full_frames (GetDataSize fmt) fs -> (0 < used <= length c)%nat -> (length c <= GetDataSize fmt)%nat ->
  GetPaddedSize fmt (used + 1) = (length c + 1)%nat ->
  is_framing fmt (concat (tail <$> fs) ++ take used c) (fs ++ [control (length fs) :: c]).
Proof.
  intros Hf Hu Hc Hp. pose proof (full_frames_chunks _ _ Hf) as Hcs. pose proof (data_size_pos fmt) as HD.
  assert (length (take used c) = used) as Htu by (rewrite length_take; lia).
  split.
  - rewrite !length_app, Htu, (chunks_length _ _ Hcs), length_fmap. simpl.
    apply Nat.le_antisymm.
    + rewrite Nat.add_1_r. apply frame_count_iff. lia.
    + apply Nat.nlt_ge. rewrite frame_count_iff. lia.
  - intros i f [Hi|[Hi E]]%lookup_app_Some.
    + destruct (Hf i f Hi) as (d & -> & Hd). exists []. rewrite app_nil_r. unfold chunk.
      rewrite (chunks_lookup _ _ _ i d Hcs) by (rewrite list_lookup_fmap, Hi; done).
      split; [done|]. rewrite Hd, padded_full. simpl. lia.
    + assert (i = length fs) as -> by (destruct (i - length fs)%nat as [|[]] eqn:?; [lia|done|done]).
      rewrite Nat.sub_diag in E. injection E as <-. exists (drop used c). unfold chunk.
      rewrite <- (length_fmap tail fs), (chunks_rest _ _ _ Hcs). rewrite take_ge by lia.
      rewrite take_drop, Htu, Hp, length_fmap. simpl. split; [done|lia].
Qed.

Lemma size_of_part s x :
  sound s -> size_of (received s ++ x) <> 0%nat -> (length_ s < size_of (received s ++ x))%nat.
Proof.
  intros Hs Hn. pose proof (received_length s Hs) as Hl. destruct (snd_part s Hs) as [H0|H0].
  - rewrite (snd_size s Hs) in H0.
    assert (length (received s) < 8)%nat by (apply Nat.nle_gt; intros H8; pose proof (size_of_pos _ H8); lia).
    assert (8 <= length (received s ++ x))%nat as H8
      by (apply Nat.nlt_ge; intros H8; by apply Hn, size_of_short).
    pose proof (size_of_pos _ H8). lia.
  - rewrite (snd_size s Hs) in H0. rewrite size_of_app; [done|].
    apply Nat.nlt_ge. intros H8. rewrite size_of_short in H0 by done. lia.
Qed.

(** What comes out of [Append]. *)
Lemma Append_outcome fs c s :
  holding fs s -> (length c <= GetDataSize (format_ s))%nat ->
  let f := control (length fs) :: c in
  let s' := (Append c s).1 in
  format_ s' = format_ s /\ length (buffer_ s') = length (buffer_ s) /\
  ((Append c s).2 = DROPPED /\ is_active_ s' = false \/
   (Append c s).2 = IN_PROGRESS /\ holding (fs ++ [f]) s' /\
     is_active_ s' = is_active_ s /\ next_sequence_ s' = next_sequence_ s \/
   (Append c s).2 = COMPLETE /\ is_active_ s' = false /\
     is_framing (format_ s) (received s') (fs ++ [f]) /\ is_packet (received s')).
Proof.
  intros Hh Hc. pose proof Hh as [Hs Hf Hr]. cbv zeta.
  destruct (decide (c = [])) as [->|Hne]; [by repeat split; left|].
  destruct (Append_run c s Hs Hne) as (buffer & Hbl & Hbt & Hw & ->).
  set (copied := Nat.min _ _) in *. set (whole := received s ++ take copied c) in *. set (n := size_of whole) in *.
  assert (copied <= length c /\ copied <= length (buffer_ s) - length_ s)%nat as Hcop by (unfold copied; lia).
  pose proof (snd_fits s Hs) as Hfit.
  destruct (bool_decide_reflect (length buffer < n)%nat) as [Hbig|Hbig]; [by repeat split; auto|].
  destruct (bool_decide_reflect (n = 0 \/ length whole < n)%nat) as [Hpart|Hdone].
  - destruct (bool_decide_reflect (length c < GetDataSize (format_ s) \/ copied < length c)%nat) as [|Hfull];
      [by repeat split; auto|].
    split; [done|]. split; [done|]. right. left. split; [done|]. split; [|done].
    assert (copied = length c) as Ecp by lia. assert (length c = GetDataSize (format_ s)) as Ec by lia.
    assert (whole = concat (tail <$> fs ++ [control (length fs) :: c])) as Ewhole.
    { unfold whole. rewrite Ecp, take_ge, Hr by lia. rewrite fmap_app, concat_app. simpl. by rewrite app_nil_r. }
    split; [split|by apply full_frames_app|].
    + simpl. lia.
    + simpl. unfold received. simpl. by rewrite Hbt.
    + simpl. lia.
    + simpl. tauto.
    + unfold received. simpl. by rewrite Hbt.
  - assert (length_ s < n)%nat as Hlt by (apply size_of_part; [done|]; unfold n, whole in Hdone; tauto).
    destruct (bool_decide_reflect (GetPaddedSize (format_ s) (n - length_ s + 1) = (length c + 1)%nat)) as [Hp|]; cbn [negb];
      [|by repeat split; auto].
    split; [done|]. split; [done|]. right. right. split; [done|]. split; [done|].
    assert (take n buffer = take n whole) as Hn2 by (rewrite <- Hbt, take_take; f_equal; lia).
    assert (take n buffer = concat (tail <$> fs) ++ take (n - length_ s) c) as Hrec.
    { rewrite Hn2.
      unfold whole. rewrite Hr, take_app, take_take, <- Hr, received_length by done. f_equal; [|f_equal; lia].
      rewrite take_ge; [done|]. rewrite received_length by done. lia. }
    unfold received. simpl. split.
    + rewrite Hrec. apply framing_complete; try done. lia.
    + apply is_packet_size. split; [|rewrite Hrec; intros E%(f_equal length); rewrite length_app, length_take in E; simpl in E; lia].
      rewrite Hn2, length_take.
      assert (8 <= length whole)%nat as H8 by (apply Nat.nlt_ge; intros H8; apply Hdone; left; by apply size_of_short).
      pose proof (size_of_pos whole H8) as Hn8. fold n in Hn8.
      rewrite <- (size_of_app (take n whole) (drop n whole)) by (rewrite length_take; lia).
      rewrite take_drop. fold n. lia.
Qed.

(** [Append] goes on while the chunks of a packet that fits come in, and completes it with the last. *)
Lemma Append_framing packet fs f gs s :
  is_framing (format_ s) packet (fs ++ f :: gs) -> size_of packet = length packet -> (length packet <= length (buffer_ s))%nat ->
  holding fs s ->
  exists c s', f = control (length fs) :: c /\ (length c <= GetDataSize (format_ s))%nat /\
    format_ s' = format_ s /\ length (buffer_ s') = length (buffer_ s) /\ last_frame_ms_ s' = last_frame_ms_ s /\
    timeout_ms_ s' = timeout_ms_ s /\
    match gs with
    | [] => Append c s = (s', COMPLETE) /\ received s' = packet
    | _ => Append c s = (s', IN_PROGRESS) /\ holding (fs ++ [f]) s' /\
           is_active_ s' = is_active_ s /\ next_sequence_ s' = next_sequence_ s
    end.
Proof.
  intros [Hcount Hframes] Hsize Hroom Hh. pose proof Hh as [Hs Hf Hr].
  remember (GetDataSize (format_ s)) as d eqn:Ed. pose proof (data_size_pos (format_ s)) as Hd. rewrite <- Ed in Hd.
  destruct (Hframes (length fs) f) as (pad & Ef & El); [by apply list_lookup_middle|].
  rewrite length_app in Hcount. simpl in Hcount.
  assert (length fs * d < length packet)%nat as Hi by (rewrite Ed; apply frame_count_iff; lia).
  assert (received s = take (length fs * d) packet) as Hrec.
  { rewrite Hr, Ed. apply chunks_concat; [|rewrite <- Ed; lia]. intros j g Hj.
    destruct (Hframes j g) as (pad' & -> & El'); [by apply lookup_app_l_Some|].
    destruct (Hf j _ Hj) as (c & [= <-] & Hc). simpl in *.
    assert (length (chunk (format_ s) packet j) = d) as Hcj.
    { rewrite chunk_length, <- Ed. apply lookup_lt_Some in Hj. nia. }
    rewrite length_app, Hcj in Hc. assert (pad' = []) as -> by (apply length_zero_iff_nil; lia). by rewrite app_nil_r. }
  remember (chunk (format_ s) packet (length fs)) as ch eqn:Ech.
  assert (length ch = Nat.min d (length packet - length fs * d)) as Hch by (rewrite Ech, Ed; apply chunk_length).
  assert (length (ch ++ pad) <= d)%nat as Hcl.
  { subst f. simpl in El. pose proof (padded_le (format_ s) (length ch + 1)) as Hp. rewrite <- Ed in Hp. lia. }
  assert (ch ++ pad <> []) as Hne by (intros E%(f_equal length); rewrite length_app in E; simpl in E; lia).
  destruct (Append_run (ch ++ pad) s Hs Hne) as (buffer & Hbl & Hbt & Hw & Hrun).
  pose proof (holding_length fs s Hh) as Hlen. rewrite <- Ed in Hlen.
  assert (8 <= length packet)%nat as H8.
  { apply Nat.nlt_ge. intros H8. rewrite size_of_short in Hsize by done. lia. }
  remember (Nat.min (length (ch ++ pad)) (length (buffer_ s) - length_ s)) as copied eqn:Ecop.
  exists (ch ++ pad). destruct gs as [|g gs].
  - assert (length ch = length packet - length fs * d)%nat as Hlast.
    { assert (~ (S (length fs) * d < length packet))%nat; [|lia]. rewrite Ed, <- frame_count_iff. simpl in Hcount. lia. }
    rewrite length_app in Ecop. assert (length ch <= copied)%nat as Hcc by lia.
    assert (received s ++ take copied (ch ++ pad) = packet ++ take (copied - length ch) pad) as Ewhole.
    { rewrite Hrec, take_app, (take_ge ch), app_assoc by lia. f_equal. rewrite Ech. unfold chunk. rewrite <- Ed.
      rewrite (take_ge (drop _ _)) by (rewrite length_drop; lia). apply take_drop. }
    rewrite Ewhole in *. rewrite (size_of_app packet) in Hrun by done. rewrite Hsize in Hrun.
    rewrite !bool_decide_eq_false_2 in Hrun by (rewrite ?length_app; lia).
    rewrite bool_decide_eq_true_2 in Hrun
      by (rewrite Hlen, <- Hlast; subst f; simpl in El; lia). cbn [negb] in Hrun.
    exists (Append (ch ++ pad) s).1. rewrite Hrun. do 6 (split; [done|]). split; [done|].
    unfold received. simpl. transitivity (take (length packet) (packet ++ take (copied - length ch) pad));
      [|apply take_app_length]. rewrite <- Hbt, take_take, length_app. f_equal. lia.
  - assert (S (length fs) * d < length packet)%nat as Hmore.
    { rewrite Ed, <- frame_count_iff. simpl in Hcount. lia. }
    assert (pad = []) as -> by (apply length_zero_iff_nil; rewrite length_app in Hcl; lia). rewrite app_nil_r in *.
    assert (copied = length ch) as -> by lia. rewrite (take_ge ch) in * by lia.
    assert (received s ++ ch = take (S (length fs) * d) packet) as Ewhole.
    { rewrite Hrec, Ech. unfold chunk. rewrite <- Ed, take_take_drop. f_equal. lia. }
    rewrite Ewhole in *.
    pose proof (length_take_le packet (S (length fs) * d) ltac:(lia)) as Htl.
    assert (size_of (take (S (length fs) * d) packet) = 0 \/
            size_of (take (S (length fs) * d) packet) = length packet)%nat as Hn.
    { destruct (decide (8 <= S (length fs) * d)%nat).
      - right. rewrite <- Hsize. transitivity (size_of (take (S (length fs) * d) packet ++ drop (S (length fs) * d) packet)).
        + symmetry. apply size_of_app. rewrite length_take. lia.
        + by rewrite take_drop.
      - left. apply size_of_short. rewrite length_take. lia. }
    rewrite (bool_decide_eq_false_2 (length buffer < _)%nat) in Hrun by lia.
    rewrite (bool_decide_eq_true_2 (_ \/ _)) in Hrun by lia.
    rewrite (bool_decide_eq_false_2 (_ \/ _)) in Hrun by lia.
    assert (length ch = d) as Hcd by lia.
    remember (S (length fs) * d)%nat as m eqn:Em. exists (Append ch s).1. rewrite Hrun. do 6 (split; [done || simpl; lia|]). split; [done|]. split; [|done]. split; [split|..]; simpl.
    + rewrite length_take. lia.
    + exact (f_equal size_of (eq_sym Hbt)).
    + lia.
    + rewrite length_take. lia.
    + subst f. rewrite <- Ed. by apply full_frames_app.
    + refine (eq_trans Hbt _). rewrite <- Ewhole, Hr. subst f. rewrite fmap_app, concat_app. simpl. by rewrite app_nil_r.
Qed.

(** No frame comes later than the timeout after the one before it. *)
Fixpoint paced (timeout last : Z) (times : list Z) : Prop :=
  match times with [] => True | t :: times => t - last <= timeout /\ paced timeout t times end.

Lemma not_expired now s : now - last_frame_ms_ s <= timeout_ms_ s -> IsExpired now s = false.
Proof. intros H. unfold IsExpired. rewrite bool_decide_eq_false_2 by lia. by rewrite andb_false_r. Qed.

Definition success (n : nat) : list Result := replicate (n - 1) IN_PROGRESS ++ [COMPLETE].

Lemma success_more n : success (S (S n)) = IN_PROGRESS :: success (S n).
Proof. unfold success. simpl. by rewrite Nat.sub_0_r. Qed.

Lemma accept_all_cons now f l s s1 r :
  Accept f now s = (s1, r) ->
  (accept_all ((now, f) :: l) s).2 = r :: (accept_all l s1).2 /\
  (accept_all ((now, f) :: l) s).1 = (accept_all l s1).1.
Proof. intros E. cbn [accept_all]. rewrite E. by destruct (accept_all l s1). Qed.

Lemma accept_rest packet fs l s :
  partial fs s -> is_framing (format_ s) packet (fs ++ l.*2) -> l <> [] ->
  size_of packet = length packet -> (length packet <= length (buffer_ s))%nat ->
  paced (timeout_ms_ s) (last_frame_ms_ s) l.*1 ->
  (accept_all l s).2 = success (length l) /\ received (accept_all l s).1 = packet.
Proof.
  revert fs s. induction l as [|[now f] l IH]; intros fs s (Hh & Hne & Ha & Hn) Hfr Hl Hsize Hroom Hp; [done|].
  cbn [fmap list_fmap fst snd paced] in Hp, Hfr. destruct Hp as [Hp Hps].
  destruct (Append_framing packet fs f l.*2 (continued now s) Hfr Hsize Hroom)
    as (c & s' & -> & Hc & Efmt & Ebuf & Elast & Eto & Hrun); [by apply continued_holding|].
  assert (Accept (control (length fs) :: c) now s = Append c (continued now s)) as Hacc.
  { apply Accept_next; try done; [by destruct fs|]. by apply not_expired. }
  destruct l as [|p l]; simpl in Hrun.
  - destruct Hrun as [Hrun Hr]. rewrite Hrun in Hacc. by destruct (accept_all_cons _ _ [] _ _ _ Hacc) as [-> ->].
  - destruct Hrun as (Hrun & Hh' & Ha' & Hn'). rewrite Hrun in Hacc.
    destruct (accept_all_cons _ _ (p :: l) _ _ _ Hacc) as [-> ->].
    destruct (IH (fs ++ [control (length fs) :: c]) s') as [Hs2 Hr2]; try done.
    + split; [done|]. split; [by destruct fs|]. split; [by rewrite Ha'|].
      rewrite Hn', length_app. simpl. rewrite Hn, Zplus_mod_idemp_l. f_equal. lia.
    + rewrite Efmt, <- app_assoc. done.
    + by rewrite Ebuf.
    + by rewrite Eto, Elast.
    + cbn [length]. by rewrite success_more, Hs2.
Qed.

Lemma accept_framing packet t f l s :
  is_framing (format_ s) packet (f :: l.*2) -> size_of packet = length packet ->
  (length packet <= length (buffer_ s))%nat -> paced (timeout_ms_ s) t l.*1 ->
  let o := accept_all ((t, f) :: l) s in o.2 = success (S (length l)) /\ received o.1 = packet.
Proof.
  intros Hfr Hsize Hroom Hp.
  destruct (Append_framing packet [] f l.*2 (started t s) Hfr Hsize Hroom (started_holding t s))
    as (c & s' & -> & Hc & Efmt & Ebuf & Elast & Eto & Hrun).
  pose proof (Accept_first c t s Hc) as Hacc. cbv zeta. change (length []) with 0%nat. destruct l as [|p l]; simpl in Hrun.
  - destruct Hrun as [Hrun Hr]. rewrite Hrun in Hacc. by destruct (accept_all_cons _ _ [] _ _ _ Hacc) as [-> ->].
  - destruct Hrun as (Hrun & Hh' & Ha' & Hn'). rewrite Hrun in Hacc.
    destruct (accept_all_cons _ _ (p :: l) _ _ _ Hacc) as [-> ->].
    destruct (accept_rest packet [control 0 :: c] (p :: l) s') as [Hs2 Hr2]; try done.
    + by rewrite Efmt.
    + by rewrite Ebuf.
    + by rewrite Eto, Elast.
    + cbn [length]. by rewrite success_more, Hs2.
Qed.

(** Every reachable state: a packet in progress is the frames that came last. *)
Definition tracking (inputs : list (list Z)) s : Prop :=
  is_active_ s = true -> exists pre fs, inputs = pre ++ fs /\ partial fs s.

Lemma Accept_tracking inputs f now s :
  Forall is_u8 f -> tracking inputs s ->
  let o := Accept f now s in
  format_ o.1 = format_ s /\ length (buffer_ o.1) = length (buffer_ s) /\ tracking (inputs ++ [f]) o.1 /\
  (o.2 = COMPLETE -> exists pre fs, inputs ++ [f] = pre ++ fs /\
     is_framing (format_ s) (received o.1) fs /\ is_packet (received o.1)).
Proof.
  intros Hu Ht. cbv zeta.
  assert (forall fs pre s0, holding fs s0 -> format_ s0 = format_ s -> length (buffer_ s0) = length (buffer_ s) ->
    is_active_ s0 = true -> next_sequence_ s0 = Z.of_nat (S (length fs)) mod 128 ->
    forall c, (length c <= GetDataSize (format_ s))%nat -> inputs = pre ++ fs -> f = control (length fs) :: c ->
    let o := Append c s0 in format_ o.1 = format_ s /\ length (buffer_ o.1) = length (buffer_ s) /\ tracking (inputs ++ [f]) o.1 /\
    (o.2 = COMPLETE -> exists pre fs, inputs ++ [f] = pre ++ fs /\
       is_framing (format_ s) (received o.1) fs /\ is_packet (received o.1))) as Happend.
  { intros fs pre s0 Hh Efmt Ebuf Ha Hn c Hc -> ->. cbv zeta.
    destruct (Append_outcome fs c s0 Hh) as (E1 & E2 & Hcase); [by rewrite Efmt|].
    split; [congruence|]. split; [congruence|]. rewrite <- app_assoc.
    destruct Hcase as [(-> & Hoff)|[(-> & Hh' & Ha' & Hn')|(-> & Hoff & Hfr & Hsz)]].
    - split; [|done]. intros Hon. congruence.
    - split; [|done]. intros _. exists pre, (fs ++ [control (length fs) :: c]). split; [done|].
      split; [done|]. split; [by destruct fs|]. split; [congruence|]. rewrite Hn', Hn, length_app. simpl. f_equal. lia.
    - split; [intros Hon; congruence|]. intros _. exists pre, (fs ++ [control (length fs) :: c]).
      rewrite <- Efmt. done. }
  destruct (is_active_ s) eqn:Ha.
  - destruct (Ht Ha) as (pre & fs & E & Hh & Hne & _ & Hn). clear Ht.
    assert (length fs <> 0%nat) as Hlen by by destruct fs.
    destruct (Accept_cases (length fs) f now s Hu (fun _ => conj Hlen Hn))
      as [(c & Ef & Hc)|[(c & Ef & Hc & _ & He)|(r & Hr & [Hacc|[Hacc Hoff]])]].
    + rewrite Ef, Accept_first, <- Ef by done.
      apply (Happend [] inputs (started now s) (started_holding now s) eq_refl eq_refl eq_refl eq_refl c Hc); [|done].
      by rewrite app_nil_r.
    + rewrite Ef, Accept_next, <- Ef by done.
      apply (Happend fs pre (continued now s)); try done; [by apply continued_holding|].
      simpl. rewrite Hn, Zplus_mod_idemp_l. f_equal. lia.
    + rewrite Hacc. by repeat split; intros.
    + congruence.
  - destruct (Accept_cases 1 f now s Hu) as [(c & Ef & Hc)|[(c & Ef & Hc & Hon & He)|(r & Hr & [Hacc|[Hacc Hoff]])]].
    + congruence.
    + rewrite Ef, Accept_first, <- Ef by done.
      apply (Happend [] inputs (started now s) (started_holding now s) eq_refl eq_refl eq_refl eq_refl c Hc); [|done].
      by rewrite app_nil_r.
    + congruence.
    + rewrite Hacc. by repeat split; intros.
    + rewrite Hacc. simpl. split; [done|]. split; [done|]. split; [intros Hon; congruence|done].
Qed.

Lemma accept_all_tracking l inputs s :
  Forall (fun p : Z * list Z => Forall is_u8 p.2) l -> tracking inputs s ->
  last (accept_all l s).2 = Some COMPLETE ->
  exists pre fs, inputs ++ l.*2 = pre ++ fs /\
    is_framing (format_ s) (received (accept_all l s).1) fs /\ is_packet (received (accept_all l s).1).
Proof.
  revert inputs s. induction l as [|[now f] l IH]; intros inputs s Hu Ht Hlast; [done|].
  apply Forall_cons in Hu as [Hf Hu]. destruct (Accept_tracking inputs f now s Hf Ht) as (Efmt & Ebuf & Ht' & Hdone).
  cbn [accept_all] in *. destruct (Accept f now s) as [s1 r]. cbn [fst snd] in *.
  specialize (IH (inputs ++ [f]) s1 Hu Ht'). rewrite Efmt, <- app_assoc in IH.
  destruct l as [|p l].
  - cbn [accept_all] in *. simpl in Hlast. injection Hlast as ->. by apply Hdone.
  - destruct (accept_all (p :: l) s1) as [s2 rs] eqn:E. cbn [fst snd] in *. apply IH.
    destruct rs as [|r1 rs]; [|done]. simpl in E. destruct p as [t g]. destruct (Accept g t s1).
    by destruct (accept_all l _).
Qed.
End reassembler.

(** C29. A packet split into frames by the framer and fed in order to a reassembler, each frame at most the
    timeout after the one before, is put together again: every frame but the last is IN_PROGRESS, the last is
    COMPLETE, and the buffer holds the packet.  It does not matter what the reassembler was doing before, nor
    how long the packet is (the 7-bit sequence wraps), as long as the buffer has room for it; on CAN FD the
    padding of the last frame may even reach past the buffer. *)
Theorem packet_round_trip packet (times : list Z) s :
  is_packet packet -> (length packet <= length (buffer_ s))%nat ->
  length times = GetFrameCount (format_ s) (length packet) ->
  (forall t ts, times = t :: ts -> paced (timeout_ms_ s) t ts) ->
  let o := accept_all (zip times (frames_of (format_ s) packet)) s in
  o.2 = success (GetFrameCount (format_ s) (length packet)) /\ received o.1 = packet.
Proof.
  intros [Hsize Hne]%is_packet_size Hroom Hlen Hp. pose proof (frames_of_framing (format_ s) packet) as Hfr.
  assert (0 < GetFrameCount (format_ s) (length packet))%nat as Hpos.
  { apply frame_count_iff. simpl. destruct packet; [done|simpl; lia]. }
  destruct Hfr as [Hcount Hframes]. rewrite <- Hcount in Hlen.
  destruct times as [|t ts]; [simpl in Hlen; lia|].
  destruct (frames_of (format_ s) packet) as [|f fs] eqn:Ef; [simpl in Hcount; lia|].
  cbn [zip zip_with]. simpl in Hlen.
  destruct (accept_framing packet t f (zip ts fs) s) as [H1 H2]; try done.
  - rewrite snd_zip by lia. by split.
  - rewrite fst_zip by lia. by apply Hp.
  - split; [|done]. rewrite <- Hcount. simpl. rewrite <- (length_fmap snd (zip ts fs)), snd_zip in H1 by lia. exact H1.
Qed.

(** C30. A reassembler never makes a packet up: whatever frames it is fed from the start, lost, repeated,
    reordered, malformed or late, when a frame completes a packet, the frames that came last are, without a
    gap, a framing of exactly that packet (up to its padding), and the packet has the length its header
    announces. *)
Theorem completed_packet_was_framed timeout fmt buffer l :
  Forall (fun p : Z * list Z => Forall is_u8 p.2) l ->
  let o := accept_all l (Attach buffer fmt (NewReassembler timeout)) in
  last o.2 = Some COMPLETE ->
  exists pre fs, l.*2 = pre ++ fs /\ is_framing fmt (received o.1) fs /\ is_packet (received o.1).
Proof.
  intros Hu o Hlast. destruct (accept_all_tracking l [] (Attach buffer fmt (NewReassembler timeout)) Hu) as (pre & fs & H);
    [done|done|]. by exists pre, fs.
Qed.

Lemma packet_round_trip_witness :
  let o := accept_all (zip [5; 80; 160] (frames_of false sample_packet)) (sample_reassembler false) in
  o.2 = success 3 /\ received o.1 = sample_packet.
Proof.
  apply (packet_round_trip sample_packet [5; 80; 160] (sample_reassembler false)).
  - eexists. split; vm_compute; reflexivity.
  - vm_compute. lia.
  - vm_compute. reflexivity.
  - intros t ts [= <- <-]. vm_compute. repeat split; discriminate.
Defined.

Definition sample_inputs : list (Z * list Z) :=
  (fun f : list Z => (5, f)) <$> [[128; 1; 2; 3; 4; 5; 6; 7]; [1; 9]] ++ frames_of true sample_packet.
Lemma completed_packet_was_framed_witness :
  let o := accept_all sample_inputs (Attach (replicate 64 170) true (NewReassembler DEFAULT_TIMEOUT_MS)) in
  received o.1 = sample_packet /\
  exists pre fs, sample_inputs.*2 = pre ++ fs /\ is_framing true (received o.1) fs /\ is_packet (received o.1).
Proof.
  split; [vm_compute; reflexivity|].
  apply (completed_packet_was_framed DEFAULT_TIMEOUT_MS true (replicate 64 170) sample_inputs).
  - apply (bool_decide_eq_true_1 _). vm_compute. reflexivity.
  - vm_compute. reflexivity.
Defined.
