(* ===== verification/SmpCanPacer.v ===== *)
(** * SMP over CAN: pacing

    [src/src/subsys/smp/can/smp_can_pacer.*], with [GetFrameTimeNs] of [smp_can_frame_format.h]: a token
    bucket that limits the frames to a share of the bus time.  The quantities are [int64_t]; that none of the
    arithmetic leaves that range is part of [paced_frames_bounded]. *)

From S2P Require Import Prelude SmpCan.

(** ** The worst-case duration of a frame *)

Definition CLASSIC_FRAME_BIT_TIMES : Z := 160.
Definition CAN_FD_NOMINAL_BIT_TIMES : Z := 60.
Definition CAN_FD_DATA_BIT_TIMES : Z := 700.
Definition NANOS_PER_SECOND : Z := 1000000000.

Definition GetFrameTimeNs (is_can_fd : SmpCanFrameFormat) (bitrate data_bitrate : Z) : Z :=
  if bool_decide (bitrate = 0) then 0
  else if negb is_can_fd then u32 (CLASSIC_FRAME_BIT_TIMES * NANOS_PER_SECOND / bitrate)
  else
    let data_bitrate := if bool_decide (data_bitrate = 0) then bitrate else data_bitrate in
    u32 (CAN_FD_NOMINAL_BIT_TIMES * NANOS_PER_SECOND / bitrate + CAN_FD_DATA_BIT_TIMES * NANOS_PER_SECOND / data_bitrate).

(** ** [SmpCanPacer]: credit in nanoseconds of bus time, times 100 *)

Definition NANOS_PER_MICRO : Z := 1000.
Definition MICROS_PER_SECOND : Z := 1000000.
Definition PERCENT : Z := 100.
Definition INT64_MAX : Z := 9223372036854775807.

Record SmpCanPacer := mkPacer {
  rate_ : Z;
  frame_cost_ : Z;
  capacity_ : Z;
  credit_ : Z;
  last_update_us_ : Z;
}.
#[export] Instance SmpCanPacer_eta : Eta SmpCanPacer := fun s =>
  mkPacer (rate_ s) (frame_cost_ s) (capacity_ s) (credit_ s) (last_update_us_ s).

(** The default constructor: a pacer that never allows a frame. *)
Definition NoPacer : SmpCanPacer := mkPacer 0 0 0 0 0.

Definition NewPacer (frame_time_ns share_percent burst_frames : Z) : res SmpCanPacer :=
  if bool_decide (frame_time_ns = 0) || bool_decide (share_percent = 0) || bool_decide (100 < share_percent)
     || bool_decide (burst_frames = 0)
  then Throw (InvalidArgument "Invalid SMP CAN pacing parameters")
  else
    let frame_cost := frame_time_ns * PERCENT in
    Ok (mkPacer (share_percent * NANOS_PER_MICRO) frame_cost (burst_frames * frame_cost) 0 0).

Definition ResetPacer (now_us : Z) (s : SmpCanPacer) : SmpCanPacer :=
  s <| credit_ := capacity_ s |> <| last_update_us_ := now_us |>.

Definition Update (now_us : Z) (s : SmpCanPacer) : SmpCanPacer :=
  if bool_decide (rate_ s = 0) || bool_decide (now_us <= last_update_us_ s) then s
  else
    let elapsed_us := Z.min (now_us - last_update_us_ s) (Z.quot (capacity_ s) (rate_ s) + 1) in
    s <| credit_ := Z.min (capacity_ s) (credit_ s + elapsed_us * rate_ s) |> <| last_update_us_ := now_us |>.

Definition CanSend (s : SmpCanPacer) : bool := bool_decide (0 < rate_ s) && bool_decide (frame_cost_ s <= credit_ s).
Definition OnSent (s : SmpCanPacer) : SmpCanPacer := s <| credit_ ::= fun c => c - frame_cost_ s |>.

(** [frames] is a [uint32_t]; the product stays in [int64_t] for the bursts in use ([paced_frames_bounded]). *)
Definition GetWaitUs (frames : Z) (s : SmpCanPacer) : Z :=
  if bool_decide (rate_ s = 0) then INT64_MAX
  else
    let needed := Z.min (capacity_ s) (Z.max frames 1 * frame_cost_ s) in
    if bool_decide (needed <= credit_ s) then 0 else Z.quot (needed - credit_ s + rate_ s - 1) (rate_ s).

Definition GetFramesPerSecond (s : SmpCanPacer) : Z :=
  if bool_decide (frame_cost_ s = 0) then 0 else u32 (Z.quot (rate_ s * MICROS_PER_SECOND) (frame_cost_ s)).

(** ** A pacer in use: updates at any times, and frames sent when it allows them *)

Inductive PacerStep := PacerUpdate (now_us : Z) | PacerSend.
#[export] Instance PacerStep_eq_dec : EqDecision PacerStep.
Proof. solve_decision. Defined.

Definition pacer_step (o : PacerStep) (s : SmpCanPacer) : option SmpCanPacer :=
  match o with
  | PacerUpdate now => Some (Update now s)
  | PacerSend => if CanSend s then Some (OnSent s) else None
  end.
Definition pacer_run (l : list PacerStep) (s : SmpCanPacer) : option SmpCanPacer :=
  foldl (fun s o => s ≫= pacer_step o) (Some s) l.
Definition frames_paced (l : list PacerStep) : Z :=
  Z.of_nat (length (filter (fun o => o = PacerSend) l)).

Record pacer_wf (s : SmpCanPacer) : Prop := mkPacerWf {
  pw_rate : 0 < rate_ s <= 100000;
  pw_cost : 0 < frame_cost_ s <= capacity_ s;
  pw_credit : 0 <= credit_ s <= capacity_ s;
}.

(** The largest value [Update] and [GetWaitUs] compute, before they cap it or divide. *)
Definition update_credit (now_us : Z) (s : SmpCanPacer) : Z :=
  credit_ s + Z.min (now_us - last_update_us_ s) (Z.quot (capacity_ s) (rate_ s) + 1) * rate_ s.
Definition wait_sum (frames : Z) (s : SmpCanPacer) : Z :=
  Z.min (capacity_ s) (Z.max frames 1 * frame_cost_ s) - credit_ s + rate_ s - 1.

(** What no step changes. *)
Definition same_bucket (s s' : SmpCanPacer) : Prop :=
  rate_ s' = rate_ s /\ frame_cost_ s' = frame_cost_ s /\ capacity_ s' = capacity_ s.

Lemma NewPacer_wf time share burst s now :
  0 <= time -> 0 <= share -> 0 <= burst -> NewPacer time share burst = Ok s ->
  pacer_wf (ResetPacer now s) /\ frame_cost_ s = 100 * time /\ capacity_ s = burst * (100 * time) /\ rate_ s = 1000 * share.
Proof.
  unfold NewPacer. intros Ht Hs Hb. destruct (_ || _) eqn:E; [done|]. intros [= <-].
  rewrite !orb_false_iff, !bool_decide_eq_false in E. destruct E as [[[E1 E2] E3] E4].
  unfold NANOS_PER_MICRO, PERCENT. split; [split|]; simpl; nia.
Qed.

Lemma Update_spec now s :
  pacer_wf s ->
  pacer_wf (Update now s) /\ same_bucket s (Update now s) /\
  last_update_us_ (Update now s) = Z.max now (last_update_us_ s) /\
  credit_ (Update now s)
    = Z.min (capacity_ s) (credit_ s + rate_ s * (last_update_us_ (Update now s) - last_update_us_ s)).
Proof.
  intros [Hr Hc Hcr]. unfold Update. rewrite (bool_decide_eq_false_2 (rate_ s = 0)) by lia. cbn [orb].
  destruct (bool_decide_reflect (now <= last_update_us_ s)) as [Hn|Hn].
  - split; [done|]. split; [done|]. split; [lia|]. rewrite Z.sub_diag. lia.
  - set (q := Z.quot (capacity_ s) (rate_ s)).
    assert (capacity_ s < rate_ s * (q + 1)) as Hq.
    { unfold q. rewrite Z.quot_div_nonneg by lia. pose proof (Z.mul_succ_div_gt (capacity_ s) (rate_ s)). lia. }
    assert (0 <= q) by (unfold q; apply Z.quot_pos; lia).
    set (e := Z.min (now - last_update_us_ s) (q + 1)).
    assert (Z.min (capacity_ s) (credit_ s + e * rate_ s)
      = Z.min (capacity_ s) (credit_ s + rate_ s * (now - last_update_us_ s))) as He.
    { unfold e. destruct (Z.min_spec (now - last_update_us_ s) (q + 1)) as [[Hlt ->]|[Hge ->]]; [lia|].
      rewrite !Z.min_l by nia. done. }
    split; [|split; [done|split; [simpl; lia|exact He]]].
    split; simpl; [lia|lia|]. rewrite He. split; [|lia]. apply Z.min_glb; nia.
Qed.

Lemma OnSent_spec s :
  pacer_wf s -> CanSend s = true ->
  pacer_wf (OnSent s) /\ same_bucket s (OnSent s) /\ last_update_us_ (OnSent s) = last_update_us_ s /\
  credit_ (OnSent s) = credit_ s - frame_cost_ s.
Proof.
  intros [Hr Hc Hcr] [_ H%bool_decide_eq_true]%andb_true_iff. split; [|done]. split; simpl; lia.
Qed.

Lemma pacer_run_cons o l s s' :
  pacer_run (o :: l) s = Some s' <-> exists s1, pacer_step o s = Some s1 /\ pacer_run l s1 = Some s'.
Proof.
  unfold pacer_run. cbn [foldl]. simpl. destruct (pacer_step o s) as [s1|].
  - split; [intros H; by exists s1|]. by intros (? & [= <-] & H).
  - split; [|by intros (? & ? & _)]. intros H. exfalso. induction l as [|o' l IH]; [done|]. by apply IH.
Qed.

(** Every frame sent is paid from the credit, and credit comes in at the rate. *)
Lemma pacer_run_spec l s s' :
  pacer_wf s -> pacer_run l s = Some s' ->
  pacer_wf s' /\ same_bucket s s' /\ last_update_us_ s <= last_update_us_ s' /\
  credit_ s' + frames_paced l * frame_cost_ s
    <= credit_ s + rate_ s * (last_update_us_ s' - last_update_us_ s).
Proof.
  revert s. induction l as [|o l IH]; intros s Hs Hrun.
  - injection Hrun as <-. split; [done|]. split; [done|]. unfold frames_paced. simpl. lia.
  - apply pacer_run_cons in Hrun as (s1 & Hstep & Hrun). destruct o as [now|]; simpl in Hstep.
    + injection Hstep as <-. destruct (Update_spec now s Hs) as (Hs1 & (Er & Ec & Ecap) & Hl & Hcr).
      destruct (IH _ Hs1 Hrun) as (Hs' & (Er' & Ec' & Ecap') & Hl' & Hb). unfold same_bucket.
      rewrite Er', Ec', Ecap', Er, Ec, Ecap. split; [done|]. split; [done|]. split; [lia|].
      rewrite Er, Ec in Hb. change (frames_paced (PacerUpdate now :: l)) with (frames_paced l). lia.
    + destruct (CanSend s) eqn:Hcan; [|done]. injection Hstep as <-.
      destruct (OnSent_spec s Hs Hcan) as (Hs1 & (Er & Ec & Ecap) & Hl & Hcr).
      destruct (IH _ Hs1 Hrun) as (Hs' & (Er' & Ec' & Ecap') & Hl' & Hb). unfold same_bucket.
      rewrite Er', Ec', Ecap', Er, Ec, Ecap. split; [done|]. split; [done|]. split; [lia|].
      rewrite Er, Ec, Hl, Hcr in Hb.
      replace (frames_paced (PacerSend :: l)) with (1 + frames_paced l) by (unfold frames_paced; simpl; lia). lia.
Qed.

Lemma update_credit_bound now s : pacer_wf s -> last_update_us_ s < now ->
  0 <= update_credit now s <= 2 * capacity_ s + rate_ s.
Proof.
  intros [Hr Hc Hcr] Hn. unfold update_credit. set (q := Z.quot (capacity_ s) (rate_ s)).
  assert (rate_ s * q <= capacity_ s) as Hq.
  { unfold q. rewrite Z.quot_div_nonneg by lia. apply Z.mul_div_le. lia. }
  assert (0 <= q) by (unfold q; apply Z.quot_pos; lia).
  destruct (Z.min_spec (now - last_update_us_ s) (q + 1)) as [[Hlt ->]|[Hge ->]]; nia.
Qed.

(** C34. The share of the bus: from a pacer made for frames of [time] ns, [share] percent of the bus and bursts
    of [burst] frames, updated at any times (also backwards) and charged only when it allows a frame, the
    bus time of the frames sent between any two moments is at most that of one burst plus the share of the
    time between them; the credit stays between zero and a burst, and for the parameters Kconfig allows no
    intermediate value leaves [int64_t], asked for the wait of at most 64 frames (the TX task asks for half a
    burst). *)
Theorem paced_frames_bounded time share burst p t0 l1 l2 s1 s2 now frames :
  is_u32 time -> is_u8 share -> 1 <= burst <= 64 -> NewPacer time share burst = Ok p ->
  pacer_run l1 (ResetPacer t0 p) = Some s1 -> pacer_run l2 s1 = Some s2 ->
  100 * (frames_paced l2 * time) <= 100 * (burst * time) + share * (1000 * (last_update_us_ s2 - last_update_us_ s1)) /\
  0 <= credit_ s2 <= capacity_ s2 /\
  (last_update_us_ s2 < now -> 0 <= update_credit now s2 <= INT64_MAX) /\
  - INT64_MAX <= wait_sum frames s2 <= INT64_MAX /\
  (frames <= 64 -> 0 <= Z.max frames 1 * frame_cost_ s2 <= INT64_MAX).
Proof.
  intros Ht Hs Hb Hp H1 H2. unfold is_u32, is_u8 in *.
  destruct (NewPacer_wf time share burst p t0) as (Hw0 & Ec & Ecap & Er); [lia..|done|].
  destruct (pacer_run_spec l1 _ s1 Hw0 H1) as (Hw1 & (Er1 & Ec1 & Ecap1) & _ & _).
  destruct (pacer_run_spec l2 s1 s2 Hw1 H2) as (Hw2 & (Er2 & Ec2 & Ecap2) & _ & Hbound).
  simpl in Er1, Ec1, Ecap1. rewrite Ec1, Er1, Ec, Er in Hbound. pose proof (pw_credit _ Hw1) as Hc1.
  pose proof (pw_credit _ Hw2) as Hc2. rewrite Ecap1, Ecap in Hc1. split; [nia|]. split; [done|].
  assert (capacity_ s2 = burst * (100 * time)) as Hcap by congruence. assert (rate_ s2 = 1000 * share) as Hrate by congruence.
  unfold INT64_MAX. split.
  - intros Hn. pose proof (update_credit_bound now s2 Hw2 Hn). nia.
  - unfold wait_sum. destruct Hw2 as [Hr Hc Hcr]. split; [nia|]. intros Hf. rewrite Ec2, Ec1, Ec. nia.
Qed.

(** ** The wait *)

Lemma pacer_sends n s :
  pacer_wf s -> (exists s', pacer_run (replicate n PacerSend) s = Some s') <-> Z.of_nat n * frame_cost_ s <= credit_ s.
Proof.
  revert s. induction n as [|n IH]; intros s Hs.
  - split; [destruct Hs; simpl; lia|]. intros _. by exists s.
  - cbn [replicate]. pose proof Hs as [Hr Hc Hcr]. unfold CanSend in *.
    transitivity (frame_cost_ s <= credit_ s /\ exists s', pacer_run (replicate n PacerSend) (OnSent s) = Some s').
    + split.
      * intros (s' & (s1 & Hstep & Hrun)%pacer_run_cons). simpl in Hstep. destruct (CanSend s) eqn:Hcan; [|done].
        injection Hstep as <-. apply andb_true_iff in Hcan as [_ Hcan%bool_decide_eq_true]. split; [done|by exists s'].
      * intros [Hle (s' & Hrun)]. exists s'. apply pacer_run_cons. exists (OnSent s). split; [|done].
        simpl. unfold CanSend. by rewrite !bool_decide_eq_true_2 by lia.
    + destruct (decide (frame_cost_ s <= credit_ s)) as [Hle|Hle]; [|split; [tauto|nia]].
      assert (pacer_wf (OnSent s)) as Hs1.
      { apply OnSent_spec; [done|]. unfold CanSend. by rewrite !bool_decide_eq_true_2 by lia. }
      rewrite (IH (OnSent s) Hs1). simpl. nia.
Qed.

(** [GetWaitUs] is exact: [frames] frames (at most a burst) may follow an update at time [t] if and only if
    [t] is at least the wait later than the last update, so a sender that sleeps for the wait can send them,
    and one that sleeps less cannot. *)
Theorem GetWaitUs_exact frames burst s t :
  pacer_wf s -> capacity_ s = burst * frame_cost_ s -> 1 <= frames -> last_update_us_ s <= t ->
  let n := Z.to_nat (Z.min frames burst) in
  (exists s', pacer_run (PacerUpdate t :: replicate n PacerSend) s = Some s') <->
  last_update_us_ s + GetWaitUs frames s <= t.
Proof.
  intros Hs Hcap Hf Ht n. destruct (Update_spec t s Hs) as (Hs1 & (Er & Ec & Ecap) & Hl & Hcr).
  transitivity (exists s', pacer_run (replicate n PacerSend) (Update t s) = Some s').
  { split.
    - intros (s' & (s1 & [= <-] & Hrun)%pacer_run_cons). by exists s'.
    - intros (s' & Hrun). exists s'. apply pacer_run_cons. by exists (Update t s). }
  rewrite (pacer_sends n _ Hs1), Ec, Hcr, Hl, Z.max_l by lia. destruct Hs as [Hr Hc Hc0].
  assert (1 <= burst) by nia. assert (Z.of_nat n = Z.min frames burst) as -> by (unfold n; lia).
  unfold GetWaitUs. rewrite (bool_decide_eq_false_2 (rate_ s = 0)), (Z.max_l frames) by lia.
  assert (Z.min (capacity_ s) (frames * frame_cost_ s) = Z.min frames burst * frame_cost_ s) as ->.
  { rewrite Hcap. destruct (Z.min_spec frames burst) as [[Hlt ->]|[Hge ->]]; [apply Z.min_r|apply Z.min_l]; nia. }
  set (need := Z.min frames burst * frame_cost_ s). assert (need <= capacity_ s) by (unfold need; nia).
  destruct (bool_decide_reflect (need <= credit_ s)) as [Hle|Hgt].
  - split; [lia|]. intros _. apply Z.min_glb; [done|]. nia.
  - rewrite Z.quot_div_nonneg by lia. set (w := (need - credit_ s + rate_ s - 1) / rate_ s).
    assert (need - credit_ s <= rate_ s * w < need - credit_ s + rate_ s) as [Hw1 Hw2].
    { unfold w. pose proof (Z.mul_div_le (need - credit_ s + rate_ s - 1) (rate_ s)).
      pose proof (Z.mul_succ_div_gt (need - credit_ s + rate_ s - 1) (rate_ s)). lia. }
    split; intros Hw.
    + assert (need <= credit_ s + rate_ s * (t - last_update_us_ s)) as Hn by lia. nia.
    + apply Z.min_glb; [done|]. nia.
Qed.

Definition sample_pacer : SmpCanPacer := mkPacer 25000 128000000 1024000000 0 0.
Definition sample_sends : list PacerStep := PacerUpdate 200 :: replicate 3 PacerSend.
Lemma paced_frames_bounded_witness :
  exists s, pacer_run sample_sends (ResetPacer 0 sample_pacer) = Some s /\
    100 * (frames_paced sample_sends * 1280000)
      <= 100 * (8 * 1280000) + 25 * (1000 * (last_update_us_ s - last_update_us_ (ResetPacer 0 sample_pacer))).
Proof.
  eexists. split; [vm_compute; reflexivity|].
  refine (proj1 (paced_frames_bounded 1280000 25 8 sample_pacer 0 [] sample_sends (ResetPacer 0 sample_pacer) _ 0 1
    _ _ _ _ _ _)); first [vm_compute; reflexivity | apply (bool_decide_eq_true_1 _); vm_compute; reflexivity].
Defined.

Lemma GetWaitUs_exact_witness :
  exists s', pacer_run (PacerUpdate 20480 :: replicate 4 PacerSend) sample_pacer = Some s'.
Proof.
  apply (proj2 (GetWaitUs_exact 4 8 sample_pacer 20480
    ltac:(split; vm_compute; (split; congruence)) eq_refl ltac:(lia) ltac:(vm_compute; congruence))).
  vm_compute. congruence.
Defined.
