(* ===== verification/SmpCanTransport.v ===== *)
(** * SMP over CAN: the transport

    [src/src/subsys/smp/can/smp_can_transport.*] with [smp_can_id_layout.h]: packets from several sources put
    together side by side, and packets of this unit sent frame by frame at the pace the bus share allows.
    MCUmgr, its packet pool and the bus are outside: the room of an allocated packet, the bus behind the
    proxy and the results of its calls are parameters; what the transport does to them is an effect. *)

From S2P Require Import Prelude Can SmpCan SmpCanPacer.

(** ** [SmpCanIdLayout] *)

Definition DEFAULT_BASE : Z := 535822336.
Definition ID_MASK : Z := 536870911.
Definition ADDRESS_MASK : Z := 65535.
Definition TARGET_FILTER_MASK : Z := Z.land ID_MASK (u32 (Z.lnot 255)).

Definition IsValidBase (base : Z) : bool :=
  bool_decide (Z.land base (u32 (Z.lnot ID_MASK)) = 0) && bool_decide (Z.land base ADDRESS_MASK = 0).
Definition IsValidAddress (address : Z) : bool :=
  negb (bool_decide (address = 0)) && negb (bool_decide (address = 255)).
Definition MakeId (base target source : Z) : Z := Z.lor (Z.lor base (u32 (Z.shiftl target 8))) source.
Definition GetTargetFilterId (base target : Z) : Z := MakeId base target 0.
Definition Contains (base id : Z) : bool :=
  bool_decide (Z.land (Z.land id ID_MASK) (u32 (Z.lnot ADDRESS_MASK)) = base)
  && bool_decide (Z.land id (u32 (Z.lnot ID_MASK)) = 0).
Definition GetTarget (id : Z) : Z := u8 (Z.shiftr id 8).
Definition GetSource (id : Z) : Z := u8 id.

(** ** Configuration, environment, state *)

Class SmpCanConfig := {
  RX_SLOTS : nat;
  RX_TIMEOUT_MS : Z;
  TX_BURST_FRAMES : Z;
  cfg_slots : (1 <= RX_SLOTS <= 8)%nat;
  cfg_burst : 1 <= TX_BURST_FRAMES <= 64;
}.

(** [CanbusConfig], as far as the transport reads it. *)
Record BusConfig := mkBusConfig {
  bus_is_can_fd : bool;
  bus_bitrate : Z;
  bus_data_bitrate : Z;
}.

(** The bus behind the proxy ([canbus_->Get()]): the instance and its configuration; and the clocks. *)
Record SmpEnv := mkSmpEnv {
  canbus_get : option (Z * BusConfig);
  uptime_ms : Z;
  uptime_us : Z;
}.

(** A packet with the peer in its user data. *)
Record SmpPacket := mkPacket {
  peer : Z;
  packet_data : list Z;
}.

Record RxSlot := mkSlot {
  slot_source : Z;
  slot_packet : bool;
  slot_reassembler : SmpCanReassembler;
}.
#[export] Instance RxSlot_eta : Eta RxSlot := fun s => mkSlot (slot_source s) (slot_packet s) (slot_reassembler s).

Record SmpCanTransport := mkTransport {
  bound_canbus_ : option Z;
  handler_id_ : Z;
  address_ : Z;
  canbus_ : bool;
  layout_ : Z;
  bus_share_percent_ : Z;
  rx_slots_ : list RxSlot;
  response_sink_ : option Z;
  tx_queue_ : list SmpPacket;
  tx_task_ : bool;
  tx_packet_ : option SmpPacket;
  tx_framer_ : SmpCanFramer;
  pacer_ : SmpCanPacer;
  pacer_frame_time_ns_ : Z;
  rx_dropped_ : Z;
  tx_dropped_ : Z;
}.
#[export] Instance SmpCanTransport_eta : Eta SmpCanTransport := fun s =>
  mkTransport (bound_canbus_ s) (handler_id_ s) (address_ s) (canbus_ s) (layout_ s) (bus_share_percent_ s)
    (rx_slots_ s) (response_sink_ s) (tx_queue_ s) (tx_task_ s) (tx_packet_ s) (tx_framer_ s) (pacer_ s)
    (pacer_frame_time_ns_ s) (rx_dropped_ s) (tx_dropped_ s).

Inductive SmpEffect :=
| SmpSendFrame (id : CanId) (data : list Z) (result : Z)
| SmpRequest (source : Z) (packet : list Z)
| SmpResponse (sink source : Z) (packet : list Z)
| SmpRegisterHandler (filter : CanFilter)
| SmpRemoveHandler (handler_id : Z)
| SmpClearRequests
| SmpScheduleTx
| SmpCancelTx.

Abbreviation TM := (M SmpCanTransport SmpEffect).

Section transport.
Context `{SmpCanConfig}.

Definition FreeSlot : RxSlot := mkSlot 0 false (NewReassembler RX_TIMEOUT_MS).

Definition NewTransport : SmpCanTransport :=
  mkTransport None (-1) 0 false DEFAULT_BASE 25 (replicate RX_SLOTS FreeSlot) None [] false None
    (NewFramer [] false) NoPacer 0 0 0.

Definition DropRx : TM unit := modify (fun s => s <| rx_dropped_ ::= fun n => u32 (n + 1) |>).
Definition CountTxDropped : TM unit := modify (fun s => s <| tx_dropped_ ::= fun n => u32 (n + 1) |>).

(** [smp_transport_init] of MCUmgr answers [init]. *)
Definition InitializeTransport (init : Z) : TM bool :=
  s ← get;
  if tx_task_ s then mret true
  else if negb (bool_decide (init = 0)) then mret false
  else modify (fun s => s <| tx_task_ := true |>) ;; mret true.

(** ** Binding *)

Definition ReleaseRxSlot (slot : RxSlot) : RxSlot :=
  slot <| slot_source := 0 |> <| slot_packet := false |> <| slot_reassembler ::= ResetReassembler |>.

Definition UnbindLocked (env : SmpEnv) : TM unit :=
  s ← get;
  if bool_decide (handler_id_ s < 0) then mret tt
  else
    modify (fun s => s <| address_ := 0 |>) ;;
    when (canbus_ s && bool_decide (fst <$> canbus_get env = bound_canbus_ s)) (emit (SmpRemoveHandler (handler_id_ s))) ;;
    modify (fun s => s <| handler_id_ := -1 |> <| bound_canbus_ := None |> <| rx_slots_ ::= fmap ReleaseRxSlot |>) ;;
    emit SmpClearRequests ;;
    when (tx_task_ s) (emits [SmpCancelTx; SmpScheduleTx]).

Definition Unbind (env : SmpEnv) : TM unit := UnbindLocked env.

(** [canbus]: whether the new proxy is there.  The layout throws after the unbind. *)
Definition Configure (env : SmpEnv) (canbus : bool) (id_base bus_share_percent : Z) : TM unit :=
  if bool_decide (bus_share_percent = 0) || bool_decide (100 < bus_share_percent)
  then throw (InvalidArgument "SMP bus share must be 1-100 %")
  else
    UnbindLocked env ;;
    modify (fun s => s <| canbus_ := canbus |>) ;;
    if negb (IsValidBase id_base)
    then throw (InvalidArgument "SMP CAN ID base must be 29-bit with the address bits clear")
    else modify (fun s => s <| layout_ := id_base |> <| bus_share_percent_ := bus_share_percent |>
                            <| pacer_frame_time_ns_ := 0 |>).

(** [register]: what the bus answers to the registration of a filter.  [Bind] is called from the status handler of
    CDMP ([canbus_com_service.cpp]), on the work queue that also runs the TX task, so that the task scheduled by
    [UnbindLocked] does not start before [Bind] has returned. *)
Definition Bind (env : SmpEnv) (register : CanFilter -> Z) (address : Z) : TM bool :=
  s ← get;
  if negb (IsValidAddress address) || negb (tx_task_ s) then mret false
  else if bool_decide (address_ s = address) then mret true
  else
    UnbindLocked env ;;
    match (if canbus_ s then canbus_get env else None) with
    | None => mret false
    | Some (canbus, _) =>
        let filter := mkCanFilter (GetTargetFilterId (layout_ s) address) TARGET_FILTER_MASK true in
        emit (SmpRegisterHandler filter) ;;
        let handler_id := register filter in
        if bool_decide (handler_id < 0) then mret false
        else
          modify (fun s => s <| handler_id_ := handler_id |> <| bound_canbus_ := Some canbus |>
                             <| address_ := address |>) ;;
          mret true
    end.

Definition SetResponseSink (response_sink : option Z) : TM unit :=
  modify (fun s => s <| response_sink_ := response_sink |>).

(** ** Sending *)

Definition Enqueue (target : Z) (packet : option (list Z)) : TM bool :=
  s ← get;
  match packet with
  | Some data =>
      if bool_decide (length data = 0%nat) || bool_decide (address_ s = 0) || negb (tx_task_ s)
         || negb (IsValidAddress target) || bool_decide (target = address_ s)
      then CountTxDropped ;; mret false
      else
        modify (fun s => s <| tx_queue_ ::= fun q => q ++ [mkPacket target data] |>) ;;
        emit SmpScheduleTx ;;
        mret true
  | None => CountTxDropped ;; mret false
  end.

Definition Forward (target : Z) (packet : option (list Z)) : TM bool := Enqueue target packet.

(** [Output]: the response MCUmgr wants sent, to the peer its request came from. *)
Definition ENODEV : Z := 19.
Definition ENOTCONN : Z := 128.
Definition EAGAIN : Z := 11.
Definition Output (packet : SmpPacket) : TM Z :=
  Enqueue (peer packet) (Some (packet_data packet)) ≫= fun queued : bool =>
  mret (if queued then 0 else - ENOTCONN).

Definition DropTx : TM unit :=
  s ← get;
  when (bool_decide (is_Some (tx_packet_ s))) (modify (fun s => s <| tx_packet_ := None |>) ;; CountTxDropped) ;;
  modify (fun s => s <| tx_queue_ := [] |> <| tx_dropped_ ::= fun n => u32 (n + Z.of_nat (length (tx_queue_ s))) |>).

Definition TX_RETRY_DELAY_US : Z := 1000.

(** What one round of the loop of [ProcessTx] decides: to return, or to go on. *)
Inductive TxRound := TxReturn (r : option Z) | TxAgain.

(** [k_fifo_get] when no packet is being sent. *)
Definition NextTxPacket (fmt : SmpCanFrameFormat) : TM (option SmpPacket) :=
  s ← get;
  match tx_packet_ s with
  | Some p => mret (Some p)
  | None =>
      match tx_queue_ s with
      | [] => mret None
      | p :: q =>
          modify (fun s => s <| tx_queue_ := q |> <| tx_packet_ := Some p |>
                             <| tx_framer_ := NewFramer (packet_data p) fmt |>) ;;
          mret (Some p)
      end
  end.

(** One round; [result] is what [SendFrame] answers in it. *)
Definition TxStep (fmt : SmpCanFrameFormat) (address result : Z) : TM TxRound :=
  NextTxPacket fmt ≫= fun packet : option SmpPacket =>
  match packet with
  | None => mret (TxReturn None)
  | Some p =>
      s ← get;
      if negb (CanSend (pacer_ s)) then
        mret (TxReturn (Some (GetWaitUs (Z.max (TX_BURST_FRAMES / 2) 1) (pacer_ s))))
      else
        emit (SmpSendFrame (Extended (MakeId (layout_ s) (peer p) address)) (Encode (tx_framer_ s)) result) ;;
        if bool_decide (result = - EAGAIN) then mret (TxReturn (Some TX_RETRY_DELAY_US))
        else if negb (bool_decide (result = 0)) then
          modify (fun s => s <| tx_packet_ := None |>) ;; CountTxDropped ;; mret TxAgain
        else
          modify (fun s => s <| pacer_ ::= OnSent |> <| tx_framer_ ::= Advance |>) ;;
          modify (fun s => if IsDone (tx_framer_ s) then s <| tx_packet_ := None |> else s) ;;
          mret TxAgain
  end.

(** The loop, [send n] the result of its [n]-th [SendFrame]; [None] when the fuel runs out. *)
Fixpoint TxLoop (fuel : nat) (fmt : SmpCanFrameFormat) (address : Z) (send : nat -> Z) (n : nat) :
    TM (option (option Z)) :=
  match fuel with
  | O => mret None
  | S fuel =>
      TxStep fmt address (send n) ≫= fun round : TxRound =>
      match round with
      | TxReturn r => mret (Some r)
      | TxAgain => TxLoop fuel fmt address send (S n)
      end
  end.

(** Every round sends a frame of at least one byte, drops a packet or returns. *)
Definition tx_work (s : SmpCanTransport) : nat :=
  (match tx_packet_ s with Some _ => S (length (packet_ (tx_framer_ s)) - offset_ (tx_framer_ s)) | None => 0 end
   + sum_list_with (fun p => S (length (packet_data p))) (tx_queue_ s))%nat.

Definition ProcessTx (env : SmpEnv) (send : nat -> Z) : TM (option (option Z)) :=
  s ← get;
  let address := address_ s in
  match (if negb (bool_decide (address = 0)) && canbus_ s then canbus_get env else None) with
  | None => DropTx ;; mret (Some None)
  | Some (_, config) =>
      let fmt := bus_is_can_fd config in
      let frame_time_ns := GetFrameTimeNs fmt (bus_bitrate config) (bus_data_bitrate config) in
      if bool_decide (frame_time_ns = 0) then DropTx ;; mret (Some None)
      else
        (if negb (bool_decide (frame_time_ns = pacer_frame_time_ns_ s)) then
           pacer ← lift (NewPacer frame_time_ns (bus_share_percent_ s) TX_BURST_FRAMES);
           modify (fun s => s <| pacer_ := ResetPacer (uptime_us env) pacer |> <| pacer_frame_time_ns_ := frame_time_ns |>)
         else mret tt) ;;
        modify (fun s => s <| pacer_ ::= Update (uptime_us env) |>) ;;
        s ← get;
        TxLoop (S (tx_work s)) fmt address send 0
  end.

(** ** Receiving *)

Definition FindRxSlot (source : Z) (slots : list RxSlot) : option nat :=
  find_index (fun slot => bool_decide (slot_source slot = source)) slots.

Definition SetSlot (i : nat) (slot : RxSlot) : TM unit := modify (fun s => s <| rx_slots_ ::= <[i := slot]> |>).
Definition ReleaseAt (i : nat) : TM unit := modify (fun s => s <| rx_slots_ ::= alter ReleaseRxSlot i |>).

Definition slot_expired (now_ms : Z) (slot : RxSlot) : bool :=
  negb (bool_decide (slot_source slot = 0)) && IsExpired now_ms (slot_reassembler slot).

Definition ReleaseExpiredRxSlots (now_ms : Z) : TM unit :=
  modify (fun s => s
    <| rx_dropped_ ::= fun n => u32 (n + Z.of_nat (length (filter (fun slot => slot_expired now_ms slot = true) (rx_slots_ s)))) |>
    <| rx_slots_ ::= fmap (fun slot => if slot_expired now_ms slot then ReleaseRxSlot slot else slot) |>).

(** [alloc]: the room [AllocateSmpPacket] finds, if any. *)
Definition AcquireRxSlot (source : Z) (fmt : SmpCanFrameFormat) (alloc : option (list Z)) : TM (option nat) :=
  s ← get;
  match FindRxSlot 0 (rx_slots_ s), alloc with
  | Some i, Some room =>
      modify (fun s => s <| rx_slots_ ::= alter (fun slot =>
        slot <| slot_packet := true |> <| slot_source := source |> <| slot_reassembler ::= Attach room fmt |>) i |>) ;;
      mret (Some i)
  | _, _ => mret None
  end.

Definition Deliver (source : Z) (packet : list Z) : TM unit :=
  match SmpHeader_Parse packet with
  | None => DropRx
  | Some header =>
      if IsRequest header then emit (SmpRequest source packet)
      else
        s ← get;
        match (if IsResponse header then response_sink_ s else None) with
        | Some sink => emit (SmpResponse sink source packet)
        | None => DropRx
        end
  end.

(** The [switch] over [Accept] for the slot at [i]. *)
Definition AcceptInSlot (i : nat) (source now_ms : Z) (data : list Z) : TM unit :=
  s ← get;
  match rx_slots_ s !! i with
  | None => mret tt
  | Some slot =>
      let '(reassembler, result) := Accept data now_ms (slot_reassembler slot) in
      SetSlot i (slot <| slot_reassembler := reassembler |>) ;;
      match result with
      | IN_PROGRESS => mret tt
      | COMPLETE => ReleaseAt i ;; Deliver source (received reassembler)
      | DROPPED => DropRx ;; ReleaseAt i
      | IGNORED => ReleaseAt i
      end
  end.

(** The slot of the source, released when its packet has the other format. *)
Definition OpenSlot (source : Z) (fmt : SmpCanFrameFormat) : TM (option nat) :=
  s ← get;
  match FindRxSlot source (rx_slots_ s) with
  | None => mret None
  | Some i =>
      if bool_decide (format_ <$> (slot_reassembler <$> rx_slots_ s !! i) = Some fmt) then mret (Some i)
      else DropRx ;; ReleaseAt i ;; mret None
  end.

Definition OnFrame (now_ms : Z) (alloc : option (list Z)) (frame : CanFrame) : TM unit :=
  if negb (fr_is_extended frame) || fr_is_remote_request frame then mret tt
  else
    let source := GetSource (fr_id frame) in
    if negb (IsValidAddress source) then mret tt
    else
      ReleaseExpiredRxSlots now_ms ;;
      let fmt := fr_is_can_fd frame in
      let data := payload_span (fr_data frame) in
      OpenSlot source fmt ≫= fun slot : option nat =>
      match slot with
      | Some i => AcceptInSlot i source now_ms data
      | None =>
          if negb (IsStartFrame data) then mret tt
          else
            AcquireRxSlot source fmt alloc ≫= fun slot : option nat =>
            match slot with
            | None => DropRx
            | Some i => AcceptInSlot i source now_ms data
            end
      end.
End transport.

(** ** Sources side by side *)

(** A frame the transport takes as one of [a]. *)
Definition is_from (a : Z) (frame : CanFrame) : bool :=
  fr_is_extended frame && negb (fr_is_remote_request frame) && bool_decide (GetSource (fr_id frame) = a).

(** What is handed on as a packet of [a], to the SMP server or to the sink of the responses. *)
Definition hands_on (a : Z) (e : SmpEffect) : bool :=
  match e with SmpRequest source _ | SmpResponse _ source _ => bool_decide (source = a) | _ => false end.
Definition handed_from (a : Z) (l : list SmpEffect) : list SmpEffect := filter (fun e => hands_on a e = true) l.

(** Where a packet with the header [h] belongs: a request to the server, a response to the sink, if there is one. *)
Definition addressee (h : SmpHeader) (sink : option Z) (a : Z) (packet : list Z) : list SmpEffect :=
  if IsRequest h then [SmpRequest a packet]
  else match sink with
       | Some k => if IsResponse h then [SmpResponse k a packet] else []
       | None => []
       end.

(** Slot [j] is the one slot of source [a]. *)
Definition holds_slot (a : Z) (j : nat) (slot : RxSlot) (slots : list RxSlot) : Prop :=
  slots !! j = Some slot /\ slot_source slot = a /\
  forall i slot', slots !! i = Some slot' -> slot_source slot' = a -> i = j.

Section sources.
Context `{SmpCanConfig} (a : Z) (Ha : a <> 0).
Implicit Types (s : SmpCanTransport).

Lemma handed_from_app l1 l2 : handed_from a (l1 ++ l2) = handed_from a l1 ++ handed_from a l2.
Proof. apply filter_app. Qed.
Lemma handed_addressee h sink packet : handed_from a (addressee h sink a packet) = addressee h sink a packet.
Proof.
  unfold addressee. destruct (IsRequest h); [|destruct sink; [destruct (IsResponse h)|]]; try done;
    unfold handed_from; rewrite filter_cons_True; try done; by apply bool_decide_eq_true.
Qed.

(** Nothing the transport does to a frame changes the sink. *)
Definition keeps_sink {A} (m : TM A) : Prop := forall s, response_sink_ (state_of (m s)) = response_sink_ s.
Lemma keeps_sink_bind {A B} (m : TM A) (k : A -> TM B) : keeps_sink m -> (forall x, keeps_sink (k x)) -> keeps_sink (m ≫= k).
Proof.
  intros Hm Hk s. specialize (Hm s). destruct (m s) as [[s1 e1] [x|x|]] eqn:E.
  - erewrite bind_ok by exact E. rewrite state_of_prepend. etrans; [apply Hk|exact Hm].
  - by erewrite bind_throw by exact E.
  - by erewrite bind_oob by exact E.
Qed.

Lemma holds_alter_other j slot slots i f :
  holds_slot a j slot slots -> i <> j ->
  (forall slot', slots !! i = Some slot' -> slot_source (f slot') <> a) -> holds_slot a j slot (alter f i slots).
Proof.
  intros (Hj & Hs & Hu) Hi Hf. split; [by rewrite list_lookup_alter_ne|]. split; [done|].
  intros k slot' Hk Hsrc. destruct (decide (k = i)) as [->|Hki].
  - rewrite list_lookup_alter_eq in Hk. destruct (slots !! i) as [x|] eqn:Ex; simplify_eq/=.
    exfalso. by eapply Hf.
  - rewrite list_lookup_alter_ne in Hk by done. by apply (Hu k slot').
Qed.

(** What happens for another source: the slot of [a] stays, and nothing of [a] is handed on. *)
Definition spares_slot {A} s (o : SmpCanTransport * list SmpEffect * res A) : Prop :=
  handed_from a (effects_of o) = [] /\
  forall j slot, holds_slot a j slot (rx_slots_ s) -> holds_slot a j slot (rx_slots_ (state_of o)).

Lemma spares_bind {A B} (m : TM A) (k : A -> TM B) s :
  spares_slot s (m s) -> (forall x, result_of (m s) = Ok x -> spares_slot (state_of (m s)) (k x (state_of (m s)))) ->
  spares_slot s ((m ≫= k) s).
Proof.
  intros [He Hh] Hk. destruct (m s) as [[s1 e1] [x|x|]] eqn:E.
  - erewrite bind_ok by exact E. destruct (Hk x eq_refl) as [He1 Hh1]. unfold spares_slot. cbn [state_of fst] in He1, Hh1.
    rewrite effects_of_prepend, state_of_prepend, handed_from_app, He1. unfold effects_of in He. simpl in He.
    rewrite He. split; [done|]. intros j slot Hj. by apply Hh1, Hh.
  - erewrite bind_throw by exact E. done.
  - erewrite bind_oob by exact E. done.
Qed.
Lemma spares_slot_same {A} s (o : SmpCanTransport * list SmpEffect * res A) :
  handed_from a (effects_of o) = [] -> rx_slots_ (state_of o) = rx_slots_ s -> spares_slot s o.
Proof. intros He E. split; [done|]. by rewrite E. Qed.

(** Another slot may become anything but a slot of [a]. *)
Lemma spares_alter {A} s (o : SmpCanTransport * list SmpEffect * res A) i slot0 f :
  handed_from a (effects_of o) = [] -> rx_slots_ (state_of o) = alter f i (rx_slots_ s) ->
  rx_slots_ s !! i = Some slot0 -> slot_source slot0 <> a -> slot_source (f slot0) <> a -> spares_slot s o.
Proof.
  intros He E Hi Hs0 Hf. split; [done|]. intros j slot Hj. rewrite E. apply holds_alter_other; [done| |].
  - intros ->. destruct Hj as (Hj & Hs & _). congruence.
  - intros slot' Hs'. congruence.
Qed.

Lemma handed_other e : hands_on a e = false -> handed_from a [e] = [].
Proof. intros He. unfold handed_from. by rewrite filter_cons_False by by rewrite He. Qed.

Lemma Deliver_other b packet s : b <> a -> spares_slot s (Deliver b packet s).
Proof.
  intros Hb. unfold Deliver. destruct (SmpHeader_Parse packet) as [h|]; [|by apply spares_slot_same].
  destruct (IsRequest h).
  - apply spares_slot_same; [|done]. by apply handed_other, bool_decide_eq_false.
  - rewrite bind_get. destruct (if IsResponse h then _ else _) as [sink|]; apply spares_slot_same; try done.
    by apply handed_other, bool_decide_eq_false.
Qed.

Lemma Release_other i slot0 s :
  rx_slots_ s !! i = Some slot0 -> slot_source slot0 <> a -> spares_slot s (ReleaseAt i s).
Proof. intros Hi Hs. by apply (spares_alter s (ReleaseAt i s) i slot0 ReleaseRxSlot). Qed.

Lemma AcceptInSlot_other i b now data slot0 s :
  rx_slots_ s !! i = Some slot0 -> slot_source slot0 = b -> b <> a -> spares_slot s (AcceptInSlot i b now data s).
Proof.
  intros Hi Hb Hne. unfold AcceptInSlot. rewrite bind_get, Hi.
  destruct (Accept data now (slot_reassembler slot0)) as [r result].
  set (slot1 := slot0 <| slot_reassembler := r |>).
  assert (spares_slot s (SetSlot i slot1 s)) as Hset.
  { apply (spares_alter s (SetSlot i slot1 s) i slot0 (fun _ => slot1)); try done; [|by subst b..].
    simpl. apply list_insert_alter. }
  apply spares_bind; [done|]. intros [] _. set (s1 := state_of (SetSlot i slot1 s)).
  assert (rx_slots_ s1 !! i = Some slot1) as Hi1.
  { unfold s1. simpl. apply list_lookup_insert_eq. by apply lookup_lt_Some in Hi. }
  assert (slot_source slot1 <> a) as Hs1 by by subst b.
  destruct result; [by apply spares_slot_same| |by (apply spares_bind; [by apply spares_slot_same|intros [] _; by apply (Release_other i slot1)])|
    by apply (Release_other i slot1)].
  apply spares_bind; [by apply (Release_other i slot1)|]. intros [] _. by apply Deliver_other.
Qed.

Lemma FindRxSlot_Some b slots i :
  FindRxSlot b slots = Some i -> exists slot, slots !! i = Some slot /\ slot_source slot = b.
Proof. intros [(slot & Hs & Hb) _]%find_index_Some. exists slot. split; [done|]. by apply bool_decide_eq_true in Hb. Qed.

Lemma OpenSlot_other b fmt s :
  b <> a -> spares_slot s (OpenSlot b fmt s) /\
  forall i, result_of (OpenSlot b fmt s) = Ok (Some i) ->
    state_of (OpenSlot b fmt s) = s /\ exists slot, rx_slots_ s !! i = Some slot /\ slot_source slot = b.
Proof.
  intros Hb. unfold OpenSlot. rewrite bind_get.
  destruct (FindRxSlot b (rx_slots_ s)) as [i|] eqn:Hf; [|by split; [apply spares_slot_same|]].
  destruct (FindRxSlot_Some _ _ _ Hf) as (slot & Hi & Hs).
  destruct (bool_decide _).
  { split; [by apply spares_slot_same|]. intros ? [= <-]. split; [done|]. by exists slot. }
  split; [|by intros ? [=]].
  apply spares_bind; [by apply spares_slot_same|]. intros [] _.
  apply spares_bind; [by apply (Release_other i slot); [|congruence]|]. intros [] _. by apply spares_slot_same.
Qed.

Lemma AcquireRxSlot_other b fmt alloc s :
  b <> a -> spares_slot s (AcquireRxSlot b fmt alloc s) /\
  forall i, result_of (AcquireRxSlot b fmt alloc s) = Ok (Some i) ->
    exists slot, rx_slots_ (state_of (AcquireRxSlot b fmt alloc s)) !! i = Some slot /\ slot_source slot = b.
Proof.
  intros Hb. unfold AcquireRxSlot. rewrite bind_get.
  destruct (FindRxSlot 0 (rx_slots_ s)) as [i|] eqn:Hf; [|by split; [apply spares_slot_same|]].
  destruct alloc as [room|]; [|by split; [apply spares_slot_same|]].
  destruct (FindRxSlot_Some _ _ _ Hf) as (slot & Hi & Hs). rewrite bind_modify. split.
  - eapply (spares_alter s _ i slot); try done. by rewrite Hs.
  - intros ? [= <-]. simpl. rewrite list_lookup_alter_eq, Hi. by eexists.
Qed.

(** A frame of another source, or one the transport ignores. *)
Lemma OnFrame_other now alloc frame s :
  is_from a frame = false ->
  handed_from a (effects_of (OnFrame now alloc frame s)) = [] /\
  forall j slot, holds_slot a j slot (rx_slots_ s) -> slot_expired now slot = false ->
    holds_slot a j slot (rx_slots_ (state_of (OnFrame now alloc frame s))).
Proof.
  unfold is_from, OnFrame. intros Hf.
  destruct (negb (fr_is_extended frame) || fr_is_remote_request frame) eqn:Hg; [by split|].
  apply orb_false_iff in Hg as [Hx%negb_false_iff Hr]. rewrite Hx, Hr in Hf. cbn [negb andb] in Hf.
  apply bool_decide_eq_false in Hf. set (b := GetSource (fr_id frame)) in *.
  destruct (negb (IsValidAddress b)); [by split|]. unfold ReleaseExpiredRxSlots. rewrite bind_modify.
  match goal with |- context [(_ ≫= _) ?st] => set (s1 := st) end.
  assert (forall j slot, holds_slot a j slot (rx_slots_ s) -> slot_expired now slot = false ->
    holds_slot a j slot (rx_slots_ s1)) as H1.
  { intros j slot (Hj & Hs & Hu) He. unfold s1. simpl. split; [by rewrite list_lookup_fmap, Hj; simpl; rewrite He|].
    split; [done|]. intros i slot' Hi Hs'. rewrite list_lookup_fmap in Hi. apply fmap_Some in Hi as (slot0 & Hi & ->).
    apply (Hu i slot0 Hi). destruct (slot_expired now slot0); [|done]. simpl in Hs'. congruence. }
  match goal with |- handed_from a (effects_of ?o) = _ /\ _ => cut (spares_slot s1 o) end.
  { intros [He Hh]. split; [done|]. intros j slot Hj Hexp. apply Hh. by apply H1. }
  destruct (OpenSlot_other b (fr_is_can_fd frame) s1 Hf) as [Ho Hi].
  apply spares_bind; [done|]. intros [i|] Hres.
  - destruct (Hi i Hres) as (-> & slot & Hs & Hb). by apply (AcceptInSlot_other i b now _ slot).
  - destruct (negb (IsStartFrame _)); [by apply spares_slot_same|].
    destruct (AcquireRxSlot_other b (fr_is_can_fd frame) alloc (state_of (OpenSlot b (fr_is_can_fd frame) s1)) Hf) as [Hq Hqi].
    apply spares_bind; [done|]. intros [i|] Hres'; [|by apply spares_slot_same].
    destruct (Hqi i Hres') as (slot & Hs & Hb). by apply (AcceptInSlot_other i b now _ slot).
Qed.

(** ** The frames of [a] itself *)

Lemma holds_update j slot slot' slots :
  holds_slot a j slot slots -> slot_source slot' = a -> holds_slot a j slot' (<[j := slot']> slots).
Proof.
  intros (Hj & Hs & Hu) Hs'. split; [apply list_lookup_insert_eq; by apply lookup_lt_Some in Hj|]. split; [done|].
  intros k x Hk Hx. destruct (decide (k = j)) as [|Hkj]; [done|].
  rewrite list_lookup_insert_ne in Hk by done. by apply (Hu k x).
Qed.

Lemma holds_found j slot slots : holds_slot a j slot slots -> FindRxSlot a slots = Some j.
Proof.
  intros (Hj & Hs & Hu). destruct (FindRxSlot a slots) as [i|] eqn:Hf.
  - destruct (FindRxSlot_Some _ _ _ Hf) as (x & Hi & Hx). f_equal. by apply (Hu i x).
  - exfalso. unfold FindRxSlot in Hf. rewrite find_index_None in Hf. specialize (Hf slot).
    rewrite bool_decide_eq_true_2 in Hf by done. assert (slot ∈ slots) by (by eapply list_elem_of_lookup_2).
    by apply Hf in H0.
Qed.

Lemma AcceptInSlot_run j now data slot r result s :
  holds_slot a j slot (rx_slots_ s) -> Accept data now (slot_reassembler slot) = (r, result) ->
  match result with
  | IN_PROGRESS => exists s', AcceptInSlot j a now data s = (s', [], Ok tt) /\
      holds_slot a j (slot <| slot_reassembler := r |>) (rx_slots_ s')
  | COMPLETE => forall h, SmpHeader_Parse (received r) = Some h ->
      exists s', AcceptInSlot j a now data s = (s', addressee h (response_sink_ s) a (received r), Ok tt)
  | _ => True
  end.
Proof.
  intros Hh Hacc. pose proof Hh as (Hj & Hs & Hu). unfold AcceptInSlot. rewrite bind_get, Hj, Hacc.
  unfold SetSlot. rewrite bind_modify. destruct result; try done.
  - eexists. split; [done|]. simpl. by apply (holds_update j slot).
  - intros h Hp. unfold ReleaseAt. rewrite bind_modify. unfold Deliver, addressee. rewrite Hp.
    destruct (IsRequest h); [by eexists|]. rewrite bind_get. simpl.
    destruct (IsResponse h), (response_sink_ s); by eexists.
Qed.

Lemma OnFrame_own now alloc frame j slot s :
  is_from a frame = true -> IsValidAddress a = true -> holds_slot a j slot (rx_slots_ s) ->
  slot_expired now slot = false -> format_ (slot_reassembler slot) = fr_is_can_fd frame ->
  exists s1, OnFrame now alloc frame s = AcceptInSlot j a now (payload_span (fr_data frame)) s1 /\
    holds_slot a j slot (rx_slots_ s1) /\ response_sink_ s1 = response_sink_ s.
Proof.
  unfold is_from, OnFrame. intros [[Hx Hr%negb_true_iff]%andb_true_iff Hf%bool_decide_eq_true]%andb_true_iff Hv Hh He Hfmt.
  rewrite Hx, Hr, Hf, Hv. cbn [negb orb]. unfold ReleaseExpiredRxSlots. rewrite bind_modify.
  match goal with |- context [(_ ≫= _) ?st] => set (s1 := st) end. exists s1.
  assert (holds_slot a j slot (rx_slots_ s1)) as H1.
  { destruct Hh as (Hj & Hs & Hu). unfold s1. simpl.
    split; [by rewrite list_lookup_fmap, Hj; simpl; rewrite He|]. split; [done|]. intros i x Hi Hxs.
    rewrite list_lookup_fmap in Hi. apply fmap_Some in Hi as (slot0 & Hi & ->).
    apply (Hu i slot0 Hi). destruct (slot_expired now slot0); [|done]. simpl in Hxs. congruence. }
  split; [|by split]. unfold OpenSlot. rewrite bind_assoc, bind_get, (holds_found j slot) by done.
  rewrite (proj1 H1). simpl. rewrite bool_decide_eq_true_2 by congruence. by rewrite bind_ret.
Qed.

Lemma OnFrame_start now room frame s :
  is_from a frame = true -> IsValidAddress a = true ->
  (forall slot, slot ∈ rx_slots_ s -> slot_source slot <> a) ->
  (exists slot, slot ∈ rx_slots_ s /\ slot_source slot = 0) ->
  IsStartFrame (payload_span (fr_data frame)) = true ->
  exists j slot s1, OnFrame now (Some room) frame s = AcceptInSlot j a now (payload_span (fr_data frame)) s1 /\
    holds_slot a j slot (rx_slots_ s1) /\ response_sink_ s1 = response_sink_ s /\
    (exists r0, slot_reassembler slot = Attach room (fr_is_can_fd frame) r0 /\ r0 ∈ slot_reassembler <$> rx_slots_ s).
Proof.
  unfold is_from, OnFrame. intros [[Hx Hr%negb_true_iff]%andb_true_iff Hf%bool_decide_eq_true]%andb_true_iff Hv Hno Hfree Hst.
  rewrite Hx, Hr, Hf, Hv. cbn [negb orb]. unfold ReleaseExpiredRxSlots. rewrite bind_modify.
  match goal with |- context [(_ ≫= _) ?st] => set (s1 := st) end.
  assert (forall slot, slot ∈ rx_slots_ s1 -> slot_source slot <> a /\
    exists slot0, slot0 ∈ rx_slots_ s /\ (slot = slot0 \/ slot = ReleaseRxSlot slot0)) as H1.
  { intros slot Hin. unfold s1 in Hin. simpl in Hin. apply list_elem_of_fmap in Hin as (slot0 & -> & Hin).
    destruct (slot_expired now slot0); [|split; [by apply Hno|by exists slot0; auto]].
    split; [simpl; congruence|]. exists slot0. auto. }
  assert (exists slot', slot' ∈ rx_slots_ s1 /\ slot_source slot' = 0) as (slot' & Hin' & Hs').
  { destruct Hfree as (slot & Hin & Hs0). eexists. split; [unfold s1; simpl; apply list_elem_of_fmap_2, Hin|].
    by destruct (slot_expired now slot). }
  assert (response_sink_ s1 = response_sink_ s) as Hsink by done. clearbody s1.
  assert (FindRxSlot a (rx_slots_ s1) = None) as Hnone.
  { apply find_index_None. intros slot Hin. apply bool_decide_eq_false. by apply H1. }
  unfold OpenSlot. rewrite bind_assoc, bind_get, Hnone, bind_ret, Hst. cbn [negb].
  unfold AcquireRxSlot. rewrite bind_assoc, bind_get. destruct (FindRxSlot 0 (rx_slots_ s1)) as [j|] eqn:Hj.
  - destruct (FindRxSlot_Some _ _ _ Hj) as (slot & Hjs & Hs0). rewrite bind_assoc, bind_modify, bind_ret.
    eexists j, _, _. split; [done|]. split.
    + simpl. split; [rewrite list_lookup_alter_eq, Hjs; reflexivity|]. split; [done|]. intros i x Hi Hxs.
      destruct (decide (i = j)) as [|Hij]; [done|]. rewrite list_lookup_alter_ne in Hi by done.
      exfalso. eapply H1; [|exact Hxs]. by eapply list_elem_of_lookup_2.
    + split; [done|]. destruct (H1 slot) as (_ & slot0 & Hin & Hor); [by eapply list_elem_of_lookup_2|]. simpl.
      exists (slot_reassembler slot0). split; [by destruct Hor as [-> | ->]|]. by apply list_elem_of_fmap_2.
  - exfalso.
    unfold FindRxSlot in Hj. rewrite find_index_None in Hj. specialize (Hj slot' Hin').
    by rewrite bool_decide_eq_true_2 in Hj.
Qed.

End sources.

(** ** Frames as they arrive *)

(** A frame with its time and the room the packet pool has at that time. *)
Record RxEvent := mkEvent {
  ev_now : Z;
  ev_alloc : option (list Z);
  ev_frame : CanFrame;
}.
Definition ev_data (e : RxEvent) : list Z := payload_span (fr_data (ev_frame e)).
Definition events_from (a : Z) (l : list RxEvent) : list RxEvent := filter (fun e => is_from a (ev_frame e) = true) l.
Definition OnFrames `{SmpCanConfig} (l : list RxEvent) : TM unit :=
  for_each l (fun e => OnFrame (ev_now e) (ev_alloc e) (ev_frame e)).

Section interleaving.
Context `{SmpCanConfig} (a : Z) (Hv : IsValidAddress a = true).
Implicit Types (s : SmpCanTransport).

Lemma valid_nonzero : a <> 0.
Proof. intros ->. done. Qed.

Lemma OnFrames_cons e l s s1 e1 :
  OnFrame (ev_now e) (ev_alloc e) (ev_frame e) s = (s1, e1, Ok tt) ->
  handed_from a (effects_of (OnFrames (e :: l) s)) = handed_from a e1 ++ handed_from a (effects_of (OnFrames l s1)).
Proof.
  intros E. unfold OnFrames. cbn [for_each]. erewrite bind_ok by exact E. by rewrite effects_of_prepend, handed_from_app.
Qed.

(** [OnFrame] neither throws nor faults. *)
Lemma Deliver_ok b packet s : result_of (Deliver b packet s) = Ok tt.
Proof.
  unfold Deliver. destruct (SmpHeader_Parse packet) as [h|]; [|done]. destruct (IsRequest h); [done|].
  rewrite bind_get. by destruct (if IsResponse h then _ else _).
Qed.
Lemma AcceptInSlot_ok i b now data s : result_of (AcceptInSlot i b now data s) = Ok tt.
Proof.
  unfold AcceptInSlot. rewrite bind_get. destruct (rx_slots_ s !! i) as [slot|]; [|done].
  destruct (Accept data now (slot_reassembler slot)) as [r result]. unfold SetSlot. rewrite bind_modify.
  destruct result; try done. unfold ReleaseAt. rewrite bind_modify. apply Deliver_ok.
Qed.
Lemma OnFrame_ok now alloc frame s : result_of (OnFrame now alloc frame s) = Ok tt.
Proof.
  unfold OnFrame. destruct (_ || _); [done|]. destruct (negb _); [done|]. unfold ReleaseExpiredRxSlots. rewrite bind_modify.
  unfold OpenSlot. rewrite bind_assoc, bind_get.
  assert (forall s1, result_of ((if negb (IsStartFrame (payload_span (fr_data frame))) then mret tt else
    AcquireRxSlot (GetSource (fr_id frame)) (fr_is_can_fd frame) alloc ≫= fun slot : option nat =>
    match slot with None => DropRx | Some i => AcceptInSlot i (GetSource (fr_id frame)) now (payload_span (fr_data frame)) end) s1) = Ok tt) as Hacq.
  { intros s1. destruct (negb _); [done|]. unfold AcquireRxSlot. rewrite bind_assoc, bind_get.
    destruct (FindRxSlot 0 (rx_slots_ s1)) as [i|]; [|done]. destruct alloc as [room|]; [|done].
    rewrite bind_assoc, bind_modify, bind_ret. apply AcceptInSlot_ok. }
  destruct (FindRxSlot _ _) as [i|]; [|rewrite bind_ret; apply Hacq].
  destruct (bool_decide _); [rewrite bind_ret; apply AcceptInSlot_ok|].
  unfold DropRx, ReleaseAt. rewrite bind_assoc, bind_modify, bind_assoc, bind_modify, bind_ret. apply Hacq.
Qed.
Lemma OnFrame_split now alloc frame s :
  OnFrame now alloc frame s = (state_of (OnFrame now alloc frame s), effects_of (OnFrame now alloc frame s), Ok tt).
Proof. rewrite <- (OnFrame_ok now alloc frame s). by destruct (OnFrame now alloc frame s) as [[] ]. Qed.

Lemma DropRx_sink : keeps_sink DropRx.
Proof. done. Qed.
Lemma Deliver_sink b packet : keeps_sink (Deliver b packet).
Proof.
  unfold Deliver. destruct (SmpHeader_Parse packet) as [h|]; [|done]. destruct (IsRequest h); [done|].
  apply keeps_sink_bind; [done|]. intros s1 s. by destruct (if IsResponse h then _ else _).
Qed.
Lemma AcceptInSlot_sink i b now data : keeps_sink (AcceptInSlot i b now data).
Proof.
  unfold AcceptInSlot. apply keeps_sink_bind; [done|]. intros s1. destruct (rx_slots_ s1 !! i) as [slot|]; [|done].
  destruct (Accept data now (slot_reassembler slot)) as [r []]; repeat (apply keeps_sink_bind; [done|intros []]); try done.
  apply Deliver_sink.
Qed.
Lemma OnFrame_sink now alloc frame : keeps_sink (OnFrame now alloc frame).
Proof.
  unfold OnFrame. destruct (_ || _); [done|]. destruct (negb _); [done|].
  apply keeps_sink_bind; [done|]. intros _. apply keeps_sink_bind.
  - unfold OpenSlot. apply keeps_sink_bind; [done|]. intros s1. destruct (FindRxSlot _ _); [|done]. destruct (bool_decide _); [done|].
    repeat (apply keeps_sink_bind; [done|intros []]). done.
  - intros [i|]; [apply AcceptInSlot_sink|]. destruct (negb _); [done|]. apply keeps_sink_bind.
    + unfold AcquireRxSlot. apply keeps_sink_bind; [done|]. intros s1. by destruct (FindRxSlot _ _), alloc.
    + intros [i|]; [apply AcceptInSlot_sink|done].
Qed.

Lemma others_deliver_nothing l s : events_from a l = [] -> handed_from a (effects_of (OnFrames l s)) = [].
Proof.
  revert s. induction l as [|e l IH]; intros s Hl; [done|].
  unfold events_from in Hl. rewrite filter_cons in Hl. destruct (decide _) as [|Hne]; [done|].
  apply not_true_is_false in Hne. erewrite OnFrames_cons by apply OnFrame_split.
  destruct (OnFrame_other a valid_nonzero (ev_now e) (ev_alloc e) (ev_frame e) s Hne) as [-> _]. by apply IH.
Qed.

(** The rest of a packet in progress. *)
Lemma interleaved_rest packet h fs l j slot s :
  is_packet packet -> SmpHeader_Parse packet = Some h ->
  holds_slot a j slot (rx_slots_ s) -> partial fs (slot_reassembler slot) ->
  is_framing (format_ (slot_reassembler slot)) packet (fs ++ (ev_data <$> events_from a l)) -> events_from a l <> [] ->
  (length packet <= length (buffer_ (slot_reassembler slot)))%nat ->
  Forall (fun e => fr_is_can_fd (ev_frame e) = format_ (slot_reassembler slot)) (events_from a l) ->
  StronglySorted Z.le (ev_now <$> l) ->
  paced (timeout_ms_ (slot_reassembler slot)) (last_frame_ms_ (slot_reassembler slot)) (ev_now <$> events_from a l) ->
  handed_from a (effects_of (OnFrames l s)) = addressee h (response_sink_ s) a packet.
Proof.
  intros Hp Hparse. pose proof Hp as [Hsize _]%is_packet_size. revert fs slot s.
  induction l as [|e l IH]; intros fs slot s Hh Hpart Hfr Hne Hroom Hfmt Hsort Hpace; [done|].
  apply StronglySorted_inv in Hsort as [Hsort Hle]. unfold events_from in *. rewrite filter_cons in *.
  destruct (decide (is_from a (ev_frame e) = true)) as [Hf|Hf].
  - cbn [fmap list_fmap paced] in Hpace, Hfr. destruct Hpace as [Hnow Hpace].
    apply Forall_cons in Hfmt as [Hfmt Hfmts].
    destruct Hpart as (Hhold & Hnil & Hact & Hseq).
    destruct (Append_framing packet fs (ev_data e) (ev_data <$> filter (fun e => is_from a (ev_frame e) = true) l)
      (continued (ev_now e) (slot_reassembler slot)) Hfr Hsize Hroom) as (c & r & Ef & Hc & Efmt & Ebuf & Elast & Eto & Hrun);
      [by apply continued_holding|].
    assert (Accept (ev_data e) (ev_now e) (slot_reassembler slot) = Append c (continued (ev_now e) (slot_reassembler slot))) as Hacc.
    { rewrite Ef. apply Accept_next; try done; [by destruct fs|]. by apply not_expired. }
    destruct (OnFrame_own a valid_nonzero (ev_now e) (ev_alloc e) (ev_frame e) j slot s Hf Hv Hh) as (s1 & Hon & Hh1 & Hk1); [|done|].
    { unfold slot_expired. rewrite not_expired by done. apply andb_false_r. }
    destruct (filter _ l) as [|e2 l2] eqn:El; cbn [fmap list_fmap] in Hrun.
    + destruct Hrun as [Hrun Hrec]. rewrite Hrun in Hacc.
      pose proof (AcceptInSlot_run a j (ev_now e) (ev_data e) slot r COMPLETE s1 Hh1 Hacc) as Hdone. simpl in Hdone.
      rewrite Hrec in Hdone. destruct (Hdone h Hparse) as (s2 & Hs2).
      erewrite OnFrames_cons by (rewrite Hon; exact Hs2). rewrite others_deliver_nothing by exact El.
      by rewrite app_nil_r, handed_addressee, Hk1.
    + destruct Hrun as (Hrun & Hhold' & Hact' & Hseq'). rewrite Hrun in Hacc.
      pose proof (AcceptInSlot_run a j (ev_now e) (ev_data e) slot r IN_PROGRESS s1 Hh1 Hacc) as (s2 & Hs2 & Hh2).
      erewrite OnFrames_cons by (rewrite Hon; exact Hs2). cbn [handed_from filter list_filter app].
      pose proof (AcceptInSlot_sink j a (ev_now e) (ev_data e) s1) as Hk. rewrite Hs2, Hk1 in Hk. cbn [state_of fst] in Hk. rewrite <- Hk.
      apply (IH (fs ++ [ev_data e]) (slot <| slot_reassembler := r |>)); try done.
      * simpl. split; [done|]. split; [by destruct fs|]. split; [by rewrite Hact'|].
        rewrite Hseq', length_app. simpl. rewrite Hseq, Zplus_mod_idemp_l. f_equal. lia.
      * rewrite <- app_assoc. simpl. by rewrite Efmt.
      * simpl. by rewrite Ebuf.
      * simpl. by rewrite Efmt.
      * simpl. by rewrite Eto, Elast.
  - apply not_true_is_false in Hf.
    assert (slot_expired (ev_now e) slot = false) as Hexp.
    { unfold slot_expired. rewrite not_expired; [apply andb_false_r|].
      destruct (filter _ l) as [|e2 l2] eqn:El; [done|]. destruct Hpace as [Hnow _].
      assert (e2 ∈ l) as Hin by (apply (list_elem_of_filter (fun e => is_from a (ev_frame e) = true)); rewrite El; left).
      rewrite Forall_forall in Hle. specialize (Hle (ev_now e2) (list_elem_of_fmap_2 ev_now l e2 Hin)). lia. }
    destruct (OnFrame_other a valid_nonzero (ev_now e) (ev_alloc e) (ev_frame e) s Hf) as [Heff Hkeep].
    erewrite OnFrames_cons by apply OnFrame_split. rewrite Heff, <- (OnFrame_sink (ev_now e) (ev_alloc e) (ev_frame e) s).
    by apply (IH fs slot); [by apply Hkeep|..].
Qed.
End interleaving.

Lemma interleaved_packet `{SmpCanConfig} a packet h room e l s :
  IsValidAddress a = true -> is_packet packet -> SmpHeader_Parse packet = Some h ->
  (forall slot, slot ∈ rx_slots_ s -> slot_source slot <> a) ->
  (exists slot, slot ∈ rx_slots_ s /\ slot_source slot = 0) ->
  Forall (fun slot => timeout_ms_ (slot_reassembler slot) = RX_TIMEOUT_MS) (rx_slots_ s) ->
  is_from a (ev_frame e) = true -> ev_alloc e = Some room -> (length packet <= length room)%nat ->
  let fmt := fr_is_can_fd (ev_frame e) in
  Forall (fun e => fr_is_can_fd (ev_frame e) = fmt) (events_from a l) ->
  ev_data <$> events_from a (e :: l) = frames_of fmt packet ->
  StronglySorted Z.le (ev_now <$> l) -> paced RX_TIMEOUT_MS (ev_now e) (ev_now <$> events_from a l) ->
  handed_from a (effects_of (OnFrames (e :: l) s)) = addressee h (response_sink_ s) a packet.
Proof.
  intros Hv Hp Hparse Hno Hfree Hto Hf Halloc Hroom fmt Hfmt Hdata Hsort Hpace.
  pose proof Hp as [Hsize _]%is_packet_size. pose proof (frames_of_framing fmt packet) as Hfr. rewrite <- Hdata in Hfr.
  unfold events_from in Hfr, Hdata. rewrite filter_cons_True in Hfr, Hdata by done. cbn [fmap list_fmap] in Hfr.
  assert (IsStartFrame (ev_data e) = true) as Hst.
  { destruct Hfr as [_ Hfr]. by destruct (Hfr 0%nat (ev_data e) eq_refl) as (pad & -> & _). }
  destruct (OnFrame_start a (valid_nonzero a Hv) (ev_now e) room (ev_frame e) s Hf Hv Hno Hfree Hst)
    as (j & slot & s1 & Hon & Hh & Hk1 & r0 & Er & Hr0). rewrite <- Halloc in Hon.
  assert (timeout_ms_ r0 = RX_TIMEOUT_MS) as Ht0.
  { apply list_elem_of_fmap in Hr0 as (slot0 & -> & Hin). rewrite Forall_forall in Hto. by apply Hto. }
  set (r1 := slot_reassembler slot) in *. assert (format_ r1 = fmt /\ buffer_ r1 = room /\ timeout_ms_ r1 = RX_TIMEOUT_MS)
    as (E1 & E2 & E3) by (rewrite Er; done).
  destruct (Append_framing packet [] (ev_data e) (ev_data <$> events_from a l) (started (ev_now e) r1))
    as (c & r & Ef & Hc & Efmt & Ebuf & Elast & Eto & Hrun);
    [simpl; by rewrite E1|done|simpl; by rewrite E2|by apply started_holding|].
  assert (Accept (ev_data e) (ev_now e) r1 = Append c (started (ev_now e) r1)) as Hacc
    by (rewrite Ef; by apply Accept_first).
  destruct (events_from a l) as [|e2 l2] eqn:El; cbn [fmap list_fmap] in Hrun.
  - destruct Hrun as [Hrun Hrec]. rewrite Hrun in Hacc.
    pose proof (AcceptInSlot_run a j (ev_now e) (ev_data e) slot r COMPLETE s1 Hh Hacc) as Hdone. simpl in Hdone.
    rewrite Hrec in Hdone. destruct (Hdone h Hparse) as (s2 & Hs2).
    erewrite OnFrames_cons by (rewrite Hon; exact Hs2). rewrite others_deliver_nothing by done.
    by rewrite app_nil_r, handed_addressee, Hk1.
  - destruct Hrun as (Hrun & Hhold & Hact & Hseq). rewrite Hrun in Hacc.
    pose proof (AcceptInSlot_run a j (ev_now e) (ev_data e) slot r IN_PROGRESS s1 Hh Hacc) as (s2 & Hs2 & Hh2).
    erewrite OnFrames_cons by (rewrite Hon; exact Hs2). cbn [handed_from filter list_filter app].
    pose proof (AcceptInSlot_sink j a (ev_now e) (ev_data e) s1) as Hk. rewrite Hs2, Hk1 in Hk. cbn [state_of fst] in Hk. rewrite <- Hk.
    apply (interleaved_rest a Hv packet h [ev_data e] l j (slot <| slot_reassembler := r |>)); try done.
    + simpl. rewrite Efmt. change (format_ (started _ r1)) with (format_ r1). by rewrite E1.
    + by rewrite El.
    + simpl. by rewrite Ebuf; simpl; rewrite E2.
    + simpl. rewrite El, Efmt. simpl. by rewrite E1.
    + simpl. rewrite El, Eto, Elast. simpl. by rewrite E3.
Qed.

(** C32. Packets of several sources do not disturb each other: the frames of a packet of source [a], in order,
    each at most the timeout after the one before, are put together and handed on exactly once, as a packet of
    [a] - a request to the SMP server, a response to the response sink, when there is one, and to neither
    otherwise -, whatever frames of other sources, remote requests and standard frames come between and after
    them, and whatever packets those are part of; all it takes is a free slot and room for the packet when its
    first frame arrives. *)
Theorem packets_survive_interleaving `{SmpCanConfig} a packet h room e l s :
  IsValidAddress a = true -> is_packet packet -> SmpHeader_Parse packet = Some h ->
  (forall slot, slot ∈ rx_slots_ s -> slot_source slot <> a) ->
  (exists slot, slot ∈ rx_slots_ s /\ slot_source slot = 0) ->
  Forall (fun slot => timeout_ms_ (slot_reassembler slot) = RX_TIMEOUT_MS) (rx_slots_ s) ->
  is_from a (ev_frame e) = true -> ev_alloc e = Some room -> (length packet <= length room)%nat ->
  let fmt := fr_is_can_fd (ev_frame e) in
  Forall (fun e => fr_is_can_fd (ev_frame e) = fmt) (events_from a l) ->
  ev_data <$> events_from a (e :: l) = frames_of fmt packet ->
  StronglySorted Z.le (ev_now <$> l) -> paced RX_TIMEOUT_MS (ev_now e) (ev_now <$> events_from a l) ->
  handed_from a (effects_of (OnFrames (e :: l) s)) = addressee h (response_sink_ s) a packet.
Proof. apply interleaved_packet. Qed.

#[local] Instance default_smp_config : SmpCanConfig :=
  {| RX_SLOTS := 2; RX_TIMEOUT_MS := 100; TX_BURST_FRAMES := 8; cfg_slots := ltac:(lia); cfg_burst := ltac:(lia) |}.

(** Two sources at once: the three frames of unit 7 with two of unit 9 between them. *)
Definition smp_frame (source : Z) (data : list Z) : CanFrame :=
  mkFrame (MakeId DEFAULT_BASE 1 source) true false false false false (Assign data).
Definition mixed_events : list RxEvent :=
  let fs := frames_of false sample_packet in
  let room := Some (replicate 64 0) in
  [mkEvent 10 room (smp_frame 7 (fs !!! 0%nat)); mkEvent 11 room (smp_frame 9 (fs !!! 0%nat));
   mkEvent 12 None (smp_frame 7 (fs !!! 1%nat)); mkEvent 12 None (smp_frame 9 [1; 2]);
   mkEvent 60 None (smp_frame 7 (fs !!! 2%nat))].

Lemma packets_survive_interleaving_witness :
  handed_from 7 (effects_of (OnFrames mixed_events NewTransport)) = [SmpRequest 7 sample_packet].
Proof.
  unfold mixed_events. cbv zeta.
  destruct (SmpHeader_Parse sample_packet) as [h|] eqn:Hh; [|vm_compute in Hh; discriminate].
  etransitivity; [apply (packets_survive_interleaving 7 sample_packet h (replicate 64 0))|];
    [| | | | | | | | | | | | |vm_compute in Hh; injection Hh as <-; reflexivity].
  - reflexivity.
  - eexists. split; vm_compute; reflexivity.
  - exact Hh.
  - intros slot Hin. apply elem_of_replicate in Hin as [-> _]. discriminate.
  - exists FreeSlot. split; [left|reflexivity].
  - apply (bool_decide_eq_true_1 _). vm_compute. reflexivity.
  - vm_compute. reflexivity.
  - reflexivity.
  - vm_compute. lia.
  - apply (bool_decide_eq_true_1 _). vm_compute. reflexivity.
  - vm_compute. reflexivity.
  - repeat constructor; vm_compute; discriminate.
  - vm_compute. repeat split; discriminate.
Defined.
