(* ===== verification/SmpCanSend.v ===== *)
(** * SMP over CAN: what is sent, and from unit to unit

    Theorems on the sending side of [SmpCanTransport.v], and the path of a packet from one transport to
    another. *)

From S2P Require Import Prelude Can SmpCan SmpCanPacer SmpCanTransport.

(** ** The frames a transport still has to send *)

Definition frames_left (f : SmpCanFramer) : list (list Z) := frames_from (length (packet_ f)) f.

Definition addressed (layout address : Z) (p : SmpPacket) (f : list Z) : CanId * list Z :=
  (Extended (MakeId layout (peer p) address), f).

(** The packet being sent, from where it is, and then the queue in order. *)
Definition owed (fmt : SmpCanFrameFormat) (address : Z) (s : SmpCanTransport) : list (CanId * list Z) :=
  (match tx_packet_ s with
   | Some p => addressed (layout_ s) address p <$> frames_left (tx_framer_ s)
   | None => []
   end)
  ++ (tx_queue_ s ≫= fun p => addressed (layout_ s) address p <$> frames_of fmt (packet_data p)).

(** The frames the controller took. *)
Definition accepted (l : list SmpEffect) : list (CanId * list Z) :=
  omap (fun e => match e with SmpSendFrame i d r => if bool_decide (r = 0) then Some (i, d) else None | _ => None end) l.

Lemma accepted_app l1 l2 : accepted (l1 ++ l2) = accepted l1 ++ accepted l2.
Proof. apply omap_app. Qed.

(** A packet being sent is not done, and every packet has bytes. *)
Definition tx_wf (s : SmpCanTransport) : Prop :=
  (is_Some (tx_packet_ s) -> IsDone (tx_framer_ s) = false) /\
  Forall (fun p => packet_data p <> []) (tx_queue_ s).

(** ** The framer, one frame at a time *)

Definition bytes_left (f : SmpCanFramer) : nat := length (packet_ f) - offset_ f.

Lemma Advance_left f :
  IsDone f = false -> packet_ (Advance f) = packet_ f /\ framer_format_ (Advance f) = framer_format_ f /\
  (bytes_left (Advance f) < bytes_left f)%nat.
Proof.
  unfold IsDone, Advance, bytes_left. intros Hd. unfold IsDone. rewrite Hd.
  apply bool_decide_eq_false in Hd. simpl. split; [done|]. split; [done|].
  pose proof (data_size_pos (framer_format_ f)). lia.
Qed.

Lemma frames_from_done fuel f : IsDone f = true -> frames_from fuel f = [].
Proof. intros Hd. destruct fuel; [done|]. simpl. by rewrite Hd. Qed.

Lemma frames_from_fuel n m f : (bytes_left f <= n)%nat -> (bytes_left f <= m)%nat -> frames_from n f = frames_from m f.
Proof.
  revert m f. induction n as [|n IH]; intros m f Hn Hm.
  - symmetry. apply frames_from_done. unfold IsDone. apply bool_decide_eq_true. unfold bytes_left in Hn. lia.
  - destruct (IsDone f) eqn:Hd; [by rewrite !frames_from_done|].
    destruct (Advance_left f Hd) as (_ & _ & Hlt). destruct m as [|m]; [lia|]. cbn [frames_from]. rewrite Hd.
    f_equal. apply IH; lia.
Qed.

Lemma frames_left_cons f : IsDone f = false -> frames_left f = Encode f :: frames_left (Advance f).
Proof.
  intros Hd. unfold frames_left. destruct (Advance_left f Hd) as (Ep & _ & Hlt). rewrite Ep.
  assert (bytes_left f <= length (packet_ f))%nat by (unfold bytes_left; lia).
  rewrite (frames_from_fuel _ (S (length (packet_ f))) f) by lia. cbn [frames_from]. by rewrite Hd.
Qed.

Section sending.
Context `{SmpCanConfig} (fmt : SmpCanFrameFormat) (address : Z).
Implicit Types (s : SmpCanTransport).

(** ** One round *)

(** Fetching a packet changes nothing of what is owed. *)
Lemma NextTxPacket_run s :
  tx_wf s ->
  (NextTxPacket fmt s = (s, [], Ok None) /\ tx_packet_ s = None /\ tx_queue_ s = []) \/
  exists p s1, NextTxPacket fmt s = (s1, [], Ok (Some p)) /\ tx_packet_ s1 = Some p /\ tx_wf s1 /\
    owed fmt address s1 = owed fmt address s /\ tx_work s1 = tx_work s /\ layout_ s1 = layout_ s /\
    pacer_ s1 = pacer_ s /\ tx_dropped_ s1 = tx_dropped_ s /\ address_ s1 = address_ s.
Proof.
  intros [Hd Hq]. unfold NextTxPacket. rewrite bind_get. destruct (tx_packet_ s) as [p|] eqn:Ep.
  - right. exists p, s. repeat split; try done. rewrite Ep. done.
  - destruct (tx_queue_ s) as [|p q] eqn:Eq; [by left|]. right. rewrite bind_modify.
    apply Forall_cons in Hq as [Hp Hq].
    eexists p, _. split; [done|]. split; [done|]. split.
    { split; [|done]. intros _. unfold IsDone. simpl. apply bool_decide_eq_false. destruct (packet_data p); [done|simpl; lia]. }
    split; [|split; [|done]].
    + unfold owed. simpl. rewrite Ep, Eq. done.
    + unfold tx_work. simpl. rewrite Ep, Eq. simpl. lia.
Qed.

(** A frame that is owed first, and the state that owes the rest. *)
Lemma owed_cons s p :
  tx_packet_ s = Some p -> IsDone (tx_framer_ s) = false ->
  owed fmt address s = addressed (layout_ s) address p (Encode (tx_framer_ s))
    :: (addressed (layout_ s) address p <$> frames_left (Advance (tx_framer_ s)))
       ++ (tx_queue_ s ≫= fun p => addressed (layout_ s) address p <$> frames_of fmt (packet_data p)).
Proof. intros Ep Hd. unfold owed. by rewrite Ep, (frames_left_cons _ Hd). Qed.

(** One round returns, or goes on with less work; a frame the controller took was the first one owed, and
    only a failed send gives up what its packet still owed. *)
Lemma TxStep_run result s :
  tx_wf s ->
  exists s1 e round, TxStep fmt address result s = (s1, e, Ok round) /\ tx_wf s1 /\ layout_ s1 = layout_ s /\
    address_ s1 = address_ s /\
    (round = TxReturn None -> owed fmt address s1 = []) /\
    (round = TxAgain -> (tx_work s1 < tx_work s)%nat) /\
    (accepted e ++ owed fmt address s1) `sublist_of` owed fmt address s /\
    (result = 0 \/ result = - EAGAIN ->
      owed fmt address s = accepted e ++ owed fmt address s1 /\ tx_dropped_ s1 = tx_dropped_ s).
Proof.
  intros Hw. unfold TxStep.
  destruct (NextTxPacket_run s Hw) as [(Hn & Ep & Eq)|(p & s0 & Hn & Ep & Hw0 & Eo & Ework & El & Epc & Edr & Ead)].
  - erewrite bind_ok by exact Hn. rewrite prepend_nil. eexists _, _, _. split; [done|]. repeat split; try done; try apply Hw.
    by unfold owed; rewrite Ep, Eq.
  - erewrite bind_ok by exact Hn. rewrite prepend_nil, bind_get. rewrite <- Eo, <- Ework, <- El, <- Edr, <- Ead.
    pose proof (proj1 Hw0 ltac:(by rewrite Ep)) as Hd.
    pose proof (owed_cons s0 p Ep Hd) as Hcons.
    destruct (negb (CanSend (pacer_ s0))).
    { eexists _, _, _. split; [done|]. by repeat split; try apply Hw0. }
    rewrite bind_emit. destruct (bool_decide_reflect (result = - EAGAIN)) as [Ea|Ea].
    { eexists _, _, _. split; [done|]. rewrite Ea. repeat split; try done; try apply Hw0. }
    destruct (bool_decide_reflect (result = 0)) as [E0|E0]; cbn [negb].
    + rewrite bind_modify. destruct (Advance_left _ Hd) as (Epk & Ef & Hlt). rewrite bind_modify, E0.
      set (s1 := s0 <| pacer_ ::= OnSent |> <| tx_framer_ ::= Advance |>).
      assert (owed fmt address s0 = addressed (layout_ s0) address p (Encode (tx_framer_ s0)) ::
        owed fmt address (if IsDone (tx_framer_ s1) then s1 <| tx_packet_ := None |> else s1)) as Eowed.
      { rewrite Hcons. f_equal. change (tx_framer_ s1) with (Advance (tx_framer_ s0)).
        destruct (IsDone (Advance (tx_framer_ s0))) eqn:Hd1; unfold owed; simpl; [|by rewrite Ep].
        unfold frames_left. by rewrite frames_from_done. }
      exists (if IsDone (tx_framer_ s1) then s1 <| tx_packet_ := None |> else s1),
        [SmpSendFrame (Extended (MakeId (layout_ s0) (peer p) address)) (Encode (tx_framer_ s0)) 0], TxAgain.
      split; [done|].
      assert (accepted [SmpSendFrame (Extended (MakeId (layout_ s0) (peer p) address)) (Encode (tx_framer_ s0)) 0]
        = [addressed (layout_ s0) address p (Encode (tx_framer_ s0))]) as Eacc by done.
      cbn [app]. rewrite Eacc. cbn [app]. split_and!.
      * destruct (IsDone (tx_framer_ s1)) eqn:Hd1; (split; [|apply Hw0]); [by intros [? [=]]|done].
      * destruct (IsDone (tx_framer_ s1)); reflexivity.
      * destruct (IsDone (tx_framer_ s1)); reflexivity.
      * done.
      * intros _. unfold tx_work. destruct (IsDone (tx_framer_ s1)); simpl; rewrite Ep; [lia|].
        unfold bytes_left in Hlt. lia.
      * by rewrite Eowed.
      * intros _. split; [done|]. destruct (IsDone (tx_framer_ s1)); reflexivity.
    + rewrite bind_modify. unfold CountTxDropped. rewrite bind_modify.
      eexists _, [SmpSendFrame (Extended (MakeId (layout_ s0) (peer p) address)) (Encode (tx_framer_ s0)) result], TxAgain.
      split; [done|].
      assert (accepted [SmpSendFrame (Extended (MakeId (layout_ s0) (peer p) address)) (Encode (tx_framer_ s0)) result]
        = []) as Eacc by (simpl; by rewrite bool_decide_eq_false_2).
      cbn [app]. rewrite Eacc. cbn [app]. split_and!.
      * split; [by intros [? [=]]|apply Hw0].
      * done.
      * done.
      * done.
      * intros _. unfold tx_work. simpl. rewrite Ep. lia.
      * unfold owed. simpl. rewrite Ep. by apply sublist_inserts_l.
      * by intros [|].
Qed.

(** The loop ends with the fuel [ProcessTx] gives it. *)
Lemma TxLoop_run send fuel n s :
  tx_wf s -> (tx_work s < fuel)%nat ->
  exists s1 e r, TxLoop fuel fmt address send n s = (s1, e, Ok (Some r)) /\ tx_wf s1 /\ layout_ s1 = layout_ s /\
    address_ s1 = address_ s /\ (r = None -> owed fmt address s1 = []) /\
    (accepted e ++ owed fmt address s1) `sublist_of` owed fmt address s /\
    ((forall n, send n = 0 \/ send n = - EAGAIN) ->
      owed fmt address s = accepted e ++ owed fmt address s1 /\ tx_dropped_ s1 = tx_dropped_ s).
Proof.
  revert n s. induction fuel as [|fuel IH]; intros n s Hw Hf; [lia|]. cbn [TxLoop].
  destruct (TxStep_run (send n) s Hw) as (s1 & e & round & Hrun & Hw1 & El & Ead & Hidle & Hwork & Hsub & Hok).
  erewrite bind_ok by exact Hrun. destruct round as [r|].
  - exists s1, e, r. unfold prepend. simpl. rewrite app_nil_r. split; [done|]. split; [done|]. split; [done|]. split; [done|].
    split; [by intros ->; apply Hidle|]. split; [done|]. intros Hs. by apply Hok.
  - destruct (IH (S n) s1 Hw1) as (s2 & e2 & r & Hrun2 & Hw2 & El2 & Ead2 & Hidle2 & Hsub2 & Hok2); [specialize (Hwork eq_refl); lia|].
    rewrite Hrun2. exists s2, (e ++ e2), r. split; [done|]. split; [done|]. split; [congruence|]. split; [congruence|].
    split; [done|]. rewrite accepted_app, <- app_assoc. split.
    + etrans; [|exact Hsub]. by apply sublist_app.
    + intros Hs. destruct (Hok (Hs n)) as [-> Hd]. destruct (Hok2 Hs) as [-> Hd2]. split; [done|congruence].
Qed.
End sending.

(** A transport bound to an address, on a bus whose bitrate is known. *)
Record bus_ready (env : SmpEnv) (s : SmpCanTransport) (config : BusConfig) : Prop := mkReady {
  rdy_address : address_ s <> 0;
  rdy_proxy : canbus_ s = true;
  rdy_bus : snd <$> canbus_get env = Some config;
  rdy_time : GetFrameTimeNs (bus_is_can_fd config) (bus_bitrate config) (bus_data_bitrate config) <> 0;
  rdy_share : 1 <= bus_share_percent_ s <= 100;
}.

Lemma ProcessTx_run `{SmpCanConfig} env config send s :
  tx_wf s -> bus_ready env s config ->
  let fmt := bus_is_can_fd config in
  exists s1 e r, ProcessTx env send s = (s1, e, Ok (Some r)) /\ tx_wf s1 /\ layout_ s1 = layout_ s /\
    address_ s1 = address_ s /\ (r = None -> owed fmt (address_ s) s1 = []) /\
    (accepted e ++ owed fmt (address_ s) s1) `sublist_of` owed fmt (address_ s) s /\
    ((forall n, send n = 0 \/ send n = - EAGAIN) ->
      owed fmt (address_ s) s = accepted e ++ owed fmt (address_ s) s1 /\ tx_dropped_ s1 = tx_dropped_ s).
Proof.
  intros Hw [Ha Hp Hb Ht Hshare] fmt. unfold ProcessTx. rewrite bind_get, Hp.
  rewrite (bool_decide_eq_false_2 (address_ s = 0)) by done. cbn [negb andb].
  destruct (canbus_get env) as [[i c]|]; [|done]. simpl in Hb. injection Hb as ->. fold fmt.
  rewrite (bool_decide_eq_false_2 (_ = 0)) by done.
  assert (forall s1 : SmpCanTransport, tx_wf s1 -> layout_ s1 = layout_ s -> address_ s1 = address_ s ->
    owed fmt (address_ s) s1 = owed fmt (address_ s) s -> tx_dropped_ s1 = tx_dropped_ s ->
    exists s2 e r, (modify (fun s => s <| pacer_ ::= Update (uptime_us env) |>) ;;
        t ← get; TxLoop (S (tx_work t)) fmt (address_ s) send 0) s1
      = (s2, e, Ok (Some r)) /\ tx_wf s2 /\ layout_ s2 = layout_ s /\
    address_ s2 = address_ s /\ (r = None -> owed fmt (address_ s) s2 = []) /\
    (accepted e ++ owed fmt (address_ s) s2) `sublist_of` owed fmt (address_ s) s /\
    ((forall n, send n = 0 \/ send n = - EAGAIN) ->
      owed fmt (address_ s) s = accepted e ++ owed fmt (address_ s) s2 /\ tx_dropped_ s2 = tx_dropped_ s)) as Hloop.
  { intros s1 Hw1 El Ead Eo Ed. rewrite bind_modify, bind_get.
    destruct (TxLoop_run fmt (address_ s) send
      (S (tx_work (s1 <| pacer_ ::= Update (uptime_us env) |>))) 0 (s1 <| pacer_ ::= Update (uptime_us env) |>))
      as (s2 & e & r & Hrun & Hw2 & El2 & Ead2 & Hidle & Hsub & Hok); [done|lia|].
    simpl in Hw2, El2, Ead2, Hok.
    exists s2, e, r. split; [exact Hrun|]. split; [done|]. split; [congruence|]. split; [congruence|]. split; [done|].
    rewrite <- Eo, <- Ed. by split. }
  destruct (bool_decide_reflect (GetFrameTimeNs fmt (bus_bitrate config) (bus_data_bitrate config) = pacer_frame_time_ns_ s)) as [Et|Et]; cbn [negb].
  - rewrite bind_ret. destruct (Hloop s) as (s2 & e & r & Hrun & Hrest); try done. by exists s2, e, r.
  - assert (exists p, NewPacer (GetFrameTimeNs fmt (bus_bitrate config) (bus_data_bitrate config)) (bus_share_percent_ s)
      TX_BURST_FRAMES = Ok p) as [p Hpacer].
    { unfold NewPacer. pose proof cfg_burst. rewrite !bool_decide_eq_false_2 by (done || lia). by eexists. }
    rewrite Hpacer, bind_assoc, bind_lift_ok, bind_modify.
    edestruct Hloop as (s2 & e & r & Hrun & Hrest); [..|exists s2, e, r; split; [exact Hrun|exact Hrest]]; done.
Qed.

(** What sending leaves alone. *)
Definition binding (s : SmpCanTransport) : Z * Z * bool * Z := (layout_ s, address_ s, canbus_ s, bus_share_percent_ s).

Section keeps.
Context `{SmpCanConfig}.
#[local] Abbreviation kept m := (respects (keeps binding) m).

Lemma TxStep_binding fmt address result : kept (TxStep fmt address result).
Proof.
  unfold TxStep, NextTxPacket, CountTxDropped. respect. unfold keeps. by destruct (IsDone _).
Qed.
#[local] Hint Resolve TxStep_binding : respects.
Lemma TxLoop_binding fmt address send fuel n : kept (TxLoop fuel fmt address send n).
Proof. revert n. induction fuel as [|fuel IH]; intros n; cbn [TxLoop]; respect. Qed.
#[local] Hint Resolve TxLoop_binding : respects.
Lemma ProcessTx_binding env send : kept (ProcessTx env send).
Proof. unfold ProcessTx, DropTx, CountTxDropped. respect. Qed.
End keeps.

(** C33. Sending is a queue: a run of the TX task on a bus that is up ends, with the time of its next run; what
    the controller took, followed by what is still owed, is what was owed before, frame by frame and packet by
    packet in order, with nothing lost, repeated or reordered and no packet counted as dropped, as long as the
    controller only takes frames or asks for a retry; when any send may fail, frames are given up but never
    repeated or reordered.  A run that asks for no next run leaves nothing owed. *)
Theorem sending_is_a_queue `{SmpCanConfig} env config send s :
  tx_wf s -> bus_ready env s config ->
  let owed := owed (bus_is_can_fd config) (address_ s) in
  exists s1 e next, ProcessTx env send s = (s1, e, Ok (Some next)) /\ tx_wf s1 /\
    (next = None -> owed s1 = []) /\
    (accepted e ++ owed s1) `sublist_of` owed s /\
    ((forall n, send n = 0 \/ send n = - EAGAIN) -> owed s = accepted e ++ owed s1 /\ tx_dropped_ s1 = tx_dropped_ s).
Proof.
  intros Hw Hr o. destruct (ProcessTx_run env config send s Hw Hr) as (s1 & e & r & Hrun & Hw1 & _ & _ & Hrest).
  by exists s1, e, r.
Qed.

(** ** From unit to unit *)

(** Runs of the TX task, one after the other. *)
Definition ProcessTxs `{SmpCanConfig} (l : list (SmpEnv * (nat -> Z))) : TM unit :=
  for_each l (fun p => ProcessTx p.1 p.2 ;; mret tt).

Lemma ProcessTxs_owed `{SmpCanConfig} config l s :
  tx_wf s -> Forall (fun p : SmpEnv * (nat -> Z) => bus_ready p.1 s config /\ forall n, p.2 n = 0 \/ p.2 n = - EAGAIN) l ->
  owed (bus_is_can_fd config) (address_ s) s =
    accepted (effects_of (ProcessTxs l s)) ++ owed (bus_is_can_fd config) (address_ s) (state_of (ProcessTxs l s)).
Proof.
  revert s. induction l as [|[env send] l IH]; intros s Hw Hl; [done|].
  apply Forall_cons in Hl as [[Hr Hs] Hl]. cbn [fst snd] in Hr, Hs.
  destruct (ProcessTx_run env config send s Hw Hr) as (s1 & e & r & Hrun & Hw1 & _ & Ead & _ & _ & Hok).
  destruct (Hok Hs) as [-> _]. unfold ProcessTxs. cbn [for_each fst snd].
  erewrite bind_ok by (erewrite bind_ok by exact Hrun; reflexivity).
  rewrite effects_of_prepend, state_of_prepend, accepted_app. cbn [prepend]. rewrite app_nil_r, <- app_assoc. f_equal.
  rewrite <- Ead. apply (IH s1); [done|].
  pose proof (ProcessTx_binding env send s) as Hb. rewrite Hrun in Hb. injection Hb as El Ea Ec Esh.
  eapply Forall_impl; [exact Hl|]. intros p [[H1 H2 H3 H4 H5] Hp]. split; [|done].
  cbn [state_of fst] in *. by split; rewrite ?Ea, ?Ec, ?Esh.
Qed.

Lemma GetSource_MakeId base target source :
  IsValidBase base = true -> is_u8 target -> is_u8 source -> GetSource (MakeId base target source) = source.
Proof.
  intros [_ Hb%bool_decide_eq_true]%andb_true_iff Ht Hs. unfold GetSource, MakeId, u8.
  change 256 with (2 ^ 8). rewrite <- Z.land_ones by lia. rewrite !Z.land_lor_distr_l.
  assert (Z.land base (Z.ones 8) = 0) as ->.
  { change (Z.ones 8) with (Z.land ADDRESS_MASK (Z.ones 8)). by rewrite Z.land_assoc, Hb. }
  assert (Z.land (u32 (Z.shiftl target 8)) (Z.ones 8) = 0) as ->.
  { assert (Forall (fun t => Z.land (u32 (Z.shiftl t 8)) (Z.ones 8) = 0) (seqZ 0 256)) as Hall
      by (apply (bool_decide_eq_true_1 _); vm_compute; reflexivity).
    rewrite Forall_forall in Hall. apply Hall, elem_of_seqZ. unfold is_u8 in Ht. lia. }
  rewrite !Z.lor_0_l, Z.land_ones by lia. apply Z.mod_small. unfold is_u8 in Hs. lia.
Qed.

(** The frame a receiver gets for one that was sent. *)
Definition on_wire (fmt : SmpCanFrameFormat) (f : CanId * list Z) : CanFrame :=
  mkFrame (can_id f.1) (can_is_extended f.1) false fmt false false (Assign f.2).

Lemma payload_span_short bytes : (length bytes <= 64)%nat -> payload_span (Assign bytes) = bytes.
Proof. intros Hl. rewrite Assign_span. by apply take_ge. Qed.

Lemma frames_of_lengths fmt packet f : f ∈ frames_of fmt packet -> (length f <= 64)%nat.
Proof.
  intros [i Hi]%list_elem_of_lookup. destruct (frames_of_framing fmt packet) as [_ Hf].
  destruct (Hf i f Hi) as (pad & _ & ->). rewrite chunk_length. pose proof (data_size_pos fmt).
  etrans; [apply padded_le; lia|]. destruct fmt; vm_compute; lia.
Qed.

Definition idle (s : SmpCanTransport) : Prop := tx_packet_ s = None /\ tx_queue_ s = [].

Lemma Forward_run `{SmpCanConfig} target packet s :
  idle s -> packet <> [] -> address_ s <> 0 -> tx_task_ s = true -> IsValidAddress target = true -> target <> address_ s ->
  exists s1, Forward target (Some packet) s = (s1, [SmpScheduleTx], Ok true) /\ tx_wf s1 /\ binding s1 = binding s /\
    forall fmt, owed fmt (address_ s1) s1 =
      (fun f : list Z => addressed (layout_ s) (address_ s) (mkPacket target packet) f) <$> frames_of fmt packet.
Proof.
  intros [Ep Eq] Hne Ha Ht Hv Hother. unfold Forward, Enqueue. rewrite bind_get, Hv, Ht.
  rewrite (bool_decide_eq_false_2 (length packet = 0%nat)) by (destruct packet; [done|discriminate]).
  rewrite (bool_decide_eq_false_2 (address_ s = 0)), (bool_decide_eq_false_2 (target = address_ s)) by done.
  cbn [negb orb]. rewrite bind_modify, bind_emit.
  eexists. split; [done|]. split; [|split; [done|]].
  - split; simpl; [rewrite Ep; by intros [? [=]]|]. rewrite Eq. simpl. by repeat constructor.
  - intros fmt. unfold owed. simpl. rewrite Ep, Eq. simpl. by rewrite app_nil_r.
Qed.

(** C31. A packet crosses the bus: a request forwarded by an idle unit to another, sent by any number of runs of
    the TX task at any times (the controller may ask for retries) until nothing is left, arrives at the
    receiver as those frames among any frames of other units, none of them later than the timeout after the
    one before; the receiver then hands exactly that request, as one of the sender, to its SMP server. *)
Theorem request_crosses_the_bus `{SmpCanConfig} config target packet h a runs b room e l :
  let fmt := bus_is_can_fd config in
  is_packet packet -> SmpHeader_Parse packet = Some h -> IsRequest h = true ->
  idle a -> tx_task_ a = true -> is_u8 (address_ a) -> IsValidAddress (address_ a) = true -> IsValidBase (layout_ a) = true ->
  is_u8 target -> IsValidAddress target = true -> target <> address_ a ->
  let a1 := state_of (Forward target (Some packet) a) in
  let sent := ProcessTxs runs a1 in
  Forall (fun p : SmpEnv * (nat -> Z) => bus_ready p.1 a1 config /\ forall n, p.2 n = 0 \/ p.2 n = - EAGAIN) runs ->
  owed fmt (address_ a) (state_of sent) = [] ->
  (forall slot, slot ∈ rx_slots_ b -> slot_source slot <> address_ a) ->
  (exists slot, slot ∈ rx_slots_ b /\ slot_source slot = 0) ->
  Forall (fun slot => timeout_ms_ (slot_reassembler slot) = RX_TIMEOUT_MS) (rx_slots_ b) ->
  ev_frame <$> events_from (address_ a) (e :: l) = on_wire fmt <$> accepted (effects_of sent) ->
  is_from (address_ a) (ev_frame e) = true -> ev_alloc e = Some room -> (length packet <= length room)%nat ->
  StronglySorted Z.le (ev_now <$> l) -> paced RX_TIMEOUT_MS (ev_now e) (ev_now <$> events_from (address_ a) l) ->
  handed_from (address_ a) (effects_of (OnFrames (e :: l) b)) = [SmpRequest (address_ a) packet].
Proof.
  intros fmt Hp Hparse Hreq Hidle Htask Ha8 Hva Hbase Ht8 Hvt Hne a1 sent Hruns Hdone Hno Hfree Hto Hwire Hfrom Halloc Hroom Hsort Hpace.
  assert (address_ a <> 0) as Ha0 by (intros E; rewrite E in Hva; done).
  assert (packet <> []) as Hpne by (by intros ->; destruct Hp as (? & ? & ?)).
  destruct (Forward_run target packet a Hidle Hpne Ha0 Htask Hvt Hne) as (a2 & Hfwd & Hw & Hbind & Howed).
  assert (a1 = a2) as E1 by (unfold a1; by rewrite Hfwd). subst sent. rewrite E1 in *. clear a1 E1 Hfwd.
  assert (address_ a2 = address_ a) as Ead by (by injection Hbind).
  pose proof (ProcessTxs_owed config runs a2 Hw Hruns) as Hsent. rewrite Ead in Hsent. fold fmt in Hsent.
  assert (owed fmt (address_ a) a2 = (fun f : list Z => addressed (layout_ a) (address_ a) (mkPacket target packet) f)
    <$> frames_of fmt packet) as Ho by (rewrite <- Ead at 1; apply Howed).
  rewrite Ho in Hsent. rewrite Hdone, app_nil_r in Hsent.
  rewrite <- Hsent in Hwire.
  assert (Forall (fun e => fr_is_can_fd (ev_frame e) = fmt) (events_from (address_ a) (e :: l))) as Hfmts.
  { assert (Forall (fun f => fr_is_can_fd f = fmt) (ev_frame <$> events_from (address_ a) (e :: l))) as Hall.
    { rewrite Hwire. apply Forall_fmap, Forall_fmap, Forall_true. done. }
    by apply Forall_fmap in Hall. }
  unfold events_from in Hfmts. rewrite filter_cons_True in Hfmts by done. apply Forall_cons in Hfmts as [Hfmt Hfmts].
  assert (addressee h (response_sink_ b) (address_ a) packet = [SmpRequest (address_ a) packet]) as <- by (unfold addressee; by rewrite Hreq).
  apply (interleaved_packet (address_ a) packet h room); try done; rewrite Hfmt; [done|].
  transitivity ((payload_span ∘ fr_data) <$> (ev_frame <$> events_from (address_ a) (e :: l))); [by rewrite <- list_fmap_compose|].
  rewrite Hwire, <- !list_fmap_compose. rewrite <- (list_fmap_id (frames_of fmt packet)) at 2.
  apply list_fmap_ext. intros i f Hf. simpl. apply payload_span_short.
  eapply frames_of_lengths, list_elem_of_lookup_2, Hf.
Qed.

(** ** A concrete exchange *)

#[local] Existing Instance default_smp_config.

Definition sample_bus : BusConfig := mkBusConfig false 500000 0.
Definition sample_env : SmpEnv := mkSmpEnv (Some (1, sample_bus)) 10 10000.
(** Unit 7, bound to its address. *)
Definition sender : SmpCanTransport :=
  NewTransport <| address_ := 7 |> <| handler_id_ := 1 |> <| bound_canbus_ := Some 1 |> <| canbus_ := true |> <| tx_task_ := true |>.
Definition sending_run : SmpEnv * (nat -> Z) := (sample_env, fun _ => 0).
Definition sending : SmpCanTransport * list SmpEffect * res (option (option Z)) :=
  ProcessTx sample_env (fun _ => 0) (state_of (Forward 1 (Some sample_packet) sender)).
Definition arrivals : list RxEvent :=
  (fun f => mkEvent 12 (Some (replicate 64 0)) (on_wire false f)) <$> accepted (effects_of sending).

Lemma sending_is_a_queue_witness :
  exists s1 e next, ProcessTx sample_env (fun _ => 0) (state_of (Forward 1 (Some sample_packet) sender)) = (s1, e, Ok (Some next)) /\
    owed false 7 (state_of (Forward 1 (Some sample_packet) sender)) = accepted e ++ owed false 7 s1.
Proof.
  destruct (sending_is_a_queue sample_env sample_bus (fun _ => 0) (state_of (Forward 1 (Some sample_packet) sender)))
    as (s1 & e & next & Hrun & _ & _ & _ & Hok);
    [| |exists s1, e, next; split; [exact Hrun|]; apply Hok; intros n; by left].
  - split; [intros [p E]; vm_compute in E; discriminate|]. repeat constructor. vm_compute. discriminate.
  - split; vm_compute; try reflexivity; try discriminate; split; discriminate.
Defined.

Lemma request_crosses_the_bus_witness :
  exists e l, arrivals = e :: l /\ handed_from 7 (effects_of (OnFrames (e :: l) NewTransport)) = [SmpRequest 7 sample_packet].
Proof.
  eexists _, _. split; [vm_compute; reflexivity|].
  eapply (request_crosses_the_bus sample_bus 1 sample_packet _ sender [sending_run] NewTransport (replicate 64 0)).
  - eexists. split; vm_compute; reflexivity.
  - vm_compute. reflexivity.
  - vm_compute. reflexivity.
  - split; reflexivity.
  - reflexivity.
  - vm_compute. split; [discriminate|reflexivity].
  - reflexivity.
  - vm_compute. reflexivity.
  - vm_compute. split; [discriminate|reflexivity].
  - reflexivity.
  - vm_compute. discriminate.
  - constructor; [|constructor]. split; [|intros n; by left].
    split; vm_compute; try reflexivity; try discriminate; split; discriminate.
  - vm_compute. reflexivity.
  - intros slot Hin. apply elem_of_replicate in Hin as [-> _]. discriminate.
  - exists FreeSlot. split; [left|reflexivity].
  - apply (bool_decide_eq_true_1 _). vm_compute. reflexivity.
  - vm_compute. reflexivity.
  - vm_compute. reflexivity.
  - vm_compute. reflexivity.
  - vm_compute. lia.
  - repeat constructor; vm_compute; discriminate.
  - vm_compute. repeat split; discriminate.
Defined.

(** ** Rebinding *)

(** C35. Rebinding to another address does not drop the queued sends: a transport that is bound and has packets
    to send keeps them all through [Bind], and the next run of the TX task sends them with the new address as
    their source. *)
Theorem rebinding_keeps_the_queue `{SmpCanConfig} env register address config send s :
  tx_wf s -> bus_ready env s config -> 0 <= handler_id_ s -> tx_task_ s = true ->
  IsValidAddress address = true -> address <> address_ s ->
  0 <= register (mkCanFilter (GetTargetFilterId (layout_ s) address) TARGET_FILTER_MASK true) ->
  (forall n, send n = 0 \/ send n = - EAGAIN) ->
  let bound := Bind env register address s in
  let sent := ProcessTx env send (state_of bound) in
  let owed := owed (bus_is_can_fd config) address in
  result_of bound = Ok true /\ address_ (state_of bound) = address /\
  owed s = accepted (effects_of sent) ++ owed (state_of sent) /\
  tx_dropped_ (state_of sent) = tx_dropped_ s.
Proof.
  intros Hw Hr Hh Ht Hv Hne Hreg Hs bound sent o.
  assert (exists s1 e, bound = (s1, e, Ok true) /\ address_ s1 = address /\ binding s1 = (layout_ s, address, canbus_ s, bus_share_percent_ s) /\
    tx_packet_ s1 = tx_packet_ s /\ tx_queue_ s1 = tx_queue_ s /\ tx_framer_ s1 = tx_framer_ s /\ tx_dropped_ s1 = tx_dropped_ s)
    as (s1 & e & Eb & Ea & Ebind & Ep & Eq & Ef & Ed).
  { destruct Hr as [Ha Hp Hb _ _]. unfold bound, Bind, UnbindLocked. rewrite bind_get, Hv, Ht. cbn [negb orb].
    rewrite (bool_decide_eq_false_2 (address_ s = address)) by done. rewrite bind_assoc, bind_get.
    rewrite (bool_decide_eq_false_2 (handler_id_ s < 0)), Hp, Ht by lia.
    destruct (canbus_get env) as [[i c]|] eqn:Eg; [|done]. cbn [andb when fmap option_fmap option_map fst].
    rewrite !bind_assoc, bind_modify, bind_assoc.
    destruct (bool_decide (Some i = bound_canbus_ s)); cbn [when];
      rewrite ?bind_emit, ?bind_ret, bind_assoc, bind_modify, bind_assoc, bind_emit, bind_emits, bind_emit;
      (rewrite bool_decide_eq_false_2 by lia); rewrite bind_modify; eexists _, _; (split; [reflexivity|]); repeat split; try done;
      unfold binding; simpl; by rewrite Hp. }
  assert (tx_wf s1) as Hw1 by (unfold tx_wf; by rewrite Ep, Eq, Ef).
  assert (bus_ready env s1 config) as Hr1.
  { destruct Hr as [Ha Hp Hb Htime Hshare]. injection Ebind as E1 E2 E3 E4. split; rewrite ?E2, ?E3, ?E4; try done.
    intros ->. done. }
  destruct (ProcessTx_run env config send s1 Hw1 Hr1) as (s2 & e2 & r & Hrun & _ & _ & _ & _ & _ & Hok).
  destruct (Hok Hs) as [Ho Hd]. unfold sent. rewrite Eb. unfold result_of, state_of, effects_of in *. cbn [fst snd] in *.
  rewrite Hrun. cbn [fst snd]. split; [done|]. split; [done|]. split; [|congruence].
  rewrite Ea in Ho. unfold o. rewrite <- Ho. unfold SmpCanSend.owed. injection Ebind as El _ _ _. by rewrite Ep, Eq, Ef, El.
Qed.

Lemma rebinding_keeps_the_queue_witness :
  let queued := state_of (Forward 1 (Some sample_packet) sender) in
  let bound := Bind sample_env (fun _ => 2) 9 queued in
  let sent := ProcessTx sample_env (fun _ => 0) (state_of bound) in
  length (accepted (effects_of sent)) = 3%nat /\
  owed false 9 queued = accepted (effects_of sent) ++ owed false 9 (state_of sent).
Proof.
  split; [vm_compute; reflexivity|].
  refine (proj1 (proj2 (proj2 (rebinding_keeps_the_queue sample_env (fun _ => 2) 9 sample_bus (fun _ => 0)
    (state_of (Forward 1 (Some sample_packet) sender)) _ _ _ _ _ _ _ _)))).
  - split; [intros [p E]; vm_compute in E; discriminate|]. repeat constructor. vm_compute. discriminate.
  - split; vm_compute; try reflexivity; try discriminate; split; discriminate.
  - vm_compute. discriminate.
  - reflexivity.
  - reflexivity.
  - vm_compute. discriminate.
  - lia.
  - intros n. by left.
Defined.
